(* ===== verification/_CoqProject ===== *)
-Q . S2P
Prelude.v
DList.v
KMsg.v
KState.v
KExpl.v
KIpenc.v
KQueue.v
KNetlink.v
KHook.v
Text.v
KProc.v
KConc.v
State.v
Params.v
Logic.v
Invariant.v
TimerQueue.v
Netlink.v
Socket.v
Wire.v
SeekList.v
RouteTable.v
Neighbor.v
Rrep.v
Rreq.v
Rerr.v
Hello.v
Timeouts.v
Discovery.v
Daemon.v
Typed.v
Sys.v
Startup.v
Shutdown.v
MainLoop.v
RingBuf.v
Log.v
Samples.v
Witnesses.v
Bridge.v
KSamples.v
SysWitnesses.v
