(* ===== verification/Prelude.v ===== *)
(** * A verification development for the AODV routing daemon and its kernel module

    The repository is an implementation of AODV, the on-demand distance vector
    routing protocol (RFC 3561), in two programs that talk over netlink:

    - the daemon (the C files at the top of [src/]), a single process whose
      [select] loop handles timers, AODV messages on a UDP socket and messages
      of the kernel module; it keeps the routing table;
    - the kernel module ([src/kaodv/src/]), a netfilter hook that sees every
      packet of the host. It keeps a cache of the routes the daemon has
      announced and a queue of the packets that wait for one, asks the daemon
      for missing routes and reports the use of the others.

    ** The daemon, file by file

    The state is one record [world] ([State.v]): the heap objects as finite
    maps from addresses, the intrusive lists as lists of addresses, the timer
    structures, the buffers, and the effects so far. The code is in the
    state-and-error monad [M]; [Err (Fault f)] is an undefined behaviour the
    model detects. What the program asks of the system ([gettimeofday],
    [malloc], socket calls) is read from the oracles of an [env].

    - [DList.v]: [list.c], [list.h] on a heap of nodes with two links each, and
      the proof that the operations implement lists;
    - [Params.v]: the constants of [defs.h], [parameters.h] and the headers;
    - [Logic.v], [Invariant.v]: weakest preconditions, the invariant [Inv] of
      the state and its proof rules;
    - [TimerQueue.v]: [timer_queue.c]; [Netlink.v]: the sending half of [nl.c];
      [Socket.v]: [aodv_socket.c], sending; [Wire.v]: the message layouts of
      [aodv_rreq.h], [aodv_rrep.h], [aodv_rerr.h] and the constructors;
    - [SeekList.v]: [seek_list.c]; [RouteTable.v]: [routing_table.c];
      [Neighbor.v]: [aodv_neighbor.c] and [rt_table_update];
    - [Rrep.v], [Rreq.v], [Rerr.v], [Hello.v]: the handlers of the messages
      ([aodv_rrep.c], [aodv_rreq.c], [aodv_rerr.c], [aodv_hello.c]);
    - [Timeouts.v]: [aodv_timeout.c]; [Discovery.v]: what replies and
      discovery timeouts do to routes and pending discoveries; [Daemon.v]:
      dispatch of packets and of the module's messages, start-up and the main
      loop ([aodv_socket.c], [nl.c], [main.c]);
    - [Typed.v]: the C types of the numbers in the state;
    - [Samples.v], [Witnesses.v]: a run of the daemon, and the properties
      applied in the state it reaches.

    The theorems. [daemon_safe] and [main_iteration_safe]: on every input and
    every behaviour of the system the daemon runs without a memory error (other
    than the overflow of the send buffer by a long RERR, [rerr_build_spec]) and
    keeps the invariant; [state_well_typed]: every number stays in the range of
    its C type; [no_rrep_ever_sent] is what start-up makes of the daemon. The
    [_spec] theorems of the routing table, of link breaks, route updates and
    message handlers give their effect on each branch ([rrep_process_spec]: when
    a reply wins over a route, and what it leaves of it); by
    [route_discovery_timeout_spec] a discovery that is not answered ends;
    [timer_add_sorted] and [timer_timeout_terminates] are about the timers,
    [ratelimit_window] about the rate limits, [rreq_roundtrip] about the wire
    format, [list_remove_refines] relates the linked lists to the lists of the
    model.

    ** The process around the daemon, file by file

    The record [sys] ([Sys.v]) adds to the [world] what the process has besides:
    descriptors, the callback table, the name of the interface, and the trace of
    the system calls with their results. The monad [Y] has calls, [exit] and
    faults; [lift] runs a function of the daemon in it. What a descriptor names
    and what an options file holds are read off the trace.

    - [Startup.v]: [main.c] up to the loop, the set-up of the sockets ([nl.c],
      [aodv_socket.c]) and of the log files ([debug.c]); [Shutdown.v]: the
      handler of [SIGINT];
    - [MainLoop.v]: the loop of [main] over its callback table, and the
      rtnetlink callback of [nl.c];
    - [Text.v]: strings, and the conversions of [sprintf]; [RingBuf.v]:
      [ip_to_str] and [print_ip]; [Log.v]: the other functions of [debug.c] with
      the text they make;
    - [SysWitnesses.v]: a process from its start to its end.

    The theorems. [main_start_spec]: whatever the system answers, start-up
    either comes to the loop with everything set or exits with -1;
    [main_loop_equiv]: a turn of the loop is a [main_iteration] of the daemon,
    so that by [process_refines_daemon] every state of the process is one of the
    daemon's; [signal_handler_spec]: what is left after the signal;
    [rcvbuf_loop_spec]: the loop that sets the receive buffer ends;
    [nl_rt_callback_ends] and [nl_rt_callback_overflow]: so does the one over the
    attributes of a kernel message, but it may write past an address.
    [print_rt_table_log_spec] (every route is in the log of the table once, and
    the array holds the text), [alog_spec], [log_pkt_fields_fit] and
    [ip_to_str_four] are about the log.

    ** The kernel module, file by file

    The state is one record [kworld] ([KState.v]). Inside a critical section
    the code is in the state monad [KM]; a function is a [prog], a sequence of
    critical sections and single actions. [run] executes a program alone, and
    [kstep] lets any thread of a pool take its next step. [Stuck] is an access
    outside a packet or message. Packets and datagrams are lists of bytes.

    - [KMsg.v]: the message format of [kaodv_netlink.h], shared with the daemon;
    - [KExpl.v]: the route cache ([kaodv_expl.c]); [KIpenc.v]: encapsulation
      ([kaodv_ipenc.c]); [KQueue.v]: the packet queue ([kaodv_queue.c]);
      [KNetlink.v]: the messages ([kaodv_netlink.c]); [KHook.v]: the hook, the
      interfaces, loading and unloading ([kaodv_mod.c], [kaodv_mod.h]);
    - [KProc.v]: the two files under [/proc], and the names of the messages;
    - [KConc.v]: hook, datagrams and socket events interleaved;
    - [Bridge.v]: the daemon and the module together;
    - [KSamples.v]: a state of the module, and the properties applied in it.

    The theorems. Each operation of the cache, the queue and the netlink
    interface has a specification on an abstract state: the cache as a finite
    map from destinations ([expl_map]), the queue as a list filtered by
    destination. [kaodv_hook_forward_spec], [kaodv_hook_local_out_spec] and
    [kaodv_hook_safe] give the verdicts; [kaodv_netlink_rcv_safe] says that no
    datagram can break the invariant [kinv]. [ip_pkt_encapsulate_spec] and
    [ip_pkt_roundtrip] are about the bytes of packets.
    [expl_proc_read_spec] and [queue_proc_read_spec] give the text of the files.
    [kmod_interleaving_safe], [one_announcer_no_duplicates] and
    [refresh_loses_announcement] say what every interleaving keeps, what holds
    because one process announces routes, and what an interleaving loses.
    [announced_route_arrives], [announced_route_releases],
    [withdrawn_route_disappears] and [missing_route_starts_discovery] go from a
    call of one program to its effect on the other.

    ** Bounds and fuel

    Integers have the width of the code's types on the two ILP32,
    little-endian targets: [u8], [u16], [u32], [s32] are written where C
    converts. Loops over a list recurse on it. The others have fuel:
    [timer_fire] runs with the length of the list of expired timers, which each
    turn shortens, [rerr_loop] with 256, more than its 8-bit counter can hold,
    [prefix_loop] with the 32 bits of a mask (no caller passes one); running
    out is the fault [OutOfFuel], which [daemon_safe] excludes. [queue_flush_loop] has the
    length of the queue plus one. The two loops of [kaodv_queue_set_verdict]
    have [verdict_fuel], one more than the queue can hold: enough for a
    verdict that runs alone, as the theorems about [run] show. In an
    interleaving a packet may be queued while a verdict runs; a verdict that
    takes 1025 packets stops there as [Stuck], and the theorems about
    interleavings, which are about what every step keeps, say nothing about
    its end.

    Of the process: [rcvbuf_loop] has 256, the number of kilobytes it starts
    with and takes away one by one; [rt_attrs] has 64, the four-byte units of the
    buffer it walks, of which each turn takes one at least;
    [find_wireless] has the number of interfaces, as in the code. The theorems
    about them show that none runs out. The reads of the [/proc] files take a
    number that need only be the length of the cache.

    ** Parameters

    Functions of the kernel the module calls and the repository does not
    contain are fields of [kenv]: the clock, the result of allocations and
    registrations, uninitialised memory, the devices, [ip_send_check] and
    [ip_select_ident]. The theorems that need it assume of [ip_send_check]
    that it only rewrites the two bytes of the checksum, whatever they held
    ([send_check_ok]). [seq_list_start] and [seq_list_next], which walk a list for
    a [/proc] file, are arguments, with what the kernel documents of them
    ([seq_list_ok]).

    The system under the process is a [senv]: the result of each call, which
    may depend on all the calls before, what an [ioctl] stores, the names of the
    interfaces, and uninitialised memory. The theorems about start-up and
    shutdown assume that a new descriptor is one that is not in use
    ([fresh_fds]). [localtime] and [strerror] are arguments of the log.

    ** Not modelled

    A signal that arrives inside a turn of the loop, between two statements
    ([main_loop_body] is one step to the handler); [FD_SETSIZE]; the messages
    that the code logs, and the system calls that write them ([alog] and
    [print_rt_table_log] give the text); [printk]; the code under [EXPL_TIMER],
    which is not defined; [print_eth]. A critical section is one step:
    spin locks are taken to exclude each other, and the reads and writes of
    [peer_pid] and [active_route_timeout] outside locks to be atomic; a read of a
    [/proc] file, which takes no lock, runs alone. A kernel allocation that fails
    inside [nlmsg_new] loses the message, as in the code; a message that is sent
    is delivered. *)

From stdpp Require Export base tactics numbers list gmap.
From Stdlib Require Export ZArith Lia Sorted.

(** ** Notation scope *)

Declare Scope c_scope.
Delimit Scope c_scope with C.
#[global] Open Scope c_scope.
#[global] Open Scope Z_scope.

(** Functional record update: [r <| f := v |>] replaces the field [f] of the
    record [r]; every record of the model has one instance per field. *)
Class Setter {R T : Type} (proj : R → T) := upd_field : (T → T) → R → R.
#[global] Arguments upd_field {R T} proj {_} f r.
Notation "r <| proj := v |>" := (upd_field proj (λ _, v) r)
  (at level 1, left associativity, format "r  <| proj  :=  v |>") : c_scope.
Notation "r <| proj ::= f |>" := (upd_field proj f r)
  (at level 1, left associativity, format "r  <| proj  ::=  f |>") : c_scope.

(** ** Machine integers of the ILP32, little-endian targets

    An unsigned integer of width [n] is a [Z] in [0, 2^n); a C conversion to
    it is reduction modulo [2^n].  [long] and [int] both have 32 bits on the
    two targets the repository ships binaries for. *)

Definition u8 (z : Z) : Z := z mod 2 ^ 8.
Definition u16 (z : Z) : Z := z mod 2 ^ 16.
Definition u32 (z : Z) : Z := z mod 2 ^ 32.
Definition s32 (z : Z) : Z := (z + 2 ^ 31) mod 2 ^ 32 - 2 ^ 31.

#[global] Arguments u8 : simpl never.
#[global] Arguments u16 : simpl never.
#[global] Arguments u32 : simpl never.
#[global] Arguments s32 : simpl never.

(** Bytes of a 32-bit word as the little-endian targets store it. *)
Definition bytes32 (z : Z) : list Z :=
  [z mod 256; z / 2 ^ 8 mod 256; z / 2 ^ 16 mod 256; z / 2 ^ 24 mod 256].

Fixpoint of_bytes (bs : list Z) : Z :=
  match bs with
  | [] => 0
  | b :: bs' => b + 256 * of_bytes bs'
  end.

(** [htonl]/[ntohl] of the C library on a little-endian host. *)
Definition htonl (z : Z) : Z := of_bytes (rev (bytes32 z)).
Definition ntohl (z : Z) : Z := htonl z.

(** [htons]/[ntohs]. *)
Definition swap16 (z : Z) : Z := Z.lor (Z.shiftl (Z.land z 255) 8) (Z.shiftr z 8).

(** ** Byte ranges of a buffer

    [None] is an access outside the buffer. *)

Definition load_bytes (l : list Z) (off : Z) (n : nat) : option (list Z) :=
  if (0 <=? off) && (off + Z.of_nat n <=? Z.of_nat (length l))
  then Some (take n (drop (Z.to_nat off) l))
  else None.

Definition store_bytes (l : list Z) (off : Z) (bs : list Z) : option (list Z) :=
  if (0 <=? off) && (off + Z.of_nat (length bs) <=? Z.of_nat (length l))
  then Some (take (Z.to_nat off) l ++ bs ++ drop (Z.to_nat off + length bs) l)
  else None.

(** Removal of an identifier from a list of identifiers. *)
Definition del `{EqDecision A} (x : A) (l : list A) : list A :=
  filter (λ y, y ≠ x) l.

(** ** Tactics *)

(** Case analysis on every [match] or [if] of the goal, keeping equations. *)
Ltac cases := repeat (case_match; simplify_eq/=).

(** Turn boolean comparisons in the context into propositions. *)
Ltac bool_prop :=
  repeat match goal with
  | H : (_ && _) = true |- _ => apply andb_true_iff in H as [? ?]
  | H : (_ || _) = false |- _ => apply orb_false_iff in H as [? ?]
  | H : (_ && _) = false |- _ => apply andb_false_iff in H as [?|?]
  | H : (_ || _) = true |- _ => apply orb_true_iff in H as [?|?]
  | H : negb _ = true |- _ => apply negb_true_iff in H
  | H : negb _ = false |- _ => apply negb_false_iff in H
  | H : (_ =? _) = true |- _ => apply Z.eqb_eq in H
  | H : (_ =? _) = false |- _ => apply Z.eqb_neq in H
  | H : (_ <? _) = true |- _ => apply Z.ltb_lt in H
  | H : (_ <? _) = false |- _ => apply Z.ltb_ge in H
  | H : (_ <=? _) = true |- _ => apply Z.leb_le in H
  | H : (_ <=? _) = false |- _ => apply Z.leb_gt in H
  | H : bool_decide _ = true |- _ => apply bool_decide_eq_true in H
  | H : bool_decide _ = false |- _ => apply bool_decide_eq_false in H
  end.

(** ** Facts about machine integers *)

Lemma u8_range z : 0 ≤ u8 z < 256.
Proof. unfold u8. apply Z.mod_pos_bound. lia. Qed.

Lemma u16_range z : 0 ≤ u16 z < 2 ^ 16.
Proof. unfold u16. apply Z.mod_pos_bound. lia. Qed.

Lemma u32_range z : 0 ≤ u32 z < 2 ^ 32.
Proof. unfold u32. apply Z.mod_pos_bound. lia. Qed.

Lemma s32_range z : - 2 ^ 31 ≤ s32 z < 2 ^ 31.
Proof.
  unfold s32. pose proof (Z.mod_pos_bound (z + 2 ^ 31) (2 ^ 32) ltac:(lia)). lia.
Qed.

Lemma u8_small z : 0 ≤ z < 256 → u8 z = z.
Proof. intros. unfold u8. apply Z.mod_small. lia. Qed.

Lemma u16_small z : 0 ≤ z < 2 ^ 16 → u16 z = z.
Proof. apply Z.mod_small. Qed.
Lemma u32_small z : 0 ≤ z < 2 ^ 32 → u32 z = z.
Proof. intros. unfold u32. apply Z.mod_small. lia. Qed.

Lemma s32_small z : - 2 ^ 31 ≤ z < 2 ^ 31 → s32 z = z.
Proof. intros. unfold s32. rewrite Z.mod_small; lia. Qed.

Lemma u8_u8 z : u8 (u8 z) = u8 z.
Proof. apply u8_small, u8_range. Qed.

Lemma u32_u32 z : u32 (u32 z) = u32 z.
Proof. apply u32_small, u32_range. Qed.

Lemma s32_s32 z : s32 (s32 z) = s32 z.
Proof. apply s32_small, s32_range. Qed.

(** Two words with the same residue are the same signed integer. *)
Lemma s32_congr x y : x mod 2 ^ 32 = y mod 2 ^ 32 → s32 x = s32 y.
Proof.
  intros H. unfold s32. f_equal.
  rewrite <-(Zplus_mod_idemp_l x), <-(Zplus_mod_idemp_l y). by rewrite H.
Qed.

Lemma s32_mod z : s32 z mod 2 ^ 32 = z mod 2 ^ 32.
Proof.
  unfold s32. rewrite Zminus_mod_idemp_l. f_equal. lia.
Qed.

Lemma s32_u32 z : s32 (u32 z) = s32 z.
Proof. apply s32_congr. unfold u32. by rewrite Zmod_mod. Qed.

Lemma u32_s32 z : u32 (s32 z) = u32 z.
Proof. unfold u32. apply s32_mod. Qed.

Lemma s32_add_l x y : s32 (s32 x + y) = s32 (x + y).
Proof. apply s32_congr. rewrite <-Zplus_mod_idemp_l, s32_mod, Zplus_mod_idemp_l. done. Qed.

Lemma s32_sub_l x y : s32 (s32 x - y) = s32 (x - y).
Proof. apply s32_congr. rewrite <-Zminus_mod_idemp_l, s32_mod, Zminus_mod_idemp_l. done. Qed.

Lemma s32_mul_l x y : s32 (s32 x * y) = s32 (x * y).
Proof. apply s32_congr. rewrite <-Zmult_mod_idemp_l, s32_mod, Zmult_mod_idemp_l. done. Qed.

(** A non-negative signed reading of an unsigned word is the word. *)
Lemma s32_nonneg_u32 z : 0 ≤ z < 2 ^ 32 → 0 ≤ s32 z → s32 z = z.
Proof.
  intros Hz Hs. destruct (decide (z < 2 ^ 31)); [apply s32_small; lia|].
  exfalso. assert (s32 z = s32 (z - 2 ^ 32)) as Hc.
  { apply s32_congr. by rewrite <-(Z_mod_plus_full (z - 2 ^ 32) 1), Z.mul_1_l, Z.sub_add. }
  rewrite (s32_small (z - 2 ^ 32)) in Hc by lia. lia.
Qed.

Create HintDb mint.
#[export] Hint Resolve u8_range u32_range s32_range u16_range : mint.
Create Rewrite HintDb mint_rw.
#[export] Hint Rewrite u8_u8 u32_u32 s32_s32 s32_u32 u32_s32
  s32_add_l s32_sub_l s32_mul_l : mint_rw.

(** ** Facts about bytes *)

Lemma length_bytes32 z : length (bytes32 z) = 4%nat.
Proof. done. Qed.

Lemma bytes32_range z : Forall (λ b, 0 ≤ b < 256) (bytes32 z).
Proof. unfold bytes32. repeat constructor; apply Z.mod_pos_bound; lia. Qed.

Lemma of_bytes32 z : of_bytes (bytes32 z) = u32 z.
Proof.
  unfold u32, bytes32. cbn [of_bytes].
  pose proof (Z.div_mod z 256). pose proof (Z.div_mod (z / 2 ^ 8) 256).
  pose proof (Z.div_mod (z / 2 ^ 16) 256). pose proof (Z.div_mod (z / 2 ^ 24) 256).
  replace (z / 2 ^ 16) with (z / 2 ^ 8 / 256) in * by (rewrite Z.div_div by lia; done).
  replace (z / 2 ^ 24) with (z / 2 ^ 8 / 256 / 256) in *
    by (rewrite !Z.div_div by lia; done).
  replace (z / 2 ^ 8) with (z / 256) in * by done.
  rewrite (Z.mod_eq z (2 ^ 32)) by lia.
  replace (z / 2 ^ 32) with (z / 256 / 256 / 256 / 256)
    by (rewrite !Z.div_div by lia; done).
  lia.
Qed.

Lemma bytes32_of_bytes a b c d :
  Forall (λ x, 0 ≤ x < 256) [a; b; c; d] →
  bytes32 (of_bytes [a; b; c; d]) = [a; b; c; d].
Proof.
  intros H. rewrite !Forall_cons in H. destruct H as (Ha & Hb & Hc & Hd & _).
  unfold bytes32. cbn [of_bytes].
  assert (∀ x y, 0 ≤ x < 256 → (x + 256 * y) mod 256 = x) as Hm.
  { intros x y Hx. rewrite Z.mul_comm, Z_mod_plus_full, Z.mod_small; lia. }
  assert (∀ x y, 0 ≤ x < 256 → (x + 256 * y) / 256 = y) as Hd'.
  { intros x y Hx. rewrite Z.mul_comm, Z.div_add, Z.div_small; lia. }
  replace (2 ^ 24) with (256 * (256 * 256)) by done.
  replace (2 ^ 16) with (256 * 256) by done. replace (2 ^ 8) with 256 by done.
  rewrite <-!Z.div_div by lia. rewrite !Hd', !Hm by lia. done.
Qed.

Lemma htonl_htonl z : htonl (htonl z) = u32 z.
Proof.
  unfold htonl at 1.
  assert (bytes32 (htonl z) = rev (bytes32 z)) as ->.
  { unfold htonl. change (rev (bytes32 z)) with
      [z / 2 ^ 24 mod 256; z / 2 ^ 16 mod 256; z / 2 ^ 8 mod 256; z mod 256].
    apply bytes32_of_bytes. repeat constructor; apply Z.mod_pos_bound; lia. }
  rewrite rev_involutive. apply of_bytes32.
Qed.

Lemma ntohl_htonl z : 0 ≤ z < 2 ^ 32 → ntohl (htonl z) = z.
Proof. intros. unfold ntohl. rewrite htonl_htonl. by apply u32_small. Qed.

Lemma htonl_range z : 0 ≤ htonl z < 2 ^ 32.
Proof.
  unfold htonl. cbn [bytes32 rev app of_bytes].
  pose proof (Z.mod_pos_bound z 256). pose proof (Z.mod_pos_bound (z / 2 ^ 8) 256).
  pose proof (Z.mod_pos_bound (z / 2 ^ 16) 256).
  pose proof (Z.mod_pos_bound (z / 2 ^ 24) 256). lia.
Qed.

(** ** Facts about buffers *)

Lemma load_bytes_Some l off n bs :
  load_bytes l off n = Some bs →
  0 ≤ off ∧ off + Z.of_nat n ≤ Z.of_nat (length l) ∧ length bs = n.
Proof.
  unfold load_bytes. case_match eqn:E; [|done]. intros [= <-]. bool_prop.
  rewrite length_take, length_drop. lia.
Qed.

Lemma store_bytes_length l off bs l' :
  store_bytes l off bs = Some l' → length l' = length l.
Proof.
  unfold store_bytes. case_match eqn:E; [|done]. intros [= <-]. bool_prop.
  rewrite !length_app, length_take, length_drop. lia.
Qed.

Lemma store_bytes_ok l off bs :
  0 ≤ off → off + Z.of_nat (length bs) ≤ Z.of_nat (length l) →
  is_Some (store_bytes l off bs).
Proof.
  intros. unfold store_bytes. case_match eqn:E; [eauto|]. bool_prop; lia.
Qed.

Lemma load_bytes_ok l off n :
  0 ≤ off → off + Z.of_nat n ≤ Z.of_nat (length l) →
  is_Some (load_bytes l off n).
Proof.
  intros. unfold load_bytes. case_match eqn:E; [eauto|]. bool_prop; lia.
Qed.

(** Loading the range just stored gives the stored bytes. *)
Lemma load_store_same l off bs l' :
  store_bytes l off bs = Some l' → load_bytes l' off (length bs) = Some bs.
Proof.
  intros H. pose proof (store_bytes_length _ _ _ _ H) as Hlen.
  unfold store_bytes in H. case_match eqn:E; [|done]. injection H as <-.
  bool_prop.
  unfold load_bytes. rewrite Hlen. case_match eqn:E2; bool_prop; [|lia..]. f_equal.
  rewrite drop_app_length' by (rewrite length_take; lia).
  by rewrite take_app_length.
Qed.

(** Loading a range disjoint from the one stored is not affected. *)
Lemma load_store_other l off bs l' off2 n :
  store_bytes l off bs = Some l' →
  off2 + Z.of_nat n ≤ off ∨ off + Z.of_nat (length bs) ≤ off2 →
  load_bytes l' off2 n = load_bytes l off2 n.
Proof.
  intros H Hd. pose proof (store_bytes_length _ _ _ _ H) as Hlen.
  unfold store_bytes in H. case_match eqn:E; [|done]. injection H as <-.
  bool_prop.
  unfold load_bytes. rewrite Hlen. case_match eqn:E2; [|done]. bool_prop. f_equal.
  destruct Hd as [Hd|Hd].
  - rewrite drop_app_le by (rewrite length_take; lia).
    rewrite take_app_le by (rewrite length_drop, length_take; lia).
    rewrite <-(take_drop (Z.to_nat off) l) at 2.
    rewrite drop_app_le by (rewrite length_take; lia).
    by rewrite take_app_le by (rewrite length_drop, length_take; lia).
  - rewrite (assoc_L (++)).
    rewrite drop_app_ge by (rewrite length_app, length_take; lia).
    rewrite length_app, length_take, drop_drop. do 2 f_equal. lia.
Qed.

(** ** Facts about removal from an identifier list *)

Section del.
Context `{EqDecision A}.
Implicit Types (x y : A) (l : list A).

Lemma elem_of_del x y l : y ∈ del x l ↔ y ≠ x ∧ y ∈ l.
Proof. unfold del. by rewrite list_elem_of_filter. Qed.

Lemma not_elem_of_del x l : x ∉ del x l.
Proof. rewrite elem_of_del. naive_solver. Qed.

Lemma NoDup_del x l : NoDup l → NoDup (del x l).
Proof. apply NoDup_filter. Qed.

Lemma del_notin x l : x ∉ l → del x l = l.
Proof.
  unfold del. induction l as [|y l IH]; intros H; [done|].
  rewrite not_elem_of_cons in H. destruct H as [H1 H2].
  rewrite filter_cons_True by congruence. by rewrite IH.
Qed.

Lemma del_app x l1 l2 : del x (l1 ++ l2) = del x l1 ++ del x l2.
Proof. unfold del. apply filter_app. Qed.

Lemma del_cons_eq x l : x ∉ l → del x (x :: l) = l.
Proof.
  intros. unfold del. rewrite filter_cons_False by naive_solver. by apply del_notin.
Qed.

Lemma del_mid x l1 l2 : x ∉ l1 → x ∉ l2 → del x (l1 ++ x :: l2) = l1 ++ l2.
Proof. intros. rewrite del_app, del_cons_eq by done. by rewrite del_notin. Qed.

Lemma del_subset x l : del x l ⊆ l.
Proof. intros y. rewrite elem_of_del. tauto. Qed.

Lemma length_del x l : NoDup l → x ∈ l → S (length (del x l)) = length l.
Proof.
  intros Hnd Hin. apply list_elem_of_split in Hin as (l1 & l2 & ->).
  apply NoDup_app in Hnd as (_ & Hd & Hnd%NoDup_cons).
  rewrite del_mid, !length_app; [simpl; lia| |tauto].
  intros Hx. apply (Hd x Hx). left.
Qed.
End del.

Create HintDb lists.
#[export] Hint Resolve NoDup_del not_elem_of_del : lists.
