(* ===== verification/DList.v ===== *)
(** * Intrusive lists (list.c, list.h)

    The pointer operations on [list_t] nodes, over a heap that maps the
    address of a node to its two links, and the proof that they implement
    mathematical lists: [dlist h head l] says that following [next] from
    [head] visits the nodes [l] and comes back to [head], and that every
    [prev] link is the inverse of a [next] link.  The other files use the
    lists [l] directly. *)

From S2P Require Export Prelude.

(** ** The heap and the operations *)

(** [list_t]; [None] is [NULL]. *)
Record list_t := Node { prev : option nat; next : option nat }.

#[export] Instance set_prev : Setter prev := λ g r, Node (g (prev r)) (next r).
#[export] Instance set_next : Setter next := λ g r, Node (prev r) (g (next r)).

Abbreviation heap := (gmap nat list_t).

(** An access through a pointer that is not a node fails. *)
Definition node_upd (p : nat) (f : list_t → list_t) (h : heap) : option heap :=
  n ← h !! p; Some (<[p := f n]> h).

Definition list_init_head (head : nat) (h : heap) : option heap :=
  node_upd head (λ n, n <| next := Some head |>) h ≫=
  node_upd head (λ n, n <| prev := Some head |>).

Definition list_init_head_null (head : nat) (h : heap) : option heap :=
  node_upd head (λ n, n <| next := None |>) h ≫=
  node_upd head (λ n, n <| prev := None |>).

Definition list_is_empty (head : nat) (h : heap) : option bool :=
  n ← h !! head;
  Some (bool_decide (prev n = Some head) && bool_decide (next n = Some head)).

Definition list_unattached (head : nat) (h : heap) : option bool :=
  n ← h !! head; Some (bool_decide (prev n = None) && bool_decide (next n = None)).

(** [prev->next = next->prev = node; node->prev = prev; node->next = next]. *)
Definition list_insert (node p n : nat) (h : heap) : option heap :=
  h ← node_upd n (λ x, x <| prev := Some node |>) h;
  h ← node_upd p (λ x, x <| next := Some node |>) h;
  h ← node_upd node (λ x, x <| prev := Some p |>) h;
  node_upd node (λ x, x <| next := Some n |>) h.

Definition list_add (head node : nat) (h : heap) : option heap :=
  x ← h !! head; n ← next x; list_insert node head n h.

Definition list_push_front (head node : nat) (h : heap) : option heap :=
  x ← h !! head; n ← next x; list_insert node head n h.

Definition list_push_back (head node : nat) (h : heap) : option heap :=
  x ← h !! head; p ← prev x; list_insert node p head h.

Definition list_delete (p n : nat) (h : heap) : option heap :=
  h ← node_upd p (λ x, x <| next := Some n |>) h;
  node_upd n (λ x, x <| prev := Some p |>) h.

Definition list_remove (node : nat) (h : heap) : option heap :=
  x ← h !! node; p ← prev x; n ← next x;
  h ← list_delete p n h;
  h ← node_upd node (λ x, x <| next := None |>) h;
  node_upd node (λ x, x <| prev := None |>) h.

(** [list_for_each]: the nodes visited, within [fuel] steps. *)
Fixpoint list_walk (fuel : nat) (head iter : nat) (h : heap) : option (list nat) :=
  if decide (iter = head) then Some []
  else match fuel with
  | O => None
  | S fuel => x ← h !! iter; n ← next x; l ← list_walk fuel head n h; Some (iter :: l)
  end.

Definition list_for_each (fuel : nat) (head : nat) (h : heap) : option (list nat) :=
  x ← h !! head; n ← next x; list_walk fuel head n h.

(** ** What a heap represents *)

Definition nx (h : heap) (a : nat) : option nat := h !! a ≫= next.
Definition pv (h : heap) (a : nat) : option nat := h !! a ≫= prev.
Definition edge (h : heap) (a b : nat) : Prop := nx h a = Some b ∧ pv h b = Some a.

(** From [a] through the nodes [l]. *)
Fixpoint path (h : heap) (a : nat) (l : list nat) : Prop :=
  match l with
  | [] => True
  | x :: l' => edge h a x ∧ path h x l'
  end.

Definition dlist (h : heap) (head : nat) (l : list nat) : Prop :=
  NoDup (head :: l) ∧ path h head (l ++ [head]).

(** ** Paths *)

(** The last node of [a :: l]. *)
Fixpoint end_of (a : nat) (l : list nat) : nat :=
  match l with [] => a | x :: l' => end_of x l' end.

Lemma path_app h a l1 l2 :
  path h a (l1 ++ l2) ↔ path h a l1 ∧ path h (end_of a l1) l2.
Proof. revert a. induction l1 as [|x l1 IH]; intros a; simpl; [tauto|]. rewrite IH. tauto. Qed.

Lemma end_of_snoc a l x : end_of a (l ++ [x]) = x.
Proof. revert a. induction l; simpl; auto. Qed.

Lemma elem_of_end_of a l : end_of a l ∈ a :: l.
Proof.
  revert a. induction l as [|x l IH]; intros a; simpl; [left|]. right. apply IH.
Qed.

(** A path depends on the [next] of all its nodes but the last and on the
    [prev] of all but the first. *)
Lemma path_frame h h' a l :
  NoDup (a :: l) →
  (∀ x, x ∈ a :: l → x ≠ end_of a l → nx h' x = nx h x) →
  (∀ x, x ∈ l → pv h' x = pv h x) →
  path h a l → path h' a l.
Proof.
  revert a. induction l as [|x l IH]; intros a Hnd Hn Hp; simpl; [done|].
  apply NoDup_cons in Hnd as [Ha Hnd]. intros [[H1 H2] H3]. split; [split|].
  - rewrite Hn; [done|left|]. simpl. intros Heq. apply Ha. rewrite Heq. apply elem_of_end_of.
  - rewrite Hp; [done|left].
  - apply IH; [done| | |done].
    + intros y Hy Hne. apply Hn; [by right|done].
    + intros y Hy. apply Hp. by right.
Qed.

Lemma node_upd_run p f h x : h !! p = Some x → node_upd p f h = Some (<[p := f x]> h).
Proof. unfold node_upd. by intros ->. Qed.

Lemma nx_Some h a b : nx h a = Some b → ∃ x, h !! a = Some x ∧ next x = Some b.
Proof. unfold nx. destruct (h !! a); simpl; [eauto|done]. Qed.

Lemma pv_Some h a b : pv h a = Some b → ∃ x, h !! a = Some x ∧ prev x = Some b.
Proof. unfold pv. destruct (h !! a); simpl; [eauto|done]. Qed.

Lemma nx_upd h p f x a :
  h !! p = Some x → nx (<[p := f x]> h) a = if decide (a = p) then next (f x) else nx h a.
Proof.
  intros Hx. unfold nx. case_decide as Ha; [subst; by rewrite lookup_insert_eq|].
  by rewrite lookup_insert_ne.
Qed.

Lemma pv_upd h p f x a :
  h !! p = Some x → pv (<[p := f x]> h) a = if decide (a = p) then prev (f x) else pv h a.
Proof.
  intros Hx. unfold pv. case_decide as Ha; [subst; by rewrite lookup_insert_eq|].
  by rewrite lookup_insert_ne.
Qed.

(** ** Insertion *)

(** The links after [list_insert], for distinct nodes of the heap. *)
Lemma list_insert_links node p n h :
  is_Some (h !! node) → is_Some (h !! p) → is_Some (h !! n) → node ≠ p → node ≠ n →
  ∃ h', list_insert node p n h = Some h' ∧
    (∀ a, nx h' a = if decide (a = node) then Some n
                    else if decide (a = p) then Some node else nx h a) ∧
    (∀ a, pv h' a = if decide (a = node) then Some p
                    else if decide (a = n) then Some node else pv h a) ∧
    (∀ a, is_Some (h' !! a) ↔ is_Some (h !! a)).
Proof.
  intros [xn Hnode] [xp Hp] [xx Hn] Hne1 Hne2. unfold list_insert.
  rewrite (node_upd_run _ _ _ xx) by done. simpl. set (h1 := <[n := _]> h).
  assert (∃ y, h1 !! p = Some y ∧ next y = next xp) as (yp & Hyp & Eyp).
  { unfold h1. destruct (decide (p = n)) as [->|]; [rewrite lookup_insert_eq|
      rewrite lookup_insert_ne by done; eauto]. simplify_eq. eauto. }
  rewrite (node_upd_run _ _ _ yp) by done. simpl. set (h2 := <[p := _]> h1).
  assert (h2 !! node = Some xn) as Hn2.
  { unfold h2, h1. by rewrite !lookup_insert_ne by done. }
  rewrite (node_upd_run _ _ _ xn) by done. simpl. set (h3 := <[node := _]> h2).
  assert (h3 !! node = Some (xn <| prev := Some p |>)) as Hn3 by apply lookup_insert_eq.
  rewrite (node_upd_run _ _ _ _ Hn3). eexists. split_and!; [done|..].
  - intros a. rewrite (nx_upd _ _ (λ x, x <| next := Some n |>) _ _ Hn3).
    case_decide; [done|]. unfold h3.
    rewrite (nx_upd _ _ (λ x, x <| prev := Some p |>) _ _ Hn2). rewrite decide_False by done.
    unfold h2. rewrite (nx_upd _ _ (λ x, x <| next := Some node |>) _ _ Hyp).
    case_decide; [done|]. unfold h1.
    rewrite (nx_upd _ _ (λ x, x <| prev := Some node |>) _ _ Hn).
    case_decide; [|done]. subst. unfold nx. by rewrite Hn.
  - intros a. rewrite (pv_upd _ _ (λ x, x <| next := Some n |>) _ _ Hn3).
    case_decide as Ha; [done|]. unfold h3.
    rewrite (pv_upd _ _ (λ x, x <| prev := Some p |>) _ _ Hn2). rewrite decide_False by done.
    unfold h2. rewrite (pv_upd _ _ (λ x, x <| next := Some node |>) _ _ Hyp).
    case_decide as Hap; [subst a; simpl|unfold h1;
      by rewrite (pv_upd _ _ (λ x, x <| prev := Some node |>) _ _ Hn)].
    unfold h1 in Hyp. destruct (decide (p = n)) as [->|].
    + rewrite lookup_insert_eq in Hyp. by simplify_eq.
    + rewrite lookup_insert_ne in Hyp by done. unfold pv. by rewrite Hyp.
  - intros a. unfold h3, h2, h1. rewrite !lookup_insert_is_Some'. naive_solver.
Qed.

(** What an operation may change: the links of the nodes [ns]. *)
Definition same_but (ns : list nat) (h h' : heap) : Prop :=
  ∀ a, a ∉ ns → nx h' a = nx h a ∧ pv h' a = pv h a.

(** A list is not affected by changes elsewhere in the heap. *)
Lemma dlist_frame ns h h' head l :
  same_but ns h h' → (∀ a, a ∈ head :: l → a ∉ ns) → dlist h head l → dlist h' head l.
Proof.
  intros Hs Hd [Hnd Hp]. split; [done|].
  assert (∀ a l, (∀ x, x ∈ a :: l → x ∉ ns) → path h a l → path h' a l) as Hpath.
  { clear -Hs. intros a l. revert a. induction l as [|x l IH]; intros a Hd; simpl; [done|].
    intros [[H1 H2] H3]. split; [split|].
    - rewrite (proj1 (Hs a (Hd a ltac:(left)))). done.
    - rewrite (proj2 (Hs x (Hd x ltac:(right; left)))). done.
    - apply IH; [|done]. intros y Hy. apply Hd. by right. }
  apply Hpath; [|done]. intros x. rewrite elem_of_cons, elem_of_app, list_elem_of_singleton.
  intros [->|[?| ->]]; apply Hd; [left|by right|left].
Qed.

Definition first_of (head : nat) (l : list nat) : nat :=
  match l with [] => head | x :: _ => x end.

(** The links of a well-formed list at a cut. *)
Lemma dlist_cut h head l1 l2 :
  dlist h head (l1 ++ l2) ↔
  NoDup (head :: l1 ++ l2) ∧ path h head l1 ∧ edge h (end_of head l1) (first_of head l2) ∧
  path h (first_of head l2) (match l2 with [] => [] | _ :: l2' => l2' ++ [head] end).
Proof.
  unfold dlist. rewrite <-(assoc_L (++)), path_app.
  destruct l2 as [|x l2]; simpl; tauto.
Qed.

Lemma edge_nodes h a b : edge h a b → is_Some (h !! a) ∧ is_Some (h !! b).
Proof.
  intros [(x & Hx & _)%nx_Some (y & Hy & _)%pv_Some]. split; eauto.
Qed.

Lemma elem_of_first_of head l : first_of head l ∈ head :: l.
Proof. destruct l; [left|right; left]. Qed.

(** Splicing a node in or out of a list changes, besides its own links, the
    [next] of the node before and the [prev] of the node after. *)
Section splice.
Context (h h' : heap) (head node : nat) (l1 l2 : list nat).
Hypothesis Hnd : NoDup (head :: l1 ++ l2).
Hypothesis Hfresh : node ∉ head :: l1 ++ l2.
Hypothesis Hnx : ∀ a, a ≠ node → a ≠ end_of head l1 → nx h' a = nx h a.
Hypothesis Hpv : ∀ a, a ≠ node → a ≠ first_of head l2 → pv h' a = pv h a.

Lemma splice_before : path h head l1 → path h' head l1.
Proof.
  pose proof (elem_of_first_of head l2) as Hn. apply NoDup_cons in Hnd as [Hh Hnd'].
  apply NoDup_app in Hnd' as (Hnd1 & Hdis & _). rewrite elem_of_app in Hh.
  apply path_frame; [apply NoDup_cons; tauto|intros x Hx Hne; apply Hnx; set_solver|].
  intros x Hx. apply Hpv; [set_solver|]. intros ->.
  apply elem_of_cons in Hn as [Heq|Hin]; [rewrite Heq in Hx; tauto|by eapply Hdis].
Qed.

Lemma splice_after :
  let rest := match l2 with [] => [] | _ :: l2' => l2' ++ [head] end in
  path h (first_of head l2) rest → path h' (first_of head l2) rest.
Proof.
  pose proof (elem_of_end_of head l1) as Hp. destruct l2 as [|x l2']; simpl in *; [done|].
  apply NoDup_cons in Hnd as [Hh Hnd']. apply NoDup_app in Hnd' as (_ & Hdis & [Hx Hnd2]%NoDup_cons).
  apply path_frame.
  - apply NoDup_cons. split; [set_solver|].
    apply NoDup_app. split_and!; [done|set_solver|apply NoDup_singleton].
  - intros y Hy Hne. rewrite end_of_snoc in Hne. apply Hnx; [set_solver|]. intros ->. set_solver.
  - intros y Hy. apply Hpv; set_solver.
Qed.

Lemma splice_outside : same_but (node :: head :: l1 ++ l2) h h'.
Proof.
  pose proof (elem_of_end_of head l1) as Hp. pose proof (elem_of_first_of head l2) as Hn.
  intros a Ha. split; [apply Hnx|apply Hpv]; set_solver.
Qed.
End splice.

Lemma dlist_insert h head node l1 l2 :
  dlist h head (l1 ++ l2) → node ∉ head :: l1 ++ l2 → is_Some (h !! node) →
  ∃ h', list_insert node (end_of head l1) (first_of head l2) h = Some h' ∧
    dlist h' head (l1 ++ node :: l2) ∧ same_but (node :: head :: l1 ++ l2) h h'.
Proof.
  intros (Hnd & Hp1 & He & Hp2)%dlist_cut Hfresh Hnode.
  pose proof (edge_nodes _ _ _ He) as [Hsp Hsn].
  pose proof (elem_of_end_of head l1) as Hpin. pose proof (elem_of_first_of head l2) as Hnin.
  assert (node ≠ end_of head l1 ∧ node ≠ first_of head l2) as [Hne1 Hne2] by set_solver.
  destruct (list_insert_links node _ _ h Hnode Hsp Hsn Hne1 Hne2) as (h' & Hrun & Hnx & Hpv & _).
  assert (∀ a, a ≠ node → a ≠ end_of head l1 → nx h' a = nx h a) as Hnx'.
  { intros. by rewrite Hnx, !decide_False. }
  assert (∀ a, a ≠ node → a ≠ first_of head l2 → pv h' a = pv h a) as Hpv'.
  { intros. by rewrite Hpv, !decide_False. }
  exists h'. split_and!; [done| |by apply splice_outside].
  apply dlist_cut. simpl. split_and!.
  - rewrite <-Permutation_middle, (Permutation_swap node head). by apply NoDup_cons.
  - by eapply splice_before.
  - split; [rewrite Hnx, decide_False, decide_True by done|rewrite Hpv, decide_True by done]; done.
  - assert (edge h' node (first_of head l2)) as Hen.
    { split; [by rewrite Hnx, decide_True|]. by rewrite Hpv, decide_False, decide_True by done. }
    pose proof (splice_after h h' head node l1 l2 Hnd Hfresh Hnx' Hpv' Hp2) as H.
    destruct l2 as [|x l2']; by split.
Qed.

(** ** Removal *)

Lemma list_delete_links p n h xp xn :
  h !! p = Some xp → h !! n = Some xn →
  ∃ h', list_delete p n h = Some h' ∧
    (∀ a, nx h' a = if decide (a = p) then Some n else nx h a) ∧
    (∀ a, pv h' a = if decide (a = n) then Some p else pv h a) ∧
    (∀ a, is_Some (h' !! a) ↔ is_Some (h !! a)).
Proof.
  intros Hp Hn. unfold list_delete. rewrite (node_upd_run _ _ _ xp) by done. simpl.
  set (h1 := <[p := _]> h).
  assert (∃ y, h1 !! n = Some y ∧ prev y = prev xn) as (yn & Hyn & Eyn).
  { unfold h1. destruct (decide (n = p)) as [->|]; [rewrite lookup_insert_eq|
      rewrite lookup_insert_ne by done; eauto]. simplify_eq. eauto. }
  rewrite (node_upd_run _ _ _ yn) by done. eexists. split_and!; [done|..].
  - intros a. rewrite (nx_upd _ _ (λ x, x <| prev := Some p |>) _ _ Hyn).
    case_decide as Han; [subst a; simpl|unfold h1;
      by rewrite (nx_upd _ _ (λ x, x <| next := Some n |>) _ _ Hp)].
    unfold h1 in Hyn. destruct (decide (n = p)) as [->|].
    + rewrite lookup_insert_eq in Hyn. by simplify_eq.
    + rewrite lookup_insert_ne in Hyn by done. unfold nx. by rewrite Hyn.
  - intros a. rewrite (pv_upd _ _ (λ x, x <| prev := Some p |>) _ _ Hyn).
    case_decide; [done|]. unfold h1.
    rewrite (pv_upd _ _ (λ x, x <| next := Some n |>) _ _ Hp).
    case_decide; [|done]. subst. unfold pv. by rewrite Hp.
  - intros a. unfold h1. rewrite !lookup_insert_is_Some'. naive_solver.
Qed.

(** The links after [list_remove] of a node between two distinct others. *)
Lemma list_remove_links h p node n :
  edge h p node → edge h node n → node ≠ p → node ≠ n →
  ∃ h', list_remove node h = Some h' ∧ nx h' node = None ∧ pv h' node = None ∧
    (∀ a, a ≠ node → nx h' a = if decide (a = p) then Some n else nx h a) ∧
    (∀ a, a ≠ node → pv h' a = if decide (a = n) then Some p else pv h a).
Proof.
  intros [He1 He2] [He3 He4] Hne1 Hne2.
  destruct (nx_Some _ _ _ He1) as (xp & Hxp & _). destruct (pv_Some _ _ _ He4) as (xn & Hxn & _).
  destruct (nx_Some _ _ _ He3) as (x & Hx & Hxnext).
  assert (prev x = Some p) as Hxprev.
  { unfold pv in He2. rewrite Hx in He2. done. }
  destruct (list_delete_links p n h xp xn) as (h1 & Hrun & Hnx & Hpv & Hdom); [done..|].
  assert (is_Some (h1 !! node)) as [y Hy] by (apply Hdom; by rewrite Hx).
  set (y2 := (y <| next := None |>) <| prev := None |>).
  exists (<[node := y2]> h1). split_and!.
  - unfold list_remove. rewrite Hx. simpl. rewrite Hxprev, Hxnext. simpl. rewrite Hrun. simpl.
    rewrite (node_upd_run _ _ _ y) by done. simpl.
    rewrite (node_upd_run _ _ _ (y <| next := None |>)) by apply lookup_insert_eq.
    by rewrite insert_insert_eq.
  - unfold nx. by rewrite lookup_insert_eq.
  - unfold pv. by rewrite lookup_insert_eq.
  - intros a Ha. rewrite <-Hnx. unfold nx. by rewrite lookup_insert_ne.
  - intros a Ha. rewrite <-Hpv. unfold pv. by rewrite lookup_insert_ne.
Qed.

Lemma dlist_remove h head node l1 l2 :
  dlist h head (l1 ++ node :: l2) →
  ∃ h', list_remove node h = Some h' ∧ dlist h' head (l1 ++ l2) ∧
    nx h' node = None ∧ pv h' node = None ∧ same_but (head :: l1 ++ node :: l2) h h'.
Proof.
  intros (Hnd & Hp1 & He1 & Hp2)%dlist_cut. simpl in He1, Hp2.
  rewrite <-Permutation_middle, (Permutation_swap node head) in Hnd.
  apply NoDup_cons in Hnd as [Hfresh Hnd].
  pose proof (elem_of_end_of head l1) as Hpin. pose proof (elem_of_first_of head l2) as Hnin.
  assert (node ≠ end_of head l1 ∧ node ≠ first_of head l2) as [Hne1 Hne2] by set_solver.
  assert (edge h node (first_of head l2)) as He2 by (destruct l2; simpl in *; tauto).
  destruct (list_remove_links h _ node _ He1 He2 Hne1 Hne2) as (h' & Hrun & Hn0 & Hp0 & Hnx & Hpv).
  assert (∀ a, a ≠ node → a ≠ end_of head l1 → nx h' a = nx h a) as Hnx'.
  { intros. by rewrite Hnx, decide_False. }
  assert (∀ a, a ≠ node → a ≠ first_of head l2 → pv h' a = pv h a) as Hpv'.
  { intros. by rewrite Hpv, decide_False. }
  exists h'. split_and!; [done| |done..|].
  - apply dlist_cut. split_and!; [done|by eapply splice_before| |].
    + by split; [rewrite Hnx, decide_True|rewrite Hpv, decide_True].
    + apply (splice_after h h' head node l1 l2 Hnd Hfresh Hnx' Hpv').
      destruct l2; simpl in *; tauto.
  - intros a Ha. apply (splice_outside h h' head node l1 l2 Hnd Hfresh Hnx' Hpv'). set_solver.
Qed.

(** ** The operations on represented lists *)

Lemma dlist_init_head h head :
  is_Some (h !! head) → ∃ h', list_init_head head h = Some h' ∧ dlist h' head [].
Proof.
  intros [x Hx]. unfold list_init_head. rewrite (node_upd_run _ _ _ x) by done. simpl.
  erewrite node_upd_run by apply lookup_insert_eq. eexists. split; [done|].
  split; [apply NoDup_singleton|]. simpl. split; [|done].
  rewrite insert_insert_eq. by split; [unfold nx|unfold pv]; rewrite lookup_insert_eq.
Qed.

Lemma list_unattached_links h a :
  is_Some (h !! a) →
  list_unattached a h = Some (bool_decide (pv h a = None) && bool_decide (nx h a = None)).
Proof. intros [x Hx]. unfold list_unattached, pv, nx. by rewrite Hx. Qed.

(** Nodes of a list are linked. *)
Lemma dlist_linked h head l x :
  dlist h head l → x ∈ head :: l → is_Some (nx h x) ∧ is_Some (pv h x).
Proof.
  intros [_ Hp] Hx.
  assert (∀ a l b, path h a (l ++ [b]) → ∀ x, x ∈ a :: l → is_Some (nx h x)) as Hnx.
  { clear. intros a l. revert a. induction l as [|y l IH]; intros a b; simpl.
    - intros [[H _] _] x ->%list_elem_of_singleton. eauto.
    - intros [[H _] Hl] x [->|Hin]%elem_of_cons; eauto. }
  assert (∀ a l, path h a l → ∀ x, x ∈ l → is_Some (pv h x)) as Hpv.
  { clear. intros a l. revert a. induction l as [|y l IH]; intros a; simpl; [set_solver|].
    intros [[_ H] Hl] x [->|Hin]%elem_of_cons; eauto. }
  split; [by eapply Hnx|]. eapply Hpv; [exact Hp|].
  apply elem_of_cons in Hx as [->|?]; set_solver.
Qed.

Lemma list_is_empty_run h head l :
  dlist h head l → list_is_empty head h = Some (bool_decide (l = [])).
Proof.
  intros [Hnd Hp]. unfold list_is_empty.
  destruct l as [|x l]; simpl in Hp.
  - destruct Hp as [[H1 H2] _]. destruct (nx_Some _ _ _ H1) as (n & Hn & Hnext).
    unfold pv in H2. rewrite Hn in *. simpl in *. by rewrite H2, Hnext, !bool_decide_eq_true_2.
  - destruct Hp as [[H1 _] _]. destruct (nx_Some _ _ _ H1) as (n & Hn & Hnext).
    rewrite Hn. simpl. rewrite Hnext, (bool_decide_eq_false_2 (Some x = Some head)).
    + by rewrite andb_false_r.
    + apply NoDup_cons in Hnd as [Hh _]. intros [= ->]. apply Hh. left.
Qed.

Lemma list_walk_run h head a l fuel :
  path h a (l ++ [head]) → NoDup (head :: l) → (length l <= fuel)%nat →
  ∃ n, nx h a = Some n ∧ list_walk fuel head n h = Some l.
Proof.
  revert a fuel. induction l as [|x l IH]; intros a fuel Hp Hnd Hlen; simpl in Hp.
  - destruct Hp as [[H _] _]. exists head. split; [done|].
    destruct fuel; simpl; by rewrite decide_True.
  - destruct Hp as [[H _] Hp]. exists x. split; [done|].
    apply NoDup_cons in Hnd as [Hh Hnd]. apply NoDup_cons in Hnd as [Hx Hnd].
    destruct fuel as [|fuel]; [simpl in Hlen; lia|]. cbn [list_walk].
    rewrite decide_False by (intros ->; apply Hh; left).
    destruct (IH x fuel) as (n & Hn & Hw); [done| |simpl in Hlen; lia|].
    { apply NoDup_cons. split; [|done]. intros ?. apply Hh. by right. }
    destruct (nx_Some _ _ _ Hn) as (y & -> & Hy). simpl. rewrite Hy. simpl. by rewrite Hw.
Qed.

(** ** Properties *)

(** Inserting. [list_push_back(pos, node)] puts [node] immediately
    before [pos], a node of the list or its head (so at the end), and
    [list_push_front]/[list_add](pos, node) immediately after it; both succeed
    on a well-formed list, the result is well formed, the node counts as
    attached, and no other list is affected. *)
Theorem list_push_refines h head l1 l2 node :
  dlist h head (l1 ++ l2) → node ∉ head :: l1 ++ l2 → is_Some (h !! node) →
  ∃ h', list_push_back (first_of head l2) node h = Some h' ∧
    list_push_front (end_of head l1) node h = Some h' ∧
    list_add (end_of head l1) node h = Some h' ∧
    dlist h' head (l1 ++ node :: l2) ∧ list_unattached node h' = Some false ∧
    (∀ head' l', dlist h head' l' → (∀ x, x ∈ head' :: l' → x ∉ node :: head :: l1 ++ l2) →
       dlist h' head' l').
Proof.
  intros Hl Hfresh Hnode.
  destruct (dlist_insert h head node l1 l2 Hl Hfresh Hnode) as (h' & Hrun & Hl' & Hsame).
  exists h'. apply dlist_cut in Hl as (_ & _ & [Hn Hp] & _).
  destruct (nx_Some _ _ _ Hn) as (y & Hy & Hyn). destruct (pv_Some _ _ _ Hp) as (z & Hz & Hzp).
  destruct (dlist_linked h' head (l1 ++ node :: l2) node) as [[a Ha] [b Hb]];
    [done|set_solver|].
  split_and!.
  - unfold list_push_back. rewrite Hz. simpl. by rewrite Hzp.
  - unfold list_push_front. rewrite Hy. simpl. by rewrite Hyn.
  - unfold list_add. rewrite Hy. simpl. by rewrite Hyn.
  - done.
  - rewrite list_unattached_links; [by rewrite Ha, Hb|].
    destruct (nx_Some _ _ _ Ha) as (? & -> & _). eauto.
  - intros head' l' Hl2 Hd. by eapply dlist_frame.
Qed.

(** Removing. [list_remove(node)] takes exactly [node] out of the list
    it is in, wherever it is linked, and leaves it unattached; no other list
    is affected. *)
Theorem list_remove_refines h head l1 node l2 :
  dlist h head (l1 ++ node :: l2) →
  ∃ h', list_remove node h = Some h' ∧ dlist h' head (l1 ++ l2) ∧
    list_unattached node h' = Some true ∧
    (∀ head' l', dlist h head' l' → (∀ x, x ∈ head' :: l' → x ∉ head :: l1 ++ node :: l2) →
       dlist h' head' l').
Proof.
  intros Hl. destruct (dlist_remove h head node l1 l2 Hl)
    as (h' & Hrun & Hl' & Hnx & Hpv & Hsame).
  exists h'. split_and!; [done|done| |].
  - rewrite list_unattached_links; [by rewrite Hnx, Hpv|].
    unfold list_remove in Hrun.
    destruct (h !! node ≫= _) eqn:E; [|done]. simplify_eq.
    apply bind_Some in E as (x & Hx & E). apply bind_Some in E as (p & Hp & E).
    apply bind_Some in E as (n & Hn & E). apply bind_Some in E as (h1 & Hd & E).
    apply bind_Some in E as (h2 & H2 & E). unfold node_upd in E, H2.
    apply bind_Some in E as (y & Hy & [= <-]). rewrite lookup_insert_eq. eauto.
  - intros head' l' Hl2 Hd. by eapply dlist_frame.
Qed.

(** Traversal. [list_for_each] over a well-formed list terminates and
    visits exactly its nodes, in order, and [list_is_empty] tells whether
    there are any. *)
Theorem list_for_each_visits h head l :
  dlist h head l →
  list_for_each (length l) head h = Some l ∧
  list_is_empty head h = Some (bool_decide (l = [])).
Proof.
  intros Hl. split; [|by apply list_is_empty_run]. destruct Hl as [Hnd Hp].
  destruct (list_walk_run h head head l (length l)) as (n & Hn & Hw); [done..|].
  unfold list_for_each. destruct (nx_Some _ _ _ Hn) as (x & -> & Hx). simpl. by rewrite Hx.
Qed.

(** ** Witnesses: a list of two nodes, 1 and 2, and a free node 3 *)

Definition sample_heap : heap :=
  {[ 0%nat := Node (Some 2%nat) (Some 1%nat); 1%nat := Node (Some 0%nat) (Some 2%nat);
     2%nat := Node (Some 1%nat) (Some 0%nat); 3%nat := Node None None ]}.

Lemma sample_dlist : dlist sample_heap 0 [1; 2]%nat.
Proof. split; [by apply (bool_decide_unpack _)|]. by vm_compute. Qed.

Lemma list_push_refines_witness :
  ∃ h', list_push_back 2 3 sample_heap = Some h' ∧ dlist h' 0 [1; 3; 2]%nat.
Proof.
  destruct (list_push_refines sample_heap 0 [1]%nat [2]%nat 3) as (h' & H1 & _ & _ & H2 & _).
  - exact sample_dlist.
  - by apply (bool_decide_unpack _).
  - by eexists.
  - exists h'. by split.
Defined.

Lemma list_remove_refines_witness :
  ∃ h', list_remove 1 sample_heap = Some h' ∧ dlist h' 0 [2]%nat.
Proof.
  destruct (list_remove_refines sample_heap 0 [] 1 [2]%nat) as (h' & H1 & H2 & _).
  - exact sample_dlist.
  - exists h'. by split.
Defined.

Lemma list_for_each_visits_witness :
  list_for_each 2 0 sample_heap = Some [1; 2]%nat.
Proof. exact (proj1 (list_for_each_visits sample_heap 0 [1; 2]%nat sample_dlist)). Defined.
