(* ===== verification/KMsg.v ===== *)
(** * The interface between the daemon and the kernel module
    (kaodv/src/kaodv_netlink.h)

    Message types, flags and the layout of [struct kaodv_rt_msg], shared by
    [Netlink.v] (the daemon) and [KNetlink.v] (the module). *)

From S2P Require Export Prelude.

(** ** kaodv_netlink.h: message types and flags *)

Definition KAODVM_ADDROUTE : Z := 101.
Definition KAODVM_DELROUTE : Z := 102.
Definition KAODVM_TIMEOUT : Z := 103.
Definition KAODVM_ROUTE_REQ : Z := 104.
Definition KAODVM_REPAIR : Z := 105.
Definition KAODVM_NOROUTE_FOUND : Z := 106.
Definition KAODVM_ROUTE_UPDATE : Z := 107.
Definition KAODVM_SEND_RERR : Z := 108.
Definition KAODVM_CONFIG : Z := 109.
Definition KAODVM_DEBUG : Z := 110.
Definition KAODV_RT_GW_ENCAP : Z := 0x1.
Definition KAODV_RT_REPAIR : Z := 0x2.

Definition PKT_INBOUND : Z := 1.
Definition PKT_OUTBOUND : Z := 2.

(** [struct kaodv_rt_msg], as the two targets lay it out: padding after
    [type] and after [flags]. *)
Record kaodv_rt_msg := KRtMsg {
  km_type : Z;
  km_src : Z;
  km_dest : Z;
  km_nhop : Z;
  km_flags : Z;
  km_ifindex : Z;
  km_time : Z
}.

Definition sizeof_rt_msg : Z := 28.
Definition sizeof_conf_msg : Z := 4.

Definition rt_msg_bytes (m : kaodv_rt_msg) : list Z :=
  [u8 (km_type m); 0; 0; 0] ++ bytes32 (km_src m) ++ bytes32 (km_dest m)
  ++ bytes32 (km_nhop m) ++ [u8 (km_flags m); 0; 0; 0]
  ++ bytes32 (km_ifindex m) ++ bytes32 (km_time m).

(** The message at the start of [data]; [None] if it is cut short. *)
Definition rt_msg_of (data : list Z) : option kaodv_rt_msg :=
  match load_bytes data 0 28 with
  | None => None
  | Some l =>
      let word off := of_bytes (take 4 (drop off l)) in
      Some (KRtMsg (default 0 (l !! 0%nat)) (word 4%nat) (word 8%nat) (word 12%nat)
              (default 0 (l !! 16%nat)) (s32 (word 20%nat)) (s32 (word 24%nat)))
  end.

(** The UDP port of AODV (kaodv.h, defs.h). *)
Definition AODV_PORT : Z := 654.

(** ** The netlink macros and flags of the platform headers *)

Definition NLM_F_REQUEST : Z := 1.
Definition NLM_F_ACK : Z := 4.
Definition NLM_F_CREATE : Z := 0x400.
Definition NLMSG_ALIGN (len : Z) : Z := Z.land (len + 3) (Z.lnot 3).
Definition NLMSG_LENGTH (len : Z) : Z := len + 16.
Definition NLM_F_MULTI : Z := 2.
