(* ===== verification/KState.v ===== *)
(** * State of the kernel module: data, environment, interleaved programs

    The static variables of [kaodv_expl.c], [kaodv_queue.c],
    [kaodv_netlink.c], [kaodv_mod.c] and [kaodv_mod.h], and the two monads
    the module is written in.

    - [KM]: state passing, for the code inside a critical section
      ([write_lock_bh] ... [write_unlock_bh]).
    - [prog]: a sequence of atomic actions.  The hook runs on every packet, on
      any processor, and netlink messages arrive while it runs: between two
      critical sections of a function, other code may run.  [run] executes a
      program alone; [kstep] interleaves any number of them.

    A pointer into a list is the position of its node. *)

From stdpp Require Export strings.
From S2P Require Export KMsg.
#[global] Open Scope Z_scope.

(** ** Data *)

(** [struct expl_entry] ([kaodv_expl.h]): a route the daemon has announced. *)
Record expl_entry := Expl {
  ex_expires : Z;
  ex_flags : Z;
  ex_daddr : Z;
  ex_nhop : Z;
  ex_ifindex : Z
}.

#[export] Instance set_ex_expires : Setter ex_expires := λ g r,
  Expl (g (ex_expires r)) (ex_flags r) (ex_daddr r) (ex_nhop r) (ex_ifindex
    r).
#[export] Instance set_ex_flags : Setter ex_flags := λ g r,
  Expl (ex_expires r) (g (ex_flags r)) (ex_daddr r) (ex_nhop r) (ex_ifindex
    r).
#[export] Instance set_ex_daddr : Setter ex_daddr := λ g r,
  Expl (ex_expires r) (ex_flags r) (g (ex_daddr r)) (ex_nhop r) (ex_ifindex
    r).
#[export] Instance set_ex_nhop : Setter ex_nhop := λ g r,
  Expl (ex_expires r) (ex_flags r) (ex_daddr r) (g (ex_nhop r)) (ex_ifindex
    r).
#[export] Instance set_ex_ifindex : Setter ex_ifindex := λ g r,
  Expl (ex_expires r) (ex_flags r) (ex_daddr r) (ex_nhop r) (g (ex_ifindex
    r)).

(** [struct sk_buff]: the bytes of the packet from its IP header on, and whether
    a socket owns it. *)
Record sk_buff := Skb {
  skb_data : list Z;
  skb_sk : bool
}.

#[export] Instance set_skb_data : Setter skb_data := λ g r,
  Skb (g (skb_data r)) (skb_sk r).
#[export] Instance set_skb_sk : Setter skb_sk := λ g r,
  Skb (skb_data r) (g (skb_sk r)).

(** [struct kaodv_queue_entry] with its [struct kaodv_rt_info]; [q_okfn] names
    the function pointer [okfn]. *)
Record kaodv_queue_entry := QEntry {
  q_skb : sk_buff;
  q_okfn : nat;
  q_tos : Z;
  q_daddr : Z;
  q_saddr : Z
}.

#[export] Instance set_q_skb : Setter q_skb := λ g r,
  QEntry (g (q_skb r)) (q_okfn r) (q_tos r) (q_daddr r) (q_saddr r).
#[export] Instance set_q_okfn : Setter q_okfn := λ g r,
  QEntry (q_skb r) (g (q_okfn r)) (q_tos r) (q_daddr r) (q_saddr r).
#[export] Instance set_q_tos : Setter q_tos := λ g r,
  QEntry (q_skb r) (q_okfn r) (g (q_tos r)) (q_daddr r) (q_saddr r).
#[export] Instance set_q_daddr : Setter q_daddr := λ g r,
  QEntry (q_skb r) (q_okfn r) (q_tos r) (g (q_daddr r)) (q_saddr r).
#[export] Instance set_q_saddr : Setter q_saddr := λ g r,
  QEntry (q_skb r) (q_okfn r) (q_tos r) (q_daddr r) (g (q_saddr r)).

(** [struct if_info] ([kaodv_mod.h]); [dev] is identified by its index. *)
Record if_info := IfInfo {
  if_addr : Z;
  bc_addr : Z;
  ifi_ifindex : Z
}.

#[export] Instance set_if_addr : Setter if_addr := λ g r,
  IfInfo (g (if_addr r)) (bc_addr r) (ifi_ifindex r).
#[export] Instance set_bc_addr : Setter bc_addr := λ g r,
  IfInfo (if_addr r) (g (bc_addr r)) (ifi_ifindex r).
#[export] Instance set_ifi_ifindex : Setter ifi_ifindex := λ g r,
  IfInfo (if_addr r) (bc_addr r) (g (ifi_ifindex r)).

(** What the module reads of a [struct net_device]: its index, its name, and
    the label, address and broadcast address of each entry of its address list
    ([None] when [in_dev_get] gives [NULL]). *)
Record net_device := NetDev {
  nd_ifindex : Z;
  nd_name : string;
  nd_ifa : option (list (string * Z * Z))
}.

#[export] Instance set_nd_ifindex : Setter nd_ifindex := λ g r,
  NetDev (g (nd_ifindex r)) (nd_name r) (nd_ifa r).
#[export] Instance set_nd_name : Setter nd_name := λ g r,
  NetDev (nd_ifindex r) (g (nd_name r)) (nd_ifa r).
#[export] Instance set_nd_ifa : Setter nd_ifa := λ g r,
  NetDev (nd_ifindex r) (nd_name r) (g (nd_ifa r)).

(** What the module asks of the kernel, as oracles read in the order of the
    calls: the clock, whether an allocation or registration succeeds, what
    uninitialised memory holds, [HZ], the network devices by name, and the
    two functions of the IP layer that rewrite fields of a header. *)
Record kenv := KEnv {
  ke_jiffies : nat → Z;
  ke_ok : nat → bool;
  ke_garbage : nat → Z;
  ke_HZ : Z;
  ke_devs : list net_device;
  ke_send_check : list Z → list Z;
  ke_select_ident : list Z → list Z
}.

(** What leaves the module: a netlink message to the daemon (type, payload),
    an acknowledgement (port, error), an ICMP error about a packet, a packet
    freed, routed again, or handed to its [okfn]. *)
Inductive kevent :=
| KEvNl (type : Z) (data : list Z)
| KEvAck (pid error : Z)
| KEvIcmp (skb : sk_buff)
| KEvFree (skb : sk_buff)
| KEvRoute (skb : sk_buff)
| KEvOkfn (okfn : nat) (skb : sk_buff).

(** What the module registers with the kernel. *)
Inductive resource :=
| R_expl_proc | R_queue_proc | R_notifier | R_nlsock | R_hook (i : nat).

#[export] Instance resource_eq_dec : EqDecision resource.
Proof. solve_decision. Defined.


(** The module's variables. [queue_list] is in the order of the [prev] links
    from the head, oldest packet first; [k_holds] has the index of a device
    once for each reference to it; [k_res] is what is registered; [k_out] has
    the effects so far, latest first. *)
Record kworld := KWorld {
  k_env : kenv;
  k_tick : nat;
  expl_head : list expl_entry;
  expl_len : Z;
  queue_list : list kaodv_queue_entry;
  queue_total : Z;
  queue_show_buf : Z * Z;
  peer_pid : Z;
  k_active_route_timeout : Z;
  ifihead : list if_info;
  k_holds : list Z;
  k_res : list resource;
  k_out : list kevent
}.

#[export] Instance set_k_env : Setter k_env := λ g r,
  KWorld (g (k_env r)) (k_tick r) (expl_head r) (expl_len r) (queue_list r)
    (queue_total r) (queue_show_buf r) (peer_pid r) (k_active_route_timeout r)
    (ifihead r) (k_holds r) (k_res r) (k_out r).
#[export] Instance set_k_tick : Setter k_tick := λ g r,
  KWorld (k_env r) (g (k_tick r)) (expl_head r) (expl_len r) (queue_list r)
    (queue_total r) (queue_show_buf r) (peer_pid r) (k_active_route_timeout r)
    (ifihead r) (k_holds r) (k_res r) (k_out r).
#[export] Instance set_expl_head : Setter expl_head := λ g r,
  KWorld (k_env r) (k_tick r) (g (expl_head r)) (expl_len r) (queue_list r)
    (queue_total r) (queue_show_buf r) (peer_pid r) (k_active_route_timeout r)
    (ifihead r) (k_holds r) (k_res r) (k_out r).
#[export] Instance set_expl_len : Setter expl_len := λ g r,
  KWorld (k_env r) (k_tick r) (expl_head r) (g (expl_len r)) (queue_list r)
    (queue_total r) (queue_show_buf r) (peer_pid r) (k_active_route_timeout r)
    (ifihead r) (k_holds r) (k_res r) (k_out r).
#[export] Instance set_queue_list : Setter queue_list := λ g r,
  KWorld (k_env r) (k_tick r) (expl_head r) (expl_len r) (g (queue_list r))
    (queue_total r) (queue_show_buf r) (peer_pid r) (k_active_route_timeout r)
    (ifihead r) (k_holds r) (k_res r) (k_out r).
#[export] Instance set_queue_total : Setter queue_total := λ g r,
  KWorld (k_env r) (k_tick r) (expl_head r) (expl_len r) (queue_list r) (g
    (queue_total r)) (queue_show_buf r) (peer_pid r) (k_active_route_timeout
    r) (ifihead r) (k_holds r) (k_res r) (k_out r).
#[export] Instance set_queue_show_buf : Setter queue_show_buf := λ g r,
  KWorld (k_env r) (k_tick r) (expl_head r) (expl_len r) (queue_list r)
    (queue_total r) (g (queue_show_buf r)) (peer_pid r)
    (k_active_route_timeout r) (ifihead r) (k_holds r) (k_res r) (k_out r).
#[export] Instance set_peer_pid : Setter peer_pid := λ g r,
  KWorld (k_env r) (k_tick r) (expl_head r) (expl_len r) (queue_list r)
    (queue_total r) (queue_show_buf r) (g (peer_pid r))
    (k_active_route_timeout r) (ifihead r) (k_holds r) (k_res r) (k_out r).
#[export] Instance set_k_active_route_timeout : Setter k_active_route_timeout := λ g r,
  KWorld (k_env r) (k_tick r) (expl_head r) (expl_len r) (queue_list r)
    (queue_total r) (queue_show_buf r) (peer_pid r) (g (k_active_route_timeout
    r)) (ifihead r) (k_holds r) (k_res r) (k_out r).
#[export] Instance set_ifihead : Setter ifihead := λ g r,
  KWorld (k_env r) (k_tick r) (expl_head r) (expl_len r) (queue_list r)
    (queue_total r) (queue_show_buf r) (peer_pid r) (k_active_route_timeout r)
    (g (ifihead r)) (k_holds r) (k_res r) (k_out r).
#[export] Instance set_k_holds : Setter k_holds := λ g r,
  KWorld (k_env r) (k_tick r) (expl_head r) (expl_len r) (queue_list r)
    (queue_total r) (queue_show_buf r) (peer_pid r) (k_active_route_timeout r)
    (ifihead r) (g (k_holds r)) (k_res r) (k_out r).
#[export] Instance set_k_res : Setter k_res := λ g r,
  KWorld (k_env r) (k_tick r) (expl_head r) (expl_len r) (queue_list r)
    (queue_total r) (queue_show_buf r) (peer_pid r) (k_active_route_timeout r)
    (ifihead r) (k_holds r) (g (k_res r)) (k_out r).
#[export] Instance set_k_out : Setter k_out := λ g r,
  KWorld (k_env r) (k_tick r) (expl_head r) (expl_len r) (queue_list r)
    (queue_total r) (queue_show_buf r) (peer_pid r) (k_active_route_timeout r)
    (ifihead r) (k_holds r) (k_res r) (g (k_out r)).

(** ** Critical sections *)

Definition KM (A : Type) : Type := kworld → A * kworld.

#[export] Instance KM_ret : MRet KM := λ A a w, (a, w).
#[export] Instance KM_bind : MBind KM := λ A B f m w, let '(a, w') := m w in f a w'.

Definition kgets {A} (f : kworld → A) : KM A := λ w, (f w, w).
Definition kmodify (f : kworld → kworld) : KM unit := λ w, (tt, f w).
Definition kwhen (b : bool) (m : KM unit) : KM unit := if b then m else mret tt.

Definition ktick {A} (f : kenv → nat → A) : KM A := λ w,
  (f (k_env w) (k_tick w), w <| k_tick ::= S |>).

Definition jiffies : KM Z := ktick (λ e n, u32 (ke_jiffies e n)).

(** Whether the next allocation or registration succeeds. *)
Definition kcall : KM bool := ktick ke_ok.

Definition kemit (e : kevent) : KM unit := kmodify (λ w, w <| k_out ::= cons e |>).

(** ** Programs *)

(** [Act op k]: the atomic action [op], then [k].  [Stuck] is an access
    outside a packet, or a loop out of the iterations the model allows. *)
Inductive prog (A : Type) : Type :=
| Ret (a : A)
| Act {B : Type} (op : KM B) (k : B → prog A)
| Stuck.
Arguments Ret {A} a.
Arguments Act {A B} op k.
Arguments Stuck {A}.

#[export] Instance prog_ret : MRet prog := λ A a, Ret a.
#[export] Instance prog_bind : MBind prog := λ A B f,
  fix bind m :=
    match m with
    | Ret a => f a
    | Act op k => Act op (λ b, bind (k b))
    | Stuck => Stuck
    end.

(** A critical section, or an action of its own. *)
Definition locked {A} (m : KM A) : prog A := Act m Ret.

Definition of_option {A} (o : option A) : prog A :=
  match o with Some a => Ret a | None => Stuck end.

Definition pwhen (b : bool) (m : prog unit) : prog unit := if b then m else mret tt.

Fixpoint pfor_each {A} (l : list A) (body : A → prog unit) : prog unit :=
  match l with
  | [] => mret tt
  | x :: l' => body x;; pfor_each l' body
  end.

(** A program that runs alone. *)
Fixpoint run {A} (p : prog A) (w : kworld) : option (A * kworld) :=
  match p with
  | Ret a => Some (a, w)
  | Act op k => let '(b, w') := op w in run (k b) w'
  | Stuck => None
  end.

(** Programs that run concurrently: any of them takes the next step. *)
Inductive kstep : kworld * list (prog unit) → kworld * list (prog unit) → Prop :=
| kstep_act w {B} (op : KM B) (k : B → prog unit) ts1 ts2 :
    kstep (w, ts1 ++ Act op k :: ts2) ((op w).2, ts1 ++ k (op w).1 :: ts2).

(** ** Bytes of a packet *)

(** A field of [n] bytes, and storing bytes, at an offset from the IP header. *)
Definition pkt_ld (d : list Z) (off : Z) (n : nat) : option Z :=
  of_bytes <$> load_bytes d off n.

Definition bytes16 (z : Z) : list Z := [z mod 256; z / 2 ^ 8 mod 256].

(** [iph->ihl << 2]. *)
Definition ip_hl (d : list Z) : option Z :=
  b ← pkt_ld d 0 1; Some (Z.shiftl (Z.land b 15) 2).
Definition ip_tos (d : list Z) : option Z := pkt_ld d 1 1.
Definition ip_tot_len (d : list Z) : option Z := pkt_ld d 2 2.
Definition ip_id (d : list Z) : option Z := pkt_ld d 4 2.
Definition ip_protocol (d : list Z) : option Z := pkt_ld d 9 1.
Definition ip_saddr (d : list Z) : option Z := pkt_ld d 12 4.
Definition ip_daddr (d : list Z) : option Z := pkt_ld d 16 4.

(** ** Errors of the kernel *)

Definition ENOMEM : Z := 12.
Definition EBUSY : Z := 16.
Definition EINVAL : Z := 22.
Definition ENOSPC : Z := 28.
Definition ECOMM : Z := 70.

(** ** Reasoning about programs *)

(** Every run from [w] ends, in a state and with a result satisfying [Q]. *)
Definition kwp {A} (p : prog A) (Q : A → kworld → Prop) (w : kworld) : Prop :=
  match run p w with
  | Some (a, w') => Q a w'
  | None => False
  end.

Section kwp.
Context {A : Type}.
Implicit Types (Q : A → kworld → Prop) (w : kworld).

Lemma run_bind {B} (m : prog B) (f : B → prog A) w :
  run (m ≫= f) w = '(b, w') ← run m w; run (f b) w'.
Proof. revert w. induction m; intros w; simpl; [done| |done]. by case_match. Qed.

Lemma kwp_ret a Q w : Q a w → kwp (mret a) Q w.
Proof. done. Qed.

Lemma kwp_bind {B} (m : prog B) (f : B → prog A) Q w :
  kwp m (λ b w', kwp (f b) Q w') w → kwp (m ≫= f) Q w.
Proof. unfold kwp. rewrite run_bind. destruct (run m w) as [[b w']|]; done. Qed.

Lemma kwp_wand (p : prog A) Q Q' w :
  kwp p Q w → (∀ a w', Q a w' → Q' a w') → kwp p Q' w.
Proof. unfold kwp. destruct (run p w) as [[a w']|]; [eauto|done]. Qed.

Lemma kwp_locked (m : KM A) Q w : Q (m w).1 (m w).2 → kwp (locked m) Q w.
Proof. unfold kwp. simpl. by destruct (m w). Qed.

Lemma kwp_locked_bind {B} (m : KM B) (f : B → prog A) Q w :
  kwp (f (m w).1) Q (m w).2 → kwp (locked m ≫= f) Q w.
Proof. intros H. apply kwp_bind. unfold kwp at 1. simpl. by destruct (m w). Qed.

Lemma kwp_some {B} (o : option B) b (f : B → prog A) Q w :
  o = Some b → kwp (f b) Q w → kwp (of_option o ≫= f) Q w.
Proof. by intros ->. Qed.

Lemma kwp_ends (p : prog A) Q w : kwp p Q w → ∃ a w', run p w = Some (a, w') ∧ Q a w'.
Proof. unfold kwp. destruct (run p w) as [[a w']|]; [by exists a, w'|done]. Qed.

Lemma kwp_run (p : prog A) Q w a w' : run p w = Some (a, w') → Q a w' → kwp p Q w.
Proof. unfold kwp. by intros ->. Qed.
End kwp.

Lemma kwp_pfor_cons {A} (x : A) l body Q w :
  kwp (body x) (λ _ w', kwp (pfor_each l body) Q w') w → kwp (pfor_each (x :: l) body) Q w.
Proof. apply kwp_bind. Qed.

(** ** Invariants of concurrent programs *)

(** Every atomic action of [p], whatever the others do in between, preserves
    [I]. *)
Fixpoint preserves (I : kworld → Prop) {A} (p : prog A) : Prop :=
  match p with
  | Ret _ | Stuck => True
  | Act op k => (∀ w, I w → I (op w).2) ∧ ∀ b, preserves I (k b)
  end.

Section preserves.
Context (I : kworld → Prop).

Lemma preserves_bind {A B} (m : prog A) (f : A → prog B) :
  preserves I m → (∀ a, preserves I (f a)) → preserves I (m ≫= f).
Proof. intros Hm Hf. induction m as [a|C op k IH|]; simpl in *; naive_solver. Qed.

Lemma preserves_ret {A} (a : A) : preserves I (mret a).
Proof. done. Qed.

Lemma preserves_locked {A} (m : KM A) :
  (∀ w, I w → I (m w).2) → preserves I (locked m).
Proof. done. Qed.

Lemma preserves_of_option {A} (o : option A) : preserves I (of_option o).
Proof. by destruct o. Qed.

Lemma preserves_when b (m : prog unit) : preserves I m → preserves I (pwhen b m).
Proof. by destruct b. Qed.

(** A program that preserves [I] does so when it runs alone ... *)
Lemma preserves_run {A} (p : prog A) w a w' :
  preserves I p → I w → run p w = Some (a, w') → I w'.
Proof.
  revert w. induction p as [a0|B op k IH|]; intros w; simpl; [naive_solver| |done].
  intros [Hop Hk] HI. specialize (Hop w HI). destruct (op w) as [b w1].
  intros Hrun. by eapply (IH b w1).
Qed.

(** ... and any number of them do in every interleaving. *)
Lemma preserves_steps w ts w' ts' :
  rtc kstep (w, ts) (w', ts') →
  Forall (preserves I) ts → I w → I w' ∧ Forall (preserves I) ts'.
Proof.
  intros Hst. remember (w, ts) as c eqn:Ec. remember (w', ts') as c' eqn:Ec'.
  revert w ts w' ts' Ec Ec'.
  induction Hst as [c|c1 c2 c3 H1 Hst IH]; intros w ts w' ts' -> Ec'; [by simplify_eq|].
  inversion H1 as [w0 B op k ts1 ts2 Hw Hc2]; subst. intros Hts HI.
  apply Forall_app in Hts as [Ht1 [[Hop Hk] Ht2]%Forall_cons].
  eapply IH; [done|done| |by apply Hop].
  apply Forall_app; split; [done|]. by constructor.
Qed.
End preserves.

(** Walk through a program, leaving its critical sections. *)
Ltac preserves_step :=
  lazymatch goal with
  | |- preserves _ (_ ≫= _) => apply preserves_bind; [|intros ?]
  | |- preserves _ (mret _) => apply preserves_ret
  | |- preserves _ (pwhen _ _) => apply preserves_when
  | |- preserves _ (of_option _) => apply preserves_of_option
  | |- preserves _ (match ?x with _ => _ end) => destruct x
  | |- preserves _ (let _ := _ in _) => cbv zeta
  end.
Create HintDb preserves.
Ltac preserves_auto := repeat (first [solve [auto with preserves nocore] | preserves_step]).
