(* ===== verification/KExpl.v ===== *)
(** * The module's route cache (kaodv/src/kaodv_expl.c)

    The routes the daemon has announced, in a list sorted by expiry time.
    [EXPL_TIMER] is not defined, so no timer runs and an entry is only removed
    by the daemon. *)

From S2P Require Export KState.
From Stdlib Require Import Sorted.

Definition EXPL_MAX_LEN : Z := 1024.

(** ** Inside the critical sections *)

Definition __kaodv_expl_flush : KM unit :=
  kmodify (λ w, w <| expl_head := [] |>
                  <| expl_len := u32 (expl_len w - Z.of_nat (length (expl_head w))) |>).

(** The loop of [__kaodv_expl_add]: before the first entry that expires
    later. *)
Fixpoint expl_insert (e : expl_entry) (l : list expl_entry) : list expl_entry :=
  match l with
  | [] => [e]
  | curr :: l' =>
      if ex_expires e <? ex_expires curr then e :: curr :: l'
      else curr :: expl_insert e l'
  end.

Definition __kaodv_expl_add (e : expl_entry) : KM Z :=
  len ← kgets expl_len;
  if EXPL_MAX_LEN <? len then mret (- ENOSPC)
  else
    head ← kgets expl_head;
    match head with
    | [] => kmodify (λ w, w <| expl_head := [e] |>)
    | _ => kmodify (λ w, w <| expl_head ::= expl_insert e |>)
    end;;
    mret 1.

(** The position of the first entry for [daddr]. *)
Fixpoint expl_scan (daddr : Z) (l : list expl_entry) : option nat :=
  match l with
  | [] => None
  | e :: l' => if ex_daddr e =? daddr then Some 0%nat else S <$> expl_scan daddr l'
  end.

Definition __kaodv_expl_check (daddr : Z) : KM (option nat) :=
  kgets (λ w, expl_scan daddr (expl_head w)).

Definition __kaodv_expl_del (e : option nat) : KM Z :=
  match e with
  | None => mret 0
  | Some i =>
      kmodify (λ w, w <| expl_head ::= delete i |>);;
      kmodify (λ w, w <| expl_len ::= λ n, u32 (n - 1) |>);;
      mret 1
  end.

(** ** The functions of the cache *)

Definition kaodv_expl_del (daddr : Z) : prog Z :=
  locked (e ← __kaodv_expl_check daddr;
          match e with
          | None => mret 0
          | Some _ => __kaodv_expl_del e
          end).

(** The copy [kaodv_expl_get] makes, [None] when it returns 0. *)
Definition kaodv_expl_get (daddr : Z) : prog (option expl_entry) :=
  locked (e ← __kaodv_expl_check daddr;
          match e with
          | None => mret None
          | Some i => kgets (λ w, expl_head w !! i)
          end).

(** [jiffies + (time * HZ) / 1000] in [unsigned long]. *)
Definition expires_after (time : Z) : KM Z :=
  j ← jiffies;
  hz ← kgets (λ w, ke_HZ (k_env w));
  mret (u32 (j + u32 (u32 time * hz) / 1000)).

Definition kaodv_expl_add (daddr nhop time flags ifindex : Z) : prog Z :=
  found ← kaodv_expl_get daddr;
  match found with
  | Some _ => mret 0
  | None =>
      ok ← locked kcall;                                      (* kmalloc *)
      if negb ok then mret (- ENOMEM)
      else
        expires ← locked (expires_after time);
        let e := Expl expires (u16 flags) daddr nhop (s32 ifindex) in
        locked (status ← __kaodv_expl_add e;
                kwhen (negb (status =? 0)) (kmodify (λ w, w <| expl_len ::= λ n, u32 (n + 1) |>));;
                mret status)
  end.

Definition kaodv_expl_update (daddr nhop time flags ifindex : Z) : prog Z :=
  locked (e ← __kaodv_expl_check daddr;
          match e with
          | None => mret (-1)
          | Some i =>
              expires ← expires_after time;
              kmodify (λ w, w <| expl_head ::= delete i |>);;
              _ ← __kaodv_expl_add (Expl expires (u16 flags) daddr nhop (s32 ifindex));
              mret 0
          end).

Definition kaodv_expl_flush : prog unit := locked __kaodv_expl_flush.

(** [proc_create] may fail; the module goes on without the file. *)
Definition kaodv_expl_init : prog unit :=
  locked (ok ← kcall; kwhen ok (kmodify (λ w, w <| k_res ::= cons R_expl_proc |>)));;
  locked (kmodify (λ w, w <| expl_len := 0 |>)).

Definition kaodv_expl_finish : prog unit :=
  kaodv_expl_flush;;
  locked (kmodify (λ w, w <| k_res ::= del R_expl_proc |>)).

(** ** The cache as a map

    The first entry of each destination is the one every function finds. *)

Definition expl_map (w : kworld) : gmap Z expl_entry :=
  list_to_map ((λ e, (ex_daddr e, e)) <$> expl_head w).

Definition expl_daddrs (w : kworld) : list Z := ex_daddr <$> expl_head w.

(** Well-formed: sorted by expiry, at most one entry per destination. *)
Definition sooner (e e' : expl_entry) : Prop := ex_expires e ≤ ex_expires e'.
Definition expl_sorted (w : kworld) : Prop := StronglySorted sooner (expl_head w).
Definition expl_ok (w : kworld) : Prop := expl_sorted w ∧ NoDup (expl_daddrs w).

(** ** Lists of entries *)

Lemma expl_insert_split e l :
  ∃ l1 l2, l = l1 ++ l2 ∧ expl_insert e l = l1 ++ e :: l2 ∧
    Forall (λ x, sooner x e) l1 ∧ (∀ x, head l2 = Some x → ex_expires e < ex_expires x).
Proof.
  induction l as [|c l (l1 & l2 & -> & IH & Hl1 & Hl2)]; simpl; [by exists [], []|].
  case_match; bool_prop.
  - exists [], (c :: l1 ++ l2). split_and!; [done..|by constructor|]. by intros ? [= <-].
  - exists (c :: l1), l2. rewrite IH. split_and!; [done..| |done]. by constructor.
Qed.

Lemma expl_insert_perm e l : expl_insert e l ≡ₚ e :: l.
Proof.
  destruct (expl_insert_split e l) as (l1 & l2 & -> & -> & _). by rewrite Permutation_middle.
Qed.

Lemma expl_insert_sorted e l :
  StronglySorted sooner l → StronglySorted sooner (expl_insert e l).
Proof.
  induction 1 as [|c l Hs IH Hc]; simpl; [repeat constructor|].
  case_match; bool_prop.
  - repeat constructor; [done..|unfold sooner; lia|].
    eapply Forall_impl; [exact Hc|]. unfold sooner. intros; lia.
  - constructor; [done|]. rewrite expl_insert_perm. by constructor.
Qed.

Lemma sorted_delete l i : StronglySorted sooner l → StronglySorted sooner (delete i l).
Proof.
  intros Hs. revert i. induction Hs as [|c l Hs IH Hc]; intros [|i]; simpl; [constructor..|done|].
  constructor; [apply IH|]. apply Forall_delete, Hc.
Qed.

Lemma expl_scan_Some d l i :
  expl_scan d l = Some i → ∃ e l1 l2, l = l1 ++ e :: l2 ∧ length l1 = i ∧ ex_daddr e = d ∧
    d ∉ ex_daddr <$> l1.
Proof.
  revert i. induction l as [|c l IH]; intros i; simpl; [done|].
  case_match; bool_prop.
  - intros [= <-]. exists c, [], l. split_and!; [done..|]. apply not_elem_of_nil.
  - intros (i' & (e & l1 & l2 & -> & <- & Hd & Hl1)%IH & ->)%fmap_Some.
    exists e, (c :: l1), l2. split_and!; [done..|]. simpl. rewrite not_elem_of_cons. naive_solver.
Qed.

Lemma expl_scan_None d l : expl_scan d l = None ↔ d ∉ ex_daddr <$> l.
Proof.
  induction l as [|c l IH]; simpl; [split; [intros; apply not_elem_of_nil|done]|].
  rewrite not_elem_of_cons. case_match; bool_prop.
  - naive_solver.
  - assert (S <$> expl_scan d l = None ↔ expl_scan d l = None) as -> by apply fmap_None.
    rewrite IH. naive_solver.
Qed.

Lemma delete_mid {A} (l1 l2 : list A) x : delete (length l1) (l1 ++ x :: l2) = l1 ++ l2.
Proof. by rewrite delete_middle. Qed.

(** ** The map of a list of entries *)

Definition map_of (l : list expl_entry) : gmap Z expl_entry :=
  list_to_map ((λ e, (ex_daddr e, e)) <$> l).

Lemma fst_entries l : ((λ e, (ex_daddr e, e)) <$> l).*1 = ex_daddr <$> l.
Proof. rewrite <-list_fmap_compose. by apply list_fmap_ext. Qed.

Lemma map_of_None d l : map_of l !! d = None ↔ d ∉ ex_daddr <$> l.
Proof. unfold map_of. rewrite <-not_elem_of_list_to_map. by rewrite fst_entries. Qed.

Lemma map_of_cons e l : map_of (e :: l) = <[ex_daddr e := e]> (map_of l).
Proof. done. Qed.

Lemma map_of_mid e l1 l2 :
  ex_daddr e ∉ ex_daddr <$> l1 → map_of (l1 ++ e :: l2) = <[ex_daddr e := e]> (map_of (l1 ++ l2)).
Proof.
  intros H. induction l1 as [|c l1 IH]; [done|].
  rewrite fmap_cons in H. apply not_elem_of_cons in H as [H1 H2]. simpl.
  rewrite !map_of_cons, IH by done. by rewrite insert_insert_ne.
Qed.

Lemma map_of_perm l l' : NoDup (ex_daddr <$> l) → l ≡ₚ l' → map_of l = map_of l'.
Proof.
  intros Hnd Hp. apply list_to_map_proper; [by rewrite fst_entries|]. by apply fmap_Permutation.
Qed.

Lemma expl_map_lookup_scan d w :
  match expl_scan d (expl_head w) with
  | Some i => ∃ e, expl_head w !! i = Some e ∧ expl_map w !! d = Some e ∧ ex_daddr e = d
  | None => expl_map w !! d = None
  end.
Proof.
  destruct (expl_scan d (expl_head w)) as [i|] eqn:E.
  - apply expl_scan_Some in E as (e & l1 & l2 & Hl & <- & <- & Hn). exists e.
    rewrite Hl. split; [by rewrite list_lookup_middle|].
    change (expl_map w) with (map_of (expl_head w)).
    rewrite Hl, map_of_mid by done. by rewrite lookup_insert_eq.
  - by apply map_of_None, expl_scan_None.
Qed.

(** ** Critical sections on a well-formed cache *)

(** Only the cache (and the count of environment calls) may differ. *)
Definition only_expl (w w' : kworld) : Prop :=
  ∃ h n k, w' = w <| expl_head := h |> <| expl_len := n |> <| k_tick := k |>.

#[export] Instance only_expl_preorder : PreOrder only_expl.
Proof.
  split.
  - intros w. exists (expl_head w), (expl_len w), (k_tick w). by destruct w.
  - intros w1 w2 w3 (h & n & k & ->) (h' & n' & k' & ->). by exists h', n', k'.
Qed.

Lemma only_expl_modify w h n : only_expl w (w <| expl_head := h |> <| expl_len := n |>).
Proof. exists h, n, (k_tick w). by destruct w. Qed.

Lemma only_expl_tick w : only_expl w (w <| k_tick ::= S |>).
Proof. exists (expl_head w), (expl_len w), (S (k_tick w)). by destruct w. Qed.

(** The expiry time [expires_after] computes when the clock shows [j]. *)
Definition expiry (e : kenv) (j time : Z) : Z := u32 (u32 j + u32 (u32 time * ke_HZ e) / 1000).

Lemma expires_after_run time w :
  expires_after time w
  = (expiry (k_env w) (ke_jiffies (k_env w) (k_tick w)) time, w <| k_tick ::= S |>).
Proof. done. Qed.

(** Adding an entry whose destination is not in the cache. *)
Lemma __kaodv_expl_add_run e w :
  __kaodv_expl_add e w
  = if EXPL_MAX_LEN <? expl_len w then (- ENOSPC, w)
    else (1, w <| expl_head := expl_insert e (expl_head w) |>).
Proof.
  unfold __kaodv_expl_add, mbind, KM_bind, kgets. cbn. case_match; [done|].
  by destruct w as [? ? [|c l]].
Qed.

Lemma expl_ok_insert e w :
  expl_ok w → ex_daddr e ∉ expl_daddrs w →
  let w' := w <| expl_head := expl_insert e (expl_head w) |> in
  expl_ok w' ∧ expl_map w' = <[ex_daddr e := e]> (expl_map w).
Proof.
  intros [Hs Hnd] Hn w'.
  assert (NoDup (ex_daddr <$> expl_insert e (expl_head w))) as Hnd'.
  { rewrite expl_insert_perm, fmap_cons. by apply NoDup_cons. }
  split; [split; [by apply expl_insert_sorted|done]|].
  change (map_of (expl_insert e (expl_head w)) = <[ex_daddr e := e]> (map_of (expl_head w))).
  rewrite <-map_of_cons. apply map_of_perm; [done|]. apply expl_insert_perm.
Qed.

Lemma expl_ok_head w w' : expl_head w' = expl_head w → expl_ok w → expl_ok w'.
Proof. unfold expl_ok, expl_sorted, expl_daddrs. by intros ->. Qed.

(** Removing the entry a scan has found. *)
Lemma expl_ok_delete d i w :
  expl_ok w → expl_scan d (expl_head w) = Some i →
  let w' := w <| expl_head ::= delete i |> in
  expl_ok w' ∧ expl_map w' = delete d (expl_map w) ∧ d ∉ expl_daddrs w'.
Proof.
  intros [Hs Hnd] (e & l1 & l2 & Hl & <- & <- & Hn)%expl_scan_Some w'.
  assert (expl_head w' = l1 ++ l2) as Hw' by (unfold w'; cbn; rewrite Hl; apply delete_mid).
  unfold expl_ok, expl_sorted, expl_daddrs in *. rewrite Hw'. rewrite Hl in Hnd.
  rewrite fmap_app, fmap_cons in Hnd.
  apply NoDup_app in Hnd as (Hnd1 & Hd & [Hn2 Hnd2]%NoDup_cons).
  assert (ex_daddr e ∉ ex_daddr <$> l1 ++ l2) as Hn'.
  { rewrite fmap_app, elem_of_app. tauto. }
  split_and!; [|rewrite fmap_app; apply NoDup_app; split_and!; try done; set_solver| |done].
  - rewrite <-(delete_mid l1 l2 e), <-Hl. by apply sorted_delete.
  - change (map_of (expl_head w') = delete (ex_daddr e) (map_of (expl_head w))).
    rewrite Hw', Hl, map_of_mid by done.
    by rewrite delete_insert_eq, delete_id by (by apply map_of_None).
Qed.

Lemma kaodv_expl_get_run d w : run (kaodv_expl_get d) w = Some (expl_map w !! d, w).
Proof.
  pose proof (expl_map_lookup_scan d w) as H.
  unfold kaodv_expl_get, locked, __kaodv_expl_check, mbind, KM_bind, kgets. cbn.
  destruct (expl_scan d (expl_head w)) as [i|].
  - destruct H as (e & Hi & -> & _). cbn. by rewrite Hi.
  - by rewrite H.
Qed.

Lemma kwp_expl_get_bind {A} d (f : option expl_entry → prog A) Q w :
  kwp (f (expl_map w !! d)) Q w → kwp (kaodv_expl_get d ≫= f) Q w.
Proof. intros H. apply kwp_bind. eapply kwp_run; [apply kaodv_expl_get_run|done]. Qed.

Lemma expl_map_None d w : expl_map w !! d = None ↔ d ∉ expl_daddrs w.
Proof. apply map_of_None. Qed.

(** ** Properties of the cache *)

(** The entry an announcement of [d] at time [j] makes. *)
Definition announced_entry (e : kenv) (j d nhop time flags ifindex : Z) : expl_entry :=
  Expl (expiry e j time) (u16 flags) d nhop (s32 ifindex).

(** What [kaodv_expl_add] does when it returns [c] in [w']. *)
Definition add_outcome (d nhop time flags ifindex : Z) (w : kworld) (c : Z) (w' : kworld) : Prop :=
  match expl_map w !! d with
  | Some _ => c = 0 ∧ w' = w
  | None =>
      c = - ENOMEM ∧ ke_ok (k_env w) (k_tick w) = false ∧
        expl_map w' = expl_map w ∧ expl_len w' = expl_len w ∨
      expl_len w' = u32 (expl_len w + 1) ∧
      if EXPL_MAX_LEN <? expl_len w
      then c = - ENOSPC ∧ expl_map w' = expl_map w
      else c = 1 ∧ ∃ j, expl_map w' =
        <[d := announced_entry (k_env w) j d nhop time flags ifindex]> (expl_map w)
  end.

Lemma kwp_expl_add d nhop time flags ifindex w :
  expl_ok w →
  kwp (kaodv_expl_add d nhop time flags ifindex) (λ c w',
    expl_ok w' ∧ only_expl w w' ∧ add_outcome d nhop time flags ifindex w c w') w.
Proof.
  intros Hok. apply kwp_expl_get_bind. unfold add_outcome. destruct (expl_map w !! d) eqn:Hd; [done|].
  apply expl_map_None in Hd. apply kwp_locked_bind. cbn.
  destruct (ke_ok _ _) eqn:Ek; cbn.
  2:{ split_and!; [done|apply only_expl_tick|]. by left. }
  apply kwp_locked_bind. rewrite expires_after_run. apply kwp_locked. cbn.
  unfold mbind, KM_bind. rewrite __kaodv_expl_add_run. cbn.
  set (e := Expl _ _ _ _ _). destruct (EXPL_MAX_LEN <? expl_len w) eqn:E; cbn.
  - split_and!; [done| |by right]. exists (expl_head w), (u32 (expl_len w + 1)), (S (S (k_tick w))).
    by destruct w.
  - pose proof (expl_ok_insert e w Hok Hd) as [Hok' Hmap].
    split_and!; [done| |right; split; [done|]; split; [done|by eexists]].
    by eexists _, _, _.
Qed.

(** What [kaodv_expl_update] does when it returns [c] in [w']. *)
Definition update_outcome (d nhop time flags ifindex : Z) (w : kworld) (c : Z) (w' : kworld) : Prop :=
  match expl_map w !! d with
  | None => c = -1 ∧ w' = w
  | Some _ => c = 0 ∧ expl_len w' = expl_len w ∧
      if EXPL_MAX_LEN <? expl_len w
      then expl_map w' = delete d (expl_map w)
      else ∃ j, expl_map w' =
        <[d := announced_entry (k_env w) j d nhop time flags ifindex]> (expl_map w)
  end.

Lemma kwp_expl_update d nhop time flags ifindex w :
  expl_ok w →
  kwp (kaodv_expl_update d nhop time flags ifindex) (λ c w',
    expl_ok w' ∧ only_expl w w' ∧ update_outcome d nhop time flags ifindex w c w') w.
Proof.
  intros Hok. unfold update_outcome. apply kwp_locked. unfold __kaodv_expl_check, mbind, KM_bind, kgets. cbn.
  pose proof (expl_map_lookup_scan d w) as Hsc.
  destruct (expl_scan d (expl_head w)) as [i|] eqn:E; [|rewrite Hsc; done].
  destruct Hsc as (e0 & _ & -> & _).
  pose proof (expl_ok_delete d i (w <| k_tick ::= S |>) Hok E) as (Hok1 & Hm1 & Hn1).
  rewrite expires_after_run. cbn. rewrite __kaodv_expl_add_run. cbn.
  destruct (EXPL_MAX_LEN <? expl_len w); cbn.
  - split_and!; [exact Hok1| |done..|exact Hm1]. by eexists _, _, _.
  - set (e := Expl _ _ _ _ _). pose proof (expl_ok_insert e _ Hok1 Hn1) as [Hok2 Hm2].
    split_and!; [exact Hok2|by eexists _, _, _|done..|].
    eexists. etrans; [exact Hm2|]. rewrite Hm1. by rewrite insert_delete_eq.
Qed.

Lemma kwp_expl_del d w :
  expl_ok w →
  kwp (kaodv_expl_del d) (λ c w', expl_ok w' ∧ only_expl w w' ∧
    expl_map w' = delete d (expl_map w) ∧
    match expl_map w !! d with
    | None => c = 0 ∧ w' = w
    | Some _ => c = 1 ∧ expl_len w' = u32 (expl_len w - 1)
    end) w.
Proof.
  intros Hok.
  apply kwp_locked. unfold __kaodv_expl_check, mbind, KM_bind, kgets. cbn.
  pose proof (expl_map_lookup_scan d w) as Hsc.
  destruct (expl_scan d (expl_head w)) as [i|] eqn:E.
  - destruct Hsc as (e & _ & -> & _).
    pose proof (expl_ok_delete d i w Hok E) as (Hok1 & Hm1 & _).
    split_and!; [done| |done..]. apply only_expl_modify.
  - rewrite Hsc. split_and!; [done..| |done|done]. by rewrite delete_id.
Qed.

(** [kaodv_expl_add]. A destination that is in the cache is left alone,
    with result 0. Otherwise, unless memory is short, the entry is added in its
    place in the expiry order as long as the counter is at most
    [EXPL_MAX_LEN]; beyond, [-ENOSPC] is returned and the cache is unchanged,
    but the counter goes up all the same. Nothing but the cache changes. *)
Theorem kaodv_expl_add_spec d nhop time flags ifindex w :
  expl_ok w →
  kwp (kaodv_expl_add d nhop time flags ifindex) (λ c w',
    expl_ok w' ∧ only_expl w w' ∧ add_outcome d nhop time flags ifindex w c w') w.
Proof. apply kwp_expl_add. Qed.

(** [kaodv_expl_update]. Without an entry for the destination, -1 is
    returned and nothing changes. Otherwise the entry gets the new next hop,
    flags, interface and expiry, and moves to its place in the order; but when
    the counter exceeds [EXPL_MAX_LEN] the entry is lost, although the result
    is 0, because it is unlinked before the bound is checked. *)
Theorem kaodv_expl_update_spec d nhop time flags ifindex w :
  expl_ok w →
  kwp (kaodv_expl_update d nhop time flags ifindex) (λ c w',
    expl_ok w' ∧ only_expl w w' ∧ update_outcome d nhop time flags ifindex w c w') w.
Proof. apply kwp_expl_update. Qed.

(** [kaodv_expl_del] removes exactly the entry for the destination, if
    there is one, and counts it out; [kaodv_expl_flush] empties the cache. *)
Theorem kaodv_expl_del_spec d w :
  expl_ok w →
  kwp (kaodv_expl_del d) (λ c w', expl_ok w' ∧ only_expl w w' ∧
    expl_map w' = delete d (expl_map w) ∧
    match expl_map w !! d with
    | None => c = 0 ∧ w' = w
    | Some _ => c = 1 ∧ expl_len w' = u32 (expl_len w - 1)
    end) w ∧
  kwp kaodv_expl_flush (λ _ w', expl_map w' = ∅ ∧ only_expl w w' ∧
    expl_len w' = u32 (expl_len w - Z.of_nat (length (expl_head w)))) w.
Proof.
  intros Hok. split; [by apply kwp_expl_del|].
  apply kwp_locked. split_and!; [done| |done]. apply only_expl_modify.
Qed.

Lemma expl_add_full d nhop time flags ifindex w :
  EXPL_MAX_LEN < expl_len w → expl_map w !! d = None → (∀ n, ke_ok (k_env w) n = true) →
  run (kaodv_expl_add d nhop time flags ifindex) w
  = Some (- ENOSPC, w <| k_tick ::= λ n, S (S n) |> <| expl_len ::= λ n, u32 (n + 1) |>).
Proof.
  intros Hfull Hd Hok. unfold kaodv_expl_add. rewrite run_bind, kaodv_expl_get_run, Hd. cbn.
  rewrite Hok. cbn. rewrite expires_after_run. unfold mbind, KM_bind. rewrite __kaodv_expl_add_run. cbn.
  by rewrite (proj2 (Z.ltb_lt _ _) Hfull).
Qed.


(** ** Concurrent use

    Each critical section keeps the order and works on whatever it finds. *)

Lemma sorted_add e w : expl_sorted w → expl_sorted (__kaodv_expl_add e w).2.
Proof.
  intros. rewrite __kaodv_expl_add_run. case_match; [done|]. by apply expl_insert_sorted.
Qed.

Lemma sorted_tick {A} (f : kenv → nat → A) w : expl_sorted w → expl_sorted (ktick f w).2.
Proof. done. Qed.

Lemma preserves_sorted_get d : preserves expl_sorted (kaodv_expl_get d).
Proof.
  apply preserves_locked. intros w Hs. unfold mbind, KM_bind. cbn. by case_match.
Qed.

Lemma preserves_sorted_add d nhop time flags ifindex :
  preserves expl_sorted (kaodv_expl_add d nhop time flags ifindex).
Proof.
  apply preserves_bind; [apply preserves_sorted_get|]. intros [e|]; [done|].
  apply preserves_bind; [apply preserves_locked; intros w Hs; exact Hs|]. intros [|]; [|done].
  apply preserves_bind; [apply preserves_locked; intros w Hs; exact Hs|]. intros expires.
  apply preserves_locked. intros w Hs. unfold mbind, KM_bind, kwhen.
  pose proof (sorted_add (Expl expires (u16 flags) d nhop (s32 ifindex)) w Hs) as H.
  destruct (__kaodv_expl_add _ w) as [c w'].
  destruct (negb (c =? 0)); exact H.
Qed.

Lemma preserves_sorted_update d nhop time flags ifindex :
  preserves expl_sorted (kaodv_expl_update d nhop time flags ifindex).
Proof.
  apply preserves_locked. intros w Hs. unfold mbind, KM_bind. cbn.
  destruct (expl_scan d (expl_head w)) as [i|]; [|done]. rewrite expires_after_run. cbn.
  set (w1 := _ <| expl_head ::= _ |>). assert (expl_sorted w1) as H1 by by apply sorted_delete.
  set (e := Expl _ _ _ _ _). pose proof (sorted_add e w1 H1).
  by destruct (__kaodv_expl_add e w1).
Qed.

Lemma preserves_sorted_del d : preserves expl_sorted (kaodv_expl_del d).
Proof.
  apply preserves_locked. intros w Hs. unfold mbind, KM_bind. cbn.
  destruct (expl_scan d (expl_head w)) as [i|]; [|done]. by apply sorted_delete.
Qed.

Lemma preserves_sorted_flush : preserves expl_sorted kaodv_expl_flush.
Proof. apply preserves_locked. intros. constructor. Qed.

(** An action that leaves the entries alone. *)
Lemma preserves_sorted_frame {A} (m : KM A) :
  (∀ w, expl_head (m w).2 = expl_head w) → preserves expl_sorted (locked m).
Proof. intros H. apply preserves_locked. unfold expl_sorted. intros w. by rewrite H. Qed.

#[export] Hint Resolve preserves_sorted_get preserves_sorted_add preserves_sorted_update
  preserves_sorted_del preserves_sorted_flush : preserves.
#[export] Hint Extern 2 (preserves expl_sorted (locked _)) =>
  apply preserves_sorted_frame; intros; reflexivity : preserves.
