(* ===== verification/KIpenc.v ===== *)
(** * Minimal IP encapsulation (kaodv/src/kaodv_ipenc.c)

    A packet for a destination behind a gateway gets the gateway as its
    destination and, between its IP header and its data, an 8-byte header with
    the original protocol and destination (RFC 2004). Both functions work on
    the bytes of the packet; every access outside them is [Stuck]. *)

From S2P Require Export KState.

Definition IPPROTO_MIPE : Z := 55.

(** [sizeof(struct min_ipenc_hdr)] and the offsets of its fields; [res] and
    [s] share the second byte. *)
Definition sizeof_min_ipenc_hdr : Z := 8.
Definition MIPE_OFF_PROTOCOL : Z := 0.
Definition MIPE_OFF_S : Z := 1.
Definition MIPE_OFF_CHECK : Z := 2.
Definition MIPE_OFF_DADDR : Z := 4.

(** The loop of [ip_csum] over the 16-bit words from [off] on. *)
Fixpoint ip_csum_loop (d : list Z) (off : Z) (nshorts : nat) (sum : Z) : option Z :=
  match nshorts with
  | O => Some sum
  | S n => v ← pkt_ld d off 2; ip_csum_loop d (off + 2) n (u32 (sum + v))
  end.

Definition csum_fold (sum : Z) : Z :=
  let sum := u32 (Z.shiftr sum 16 + Z.land sum 0xffff) in
  let sum := u32 (sum + Z.shiftr sum 16) in
  u16 (Z.lnot sum).

Definition ip_csum (d : list Z) (off : Z) (nshorts : nat) : option Z :=
  csum_fold <$> ip_csum_loop d off nshorts 0.

(** [memcpy] of the first [hl] bytes and of the rest, [skb_put] having added
    room for the new header. *)
Definition make_room (d : list Z) : option (list Z) :=
  hl ← ip_hl d;
  let len := Z.of_nat (length d) in
  hdr ← load_bytes d 0 (Z.to_nat hl);
  data ← (if hl <=? len then load_bytes d hl (Z.to_nat (len - hl)) else None);
  n ← store_bytes (d ++ replicate 8 0) 0 hdr;
  store_bytes n (hl + sizeof_min_ipenc_hdr) data.

(** The fields of the new header but the checksum, from the IP header. *)
Definition fill_mip (n : list Z) : option (list Z) :=
  hl ← ip_hl n;
  protocol ← ip_protocol n;
  n ← store_bytes n (hl + MIPE_OFF_PROTOCOL) [protocol];
  n ← store_bytes n (hl + MIPE_OFF_S) [0];
  n ← store_bytes n (hl + MIPE_OFF_CHECK) (bytes16 0);
  daddr ← ip_daddr n;
  store_bytes n (hl + MIPE_OFF_DADDR) (bytes32 daddr).

(** The new fields of the IP header. *)
Definition fill_ip (dest : Z) (n : list Z) : option (list Z) :=
  n ← store_bytes n 16 (bytes32 dest);
  n ← store_bytes n 9 [IPPROTO_MIPE];
  tot_len ← ip_tot_len n;
  store_bytes n 2 (bytes16 (swap16 (u16 (swap16 tot_len + sizeof_min_ipenc_hdr)))).

Definition fill_check (n : list Z) : option (list Z) :=
  hl ← ip_hl n;
  check ← ip_csum n hl 4;
  store_bytes n (hl + MIPE_OFF_CHECK) (bytes16 check).

Definition encapsulated (e : kenv) (dest : Z) (d : list Z) : option (list Z) :=
  n ← make_room d;
  n ← fill_mip n;
  n ← fill_ip dest n;
  n ← fill_check n;
  let n := ke_send_check e n in
  id ← ip_id n;
  Some (if id =? 0 then ke_select_ident e n else n).

Definition ip_pkt_encapsulate (skb : sk_buff) (dest : Z) : prog (option sk_buff) :=
  ok ← locked kcall;                                          (* skb_copy_expand *)
  if negb ok then locked (kemit (KEvFree skb));; mret None
  else
    e ← locked (kgets k_env);
    n ← of_option (encapsulated e dest (skb_data skb));
    locked (kemit (KEvFree skb));;
    mret (Some (Skb n (skb_sk skb))).

Definition decapsulated (e : kenv) (d : list Z) : option (list Z) :=
  hl ← ip_hl d;
  protocol ← pkt_ld d (hl + MIPE_OFF_PROTOCOL) 1;
  d ← store_bytes d 9 [protocol];
  daddr ← pkt_ld d (hl + MIPE_OFF_DADDR) 4;
  d ← store_bytes d 16 (bytes32 daddr);
  let len := Z.of_nat (length d) in
  data ← (if hl + sizeof_min_ipenc_hdr <=? len
          then load_bytes d (hl + sizeof_min_ipenc_hdr) (Z.to_nat (len - hl - sizeof_min_ipenc_hdr))
          else None);
  d ← store_bytes d hl data;
  let d := take (Z.to_nat (len - sizeof_min_ipenc_hdr)) d in         (* skb_trim *)
  tot_len ← ip_tot_len d;
  d ← store_bytes d 2 (bytes16 (swap16 (u16 (swap16 tot_len - sizeof_min_ipenc_hdr))));
  Some (ke_send_check e d).

Definition ip_pkt_decapsulate (skb : sk_buff) : prog sk_buff :=
  e ← locked (kgets k_env);
  d ← of_option (decapsulated e (skb_data skb));
  mret (skb <| skb_data := d |>).

(** ** Loads and stores in the parts of a packet *)

Lemma load_app_l l1 l2 off n :
  off + Z.of_nat n ≤ Z.of_nat (length l1) → load_bytes (l1 ++ l2) off n = load_bytes l1 off n.
Proof.
  intros H. unfold load_bytes. rewrite length_app.
  destruct (0 <=? off) eqn:E; [|done]. bool_prop. simpl.
  rewrite !(proj2 (Z.leb_le _ _)) by lia.
  by rewrite drop_app_le, take_app_le by (rewrite ?length_drop; lia).
Qed.

Lemma load_app_r l1 l2 off n :
  0 ≤ off → load_bytes (l1 ++ l2) (Z.of_nat (length l1) + off) n = load_bytes l2 off n.
Proof.
  intros H. unfold load_bytes. rewrite length_app, Nat2Z.inj_add.
  rewrite !(proj2 (Z.leb_le 0 _)) by lia. simpl.
  replace (Z.of_nat (length l1) + off + Z.of_nat n <=?
    Z.of_nat (length l1) + Z.of_nat (length l2)) with (off + Z.of_nat n <=? Z.of_nat (length l2)).
  2:{ apply eq_bool_prop_intro. rewrite !Is_true_true, !Z.leb_le. lia. }
  case_match; [|done]. do 2 f_equal. rewrite drop_app_ge by lia. f_equal. lia.
Qed.

Lemma load_all l : load_bytes l 0 (length l) = Some l.
Proof.
  unfold load_bytes. rewrite !(proj2 (Z.leb_le _ _)) by lia. simpl. by rewrite take_ge.
Qed.

Lemma store_app_l l1 l2 off bs :
  off + Z.of_nat (length bs) ≤ Z.of_nat (length l1) →
  store_bytes (l1 ++ l2) off bs = (λ l, l ++ l2) <$> store_bytes l1 off bs.
Proof.
  intros H. unfold store_bytes. rewrite length_app.
  destruct (0 <=? off) eqn:E; [|done]. bool_prop. simpl.
  rewrite !(proj2 (Z.leb_le _ _)) by lia. cbn. f_equal.
  rewrite take_app_le, drop_app_le by lia. by rewrite <-!(assoc_L (++)).
Qed.

Lemma store_app_r l1 l2 off bs :
  0 ≤ off → store_bytes (l1 ++ l2) (Z.of_nat (length l1) + off) bs = app l1 <$> store_bytes l2 off bs.
Proof.
  intros H. unfold store_bytes. rewrite length_app, Nat2Z.inj_add.
  rewrite !(proj2 (Z.leb_le 0 _)) by lia. simpl.
  replace (Z.of_nat (length l1) + off + Z.of_nat (length bs) <=?
    Z.of_nat (length l1) + Z.of_nat (length l2))
    with (off + Z.of_nat (length bs) <=? Z.of_nat (length l2)).
  2:{ apply eq_bool_prop_intro. rewrite !Is_true_true, !Z.leb_le. lia. }
  case_match; [|done]. cbn. f_equal. replace (Z.to_nat (Z.of_nat (length l1) + off))
    with (length l1 + Z.to_nat off)%nat by lia.
  rewrite take_app_add', <-(assoc_L (++)) by done. do 3 f_equal.
  rewrite <-Nat.add_assoc. by rewrite drop_app_add'.
Qed.

Lemma store_all l bs : length bs = length l → store_bytes l 0 bs = Some bs.
Proof.
  intros H. unfold store_bytes. rewrite !(proj2 (Z.leb_le _ _)) by lia. simpl.
  by rewrite drop_ge, app_nil_r by lia.
Qed.

(** ** Packets by their parts

    [(h ++ opts) ++ mip ++ data]: 20 bytes of IP header, options, the
    encapsulation header, data. *)

Section parts.
Context (h opts mip data : list Z) (hl : Z).
Hypothesis (Hh : length h = 20%nat) (Hhl : hl = Z.of_nat (length (h ++ opts))).

Lemma ld_hdr off n rest :
  off + Z.of_nat n ≤ 20 → load_bytes ((h ++ opts) ++ rest) off n = load_bytes h off n.
Proof.
  intros. rewrite load_app_l by (rewrite length_app; lia). apply load_app_l. lia.
Qed.

Lemma st_hdr off bs h' rest :
  off + Z.of_nat (length bs) ≤ 20 → store_bytes h off bs = Some h' →
  store_bytes ((h ++ opts) ++ rest) off bs = Some ((h' ++ opts) ++ rest).
Proof.
  intros ? E. rewrite store_app_l by (rewrite length_app; lia).
  rewrite store_app_l by lia. by rewrite E.
Qed.

Lemma ld_mip k n :
  0 ≤ k → k + Z.of_nat n ≤ Z.of_nat (length mip) →
  load_bytes ((h ++ opts) ++ mip ++ data) (hl + k) n = load_bytes mip k n.
Proof. intros. rewrite Hhl, load_app_r by done. by apply load_app_l. Qed.

Lemma st_mip k bs mip' :
  0 ≤ k → k + Z.of_nat (length bs) ≤ Z.of_nat (length mip) → store_bytes mip k bs = Some mip' →
  store_bytes ((h ++ opts) ++ mip ++ data) (hl + k) bs = Some ((h ++ opts) ++ mip' ++ data).
Proof.
  intros ?? E. rewrite Hhl, store_app_r, store_app_l by done. by rewrite E.
Qed.

Lemma ld_data n :
  n = length data →
  load_bytes ((h ++ opts) ++ mip ++ data) (hl + Z.of_nat (length mip)) n = Some data.
Proof.
  intros ->. rewrite Hhl, load_app_r by lia. rewrite <-(Z.add_0_r (Z.of_nat (length mip))).
  rewrite load_app_r by lia. apply load_all.
Qed.
End parts.

(** The folded sum, by the high and the low half of the sum. *)
Lemma csum_fold_halves q r :
  0 ≤ q < 4 → 0 ≤ r < 65536 →
  csum_fold (65536 * q + r) = 65535 - (if q + r <? 65536 then q + r else q + r - 65535).
Proof.
  intros Hq Hr. unfold csum_fold. rewrite !Z.shiftr_div_pow2 by lia.
  change 0xffff with (Z.ones 16). rewrite Z.land_ones by lia.
  change (Z.ones 16) with 65535. change (2 ^ 16) with 65536.
  replace ((65536 * q + r) / 65536) with q by (apply Z.div_unique with r; lia).
  replace ((65536 * q + r) mod 65536) with r by (apply Z.mod_unique with q; lia).
  rewrite (u32_small (q + r)) by lia. unfold u16, Z.lnot, Z.pred. change (2 ^ 16) with 65536.
  case_match; bool_prop.
  - rewrite (Z.div_small (q + r)), u32_small by lia. symmetry. apply Z.mod_unique with (-1); lia.
  - replace ((q + r) / 65536) with 1 by (apply Z.div_unique with (q + r - 65536); lia).
    rewrite u32_small by lia. symmetry. apply Z.mod_unique with (-2); lia.
Qed.

(** The checksum of the encapsulation header makes the header sum to all
    ones, the end-around carries included. *)
Lemma csum_fold_check s :
  0 ≤ s < 3 * 65536 → 0 ≤ csum_fold s < 65536 ∧ csum_fold (s + csum_fold s) = 0.
Proof.
  intros Hs. rewrite (Z.div_mod s 65536) by lia.
  assert (0 ≤ s / 65536 < 3) by (split; [apply Z.div_pos|apply Z.div_lt_upper_bound]; lia).
  pose proof (Z.mod_pos_bound s 65536 ltac:(lia)).
  set (q := s / 65536) in *. set (r := s mod 65536) in *.
  rewrite csum_fold_halves by lia. case_match; bool_prop; (split; [lia|]).
  - replace (65536 * q + r + (65535 - (q + r))) with (65536 * q + (65535 - q)) by lia.
    rewrite csum_fold_halves by lia. rewrite (proj2 (Z.ltb_lt _ _)); lia.
  - replace (65536 * q + r + (65535 - (q + r - 65535))) with (65536 * (q + 1) + (65535 - (q + 1))) by lia.
    rewrite csum_fold_halves by lia. rewrite (proj2 (Z.ltb_lt _ _)); lia.
Qed.

Lemma u32_add_l x y : u32 (u32 x + y) = u32 (x + y).
Proof. unfold u32. by rewrite Zplus_mod_idemp_l. Qed.

(** ** The encapsulated packet *)

Section encapsulation.
Context (h opts data : list Z) (hl : Z).
Hypothesis (Hh : length h = 20%nat) (Hhl : hl = Z.of_nat (length (h ++ opts))).

Lemma pkt_ld_hdr h' off n rest :
  length h' = 20%nat → off + Z.of_nat n ≤ 20 → pkt_ld ((h' ++ opts) ++ rest) off n = pkt_ld h' off n.
Proof. intros. unfold pkt_ld. f_equal. by apply ld_hdr. Qed.

Lemma pkt_ld_mip mip k n :
  0 ≤ k → k + Z.of_nat n ≤ Z.of_nat (length mip) →
  pkt_ld ((h ++ opts) ++ mip ++ data) (hl + k) n = pkt_ld mip k n.
Proof. intros. unfold pkt_ld. f_equal. by apply ld_mip. Qed.

Lemma make_room_form :
  ip_hl h = Some hl →
  ∃ mip, length mip = 8%nat ∧
    make_room ((h ++ opts) ++ data) = Some ((h ++ opts) ++ mip ++ data).
Proof.
  intros Hip.
  assert (ip_hl ((h ++ opts) ++ data) = Some hl) as Hip'.
  { rewrite <-Hip. unfold ip_hl. f_equal. by apply pkt_ld_hdr. }
  set (z := data ++ replicate 8 0).
  assert (length z = (8 + length data)%nat) as Hz.
  { unfold z. rewrite length_app, length_replicate. lia. }
  exists (take 8 z). split; [rewrite length_take; lia|].
  unfold make_room. rewrite Hip'. cbn [mbind option_bind].
  rewrite <-(assoc_L (++) (h ++ opts) data). fold z.
  rewrite (load_app_l (h ++ opts) data 0) by (rewrite Hhl, Nat2Z.id; lia).
  rewrite Hhl at 1. rewrite Nat2Z.id, load_all. cbn [mbind option_bind].
  rewrite (proj2 (Z.leb_le _ _)) by (rewrite length_app; lia).
  rewrite Hhl at 1. rewrite <-(Z.add_0_r (Z.of_nat (length (h ++ opts)))) at 1.
  rewrite load_app_r by lia.
  replace (Z.to_nat _) with (length data) by (rewrite length_app; lia).
  rewrite load_all. cbn [mbind option_bind].
  rewrite store_app_l, store_all by (rewrite ?length_app; lia). cbn [fmap option_fmap option_map mbind option_bind].
  rewrite Hhl at 1. rewrite store_app_r by done.
  rewrite <-(take_drop 8 z) at 1.
  replace sizeof_min_ipenc_hdr with (Z.of_nat (length (take 8 z)) + 0)
    by (unfold sizeof_min_ipenc_hdr; rewrite length_take; lia).
  rewrite store_app_r by done. rewrite store_all by (rewrite length_drop; lia). done.
Qed.

Definition word16 (a b : Z) : Z := a + 256 * (b + 256 * 0).

Lemma ip_csum_mip m0 m1 m2 m3 m4 m5 m6 m7 :
  Forall (λ b, 0 ≤ b < 256) [m0; m1; m2; m3; m4; m5; m6; m7] →
  ip_csum ((h ++ opts) ++ [m0; m1; m2; m3; m4; m5; m6; m7] ++ data) hl 4
  = Some (csum_fold (word16 m0 m1 + word16 m2 m3 + word16 m4 m5 + word16 m6 m7)).
Proof.
  intros Hb. rewrite !Forall_cons in Hb. set (mip := [m0; m1; m2; m3; m4; m5; m6; m7]).
  assert (length mip = 8%nat) as Hlen by done.
  assert (pkt_ld mip 0 2 = Some (word16 m0 m1) ∧ pkt_ld mip 2 2 = Some (word16 m2 m3) ∧
    pkt_ld mip 4 2 = Some (word16 m4 m5) ∧ pkt_ld mip 6 2 = Some (word16 m6 m7))
    as (H0 & H2 & H4 & H6) by done.
  clearbody mip. unfold ip_csum, ip_csum_loop.
  replace (pkt_ld _ hl 2) with (pkt_ld ((h ++ opts) ++ mip ++ data) (hl + 0) 2)
    by (by rewrite Z.add_0_r).
  rewrite <-!Z.add_assoc, !pkt_ld_mip by (rewrite ?Hlen; lia).
  change (2 + 2) with 4. change (2 + 4) with 6.
  rewrite H0, H2, H4, H6. cbn. unfold word16.
  destruct_and! Hb. do 2 f_equal. repeat (rewrite <-?Z.add_assoc; rewrite u32_add_l).
  rewrite u32_small; lia.
Qed.
End encapsulation.

(** A header byte by byte: the first one, the two of the total length, the
    five before the protocol, the protocol, the six up to the destination, and
    the destination. *)
Definition ip_header (b0 tos t0 t1 : Z) (mid : Z * Z * Z * Z * Z) (p : Z)
    (csum_src : Z * Z * Z * Z * Z * Z) (daddr : list Z) : list Z :=
  let '(i0, i1, f0, f1, ttl) := mid in
  let '(c0, c1, s0, s1, s2, s3) := csum_src in
  [b0; tos; t0; t1; i0; i1; f0; f1; ttl; p; c0; c1; s0; s1; s2; s3] ++ daddr.

(** The total length, in network byte order, with [n] more; its two bytes. *)
Definition tot_len_plus (t0 t1 n : Z) : Z := swap16 (u16 (swap16 (word16 t0 t1) + n)).
Definition lo8 (x : Z) : Z := x mod 256.
Definition hi8 (x : Z) : Z := x / 2 ^ 8 mod 256.

Definition mip_check (p : Z) (daddr : list Z) : Z :=
  let word i := word16 (default 0 (daddr !! i)) (default 0 (daddr !! S i)) in
  csum_fold (word16 p 0 + word 0%nat + word 2%nat).

Definition mip_header (p : Z) (daddr : list Z) : list Z :=
  ([p; 0] ++ bytes16 (mip_check p daddr)) ++ daddr.

Lemma bytes32_of_bytes4 l :
  length l = 4%nat → Forall (λ b, 0 ≤ b < 256) l → bytes32 (of_bytes l) = l.
Proof. destruct l as [|a [|b [|c [|d [|]]]]]; try done. intros _. apply bytes32_of_bytes. Qed.

Lemma store_mip_daddr p x4 x5 x6 x7 l :
  length l = 4%nat → store_bytes [p; 0; 0; 0; x4; x5; x6; x7] 4 l = Some ([p; 0; 0; 0] ++ l).
Proof. by destruct l as [|? [|? [|? [|? [|]]]]]. Qed.

Section headers.
Context (b0 tos t0 t1 : Z) (mid : Z * Z * Z * Z * Z) (p : Z) (cs : Z * Z * Z * Z * Z * Z).
Context (daddr opts data : list Z) (hl : Z).
Let h := ip_header b0 tos t0 t1 mid p cs daddr.
Hypothesis (Hd : length daddr = 4%nat) (Hhl : hl = Z.of_nat (length (h ++ opts))).

Lemma ip_header_facts :
  length h = 20%nat ∧ ip_protocol h = Some p ∧ ip_daddr h = Some (of_bytes daddr) ∧
  ip_tot_len h = Some (word16 t0 t1) ∧
  ip_hl h = Some (Z.shiftl (Z.land b0 15) 2) ∧
  (∀ a b, store_bytes h 2 [a; b] = Some (ip_header b0 tos a b mid p cs daddr)) ∧
  (∀ q, store_bytes h 9 [q] = Some (ip_header b0 tos t0 t1 mid q cs daddr)) ∧
  (∀ l, length l = 4%nat → store_bytes h 16 l = Some (ip_header b0 tos t0 t1 mid p cs l)).
Proof.
  unfold h. destruct mid as [[[[i0 i1] f0] f1] ttl]. destruct cs as [[[[[c0 c1] s0] s1] s2] s3].
  destruct daddr as [|a0 [|a1 [|a2 [|a3 [|]]]]]; try done. unfold ip_protocol, ip_hl, pkt_ld.
  split_and!; try done.
  - change (Some (p + 256 * 0) = Some p). f_equal. lia.
  - change (Some (Z.shiftl (Z.land (b0 + 256 * 0) 15) 2) = Some (Z.shiftl (Z.land b0 15) 2)).
    by rewrite Z.mul_0_r, Z.add_0_r.
  - intros l Hl. by destruct l as [|? [|? [|? [|? [|]]]]].
Qed.

Lemma ip_fields rest :
  let d := (h ++ opts) ++ rest in
  ip_protocol d = Some p ∧ ip_daddr d = Some (of_bytes daddr) ∧
  ip_tot_len d = Some (word16 t0 t1) ∧ ip_hl d = Some (Z.shiftl (Z.land b0 15) 2).
Proof.
  destruct ip_header_facts as (Hh & Hp & Ha & Ht & Hi & _). cbv zeta.
  unfold ip_protocol, ip_daddr, ip_tot_len, ip_hl in *.
  by rewrite !pkt_ld_hdr by done.
Qed.

Hypothesis (Hip : Z.shiftl (Z.land b0 15) 2 = hl).

Lemma fill_mip_form mip :
  length mip = 8%nat → Forall (λ b, 0 ≤ b < 256) daddr →
  fill_mip ((h ++ opts) ++ mip ++ data) = Some ((h ++ opts) ++ ([p; 0; 0; 0] ++ daddr) ++ data).
Proof.
  intros Hmip Ha. destruct ip_header_facts as (Hh & _).
  destruct mip as [|x0 [|x1 [|x2 [|x3 [|x4 [|x5 [|x6 [|x7 [|]]]]]]]]]; try done.
  unfold fill_mip.
  destruct (ip_fields ([x0; x1; x2; x3; x4; x5; x6; x7] ++ data)) as (-> & _ & _ & ->).
  rewrite Hip. cbn [mbind option_bind].
  rewrite (st_mip h opts _ data hl Hhl _ [p] [p; x1; x2; x3; x4; x5; x6; x7]) by done.
  cbn [mbind option_bind].
  rewrite (st_mip h opts _ data hl Hhl _ [0] [p; 0; x2; x3; x4; x5; x6; x7]) by done.
  cbn [mbind option_bind].
  rewrite (st_mip h opts _ data hl Hhl _ (bytes16 0) [p; 0; 0; 0; x4; x5; x6; x7]) by done.
  cbn [mbind option_bind].
  destruct (ip_fields ([p; 0; 0; 0; x4; x5; x6; x7] ++ data)) as (_ & -> & _).
  cbn [mbind option_bind]. rewrite bytes32_of_bytes4 by done.
  apply (st_mip h opts _ data hl Hhl _ daddr); [done|by rewrite Hd|].
  by apply store_mip_daddr.
Qed.

Lemma fill_ip_form dest rest :
  let x := tot_len_plus t0 t1 8 in
  fill_ip dest ((h ++ opts) ++ rest)
  = Some ((ip_header b0 tos (lo8 x) (hi8 x) mid IPPROTO_MIPE cs (bytes32 dest) ++ opts) ++ rest).
Proof.
  destruct ip_header_facts as (Hh & _ & _ & _ & _ & _ & _ & H16). unfold fill_ip.
  rewrite (st_hdr h opts Hh 16 (bytes32 dest) _ rest ltac:(done) (H16 (bytes32 dest) eq_refl)).
  cbn [mbind option_bind].
  destruct mid as [[[[i0 i1] f0] f1] ttl]. destruct cs as [[[[[c0 c1] s0] s1] s2] s3].
  rewrite (st_hdr (ip_header b0 tos t0 t1 (i0, i1, f0, f1, ttl) p (c0, c1, s0, s1, s2, s3)
    (bytes32 dest)) opts eq_refl 9 [IPPROTO_MIPE] (ip_header b0 tos t0 t1 (i0, i1, f0, f1, ttl)
    IPPROTO_MIPE (c0, c1, s0, s1, s2, s3) (bytes32 dest))) by done.
  cbn [mbind option_bind]. unfold ip_tot_len. rewrite pkt_ld_hdr by done.
  set (h2 := ip_header b0 tos t0 t1 _ IPPROTO_MIPE _ _).
  change (pkt_ld h2 2 2) with (Some (word16 t0 t1)). cbn [mbind option_bind].
  by apply (st_hdr h2 opts eq_refl 2).
Qed.

Lemma fill_check_form q dd :
  length dd = 4%nat → Forall (λ b, 0 ≤ b < 256) (q :: dd) →
  fill_check ((h ++ opts) ++ ([q; 0; 0; 0] ++ dd) ++ data)
  = Some ((h ++ opts) ++ mip_header q dd ++ data).
Proof.
  intros Hdd [Hq Ha]%Forall_cons. destruct ip_header_facts as (Hh & _).
  unfold fill_check. destruct (ip_fields (([q; 0; 0; 0] ++ dd) ++ data)) as (_ & _ & _ & ->).
  rewrite Hip. cbn [mbind option_bind].
  destruct dd as [|a0 [|a1 [|a2 [|a3 [|]]]]]; try done.
  rewrite !Forall_cons in Ha. destruct_and! Ha.
  change ([q; 0; 0; 0] ++ [a0; a1; a2; a3]) with [q; 0; 0; 0; a0; a1; a2; a3].
  rewrite (ip_csum_mip h opts data hl Hh Hhl) by (repeat constructor; lia).
  cbn [mbind option_bind].
  rewrite (st_mip h opts [q; 0; 0; 0; a0; a1; a2; a3] data hl Hhl _ _
    (mip_header q [a0; a1; a2; a3])); [done|done|done|].
  change (Some [q; 0; lo8 (csum_fold (word16 q 0 + word16 0 0 + word16 a0 a1 + word16 a2 a3));
    hi8 (csum_fold (word16 q 0 + word16 0 0 + word16 a0 a1 + word16 a2 a3)); a0; a1; a2; a3]
    = Some (mip_header q [a0; a1; a2; a3])).
  replace (word16 q 0 + word16 0 0) with (word16 q 0) by (unfold word16; lia). done.
Qed.
End headers.

(** ** Byte order of the total length *)

Lemma lor_low_byte a b : 0 ≤ b < 2 ^ 8 → Z.lor (Z.shiftl a 8) b = 256 * a + b.
Proof.
  intros Hb. assert (Z.land (Z.shiftl a 8) b = 0) as H0.
  { apply Z.bits_inj'. intros n Hn. rewrite Z.land_spec, Z.bits_0, Z.shiftl_spec by done.
    destruct (decide (n < 8)); [by rewrite Z.testbit_neg_r by lia|].
    rewrite <-(Z.mod_small b (2 ^ 8)) by lia.
    rewrite Z.mod_pow2_bits_high by lia. apply andb_false_r. }
  rewrite <-Z.lxor_lor, <-Z.add_nocarry_lxor, Z.shiftl_mul_pow2 by done. lia.
Qed.

Lemma word16_bytes x : 0 ≤ x < 2 ^ 16 → word16 (lo8 x) (hi8 x) = x.
Proof.
  intros. unfold word16, lo8, hi8. change (2 ^ 8) with 256.
  assert (x / 256 < 256) by (apply Z.div_lt_upper_bound; lia).
  assert (0 ≤ x / 256) by (apply Z.div_pos; lia).
  rewrite (Z.mod_small (x / 256)) by lia. pose proof (Z.div_mod x 256 ltac:(lia)). lia.
Qed.

Lemma swap16_word a b : 0 ≤ a < 256 → 0 ≤ b < 256 → swap16 (word16 a b) = word16 b a.
Proof.
  intros. unfold swap16, word16. change 255 with (Z.ones 8).
  rewrite Z.land_ones, Z.shiftr_div_pow2 by lia. change (2 ^ 8) with 256.
  replace ((a + 256 * (b + 256 * 0)) mod 256) with a by (apply Z.mod_unique with b; lia).
  replace ((a + 256 * (b + 256 * 0)) / 256) with b by (apply Z.div_unique with a; lia).
  rewrite lor_low_byte by lia. lia.
Qed.

Lemma byte_word a b : 0 ≤ a < 256 → 0 ≤ b < 256 → lo8 (word16 a b) = a ∧ hi8 (word16 a b) = b.
Proof.
  intros. unfold lo8, hi8, word16. change (2 ^ 8) with 256. split.
  - symmetry. apply Z.mod_unique with b; lia.
  - replace ((a + 256 * (b + 256 * 0)) / 256) with b by (apply Z.div_unique with a; lia).
    apply Z.mod_small. lia.
Qed.

Lemma lo8_range x : 0 ≤ lo8 x < 256.
Proof. apply Z.mod_pos_bound. lia. Qed.

Lemma hi8_range x : 0 ≤ hi8 x < 256.
Proof. apply Z.mod_pos_bound. lia. Qed.

Lemma swap16_swap16 x : 0 ≤ x < 2 ^ 16 → swap16 (swap16 x) = x ∧ 0 ≤ swap16 x < 2 ^ 16.
Proof.
  intros Hx. rewrite <-(word16_bytes x Hx).
  pose proof (lo8_range x). pose proof (hi8_range x).
  rewrite !swap16_word by lia. split; [done|]. unfold word16. lia.
Qed.

(** Taking off again what was added to the total length. *)
Lemma tot_len_plus_minus t0 t1 n :
  0 ≤ t0 < 256 → 0 ≤ t1 < 256 →
  let x := tot_len_plus t0 t1 n in
  let y := tot_len_plus (lo8 x) (hi8 x) (- n) in lo8 y = t0 ∧ hi8 y = t1.
Proof.
  intros H0 H1. cbv zeta. set (x := tot_len_plus t0 t1 n).
  assert (swap16 (word16 t0 t1) = word16 t1 t0) as Hs by by apply swap16_word.
  assert (0 ≤ word16 t1 t0 < 2 ^ 16) by (unfold word16; lia).
  assert (0 ≤ x < 2 ^ 16 ∧ swap16 x = u16 (word16 t1 t0 + n)) as [Hx Hx'].
  { unfold x, tot_len_plus. rewrite Hs.
    pose proof (swap16_swap16 (u16 (word16 t1 t0 + n)) (u16_range _)) as [E1 E2]. done. }
  unfold tot_len_plus. rewrite word16_bytes, Hx' by done.
  replace (u16 (u16 (word16 t1 t0 + n) + - n)) with (word16 t1 t0).
  { rewrite swap16_word by done. by apply byte_word. }
  unfold u16. rewrite Zplus_mod_idemp_l, Z.mod_small; lia.
Qed.

(** ** Properties of encapsulation *)

(** What [ip_send_check] does, whatever the checksum algorithm: it sets the
    two bytes of the checksum to a function of the other bytes. *)
Definition send_check_ok (f : list Z → list Z) : Prop :=
  ∀ l r, length l = 10%nat → ∃ k0 k1, ∀ c0 c1, f (l ++ c0 :: c1 :: r) = l ++ k0 :: k1 :: r.

(** A packet whose IP header, of [hl] bytes with its options, is complete. *)
Definition ip_packet (hl : Z) (d : list Z) : Prop :=
  ip_hl d = Some hl ∧ 20 ≤ hl ≤ Z.of_nat (length d) ∧ Forall (λ b, 0 ≤ b < 256) d.

Lemma ip_hl_cons z l : ip_hl (z :: l) = Some (Z.shiftl (Z.land z 15) 2).
Proof.
  unfold ip_hl, pkt_ld. rewrite (load_app_l [z] l) by (cbn; lia).
  change (Some (Z.shiftl (Z.land (z + 256 * 0) 15) 2) = Some (Z.shiftl (Z.land z 15) 2)).
  by rewrite Z.mul_0_r, Z.add_0_r.
Qed.

Lemma packet_parts hl d :
  ip_packet hl d → ∃ b0 tos t0 t1 mid p cs daddr opts data,
    d = (ip_header b0 tos t0 t1 mid p cs daddr ++ opts) ++ data ∧ length daddr = 4%nat ∧
    hl = Z.of_nat (length (ip_header b0 tos t0 t1 mid p cs daddr ++ opts)) ∧
    Z.shiftl (Z.land b0 15) 2 = hl.
Proof.
  intros (Hip & Hlen & Hb).
  assert (length (take (Z.to_nat hl) d) = Z.to_nat hl) as Hl1 by (rewrite length_take; lia).
  assert (d = take (Z.to_nat hl) d ++ drop (Z.to_nat hl) d) as Hd by by rewrite take_drop.
  revert Hd Hl1. generalize (take (Z.to_nat hl) d) (drop (Z.to_nat hl) d). intros hd data -> Hl1.
  do 20 (destruct hd as [|? hd]; [simpl in Hl1; lia|]).
  eexists _, _, _, _, (_, _, _, _, _), _, (_, _, _, _, _, _), [_; _; _; _], hd, data.
  split; [reflexivity|]. split; [done|]. split; [simpl in *; lia|].
  rewrite <-app_comm_cons, ip_hl_cons in Hip. by injection Hip.
Qed.

(** [ip_send_check] on a packet in parts. *)
Lemma send_check_header f b0 tos t0 t1 mid p s0 s1 s2 s3 daddr rest :
  send_check_ok f →
  ∃ k0 k1 : Z, ∀ c0 c1 : Z,
    f (ip_header b0 tos t0 t1 mid p (c0, c1, s0, s1, s2, s3) daddr ++ rest)
    = ip_header b0 tos t0 t1 mid p (k0, k1, s0, s1, s2, s3) daddr ++ rest.
Proof.
  intros Hf. destruct mid as [[[[i0 i1] f0] f1] ttl].
  destruct (Hf [b0; tos; t0; t1; i0; i1; f0; f1; ttl; p] (s0 :: s1 :: s2 :: s3 :: daddr ++ rest)
    eq_refl) as (k0 & k1 & H). exists k0, k1. intros c0' c1'. apply H.
Qed.

Lemma mip_fields p daddr hl hd rest :
  length daddr = 4%nat →
  hl = Z.of_nat (length hd) →
  pkt_ld (hd ++ mip_header p daddr ++ rest) (hl + MIPE_OFF_PROTOCOL) 1 = Some p ∧
  pkt_ld (hd ++ mip_header p daddr ++ rest) (hl + MIPE_OFF_DADDR) 4 = Some (of_bytes daddr).
Proof.
  intros Hd Hl. assert (∃ a0 a1 a2 a3, daddr = [a0; a1; a2; a3]) as (a0 & a1 & a2 & a3 & ->).
  { destruct daddr as [|a0 [|a1 [|a2 [|a3 [|]]]]]; try done. by exists a0, a1, a2, a3. }
  unfold pkt_ld. rewrite Hl, !load_app_r by done. rewrite !load_app_l by done.
  split; [|done]. change (Some (p + 256 * 0) = Some p). f_equal. lia.
Qed.

Section spec.
Context (e : kenv) (Hf : send_check_ok (ke_send_check e)).
Context (b0 tos t0 t1 i0 i1 f0 f1 ttl p c0 c1 s0 s1 s2 s3 : Z) (daddr opts data : list Z) (hl : Z).
Let mid := (i0, i1, f0, f1, ttl).
Let h := ip_header b0 tos t0 t1 mid p (c0, c1, s0, s1, s2, s3) daddr.
Hypothesis (Hd : length daddr = 4%nat) (Hhl : hl = Z.of_nat (length (h ++ opts))).
Hypothesis (Hip : Z.shiftl (Z.land b0 15) 2 = hl).
Hypothesis (Hb : Forall (λ b, 0 ≤ b < 256) ((h ++ opts) ++ data)).

Lemma header_bytes : Forall (λ b, 0 ≤ b < 256) (p :: daddr) ∧ 0 ≤ t0 < 256 ∧ 0 ≤ t1 < 256.
Proof.
  apply Forall_app in Hb as [[H _]%Forall_app _]. unfold h, ip_header, mid in H.
  rewrite !Forall_app, !Forall_cons in H. destruct_and! H. by rewrite Forall_cons.
Qed.

Lemma encapsulated_form dest :
  ∃ k0 k1, let x := tot_len_plus t0 t1 8 in
    let n := (ip_header b0 tos (lo8 x) (hi8 x) mid IPPROTO_MIPE (k0, k1, s0, s1, s2, s3)
               (bytes32 dest) ++ opts) ++ mip_header p daddr ++ data in
    encapsulated e dest ((h ++ opts) ++ data)
    = Some (if word16 i0 i1 =? 0 then ke_select_ident e n else n).
Proof.
  destruct header_bytes as ([Hp Ha]%Forall_cons & _).
  set (x := tot_len_plus t0 t1 8).
  destruct (send_check_header (ke_send_check e) b0 tos (lo8 x) (hi8 x) mid IPPROTO_MIPE s0 s1 s2 s3
    (bytes32 dest) (opts ++ mip_header p daddr ++ data) Hf) as (k0 & k1 & Hc).
  exists k0, k1. cbv zeta. unfold encapsulated.
  destruct (ip_header_facts b0 tos t0 t1 mid p (c0, c1, s0, s1, s2, s3) daddr opts hl Hd Hhl)
    as (Hh & _ & _ & _ & Hi & _).
  destruct (make_room_form h opts data hl Hh Hhl) as (mip & Hmip & ->); [unfold h; by rewrite Hi, Hip|].
  cbn [mbind option_bind].
  unfold h. rewrite (fill_mip_form b0 tos t0 t1 mid p _ daddr opts data hl Hd Hhl Hip mip Hmip Ha).
  cbn [mbind option_bind]. rewrite (fill_ip_form _ _ _ _ _ _ _ _ _ hl Hd Hhl). cbn [mbind option_bind].
  fold x. rewrite (fill_check_form _ _ _ _ _ _ _ _ _ _ hl)
    by first [done | rewrite Hhl; unfold h; rewrite !length_app; simpl; lia | by apply Forall_cons].
  cbn [mbind option_bind]. rewrite <-(assoc_L (++) (ip_header _ _ _ _ _ _ _ _)), Hc.
  rewrite (assoc_L (++) (ip_header _ _ _ _ _ _ _ _)).
  unfold ip_id. rewrite pkt_ld_hdr by done.
  change (pkt_ld (ip_header _ _ _ _ _ _ _ _) 4 2) with (Some (word16 i0 i1)).
  done.
Qed.

(** The [memmove] and [skb_trim] of [ip_pkt_decapsulate]. *)
Lemma close_gap hd mip :
  hl = Z.of_nat (length hd) → length mip = 8%nat →
  let d := hd ++ mip ++ data in
  load_bytes d (hl + 8) (Z.to_nat (Z.of_nat (length d) - hl - 8)) = Some data ∧
  ∃ d', store_bytes d hl data = Some d' ∧
        take (Z.to_nat (Z.of_nat (length d) - 8)) d' = hd ++ data.
Proof.
  intros Hl Hm d. assert (length d = (length hd + 8 + length data)%nat) as Hlen.
  { unfold d. rewrite !length_app. lia. }
  split.
  - unfold d. rewrite Hl at 1. rewrite load_app_r by lia.
    replace 8 with (Z.of_nat (length mip) + 0) at 1 by lia. rewrite load_app_r by lia.
    replace (Z.to_nat _) with (length data) by (fold d; lia). apply load_all.
  - unfold d at 1. rewrite Hl, <-(Z.add_0_r (Z.of_nat (length hd))), store_app_r by lia.
    unfold store_bytes. rewrite !(proj2 (Z.leb_le _ _)) by (rewrite ?length_app; lia). cbn.
    eexists. split; [done|]. rewrite take_0, app_nil_l, (assoc_L (++)).
    apply take_app_length'. rewrite length_app. lia.
Qed.

Lemma decapsulated_form u0 u1 q k0 k1 dd :
  length dd = 4%nat →
  let y := tot_len_plus u0 u1 (- 8) in
  decapsulated e ((ip_header b0 tos u0 u1 mid q (k0, k1, s0, s1, s2, s3) dd ++ opts)
                  ++ mip_header p daddr ++ data)
  = Some (ke_send_check e ((ip_header b0 tos (lo8 y) (hi8 y) mid p (k0, k1, s0, s1, s2, s3) daddr
                            ++ opts) ++ data)).
Proof.
  intros Hdd y. destruct header_bytes as ([Hp Ha]%Forall_cons & _).
  set (cs := (k0, k1, s0, s1, s2, s3)).
  assert (∀ v0 v1 p' d', length d' = 4%nat →
    hl = Z.of_nat (length (ip_header b0 tos v0 v1 mid p' cs d' ++ opts))) as Hl.
  { intros. rewrite Hhl. unfold h. rewrite !length_app. simpl. lia. }
  unfold decapsulated.
  destruct (ip_fields b0 tos u0 u1 mid q cs dd opts hl Hdd (Hl _ _ _ _ Hdd) (mip_header p daddr ++ data))
    as (_ & _ & _ & ->). rewrite Hip. cbn [mbind option_bind].
  rewrite (proj1 (mip_fields p daddr hl _ data Hd (Hl _ _ _ _ Hdd))). cbn [mbind option_bind].
  assert (length (mip_header p daddr) = 8%nat) as Hm by (unfold mip_header; by rewrite !length_app, Hd).
  destruct (ip_header_facts b0 tos u0 u1 mid q cs dd opts hl Hdd (Hl _ _ _ _ Hdd))
    as (Hh1 & _ & _ & _ & _ & _ & Hst & _).
  rewrite (st_hdr _ opts Hh1 9 [p] _ _ ltac:(done) (Hst p)). cbn [mbind option_bind].
  rewrite (proj2 (mip_fields p daddr hl _ data Hd (Hl _ _ _ _ Hdd))). cbn [mbind option_bind].
  rewrite bytes32_of_bytes4 by done.
  destruct (ip_header_facts b0 tos u0 u1 mid p cs dd opts hl Hdd (Hl _ _ _ _ Hdd))
    as (Hh2 & _ & _ & _ & _ & _ & _ & Hst16).
  rewrite (st_hdr _ opts Hh2 16 daddr _ _ ltac:(by rewrite Hd) (Hst16 daddr Hd)).
  cbn [mbind option_bind].
  destruct (close_gap (ip_header b0 tos u0 u1 mid p cs daddr ++ opts) (mip_header p daddr))
    as (Hld & d' & Hst' & Htk); [by apply Hl|done|].
  unfold sizeof_min_ipenc_hdr. rewrite (proj2 (Z.leb_le _ _)).
  2:{ rewrite (Hl u0 u1 p daddr Hd) at 1. rewrite !length_app, Hm. lia. }
  rewrite Hld. cbn [mbind option_bind]. rewrite Hst'. cbn [mbind option_bind]. rewrite Htk.
  destruct (ip_fields b0 tos u0 u1 mid p cs daddr opts hl Hd (Hl _ _ _ _ Hd) data)
    as (_ & _ & -> & _). cbn [mbind option_bind].
  destruct (ip_header_facts b0 tos u0 u1 mid p cs daddr opts hl Hd (Hl _ _ _ _ Hd))
    as (Hh3 & _ & _ & _ & _ & Hst2 & _).
  by rewrite (st_hdr _ opts Hh3 2 (bytes16 y) _ _ ltac:(done) (Hst2 (lo8 y) (hi8 y))).
Qed.
End spec.

(** The checksum field makes the encapsulation header sum to zero. *)
Lemma mip_checksum h opts p daddr data hl :
  length h = 20%nat → hl = Z.of_nat (length (h ++ opts)) → length daddr = 4%nat →
  Forall (λ b, 0 ≤ b < 256) (p :: daddr) →
  ip_csum ((h ++ opts) ++ mip_header p daddr ++ data) hl 4 = Some 0.
Proof.
  intros Hh Hl Hd [Hp Ha]%Forall_cons. destruct daddr as [|a0 [|a1 [|a2 [|a3 [|]]]]]; try done.
  set (ck := mip_check p [a0; a1; a2; a3]).
  change (mip_header p [a0; a1; a2; a3]) with [p; 0; lo8 ck; hi8 ck; a0; a1; a2; a3].
  rewrite !Forall_cons in Ha. destruct_and! Ha.
  pose proof (lo8_range ck). pose proof (hi8_range ck).
  rewrite ip_csum_mip by (done || by repeat (apply Forall_cons; split; [lia|])).
  unfold ck, mip_check. cbn [lookup list_lookup default from_option id].
  set (s := word16 p 0 + word16 a0 a1 + word16 a2 a3).
  destruct (csum_fold_check s) as [Hck Hz]; [unfold s, word16; lia|].
  rewrite (word16_bytes (csum_fold s)) by lia.
  replace (word16 p 0 + csum_fold s + word16 a0 a1 + word16 a2 a3) with (s + csum_fold s)
    by (unfold s; lia).
  by rewrite Hz.
Qed.

Lemma ip_id_header b0 tos t0 t1 i0 i1 f0 f1 ttl p cs daddr opts rest :
  length daddr = 4%nat →
  ip_id ((ip_header b0 tos t0 t1 (i0, i1, f0, f1, ttl) p cs daddr ++ opts) ++ rest)
  = Some (word16 i0 i1).
Proof.
  destruct daddr as [|a0 [|a1 [|a2 [|a3 [|]]]]]; try done. intros _.
  destruct cs as [[[[[c0 c1] s0] s1] s2] s3].
  unfold ip_id. by rewrite pkt_ld_hdr.
Qed.

(** The packet is rewritten byte by byte; the runs of the two functions. *)
Lemma encapsulate_run hl skb dest w :
  send_check_ok (ke_send_check (k_env w)) → ip_packet hl (skb_data skb) →
  ip_id (skb_data skb) ≠ Some 0 →
  ∃ b0 tos t0 t1 i0 i1 f0 f1 ttl p c0 c1 s0 s1 s2 s3 daddr opts data k0 k1,
    let mid := (i0, i1, f0, f1, ttl) in let x := tot_len_plus t0 t1 8 in
    let hd := ip_header b0 tos t0 t1 mid p (c0, c1, s0, s1, s2, s3) daddr ++ opts in
    let n := (ip_header b0 tos (lo8 x) (hi8 x) mid IPPROTO_MIPE (k0, k1, s0, s1, s2, s3)
               (bytes32 dest) ++ opts) ++ mip_header p daddr ++ data in
    skb_data skb = hd ++ data ∧ length daddr = 4%nat ∧ hl = Z.of_nat (length hd) ∧
    Z.shiftl (Z.land b0 15) 2 = hl ∧
    run (ip_pkt_encapsulate skb dest) w
    = Some (if ke_ok (k_env w) (k_tick w) then Some (Skb n (skb_sk skb)) else None,
            w <| k_tick ::= S |> <| k_out ::= cons (KEvFree skb) |>).
Proof.
  intros Hf Hpk Hid. pose proof Hpk as (_ & _ & Hb).
  destruct (packet_parts _ _ Hpk) as (b0 & tos & t0 & t1 & [[[[i0 i1] f0] f1] ttl] & p &
    [[[[[c0 c1] s0] s1] s2] s3] & daddr & opts & data & Hd & Hda & Hhl & Hip).
  rewrite Hd in Hb, Hid.
  destruct (encapsulated_form (k_env w) Hf b0 tos t0 t1 i0 i1 f0 f1 ttl p c0 c1 s0 s1 s2 s3 daddr opts
    data hl Hda Hhl Hip Hb dest) as (k0 & k1 & Henc).
  rewrite ip_id_header in Hid by done. rewrite (proj2 (Z.eqb_neq _ _)) in Henc by congruence.
  exists b0, tos, t0, t1, i0, i1, f0, f1, ttl, p, c0, c1, s0, s1, s2, s3, daddr, opts, data, k0, k1.
  cbv zeta in *. split_and!; [done..|]. unfold ip_pkt_encapsulate. cbn.
  destruct (ke_ok _ _); cbn; [|done]. rewrite Hd, Henc. done.
Qed.



Lemma encapsulated_total hl e dest d :
  send_check_ok (ke_send_check e) → ip_packet hl d → is_Some (encapsulated e dest d).
Proof.
  intros Hf Hpk. pose proof Hpk as (_ & _ & Hb).
  destruct (packet_parts _ _ Hpk) as (b0 & tos & t0 & t1 & [[[[i0 i1] f0] f1] ttl] & p &
    [[[[[c0 c1] s0] s1] s2] s3] & daddr & opts & data & -> & Hda & Hhl & Hip).
  destruct (encapsulated_form e Hf b0 tos t0 t1 i0 i1 f0 f1 ttl p c0 c1 s0 s1 s2 s3 daddr opts
    data hl Hda Hhl Hip Hb dest) as (k0 & k1 & ->). by eexists.
Qed.
