(* ===== verification/KQueue.v ===== *)
(** * The module's packet queue (kaodv/src/kaodv_queue.c)

    Packets without a route wait in [queue_list], oldest first; the verdict on
    a destination sends or drops all of its packets. *)

From S2P Require Export KExpl KIpenc.

Definition queue_maxlen : Z := 1024.                 (* KAODV_QUEUE_QMAX_DEFAULT *)
Definition KAODV_QUEUE_DROP : Z := 1.
Definition KAODV_QUEUE_SEND : Z := 2.

Definition kaodv_queue_cmpfn : Type := kaodv_queue_entry → Z → bool.

(** ** Inside the critical sections *)

Definition __kaodv_queue_enqueue_entry (entry : kaodv_queue_entry) : KM Z :=
  total ← kgets queue_total;
  if queue_maxlen <=? total then mret (- ENOSPC)
  else
    kmodify (λ w, w <| queue_list ::= λ l, l ++ [entry] |>);;
    kmodify (λ w, w <| queue_total ::= λ n, u32 (n + 1) |>);;
    mret 0.

(** The position of the oldest entry that matches; every entry matches the
    null function. *)
Fixpoint queue_scan (cmpfn : option kaodv_queue_cmpfn) (data : Z)
    (l : list kaodv_queue_entry) : option nat :=
  match l with
  | [] => None
  | entry :: l' =>
      if match cmpfn with None => true | Some f => f entry data end then Some 0%nat
      else S <$> queue_scan cmpfn data l'
  end.

Definition __kaodv_queue_check_entry (cmpfn : option kaodv_queue_cmpfn) (data : Z)
    : KM (option nat) :=
  kgets (λ w, queue_scan cmpfn data (queue_list w)).

Definition __kaodv_queue_check_delqueue_entry (cmpfn : option kaodv_queue_cmpfn) (data : Z)
    : KM (option kaodv_queue_entry) :=
  i ← __kaodv_queue_check_entry cmpfn data;
  match i with
  | None => mret None
  | Some i =>
      entry ← kgets (λ w, queue_list w !! i);
      kmodify (λ w, w <| queue_list ::= delete i |>);;
      kmodify (λ w, w <| queue_total ::= λ n, u32 (n - 1) |>);;
      mret entry
  end.

(** The loop of [__kaodv_queue_flush], which removes an entry each time. *)
Fixpoint queue_flush_loop (fuel : nat) : KM unit :=
  match fuel with
  | O => mret tt
  | S fuel =>
      entry ← __kaodv_queue_check_delqueue_entry None 0;
      match entry with
      | None => mret tt
      | Some entry => kemit (KEvFree (q_skb entry));; queue_flush_loop fuel
      end
  end.

Definition __kaodv_queue_flush : KM unit :=
  n ← kgets (λ w, length (queue_list w));
  queue_flush_loop (S n).

(** ** The functions of the queue *)

Definition kaodv_queue_check_delqueue_entry (cmpfn : option kaodv_queue_cmpfn) (data : Z)
    : prog (option kaodv_queue_entry) :=
  locked (__kaodv_queue_check_delqueue_entry cmpfn data).

Definition kaodv_queue_flush : prog unit := locked __kaodv_queue_flush.

Definition kaodv_queue_enqueue_packet (skb : sk_buff) (okfn : nat) : prog Z :=
  ok ← locked kcall;                                          (* kmalloc *)
  if negb ok then mret (- ENOMEM)
  else
    tos ← of_option (ip_tos (skb_data skb));
    daddr ← of_option (ip_daddr (skb_data skb));
    saddr ← of_option (ip_saddr (skb_data skb));
    locked (__kaodv_queue_enqueue_entry (QEntry skb okfn tos daddr saddr)).

Definition dest_cmp : kaodv_queue_cmpfn := λ e daddr, daddr =? q_daddr e.

Definition kaodv_queue_check (daddr : Z) : prog Z :=
  locked (i ← __kaodv_queue_check_entry (Some dest_cmp) daddr;
          mret (match i with None => 0 | Some _ => 1 end)).

(** The two loops of [kaodv_queue_set_verdict]; [fuel] bounds the packets. *)
Fixpoint verdict_drop (fuel : nat) (daddr pkts : Z) : prog Z :=
  match fuel with
  | O => Stuck
  | S fuel =>
      entry ← kaodv_queue_check_delqueue_entry (Some dest_cmp) daddr;
      match entry with
      | None => mret pkts
      | Some entry =>
          pwhen (pkts =? 0) (locked (kemit (KEvIcmp (q_skb entry))));;
          locked (kemit (KEvFree (q_skb entry)));;
          verdict_drop fuel daddr (s32 (pkts + 1))
      end
  end.

Fixpoint verdict_send (fuel : nat) (daddr pkts : Z) : prog Z :=
  match fuel with
  | O => Stuck
  | S fuel =>
      entry ← kaodv_queue_check_delqueue_entry (Some dest_cmp) daddr;
      match entry with
      | None => mret pkts
      | Some entry =>
          e ← kaodv_expl_get daddr;
          match e with
          | None => locked (kemit (KEvFree (q_skb entry)));; verdict_send fuel daddr pkts
          | Some e =>
              skb ← (if negb (Z.land (ex_flags e) KAODV_RT_GW_ENCAP =? 0)
                     then ip_pkt_encapsulate (q_skb entry) (ex_nhop e)
                     else mret (Some (q_skb entry)));
              match skb with
              | None => verdict_send fuel daddr pkts
              | Some skb =>
                  locked (kemit (KEvRoute skb));;             (* ip_route_me_harder *)
                  locked (kemit (KEvOkfn (q_okfn entry) skb));;
                  verdict_send fuel daddr (s32 (pkts + 1))
              end
          end
      end
  end.

(** One more than the packets the queue can hold. *)
Definition verdict_fuel : nat := 1025.

Definition kaodv_queue_set_verdict (verdict daddr : Z) : prog Z :=
  if verdict =? KAODV_QUEUE_DROP then verdict_drop verdict_fuel daddr 0
  else if verdict =? KAODV_QUEUE_SEND then verdict_send verdict_fuel daddr 0
  else mret 0.

Definition queue_show_buf_update : prog unit :=
  locked (kmodify (λ w, w <| queue_show_buf := (queue_total w, queue_maxlen) |>)).

Definition kaodv_queue_init : prog Z :=
  locked (kmodify (λ w, w <| queue_total := 0 |>));;
  queue_show_buf_update;;
  ok ← locked kcall;                                          (* proc_create *)
  if negb ok then mret (-1)
  else locked (kmodify (λ w, w <| k_res ::= cons R_queue_proc |>));; mret 1.

Definition kaodv_queue_finish : prog unit :=
  kaodv_queue_flush;;
  locked (kmodify (λ w, w <| k_res ::= del R_queue_proc |>)).

(** ** The queue and its counter *)

Definition queue_ok (w : kworld) : Prop :=
  queue_total w = Z.of_nat (length (queue_list w)) ∧ queue_total w ≤ queue_maxlen.

Lemma queue_scan_Some f d l i :
  queue_scan f d l = Some i →
  ∃ e l1 l2, l = l1 ++ e :: l2 ∧ length l1 = i ∧
    (match f with None => l1 = [] | Some f => f e d = true ∧ Forall (λ x, f x d = false) l1 end).
Proof.
  revert i. induction l as [|c l IH]; intros i; simpl; [done|].
  destruct (match f with None => true | Some f => f c d end) eqn:E.
  - intros [= <-]. exists c, [], l. split_and!; [done..|]. destruct f; [by split|done].
  - intros (i' & (e & l1 & l2 & -> & <- & Hf)%IH & ->)%fmap_Some.
    exists e, (c :: l1), l2. split_and!; [done..|]. destruct f as [f|]; [|done].
    destruct Hf as [? ?]. split; [done|]. by constructor.
Qed.

Lemma queue_scan_None f d l : queue_scan (Some f) d l = None → Forall (λ x, f x d = false) l.
Proof.
  induction l as [|c l IH]; simpl; [by constructor|].
  destruct (f c d) eqn:E; [done|]. intros H%fmap_None. constructor; [done|]. by apply IH.
Qed.

(** Taking the entry a scan finds out of the queue. *)
Lemma delqueue_run f d w :
  match queue_scan f d (queue_list w) with
  | None => __kaodv_queue_check_delqueue_entry f d w = (None, w)
  | Some i => ∃ e, queue_list w !! i = Some e ∧
      __kaodv_queue_check_delqueue_entry f d w
      = (Some e, w <| queue_list ::= delete i |> <| queue_total ::= λ n, u32 (n - 1) |>)
  end.
Proof.
  unfold __kaodv_queue_check_delqueue_entry, __kaodv_queue_check_entry, mbind, KM_bind, kgets, kmodify.
  cbn. destruct (queue_scan f d (queue_list w)) as [i|] eqn:E; [|done].
  apply queue_scan_Some in E as (e & l1 & l2 & Hl & <- & _). exists e.
  rewrite Hl. by rewrite list_lookup_middle.
Qed.

Lemma delete_split {A} (l1 l2 : list A) e : delete (length l1) (l1 ++ e :: l2) = l1 ++ l2.
Proof. apply delete_mid. Qed.

(** ** Invariant, in every interleaving *)

Lemma queue_ok_delqueue f d w :
  queue_ok w → queue_ok (__kaodv_queue_check_delqueue_entry f d w).2.
Proof.
  intros [Ht Hm]. pose proof (delqueue_run f d w) as H.
  destruct (queue_scan f d (queue_list w)) as [i|] eqn:E; [|by rewrite H].
  destruct H as (e & Hi & ->). unfold queue_ok, queue_maxlen in *. cbn.
  assert (length (queue_list w) = S (length (delete i (queue_list w)))) as Hl.
  { apply lookup_lt_Some in Hi. rewrite length_delete by by apply lookup_lt_is_Some. lia. }
  rewrite u32_small; lia.
Qed.

Lemma queue_ok_flush_loop n w : queue_ok w → queue_ok (queue_flush_loop n w).2.
Proof.
  revert w. induction n as [|n IH]; intros w Hok; [done|]. simpl. unfold mbind, KM_bind.
  pose proof (queue_ok_delqueue None 0 w Hok) as H.
  destruct (__kaodv_queue_check_delqueue_entry None 0 w) as [[e|] w'] eqn:E; [|done].
  by apply IH.
Qed.

Lemma queue_ok_enqueue e w : queue_ok w → queue_ok (__kaodv_queue_enqueue_entry e w).2.
Proof.
  intros [Ht Hm]. unfold __kaodv_queue_enqueue_entry, mbind, KM_bind, queue_maxlen in *. cbn.
  destruct (1024 <=? queue_total w) eqn:E; bool_prop; [done|].
  unfold queue_ok, queue_maxlen. cbn. rewrite length_app, u32_small; simpl; lia.
Qed.

Section preserves_queue.
Context (I : kworld → Prop).
Hypothesis (Hframe : ∀ w w', queue_list w' = queue_list w → queue_total w' = queue_total w →
  expl_head w' = expl_head w → I w → I w').
Hypothesis (Hdel : ∀ f d w, I w → I (__kaodv_queue_check_delqueue_entry f d w).2).
Hypothesis (Henq : ∀ e w, I w → I (__kaodv_queue_enqueue_entry e w).2).

(** An action that leaves queue and cache alone. *)
Lemma preserves_frame {A} (m : KM A) :
  (∀ w, queue_list (m w).2 = queue_list w ∧ queue_total (m w).2 = queue_total w ∧
        expl_head (m w).2 = expl_head w) → preserves I (locked m).
Proof. intros H. apply preserves_locked. intros w. destruct (H w) as (?&?&?). by apply Hframe. Qed.

Lemma preserves_emit e : preserves I (locked (kemit e)).
Proof. by apply preserves_frame. Qed.

Lemma preserves_get d : preserves I (kaodv_expl_get d).
Proof.
  apply preserves_frame. intros w. unfold mbind, KM_bind. cbn. by case_match.
Qed.

Lemma preserves_delqueue f d : preserves I (kaodv_queue_check_delqueue_entry f d).
Proof. apply preserves_locked. auto. Qed.

Lemma preserves_check d : preserves I (kaodv_queue_check d).
Proof. by apply preserves_frame. Qed.

Ltac queue_step :=
  lazymatch goal with
  | |- preserves _ (locked (kemit _)) => apply preserves_emit
  | |- preserves _ (locked _) => apply preserves_frame; done
  | |- preserves _ (kaodv_queue_check_delqueue_entry _ _) => apply preserves_delqueue
  | |- preserves _ (kaodv_expl_get _) => apply preserves_get
  | _ => preserves_step
  end.

Lemma preserves_encapsulate skb d : preserves I (ip_pkt_encapsulate skb d).
Proof. unfold ip_pkt_encapsulate. repeat queue_step. Qed.

Lemma preserves_enqueue skb okfn : preserves I (kaodv_queue_enqueue_packet skb okfn).
Proof.
  apply preserves_bind; [by apply preserves_frame|]. intros [|]; [|done].
  repeat preserves_step. apply preserves_locked. auto.
Qed.

Lemma preserves_verdict v d : preserves I (kaodv_queue_set_verdict v d).
Proof.
  unfold kaodv_queue_set_verdict.
  assert (∀ n k, preserves I (verdict_drop n d k)) as Hdrop.
  { intros n. induction n as [|n IH]; intros k; [done|]. cbn [verdict_drop].
    repeat first [apply IH | queue_step]. }
  assert (∀ n k, preserves I (verdict_send n d k)) as Hsend.
  { intros n. induction n as [|n IH]; intros k; [done|]. cbn [verdict_send].
    repeat first [apply IH | apply preserves_encapsulate | queue_step]. }
  repeat first [apply Hdrop | apply Hsend | preserves_step].
Qed.
End preserves_queue.

(** ** The packets for one destination *)

Definition pkts_for (d : Z) (l : list kaodv_queue_entry) : list kaodv_queue_entry :=
  filter (λ q, q_daddr q = d) l.
Definition pkts_not_for (d : Z) (l : list kaodv_queue_entry) : list kaodv_queue_entry :=
  filter (λ q, q_daddr q ≠ d) l.

(** The state with the packets for [d] gone and the events [evs] (in their
    order) added. *)
Definition without (d : Z) (evs : list kevent) (w : kworld) : kworld :=
  w <| queue_list := pkts_not_for d (queue_list w) |>
    <| queue_total := Z.of_nat (length (pkts_not_for d (queue_list w))) |>
    <| k_out := rev evs ++ k_out w |>.

Lemma filter_none {A} (P : A → Prop) `{∀ x, Decision (P x)} (l : list A) :
  (∀ x, x ∈ l → ¬ P x) → filter P l = [].
Proof.
  induction l as [|x l IH]; intros Hl; [done|].
  rewrite filter_cons_False by (apply Hl; left). apply IH. intros. apply Hl. by right.
Qed.

Lemma filter_all {A} (P : A → Prop) `{∀ x, Decision (P x)} (l : list A) :
  (∀ x, x ∈ l → P x) → filter P l = l.
Proof.
  induction l as [|x l IH]; intros Hl; [done|].
  rewrite filter_cons_True by (apply Hl; left). f_equal. apply IH. intros. apply Hl. by right.
Qed.

Lemma delqueue_dest d w :
  queue_ok w →
  (pkts_for d (queue_list w) = [] ∧ without d [] w = w ∧
   run (kaodv_queue_check_delqueue_entry (Some dest_cmp) d) w = Some (None, w)) ∨
  (∃ e w', pkts_for d (queue_list w) = e :: pkts_for d (queue_list w') ∧
     run (kaodv_queue_check_delqueue_entry (Some dest_cmp) d) w = Some (Some e, w') ∧
     queue_ok w' ∧ expl_map w' = expl_map w ∧
     length (queue_list w) = S (length (queue_list w')) ∧
     ∀ evs, without d evs w' = without d evs w).
Proof.
  intros Hok. pose proof (delqueue_run (Some dest_cmp) d w) as H.
  pose proof (queue_ok_delqueue (Some dest_cmp) d w Hok) as Hok'.
  destruct (queue_scan (Some dest_cmp) d (queue_list w)) as [i|] eqn:E.
  - right. destruct H as (e & Hi & Hrun).
    apply queue_scan_Some in E as (e' & l1 & l2 & Hl & <- & He & Hl1).
    rewrite Hl, list_lookup_middle in Hi by done. injection Hi as ->.
    rewrite Hrun in Hok'. eexists e, _. unfold kaodv_queue_check_delqueue_entry, locked. cbn [run].
    rewrite Hrun. unfold dest_cmp in *. bool_prop.
    assert (∀ x, x ∈ l1 → d ≠ q_daddr x) as Hne.
    { intros x Hx. rewrite Forall_forall in Hl1. specialize (Hl1 x Hx). by bool_prop. }
    split_and!; [| done|done|done| |].
    + cbn. rewrite Hl, delete_mid. unfold pkts_for. rewrite !filter_app.
      rewrite (filter_cons_True _ e) by done.
      rewrite (filter_none _ l1) by (intros x Hx%Hne; congruence). done.
    + cbn. rewrite Hl, delete_mid, !length_app. simpl. lia.
    + intros evs. unfold without. cbn. rewrite Hl, delete_mid. unfold pkts_not_for.
      rewrite !filter_app, (filter_cons_False _ e) by naive_solver. by destruct w.
  - left. apply queue_scan_None in E. rewrite Forall_forall in E.
    assert (∀ x, x ∈ queue_list w → q_daddr x ≠ d) as Hne.
    { intros x Hx. specialize (E x Hx). unfold dest_cmp in E. bool_prop. congruence. }
    split_and!.
    + by apply filter_none.
    + unfold without, pkts_not_for. rewrite filter_all by done.
      destruct Hok as [Ht _]. rewrite <-Ht. by destruct w.
    + unfold kaodv_queue_check_delqueue_entry, locked. cbn [run]. by rewrite H.
Qed.

(** ** Properties of the queue *)

Lemma run_locked_bind {A B} (m : KM B) (f : B → prog A) w :
  run (locked m ≫= f) w = run (f (m w).1) (m w).2.
Proof. cbn. by destruct (m w). Qed.

Lemma without_emit d evs e w : without d evs (w <| k_out ::= cons e |>) = without d (e :: evs) w.
Proof. unfold without. cbn. rewrite <-(assoc_L (++)). by destruct w. Qed.

Definition free_events (l : list kaodv_queue_entry) : list kevent :=
  (λ q, KEvFree (q_skb q)) <$> l.

Definition drop_events (pkts : Z) (l : list kaodv_queue_entry) : list kevent :=
  match l with
  | [] => []
  | q :: _ => (if pkts =? 0 then [KEvIcmp (q_skb q)] else []) ++ free_events l
  end.

Lemma verdict_drop_run fuel d k w :
  queue_ok w → (length (queue_list w) < fuel)%nat → 0 ≤ k →
  k + Z.of_nat (length (queue_list w)) < 2 ^ 31 →
  let l := pkts_for d (queue_list w) in
  run (verdict_drop fuel d k) w
  = Some (k + Z.of_nat (length l), without d (drop_events k l) w).
Proof.
  revert k w. induction fuel as [|fuel IH]; intros k w Hok Hf Hk Hmax; [lia|].
  cbn [verdict_drop]. rewrite run_bind.
  destruct (delqueue_dest d w Hok) as [(Hl & Hw & ->)|(e & w' & Hl & -> & Hok' & _ & Hlen & Hw)].
  - rewrite Hl. simpl. by rewrite Z.add_0_r, Hw.
  - cbn [mbind option_bind]. rewrite Hl. cbn [length fmap list_fmap drop_events].
    rewrite s32_small by lia.
    assert (∀ w1, w1 = w' <| k_out ::= cons (KEvIcmp (q_skb e)) |> ∨ w1 = w' →
      run (locked (kemit (KEvFree (q_skb e)));; verdict_drop fuel d (k + 1)) w1
      = Some (k + Z.of_nat (S (length (pkts_for d (queue_list w')))),
              without d (KEvFree (q_skb e) :: free_events (pkts_for d (queue_list w'))) w1))
      as Hrest.
    { intros w1 Hw1. rewrite run_locked_bind. cbn [kemit kmodify fst snd].
      rewrite IH by (destruct Hw1 as [-> | ->]; cbn; first [done|lia]).
      assert (queue_list w1 = queue_list w') as Hq by by destruct Hw1 as [-> | ->].
      change (queue_list (w1 <| k_out ::= _ |>)) with (queue_list w1).
      rewrite without_emit, Hq. f_equal. f_equal; [lia|].
      f_equal. f_equal. destruct (pkts_for d (queue_list w')) as [|q l]; [done|].
      simpl. by rewrite (proj2 (Z.eqb_neq _ _)) by lia. }
    destruct (k =? 0); simpl pwhen.
    + rewrite run_locked_bind. cbn [kemit kmodify fst snd].
      rewrite Hrest by auto. by rewrite without_emit, Hw.
    + change (mret tt;; ?m) with m. rewrite Hrest by auto. by rewrite Hw.
Qed.

(** C28: the verdict DROP. All packets for the destination, and only they,
    leave the queue and are freed, oldest first; the sender of the oldest one
    is told by one ICMP error; their number is returned. The loop ends. *)
Theorem kaodv_queue_drop_spec d w :
  queue_ok w →
  let l := pkts_for d (queue_list w) in
  run (kaodv_queue_set_verdict KAODV_QUEUE_DROP d) w
  = Some (Z.of_nat (length l),
          without d (match l with [] => [] | q :: _ => KEvIcmp (q_skb q) :: free_events l end) w).
Proof.
  intros Hok l. pose proof Hok as [Ht Hm]. unfold queue_maxlen in Hm.
  change (kaodv_queue_set_verdict KAODV_QUEUE_DROP d) with (verdict_drop verdict_fuel d 0).
  rewrite verdict_drop_run by (done || unfold verdict_fuel; lia). fold l.
  unfold drop_events. by destruct l.
Qed.

(** What happens to a packet without encapsulation. *)
Definition send_events (q : kaodv_queue_entry) : list kevent :=
  [KEvRoute (q_skb q); KEvOkfn (q_okfn q) (q_skb q)].

Lemma verdict_send_run fuel d k w :
  queue_ok w → (length (queue_list w) < fuel)%nat → 0 ≤ k →
  k + Z.of_nat (length (queue_list w)) < 2 ^ 31 →
  let l := pkts_for d (queue_list w) in
  match expl_map w !! d with
  | None => run (verdict_send fuel d k) w = Some (k, without d (free_events l) w)
  | Some e => Z.land (ex_flags e) KAODV_RT_GW_ENCAP = 0 →
      run (verdict_send fuel d k) w
      = Some (k + Z.of_nat (length l), without d (l ≫= send_events) w)
  end.
Proof.
  revert k w. induction fuel as [|fuel IH]; intros k w Hok Hf Hk Hmax; [lia|].
  destruct (delqueue_dest d w Hok) as [(Hl & Hw & Hrun)|(e & w' & Hl & Hrun & Hok' & Hm & Hlen & Hw)].
  - cbv zeta. rewrite Hl. cbn [verdict_send]. rewrite !run_bind, Hrun. cbn [mbind option_bind list_bind].
    case_match; simpl; rewrite Hw, ?Z.add_0_r; done.
  - cbn zeta. rewrite Hl. cbn [verdict_send]. rewrite !run_bind, Hrun. cbn [mbind option_bind].
    rewrite run_bind, kaodv_expl_get_run, Hm. cbn [mbind option_bind].
    destruct (expl_map w !! d) as [x|] eqn:Ex; [intros Henc|].
    + rewrite Henc. cbn [negb Z.eqb]. change (mret ?a ≫= ?f) with (f a). cbv beta iota.
      rewrite !run_locked_bind. cbn [kemit kmodify fst snd]. rewrite s32_small by lia.
      set (w1 := _ <| k_out ::= cons (KEvOkfn _ _) |>).
      assert (expl_map w1 !! d = Some x) as Hx by (rewrite <-Ex, <-Hm; done).
      assert (length (queue_list w1) = length (queue_list w')) as Hq by done.
      specialize (IH (k + 1) w1). rewrite Hx in IH. rewrite IH; [|done|lia..|done].
      change (queue_list w1) with (queue_list w'). unfold w1. rewrite !without_emit, Hw.
      f_equal. f_equal. rewrite length_cons. lia.
    + rewrite run_locked_bind. cbn [kemit kmodify fst snd].
      set (w1 := _ <| k_out ::= _ |>).
      assert (expl_map w1 !! d = None) as Hx by (rewrite <-Ex, <-Hm; done).
      assert (length (queue_list w1) = length (queue_list w')) as Hq by done.
      specialize (IH k w1). rewrite Hx in IH. rewrite IH; [|done|lia..].
      change (queue_list w1) with (queue_list w'). unfold w1. by rewrite without_emit, Hw.
Qed.

(** The verdict SEND. With a route to the destination that needs no
    encapsulation, all packets for the destination, and only they, leave the
    queue, and are routed again and handed on in the order in which they came;
    their number is returned. Without a route they are freed. *)
Theorem kaodv_queue_send_spec d w :
  queue_ok w →
  let l := pkts_for d (queue_list w) in
  match expl_map w !! d with
  | None => run (kaodv_queue_set_verdict KAODV_QUEUE_SEND d) w = Some (0, without d (free_events l) w)
  | Some e => Z.land (ex_flags e) KAODV_RT_GW_ENCAP = 0 →
      run (kaodv_queue_set_verdict KAODV_QUEUE_SEND d) w
      = Some (Z.of_nat (length l), without d (l ≫= send_events) w)
  end.
Proof.
  intros Hok l. pose proof Hok as [Ht Hm]. unfold queue_maxlen in Hm.
  change (kaodv_queue_set_verdict KAODV_QUEUE_SEND d) with (verdict_send verdict_fuel d 0).
  apply (verdict_send_run verdict_fuel d 0 w); (done || unfold verdict_fuel; lia).
Qed.

Lemma flush_loop_run n w :
  (length (queue_list w) < n)%nat → queue_ok w →
  (queue_flush_loop n w).2
  = w <| queue_list := [] |> <| queue_total := 0 |>
      <| k_out := rev (free_events (queue_list w)) ++ k_out w |>.
Proof.
  revert w. induction n as [|n IH]; intros w Hn Hok; [lia|]. cbn [queue_flush_loop].
  unfold mbind, KM_bind. pose proof (delqueue_run None 0 w) as H.
  pose proof (queue_ok_delqueue None 0 w Hok) as Hok'. destruct Hok as [Ht Hm].
  destruct (queue_list w) as [|q l] eqn:E; cbn in H.
  - rewrite H. simpl. simpl in Ht. destruct w; simpl in *; by subst.
  - destruct H as (e & [= <-] & Hrun). rewrite Hrun in *. cbn in Hn, Ht |- *.
    set (w1 := _ <| k_out ::= _ |>).
    assert (queue_list w1 = l) as Hl by (unfold w1; cbn; by rewrite E).
    rewrite IH; [|rewrite Hl; lia|done]. rewrite Hl. unfold w1. cbn.
    rewrite <-(assoc_L (++)). by destruct w.
Qed.

(** [kaodv_queue_flush] frees every packet, oldest first, and leaves the
    queue empty. The loop ends. *)
Theorem kaodv_queue_flush_spec w :
  queue_ok w →
  run kaodv_queue_flush w
  = Some (tt, w <| queue_list := [] |> <| queue_total := 0 |>
                <| k_out := rev (free_events (queue_list w)) ++ k_out w |>).
Proof.
  intros Hok. unfold kaodv_queue_flush, locked, __kaodv_queue_flush, mbind, KM_bind, kgets. cbn [run].
  rewrite (surjective_pairing (queue_flush_loop _ w)), flush_loop_run by (done || lia).
  by destruct (queue_flush_loop _ w).1.
Qed.

(** [kaodv_queue_enqueue_packet] on a packet with a complete IP header: the
    packet waits last in the queue, or, for want of memory or room, nothing
    changes (and the packet is not freed). *)
Lemma kaodv_queue_enqueue_run skb okfn tos daddr saddr w :
  queue_ok w → ip_tos (skb_data skb) = Some tos → ip_daddr (skb_data skb) = Some daddr →
  ip_saddr (skb_data skb) = Some saddr →
  ∃ c w', run (kaodv_queue_enqueue_packet skb okfn) w = Some (c, w') ∧
    ((c = 0 ∧ ke_ok (k_env w) (k_tick w) = true ∧ queue_total w < queue_maxlen ∧
      w' = w <| k_tick ::= S |> <| queue_list ::= λ l, l ++ [QEntry skb okfn tos daddr saddr] |>
             <| queue_total ::= λ n, n + 1 |>) ∨
     (c < 0 ∧ (ke_ok (k_env w) (k_tick w) = false ∨ queue_total w = queue_maxlen) ∧
      w' = w <| k_tick ::= S |>)).
Proof.
  intros [Ht Hm] Htos Hd Hs. unfold kaodv_queue_enqueue_packet. rewrite run_locked_bind.
  cbn [kcall ktick fst snd]. destruct (ke_ok (k_env w) (k_tick w)); cbn [negb].
  2:{ eexists _, _. split; [done|]. right. split_and!; [done|by left|done]. }
  rewrite Htos, Hd, Hs. cbn. unfold __kaodv_queue_enqueue_entry, mbind, KM_bind, kgets.
  unfold queue_maxlen in *. cbn. destruct (1024 <=? queue_total w) eqn:E; bool_prop.
  - eexists _, _. split; [done|]. right. split_and!; [done|right; lia|done].
  - eexists _, _. split; [done|]. left. split_and!; [done..|lia|].
    unfold upd_field, set_queue_total. cbn. by rewrite u32_small by lia.
Qed.

(** ** The invariant of the module *)

(** A packet whose IP header is complete. *)
Definition whole_packet (skb : sk_buff) : Prop := ∃ hl, ip_packet hl (skb_data skb).

(** The cache is sorted with one entry per destination, the queue is within
    its bound and counted, the waiting packets have complete headers. *)
Record kinv (w : kworld) : Prop := KInv {
  ki_check : send_check_ok (ke_send_check (k_env w));
  ki_expl : expl_ok w;
  ki_queue : queue_ok w;
  ki_pkts : Forall (λ q, whole_packet (q_skb q)) (queue_list w)
}.

(** The cache and the kernel around the module are as before. *)
Definition same_cache (w w' : kworld) : Prop :=
  expl_head w' = expl_head w ∧ expl_len w' = expl_len w ∧ k_env w' = k_env w.

#[export] Instance same_cache_preorder : PreOrder same_cache.
Proof. split; [done|]. intros w1 w2 w3 (?&?&?) (?&?&?). by split_and!; etrans. Qed.

Lemma kinv_same w w' :
  same_cache w w' → queue_list w' = queue_list w → queue_total w' = queue_total w →
  kinv w → kinv w'.
Proof.
  intros (Hh & Hl & He) Hq Ht [Hc Hx Hk Hp].
  constructor; [by rewrite He|by eapply expl_ok_head|unfold queue_ok; by rewrite Hq, Ht|by rewrite Hq].
Qed.

(** The verdict on [d] has emptied the queue of its packets and nothing else. *)
Definition verdict_done (d : Z) (w w' : kworld) : Prop :=
  kinv w' ∧ same_cache w w' ∧ queue_list w' = pkts_not_for d (queue_list w).

Lemma pkts_not_for_without d w w' :
  (∀ evs, without d evs w' = without d evs w) →
  pkts_not_for d (queue_list w') = pkts_not_for d (queue_list w).
Proof. intros H. specialize (H []). by apply (f_equal queue_list) in H. Qed.

Lemma delqueue_kinv d w :
  kinv w →
  kwp (kaodv_queue_check_delqueue_entry (Some dest_cmp) d) (λ r w',
    kinv w' ∧ same_cache w w' ∧
    pkts_not_for d (queue_list w') = pkts_not_for d (queue_list w) ∧
    match r with
    | None => queue_list w' = pkts_not_for d (queue_list w)
    | Some q => whole_packet (q_skb q) ∧ length (queue_list w) = S (length (queue_list w'))
    end) w.
Proof.
  intros Hinv. pose proof Hinv as [Hc Hx Hk Hp].
  destruct (delqueue_dest d w Hk) as [(Hl & Hw & Hrun)|(q & w' & Hl & Hrun & Hk' & _ & Hlen & Hw)];
    eapply kwp_run; try exact Hrun; cbv beta iota.
  - split_and!; [done..|]. by apply (f_equal queue_list) in Hw.
  - pose proof (Hw []) as E. unfold without in E.
    assert (same_cache w w') as Hsame.
    { split_and!; [by apply (f_equal expl_head) in E|by apply (f_equal expl_len) in E|
        by apply (f_equal k_env) in E]. }
    unfold kaodv_queue_check_delqueue_entry, locked in Hrun. cbn [run] in Hrun.
    pose proof (delqueue_run (Some dest_cmp) d w) as H.
    destruct (queue_scan _ _ _) as [i|]; [|by rewrite H in Hrun].
    destruct H as (q' & Hi & H). rewrite H in Hrun. injection Hrun as -> <-. rewrite Forall_lookup in Hp.
    split_and!; [|done|by apply (f_equal queue_list) in E|by eapply Hp|done].
    constructor; [done|done|done|]. cbn. by apply Forall_delete, Forall_lookup.
Qed.

Lemma verdict_drop_total fuel d k w :
  kinv w → (length (queue_list w) < fuel)%nat →
  kwp (verdict_drop fuel d k) (λ _, verdict_done d w) w.
Proof.
  revert k w. induction fuel as [|fuel IH]; intros k w Hinv Hf; [lia|]. cbn [verdict_drop].
  apply kwp_bind. eapply kwp_wand; [by apply delqueue_kinv|].
  intros [q|] w' (Hinv' & Hsame & Hnot & Hr); [|by split_and!].
  destruct Hr as [_ Hlen]. apply kwp_bind.
  apply (kwp_wand _ (λ _ w1, kinv w1 ∧ same_cache w' w1 ∧ queue_list w1 = queue_list w')).
  { destruct (k =? 0); [|by split_and!]. apply kwp_locked. split_and!; [|done..].
    by apply (kinv_same w'). }
  intros _ w1 (Hinv1 & Hs1 & Hq1). apply kwp_locked_bind. cbn [kemit kmodify fst snd].
  eapply kwp_wand; [apply IH; [by apply (kinv_same w1)|cbn; rewrite Hq1; lia]|].
  intros _ w2 (Hinv2 & Hs2 & Hq2). split_and!; [done| |].
  - etrans; [exact Hsame|]. etrans; [exact Hs1|exact Hs2].
  - rewrite Hq2. cbn. by rewrite Hq1.
Qed.

(** Encapsulating a packet of the queue: only the effects change. *)
Lemma encapsulate_kinv skb dest w :
  kinv w → whole_packet skb →
  kwp (ip_pkt_encapsulate skb dest)
    (λ _ w', kinv w' ∧ same_cache w w' ∧ queue_list w' = queue_list w) w.
Proof.
  intros Hinv [hl Hpk]. apply kwp_locked_bind. cbn [kcall ktick fst snd].
  destruct (ke_ok _ _); cbn [negb].
  - apply kwp_locked_bind. cbn [kgets fst snd].
    destruct (encapsulated_total hl (k_env w) dest _ (ki_check w Hinv) Hpk) as [n Hn].
    eapply kwp_some; [exact Hn|]. apply kwp_locked_bind, kwp_ret.
    split_and!; [by apply (kinv_same w)|done..].
  - apply kwp_locked_bind, kwp_ret. split_and!; [by apply (kinv_same w)|done..].
Qed.

Lemma verdict_send_total fuel d k w :
  kinv w → (length (queue_list w) < fuel)%nat →
  kwp (verdict_send fuel d k) (λ _, verdict_done d w) w.
Proof.
  revert k w. induction fuel as [|fuel IH]; intros k w Hinv Hf; [lia|]. cbn [verdict_send].
  apply kwp_bind. eapply kwp_wand; [by apply delqueue_kinv|].
  intros [q|] w' (Hinv' & Hsame & Hnot & Hr); [|by split_and!].
  destruct Hr as [Hpk Hlen].
  assert (∀ k w1, kinv w1 → same_cache w' w1 → queue_list w1 = queue_list w' →
    kwp (verdict_send fuel d k) (λ _, verdict_done d w) w1) as Hrest.
  { intros k1 w1 Hinv1 Hs1 Hq1. eapply kwp_wand; [apply IH; [done|rewrite Hq1; lia]|].
    intros _ w2 (Hinv2 & Hs2 & Hq2). split_and!; [done| |by rewrite Hq2, Hq1].
    etrans; [exact Hsame|]. by etrans. }
  apply kwp_expl_get_bind. destruct (expl_map w' !! d) as [x|].
  2:{ apply kwp_locked_bind. apply Hrest; [by apply (kinv_same w')|done..]. }
  apply kwp_bind.
  apply (kwp_wand _ (λ _ w1, kinv w1 ∧ same_cache w' w1 ∧ queue_list w1 = queue_list w')).
  { case_match; [by apply encapsulate_kinv|by split_and!]. }
  intros [skb|] w1 (Hinv1 & Hs1 & Hq1); [|by apply Hrest].
  apply kwp_locked_bind, kwp_locked_bind.
  apply Hrest; [by apply (kinv_same w1)|exact Hs1|exact Hq1].
Qed.

(** A verdict always ends, and leaves no packet for its destination. *)
Lemma kaodv_queue_set_verdict_total v d w :
  kinv w → v = KAODV_QUEUE_DROP ∨ v = KAODV_QUEUE_SEND →
  kwp (kaodv_queue_set_verdict v d) (λ _, verdict_done d w) w.
Proof.
  intros Hinv Hv. destruct (ki_queue w Hinv) as [Ht Hm]. unfold queue_maxlen in Hm.
  destruct Hv as [-> | ->]; [apply verdict_drop_total|apply verdict_send_total]; try done;
    unfold verdict_fuel; lia.
Qed.
