(* ===== verification/KNetlink.v ===== *)
(** * The module's netlink interface (kaodv/src/kaodv_netlink.c)

    The messages of the daemon change the route cache and decide on the
    waiting packets; the module reports packets and events. A message is the
    bytes of a [struct nlmsghdr] and its payload. *)

From S2P Require Export KQueue.

(** ** Sending *)

(** [None] when [nlmsg_new] fails. *)
Definition kaodv_netlink_build_msg (type : Z) (data : list Z) : prog (option (Z * list Z)) :=
  ok ← locked kcall;
  mret (if ok : bool then Some (type, data) else None).

(** The broadcast to the daemon that ends each of the next functions. *)
Definition netlink_broadcast (skb : option (Z * list Z)) : prog unit :=
  match skb with
  | None => mret tt
  | Some (type, data) => locked (kemit (KEvNl type data))
  end.

Definition kaodv_netlink_send_debug_msg (buf : list Z) : prog unit :=
  skb ← kaodv_netlink_build_msg KAODVM_DEBUG buf;
  netlink_broadcast skb.

Definition kaodv_netlink_send_rt_msg (type src dest : Z) : prog unit :=
  skb ← kaodv_netlink_build_msg type (rt_msg_bytes (KRtMsg 0 src dest 0 0 0 0));
  netlink_broadcast skb.

Definition kaodv_netlink_send_rt_update_msg (type src dest ifindex : Z) : prog unit :=
  skb ← kaodv_netlink_build_msg KAODVM_ROUTE_UPDATE
          (rt_msg_bytes (KRtMsg type src dest 0 0 ifindex 0));
  netlink_broadcast skb.

Definition kaodv_netlink_send_rerr_msg (type src dest ifindex : Z) : prog unit :=
  skb ← kaodv_netlink_build_msg KAODVM_SEND_RERR
          (rt_msg_bytes (KRtMsg type src dest 0 0 ifindex 0));
  netlink_broadcast skb.

(** ** Receiving *)

(** One message of the daemon: [msg] is what follows the header, of which
    [len] bytes are there. *)
Definition kaodv_netlink_receive_peer (type : Z) (msg : list Z) (len : Z) : prog Z :=
  if type =? KAODVM_ADDROUTE then
    if len <? sizeof_rt_msg then mret (- EINVAL)
    else
      m ← of_option (rt_msg_of msg);
      e ← kaodv_expl_get (km_dest m);
      ret ← match e with
            | Some _ => kaodv_expl_update (km_dest m) (km_nhop m) (km_time m) (km_flags m) (km_ifindex m)
            | None => kaodv_expl_add (km_dest m) (km_nhop m) (km_time m) (km_flags m) (km_ifindex m)
            end;
      _ ← kaodv_queue_set_verdict KAODV_QUEUE_SEND (km_dest m);
      mret ret
  else if type =? KAODVM_DELROUTE then
    if len <? sizeof_rt_msg then mret (- EINVAL)
    else
      m ← of_option (rt_msg_of msg);
      _ ← kaodv_expl_del (km_dest m);
      _ ← kaodv_queue_set_verdict KAODV_QUEUE_DROP (km_dest m);
      mret 0
  else if type =? KAODVM_NOROUTE_FOUND then
    if len <? sizeof_rt_msg then mret (- EINVAL)
    else
      m ← of_option (rt_msg_of msg);
      _ ← kaodv_queue_set_verdict KAODV_QUEUE_DROP (km_dest m);
      mret 0
  else if type =? KAODVM_CONFIG then
    if len <? sizeof_conf_msg then mret (- EINVAL)
    else
      t ← of_option (of_bytes <$> load_bytes msg 0 4);
      locked (kmodify (λ w, w <| k_active_route_timeout := s32 t |>));;
      mret 0
  else mret (- EINVAL).

(** [netlink_ack]. *)
Definition netlink_ack (pid error : Z) : prog unit := locked (kemit (KEvAck pid error)).

Definition MSG_TRUNC : Z := 0x20.
Definition sizeof_nlmsghdr : Z := 16.

(** A datagram of the netlink socket. [skblen] and [nlmsglen] are [int], but
    a comparison with [sizeof] is unsigned; [type] becomes an
    [unsigned char]. *)
Definition kaodv_netlink_rcv_skb (skb : list Z) : prog unit :=
  let skblen := Z.of_nat (length skb) in
  if u32 skblen <? sizeof_nlmsghdr then mret tt
  else
    nlmsg_len ← of_option (pkt_ld skb 0 4);
    let nlmsglen := s32 nlmsg_len in
    if (u32 nlmsglen <? sizeof_nlmsghdr) || (skblen <? nlmsglen) then mret tt
    else
      nlmsg_pid ← of_option (pkt_ld skb 12 4);
      let pid := s32 nlmsg_pid in
      flags ← of_option (pkt_ld skb 6 2);
      if (pid <=? 0) || (Z.land flags NLM_F_REQUEST =? 0) || negb (Z.land flags NLM_F_MULTI =? 0)
      then netlink_ack pid (- EINVAL)
      else if negb (Z.land flags MSG_TRUNC =? 0) then netlink_ack pid (- ECOMM)
      else
        type ← of_option (pkt_ld skb 4 2);
        peer ← locked (kgets peer_pid);
        if negb (peer =? 0) && negb (peer =? pid) then netlink_ack pid (- EBUSY)
        else
          pwhen (peer =? 0) (locked (kmodify (λ w, w <| peer_pid := pid |>)));;
          status ← kaodv_netlink_receive_peer (u8 type) (drop 16 skb) (skblen - NLMSG_LENGTH 0);
          if status <? 0 then netlink_ack pid status
          else pwhen (negb (Z.land flags NLM_F_ACK =? 0)) (netlink_ack pid 0).

(** [NETLINK_URELEASE] of the socket with port [portid]. *)
Definition kaodv_netlink_rcv_nl_event (portid : Z) : prog unit :=
  if portid =? 0 then mret tt
  else
    peer ← locked (kgets peer_pid);
    if u32 portid =? u32 peer then
      locked (kmodify (λ w, w <| peer_pid := 0 |>));;
      kaodv_expl_flush;;
      kaodv_queue_flush
    else mret tt.

Definition kaodv_netlink_init : prog Z :=
  locked (kmodify (λ w, w <| k_res ::= cons R_notifier |>));;
  ok ← locked kcall;                                          (* netlink_kernel_create *)
  if negb ok then locked (kmodify (λ w, w <| k_res ::= del R_notifier |>));; mret (-1)
  else locked (kmodify (λ w, w <| k_res ::= cons R_nlsock |>));; mret 0.

Definition kaodv_netlink_finish : prog unit :=
  locked (kmodify (λ w, w <| k_res ::= del R_nlsock |>));;
  locked (kmodify (λ w, w <| k_res ::= del R_notifier |>)).

(** ** The message format *)

Definition rt_msg_ok (m : kaodv_rt_msg) : Prop :=
  0 ≤ km_type m < 256 ∧ 0 ≤ km_src m < 2 ^ 32 ∧ 0 ≤ km_dest m < 2 ^ 32 ∧
  0 ≤ km_nhop m < 2 ^ 32 ∧ 0 ≤ km_flags m < 256 ∧
  - 2 ^ 31 ≤ km_ifindex m < 2 ^ 31 ∧ - 2 ^ 31 ≤ km_time m < 2 ^ 31.

Lemma rt_msg_of_bytes m rest : rt_msg_ok m → rt_msg_of (rt_msg_bytes m ++ rest) = Some m.
Proof.
  intros (? & ? & ? & ? & ? & ? & ?). unfold rt_msg_of.
  rewrite load_app_l by done. rewrite (load_all (rt_msg_bytes m) : load_bytes _ 0 28 = _).
  destruct m as [ty src dest nhop flags ifx t]; cbn [km_type km_src km_dest km_nhop km_flags km_ifindex km_time] in *.
  change (take 4 (drop 4 _)) with (bytes32 src). change (take 4 (drop 8 _)) with (bytes32 dest).
  change (take 4 (drop 12 _)) with (bytes32 nhop). change (take 4 (drop 20 _)) with (bytes32 ifx).
  change (take 4 (drop 24 _)) with (bytes32 t). rewrite !of_bytes32.
  change (default 0 (_ !! 0%nat)) with (u8 ty). change (default 0 (_ !! 16%nat)) with (u8 flags).
  by rewrite !u8_small, !u32_small, !s32_u32, !s32_small by lia.
Qed.

Lemma rt_msg_of_total data : (28 ≤ length data)%nat → is_Some (rt_msg_of data).
Proof.
  intros H. unfold rt_msg_of. destruct (load_bytes_ok data 0 28) as [l ->]; [lia..|by eexists].
Qed.

(** ** The invariant *)

Lemma kinv_only_expl w w' : kinv w → only_expl w w' → expl_ok w' → kinv w'.
Proof. intros [Hc Hx Hk Hp] (h & n & k & ->) Hx'. by constructor. Qed.

Lemma kinv_add d nhop time flags ifindex w :
  kinv w → kwp (kaodv_expl_add d nhop time flags ifindex) (λ c w', kinv w' ∧ only_expl w w' ∧
    add_outcome d nhop time flags ifindex w c w') w.
Proof.
  intros Hinv. eapply kwp_wand; [apply kwp_expl_add, Hinv|]. intros c w' (? & ? & ?).
  split_and!; [by eapply kinv_only_expl|done..].
Qed.

Lemma kinv_update d nhop time flags ifindex w :
  kinv w → kwp (kaodv_expl_update d nhop time flags ifindex) (λ c w', kinv w' ∧ only_expl w w' ∧
    update_outcome d nhop time flags ifindex w c w') w.
Proof.
  intros Hinv. eapply kwp_wand; [apply kwp_expl_update, Hinv|]. intros c w' (? & ? & ?).
  split_and!; [by eapply kinv_only_expl|done..].
Qed.

(** Announcing a route: a new entry or an update. *)
Lemma kwp_announce d nhop time flags ifindex w :
  kinv w →
  kwp (e ← kaodv_expl_get d;
       match e with
       | Some _ => kaodv_expl_update d nhop time flags ifindex
       | None => kaodv_expl_add d nhop time flags ifindex
       end)
    (λ c w', kinv w' ∧ only_expl w w' ∧
       (is_Some (expl_map w !! d) → expl_len w' = expl_len w) ∧
       (expl_len w ≤ EXPL_MAX_LEN →
        c = - ENOMEM ∧ ke_ok (k_env w) (k_tick w) = false ∧ expl_map w !! d = None ∧
        expl_map w' = expl_map w ∨
        0 ≤ c ∧ ∃ j, expl_map w' =
          <[d := announced_entry (k_env w) j d nhop time flags ifindex]> (expl_map w))) w.
Proof.
  intros Hinv. apply kwp_expl_get_bind. destruct (expl_map w !! d) eqn:Hd.
  - eapply kwp_wand; [by apply kinv_update|]. unfold update_outcome. rewrite Hd.
    intros c w' (? & ? & -> & ? & H). split_and!; [done..|]. intros Hlen.
    rewrite (proj2 (Z.ltb_ge _ _)) in H by done. by right.
  - eapply kwp_wand; [by apply kinv_add|]. unfold add_outcome. rewrite Hd.
    intros c w' (? & ? & H). split_and!; [done..|by intros [? ?]|]. intros Hlen.
    destruct H as [(-> & ? & ? & _)|[_ H]]; [by left|].
    rewrite (proj2 (Z.ltb_ge _ _)) in H by done. destruct H as [-> H]. by right.
Qed.

Lemma verdict_expl_map d w w' : verdict_done d w w' → expl_map w' = expl_map w.
Proof. intros (_ & (H & _) & _). unfold expl_map. by rewrite H. Qed.

Lemma only_expl_queue w w' : only_expl w w' → queue_list w' = queue_list w ∧ k_env w' = k_env w.
Proof. by intros (h & n & k & ->). Qed.

Lemma receive_addroute_run m rest len w :
  kinv w → rt_msg_of rest = Some m → sizeof_rt_msg ≤ len →
  kwp (kaodv_netlink_receive_peer KAODVM_ADDROUTE rest len) (λ c w',
    kinv w' ∧ queue_list w' = pkts_not_for (km_dest m) (queue_list w) ∧
    (is_Some (expl_map w !! km_dest m) → expl_len w' = expl_len w) ∧
    (expl_len w ≤ EXPL_MAX_LEN →
     c = - ENOMEM ∧ ke_ok (k_env w) (k_tick w) = false ∧ expl_map w !! km_dest m = None ∧
     expl_map w' = expl_map w ∨
     0 ≤ c ∧ ∃ j, expl_map w' = <[km_dest m := announced_entry (k_env w) j (km_dest m) (km_nhop m)
        (km_time m) (km_flags m) (km_ifindex m)]> (expl_map w))) w.
Proof.
  intros Hinv Hm Hlen. unfold kaodv_netlink_receive_peer. rewrite Z.eqb_refl.
  rewrite (proj2 (Z.ltb_ge _ _)) by done. eapply kwp_some; [done|].
  pose proof (kwp_announce (km_dest m) (km_nhop m) (km_time m) (km_flags m) (km_ifindex m) w Hinv) as H.
  unfold kwp in H. rewrite run_bind in H. apply kwp_bind. unfold kwp. rewrite kaodv_expl_get_run in *.
  cbn [mbind option_bind] in H. fold (@kwp Z). apply kwp_bind.
  eapply kwp_wand; [exact H|]. cbv beta. intros c w1 (Hinv1 & Ho & Hl & Hout). apply kwp_bind.
  eapply kwp_wand; [apply (kaodv_queue_set_verdict_total _ _ _ Hinv1); by right|].
  intros ? w2 Hv. cbv beta in Hv. apply kwp_ret. pose proof (verdict_expl_map _ _ _ Hv) as Hmap.
  destruct Hv as (Hinv2 & (_ & Hlv & _) & Hq). destruct (only_expl_queue _ _ Ho) as [Hq1 _].
  split_and!; [done|by rewrite Hq, Hq1|by rewrite Hlv|]. by rewrite Hmap.
Qed.

Lemma receive_drop_run type m rest len w :
  kinv w → type = KAODVM_DELROUTE ∨ type = KAODVM_NOROUTE_FOUND →
  rt_msg_of rest = Some m → sizeof_rt_msg ≤ len →
  kwp (kaodv_netlink_receive_peer type rest len) (λ c w',
    c = 0 ∧ kinv w' ∧ queue_list w' = pkts_not_for (km_dest m) (queue_list w) ∧
    expl_map w' = if type =? KAODVM_DELROUTE then delete (km_dest m) (expl_map w) else expl_map w) w.
Proof.
  intros Hinv Ht Hm Hlen. unfold kaodv_netlink_receive_peer.
  assert (∀ w1, kinv w1 → queue_list w1 = queue_list w →
    kwp (_ ← kaodv_queue_set_verdict KAODV_QUEUE_DROP (km_dest m); mret 0)
      (λ c w', c = 0 ∧ kinv w' ∧ queue_list w' = pkts_not_for (km_dest m) (queue_list w) ∧
         expl_map w' = expl_map w1) w1) as Hdrop.
  { intros w1 Hinv1 Hq1. apply kwp_bind.
    eapply kwp_wand; [apply (kaodv_queue_set_verdict_total _ _ _ Hinv1); by left|].
    intros ? w2 Hv. pose proof (verdict_expl_map _ _ _ Hv) as Hmap.
    destruct Hv as (Hinv2 & _ & Hq). apply kwp_ret. split_and!; [done..|by rewrite Hq, Hq1|done]. }
  destruct Ht as [-> | ->]; simpl Z.eqb; cbv iota; rewrite (proj2 (Z.ltb_ge _ _)) by done;
    (eapply kwp_some; [done|]).
  - apply kwp_bind. eapply kwp_wand; [apply kwp_expl_del, Hinv|].
    intros c w1 (Hok & Ho & Hm1 & _). destruct (only_expl_queue _ _ Ho) as [Hq1 _].
    eapply kwp_wand; [apply Hdrop; [by eapply kinv_only_expl|done]|]. intros c' w2 (? & ? & ? & Hm2).
    split_and!; [done..|]. by rewrite Hm2.
  - by apply Hdrop.
Qed.

Lemma receive_peer_kinv type msg w :
  kinv w →
  kwp (kaodv_netlink_receive_peer type msg (Z.of_nat (length msg))) (λ _, kinv) w.
Proof.
  intros Hinv. unfold sizeof_rt_msg in *.
  assert (28 ≤ Z.of_nat (length msg) → ∃ m, rt_msg_of msg = Some m) as Hm.
  { intros. destruct (rt_msg_of_total msg) as [m Hm]; [lia|by eexists]. }
  destruct (Z.of_nat (length msg) <? 28) eqn:El.
  { unfold kaodv_netlink_receive_peer, sizeof_rt_msg, sizeof_conf_msg. rewrite El.
    repeat case_match; bool_prop; try done.
    destruct (load_bytes_ok msg 0 4) as [l ->]; [lia..|]. cbn.
    apply (kinv_same w); done. }
  bool_prop. destruct (Hm El) as [m Hm'].
  destruct (decide (type = KAODVM_ADDROUTE)) as [->|Ha].
  { eapply kwp_wand; [by apply (receive_addroute_run m)|]. by intros c w' (? & _). }
  destruct (decide (type = KAODVM_DELROUTE ∨ type = KAODVM_NOROUTE_FOUND)) as [Hd|Hd].
  { eapply kwp_wand; [by apply (receive_drop_run type m)|]. by intros c w' (_ & ? & _). }
  unfold kaodv_netlink_receive_peer. rewrite !(proj2 (Z.eqb_neq type _)) by tauto.
  case_match; [|done]. rewrite (proj2 (Z.ltb_ge _ _)) by (unfold sizeof_conf_msg; lia).
  destruct (load_bytes_ok msg 0 4) as [l ->]; [lia..|]. cbn. apply (kinv_same w); done.
Qed.

(** Whatever bytes a process sends to the socket. *)
Lemma kwp_rcv_skb skb w :
  kinv w → Z.of_nat (length skb) < 2 ^ 31 → kwp (kaodv_netlink_rcv_skb skb) (λ _, kinv) w.
Proof.
  intros Hinv Hlen. unfold kaodv_netlink_rcv_skb.
  rewrite (u32_small (Z.of_nat _)) by lia. unfold sizeof_nlmsghdr.
  destruct (Z.of_nat (length skb) <? 16) eqn:E; bool_prop; [done|].
  assert (∀ off n, 0 ≤ off → off + Z.of_nat n ≤ 16 → ∃ v, pkt_ld skb off n = Some v) as Hld.
  { intros off n ??. unfold pkt_ld. destruct (load_bytes_ok skb off n) as [l ->]; [lia..|by eexists]. }
  assert (∀ pid err w, kinv w → kwp (netlink_ack pid err) (λ _, kinv) w) as Hack.
  { intros. apply kwp_locked. by apply (kinv_same w0). }
  destruct (Hld 0 4%nat) as [nlmsg_len Hl]; [lia..|]. eapply kwp_some; [exact Hl|]. cbv zeta.
  case_match; [done|].
  destruct (Hld 12 4%nat) as [nlmsg_pid Hp]; [lia..|]. eapply kwp_some; [exact Hp|].
  destruct (Hld 6 2%nat) as [flags Hf]; [lia..|]. eapply kwp_some; [exact Hf|].
  case_match; [by apply Hack|]. case_match; [by apply Hack|].
  destruct (Hld 4 2%nat) as [type Ht]; [lia..|]. eapply kwp_some; [exact Ht|].
  apply kwp_locked_bind. cbn [kgets fst snd]. case_match; [by apply Hack|].
  apply kwp_bind. apply (kwp_wand _ (λ _, kinv)).
  { unfold pwhen. case_match; [|done]. apply kwp_locked. by apply (kinv_same w). }
  intros _ w1 Hinv1. apply kwp_bind.
  replace (Z.of_nat (length skb) - NLMSG_LENGTH 0) with (Z.of_nat (length (drop 16 skb)))
    by (rewrite length_drop; unfold NLMSG_LENGTH; lia).
  eapply kwp_wand; [by apply receive_peer_kinv|]. intros status w2 Hinv2. cbv beta in Hinv2.
  case_match; [by apply Hack|]. unfold pwhen. case_match; [by apply Hack|done].
Qed.

(** ** Properties of the interface *)

(** An announced route. When the daemon announces a route, every waiting
    packet for its destination leaves the queue, and, unless memory is short,
    the cache then has that route (as long as the counter of the cache is
    within its bound), in place of an older one; the other routes and the other
    packets are untouched. The message is read back as it was laid out. *)
Theorem kaodv_netlink_addroute_spec m w :
  kinv w → rt_msg_ok m → expl_len w ≤ EXPL_MAX_LEN →
  kwp (kaodv_netlink_receive_peer KAODVM_ADDROUTE (rt_msg_bytes m) sizeof_rt_msg) (λ c w',
    kinv w' ∧ queue_list w' = pkts_not_for (km_dest m) (queue_list w) ∧
    (c = - ENOMEM ∧ ke_ok (k_env w) (k_tick w) = false ∧ expl_map w !! km_dest m = None ∧
     expl_map w' = expl_map w ∨
     0 ≤ c ∧ ∃ j, expl_map w' = <[km_dest m := announced_entry (k_env w) j (km_dest m) (km_nhop m)
        (km_time m) (km_flags m) (km_ifindex m)]> (expl_map w))) w.
Proof.
  intros Hinv Hm Hlen. eapply kwp_wand; [apply (receive_addroute_run m); [done| |done]|].
  - rewrite <-(app_nil_r (rt_msg_bytes m)). by apply rt_msg_of_bytes.
  - intros c w' (? & ? & _ & H). split_and!; [done..|by apply H].
Qed.

(** A withdrawn route, and a route that was not found. The waiting packets
    for the destination are dropped; only [KAODVM_DELROUTE] changes the cache,
    and only by removing that destination. *)
Theorem kaodv_netlink_drop_spec type m w :
  kinv w → type = KAODVM_DELROUTE ∨ type = KAODVM_NOROUTE_FOUND → rt_msg_ok m →
  kwp (kaodv_netlink_receive_peer type (rt_msg_bytes m) sizeof_rt_msg) (λ c w',
    c = 0 ∧ kinv w' ∧ queue_list w' = pkts_not_for (km_dest m) (queue_list w) ∧
    expl_map w' = if type =? KAODVM_DELROUTE then delete (km_dest m) (expl_map w) else expl_map w) w.
Proof.
  intros Hinv Ht Hm. apply receive_drop_run; try done.
  rewrite <-(app_nil_r (rt_msg_bytes m)). by apply rt_msg_of_bytes.
Qed.

(** Any datagram. Whatever bytes a process sends to the netlink socket,
    the handler ends, reads nothing outside the datagram, and keeps the
    module's invariant. *)
Theorem kaodv_netlink_rcv_safe skb w :
  kinv w → Z.of_nat (length skb) < 2 ^ 31 → kwp (kaodv_netlink_rcv_skb skb) (λ _, kinv) w.
Proof. apply kwp_rcv_skb. Qed.
