(* ===== verification/KHook.v ===== *)
(** * The netfilter hook and the module (kaodv/src/kaodv_mod.c, kaodv_mod.h)

    [kaodv_hook] decides on every packet of the host: it is let through, it
    waits for a route, or it is dropped and reported. *)

From S2P Require Export KNetlink.

(** ** Constants of the kernel *)

Definition NF_DROP : Z := 0.
Definition NF_ACCEPT : Z := 1.
Definition NF_STOLEN : Z := 2.
Definition NF_INET_PRE_ROUTING : Z := 0.
Definition NF_INET_LOCAL_OUT : Z := 3.
Definition NF_INET_POST_ROUTING : Z := 4.
Definition INADDR_BROADCAST : Z := 0xffffffff.
Definition IPPROTO_UDP : Z := 17.
Definition IN_MULTICAST (a : Z) : bool := Z.land a 0xf0000000 =? 0xe0000000.

Definition MAX_INTERFACES : nat := 10.

(** ** Interfaces (kaodv_mod.h) *)

(** The loop over the addresses of the device: the one labelled with its
    name. *)
Fixpoint ifa_find (name : string) (l : list (string * Z * Z)) : option (Z * Z) :=
  match l with
  | [] => None
  | (label, address, broadcast) :: l' =>
      if String.eqb name label then Some (address, broadcast) else ifa_find name l'
  end.

Definition if_info_add (dev : net_device) : prog Z :=
  ok ← locked kcall;
  if negb ok then mret (-1)
  else
    (* the two addresses are whatever kmalloc returned unless they are found *)
    a ← locked (ktick ke_garbage);
    b ← locked (ktick ke_garbage);
    locked (kmodify (λ w, w <| k_holds ::= cons (nd_ifindex dev) |>));;      (* dev_hold *)
    let '(addr, bc) := match nd_ifa dev with
                       | None => (a, b)
                       | Some l => default (a, b) (ifa_find (nd_name dev) l)
                       end in
    locked (kmodify (λ w, w <| ifihead ::= cons (IfInfo addr bc (nd_ifindex dev)) |>));;
    mret 0.

(** One reference to a device is given back. *)
Fixpoint put_one (i : Z) (l : list Z) : list Z :=
  match l with
  | [] => []
  | j :: l' => if i =? j then l' else j :: put_one i l'
  end.
Definition dev_put (i : Z) : KM unit := kmodify (λ w, w <| k_holds ::= put_one i |>).

Fixpoint purge_loop (l : list if_info) : KM unit :=
  match l with
  | [] => mret tt
  | ifi :: l' => kmodify (λ w, w <| ifihead ::= tail |>);; dev_put (ifi_ifindex ifi);; purge_loop l'
  end.

Definition if_info_purge : prog unit :=
  locked (l ← kgets ifihead; purge_loop l).

(** The addresses of the interface, [None] when the result is -1. *)
Fixpoint ifi_scan (ifindex : Z) (l : list if_info) : option (Z * Z) :=
  match l with
  | [] => None
  | ifi :: l' => if ifi_ifindex ifi =? ifindex then Some (if_addr ifi, bc_addr ifi)
                 else ifi_scan ifindex l'
  end.

Definition if_info_from_ifindex (ifindex : Z) : prog (option (Z * Z)) :=
  locked (kgets (λ w, ifi_scan ifindex (ifihead w))).

(** ** Route lifetimes *)

(** A route that is in use, and the route to its next hop, live on. *)
Definition refresh_expl (addr ifindex : Z) : prog unit :=
  e ← kaodv_expl_get addr;
  match e with
  | None => mret tt
  | Some e =>
      art ← locked (kgets k_active_route_timeout);
      _ ← kaodv_expl_update (ex_daddr e) (ex_nhop e) art (ex_flags e) ifindex;
      if negb (ex_nhop e =? ex_daddr e) then
        e ← kaodv_expl_get (ex_nhop e);
        match e with
        | None => mret tt
        | Some e =>
            art ← locked (kgets k_active_route_timeout);
            _ ← kaodv_expl_update (ex_daddr e) (ex_nhop e) art (ex_flags e) ifindex;
            mret tt
        end
      else mret tt
  end.

Definition kaodv_update_route_timeouts (hooknum ifindex saddr daddr : Z) : prog unit :=
  res ← if_info_from_ifindex ifindex;
  match res with
  | None => mret tt
  | Some (_, bcaddr) =>
      (if hooknum =? NF_INET_PRE_ROUTING
       then kaodv_netlink_send_rt_update_msg PKT_INBOUND saddr daddr ifindex
       else pwhen (negb (daddr =? INADDR_BROADCAST) && negb (daddr =? bcaddr))
              (kaodv_netlink_send_rt_update_msg PKT_OUTBOUND saddr daddr ifindex));;
      refresh_expl daddr ifindex;;
      refresh_expl saddr ifindex
  end.

(** ** The hook *)

(** A UDP packet from or to the AODV port. *)
Definition aodv_packet (d : list Z) : prog bool :=
  protocol ← of_option (ip_protocol d);
  if protocol =? IPPROTO_UDP then
    hl ← of_option (ip_hl d);
    dest ← of_option (pkt_ld d (hl + 2) 2);
    source ← of_option (pkt_ld d hl 2);
    mret ((swap16 dest =? AODV_PORT) || (swap16 source =? AODV_PORT))
  else mret false.

(** [in_dev] and [out_dev] are the indices of [in] and [out], [None] for a
    null pointer. *)
Definition kaodv_hook (hooknum : Z) (skb : sk_buff) (in_dev out_dev : option Z) (okfn : nat) : prog Z :=
  let d := skb_data skb in
  aodv ← aodv_packet d;
  saddr ← of_option (ip_saddr d);
  daddr ← of_option (ip_daddr d);
  if aodv : bool then
    match in_dev with
    | Some i => pwhen (hooknum =? NF_INET_PRE_ROUTING) (kaodv_update_route_timeouts hooknum i saddr daddr)
    | None => mret tt
    end;;
    mret NF_ACCEPT
  else
    ifindex ← of_option (if hooknum =? NF_INET_PRE_ROUTING then in_dev else out_dev);
    res ← if_info_from_ifindex ifindex;
    match res with
    | None => mret NF_ACCEPT
    | Some (ifaddr, bcaddr) =>
        if (daddr =? INADDR_BROADCAST) || IN_MULTICAST (ntohl daddr) || (daddr =? bcaddr)
        then mret NF_ACCEPT
        else if hooknum =? NF_INET_PRE_ROUTING then
          kaodv_update_route_timeouts hooknum ifindex saddr daddr;;
          if (saddr =? ifaddr) || (daddr =? ifaddr) then mret NF_ACCEPT
          else
            e ← kaodv_expl_get daddr;
            match e with
            | None =>
                kaodv_netlink_send_rerr_msg PKT_INBOUND saddr daddr ifindex;;
                mret NF_DROP
            | Some e =>
                if negb (Z.land (ex_flags e) KAODV_RT_REPAIR =? 0) then
                  kaodv_netlink_send_rt_msg KAODVM_REPAIR saddr daddr;;
                  _ ← kaodv_queue_enqueue_packet skb okfn;
                  mret NF_STOLEN
                else mret NF_ACCEPT
            end
        else if hooknum =? NF_INET_LOCAL_OUT then
          e ← kaodv_expl_get daddr;
          let request :=
            queued ← kaodv_queue_check daddr;
            pwhen (queued =? 0) (kaodv_netlink_send_rt_msg KAODVM_ROUTE_REQ 0 daddr);;
            _ ← kaodv_queue_enqueue_packet skb okfn;
            mret NF_STOLEN in
          match e with
          | None => request
          | Some e =>
              if negb (Z.land (ex_flags e) KAODV_RT_REPAIR =? 0) then request
              else if negb (Z.land (ex_flags e) KAODV_RT_GW_ENCAP =? 0) then
                kaodv_update_route_timeouts hooknum ifindex saddr daddr;;
                skb ← ip_pkt_encapsulate skb (ex_nhop e);
                match skb with
                | None => mret NF_STOLEN
                | Some skb => locked (kemit (KEvRoute skb));; mret NF_ACCEPT
                end
              else mret NF_ACCEPT
          end
        else if hooknum =? NF_INET_POST_ROUTING then
          kaodv_update_route_timeouts hooknum ifindex saddr daddr;;
          mret NF_ACCEPT
        else mret NF_ACCEPT
    end.

(** ** Loading and unloading *)

Definition nf_register_hook (i : nat) : prog bool :=
  ok ← locked kcall;
  pwhen ok (locked (kmodify (λ w, w <| k_res ::= cons (R_hook i) |>)));;
  mret ok.
Definition nf_unregister_hook (i : nat) : prog unit :=
  locked (kmodify (λ w, w <| k_res ::= del (R_hook i) |>)).

Definition dev_find (name : string) (l : list net_device) : option net_device :=
  head (filter (λ d, nd_name d = name) l).

(** The interfaces of [ifname] up to the first null pointer; [dev_get_by_name]
    takes a reference, which [dev_put] gives back. *)
Fixpoint add_interfaces (names : list string) : prog unit :=
  match names with
  | [] => mret tt
  | name :: names =>
      dev ← locked (kgets (λ w, dev_find name (ke_devs (k_env w))));
      match dev with
      | None => mret tt
      | Some dev =>
          locked (kmodify (λ w, w <| k_holds ::= cons (nd_ifindex dev) |>));;
          _ ← if_info_add dev;
          locked (dev_put (nd_ifindex dev))
      end;;
      add_interfaces names
  end.

Definition ifname : list string := ["br-lan"%string].

Definition kaodv_init : prog Z :=
  kaodv_expl_init;;
  ret ← kaodv_queue_init;
  if ret <? 0 then mret ret
  else
    let cleanup_queue := λ ret : Z, kaodv_queue_finish;; mret ret in
    let cleanup_netlink := λ ret : Z, kaodv_netlink_finish;; cleanup_queue ret in
    let cleanup_hook0 := λ ret : Z, nf_unregister_hook 0;; cleanup_netlink ret in
    let cleanup_hook1 := λ ret : Z, nf_unregister_hook 1;; cleanup_hook0 ret in
    ret ← kaodv_netlink_init;
    if ret <? 0 then cleanup_queue ret
    else
      ok ← nf_register_hook 0;
      if negb ok then cleanup_netlink (-1)
      else
        ok ← nf_register_hook 1;
        if negb ok then cleanup_hook0 (-1)
        else
          ok ← nf_register_hook 2;
          if negb ok then cleanup_hook1 (-1)
          else add_interfaces ifname;; mret 0.

Definition kaodv_exit : prog unit :=
  if_info_purge;;
  pfor_each [0; 1; 2]%nat nf_unregister_hook;;
  kaodv_queue_finish;;
  kaodv_expl_finish;;
  kaodv_netlink_finish.

(** ** What the hook leaves alone *)

(** The parts of a route the hook decides on. *)
Definition has_flag (e : expl_entry) (f : Z) : bool := negb (Z.land (ex_flags e) f =? 0).
Definition route_of (e : expl_entry) : Z * bool * bool :=
  (ex_nhop e, has_flag e KAODV_RT_REPAIR, has_flag e KAODV_RT_GW_ENCAP).

Definition is_message (e : kevent) : Prop :=
  match e with KEvNl _ _ => True | _ => False end.

(** Only messages to the daemon were sent, the queue is as it was, and, as
    long as the counter of the cache is within its bound, so are the routes, up
    to their expiry and interface. *)
Record hook_frame (w w' : kworld) : Prop := HookFrame {
  hf_inv : kinv w → kinv w';
  hf_queue : queue_list w' = queue_list w;
  hf_total : queue_total w' = queue_total w;
  hf_env : k_env w' = k_env w;
  hf_ifi : ifihead w' = ifihead w;
  hf_out : ∃ l, k_out w' = l ++ k_out w ∧ Forall is_message l;
  hf_routes : expl_len w ≤ EXPL_MAX_LEN → expl_len w' = expl_len w ∧
    ∀ d, route_of <$> expl_map w' !! d = route_of <$> expl_map w !! d
}.

#[export] Instance hook_frame_preorder : PreOrder hook_frame.
Proof.
  split.
  - intros w. constructor; try done. by exists [].
  - intros w1 w2 w3 [I1 Q1 T1 E1 F1 (l1 & O1 & M1) R1] [I2 Q2 T2 E2 F2 (l2 & O2 & M2) R2].
    constructor; [tauto|by etrans..| |].
    + exists (l2 ++ l1). rewrite O2, O1, (assoc_L (++)). split; [done|]. by apply Forall_app.
    + intros Hl. destruct (R1 Hl) as [El1 Er1]. destruct R2 as [El2 Er2]; [lia|].
      split; [by etrans|]. intros d. by rewrite Er2.
Qed.

(** An action that only counts environment calls. *)
Lemma frame_tick w : hook_frame w (w <| k_tick ::= S |>).
Proof. constructor; try done; [by apply kinv_same|by exists []]. Qed.

Lemma frame_message type data w : hook_frame w (w <| k_out ::= cons (KEvNl type data) |>).
Proof.
  constructor; try done; [by apply kinv_same|]. exists [KEvNl type data]. split; [done|].
  by repeat constructor.
Qed.

(** A program that keeps the frame, whatever state it starts from. *)
Definition framed {A} (p : prog A) : Prop := ∀ w, kinv w → kwp p (λ _, hook_frame w) w.

Lemma framed_bind {A B} (p : prog A) (f : A → prog B) :
  framed p → (∀ a, framed (f a)) → framed (p ≫= f).
Proof.
  intros Hp Hf w Hinv. apply kwp_bind. eapply kwp_wand; [by apply Hp|]. intros a w1 H1.
  eapply kwp_wand; [by apply Hf, H1|]. intros b w2 H2. cbv beta in *. by etrans.
Qed.

Lemma framed_ret {A} (a : A) : framed (mret a).
Proof. intros w _. apply kwp_ret. reflexivity. Qed.

Lemma framed_gets {A} (f : kworld → A) : framed (locked (kgets f)).
Proof. intros w _. apply kwp_locked. reflexivity. Qed.

Lemma framed_get d : framed (kaodv_expl_get d).
Proof. intros w _. eapply kwp_run; [apply kaodv_expl_get_run|reflexivity]. Qed.

Lemma framed_broadcast type data : framed (netlink_broadcast (Some (type, data))).
Proof. intros w _. apply kwp_locked, frame_message. Qed.

Lemma framed_build type data : framed (kaodv_netlink_build_msg type data).
Proof.
  apply framed_bind; [|intros ?; apply framed_ret]. intros w _. apply kwp_locked, frame_tick.
Qed.

Lemma framed_send (p : prog (option (Z * list Z))) :
  framed p → framed (skb ← p; netlink_broadcast skb).
Proof.
  intros Hp. apply framed_bind; [done|]. intros [[type data]|]; [apply framed_broadcast|apply framed_ret].
Qed.

Lemma framed_update_msg type src dest ifindex :
  framed (kaodv_netlink_send_rt_update_msg type src dest ifindex).
Proof. apply framed_send, framed_build. Qed.

Lemma framed_rt_msg type src dest : framed (kaodv_netlink_send_rt_msg type src dest).
Proof. apply framed_send, framed_build. Qed.

Lemma framed_rerr_msg type src dest ifindex :
  framed (kaodv_netlink_send_rerr_msg type src dest ifindex).
Proof. apply framed_send, framed_build. Qed.

(** ** Refreshing a route *)

Lemma land_u16 f k : 0 ≤ k < 16 → Z.land (u16 f) (2 ^ k) = Z.land f (2 ^ k).
Proof.
  intros Hk. apply Z.bits_inj'. intros n Hn. rewrite !Z.land_spec. unfold u16.
  destruct (decide (n < 16)); [by rewrite Z.mod_pow2_bits_low|].
  rewrite Z.pow2_bits_false by lia. by rewrite !andb_false_r.
Qed.

Lemma route_of_announced e j d time ifindex x :
  route_of (announced_entry e j d (ex_nhop x) time (ex_flags x) ifindex) = route_of x.
Proof.
  unfold route_of, has_flag, announced_entry, KAODV_RT_REPAIR, KAODV_RT_GW_ENCAP. cbn [ex_nhop ex_flags].
  change 0x2 with (2 ^ 1). change 0x1 with (2 ^ 0). by rewrite !land_u16 by lia.
Qed.

(** Writing back the copy of an entry with a new expiry. *)
Lemma frame_update w d x art ifindex :
  kinv w → expl_map w !! d = Some x →
  kwp (kaodv_expl_update (ex_daddr x) (ex_nhop x) art (ex_flags x) ifindex)
    (λ _, hook_frame w) w.
Proof.
  intros Hinv Hx. assert (ex_daddr x = d) as Hd.
  { pose proof (expl_map_lookup_scan d w) as H. destruct (expl_scan d (expl_head w)); [|congruence].
    destruct H as (e & _ & H & <-). congruence. }
  eapply kwp_wand; [by apply kinv_update|]. unfold update_outcome. rewrite Hd, Hx.
  intros c w' (Hinv' & (h & n & k & ->) & _ & Hlen & Hmap).
  constructor; try done; [by exists []|]. intros Hl. split; [done|]. intros d'.
  rewrite (proj2 (Z.ltb_ge _ _)) in Hmap by done. destruct Hmap as [j ->].
  destruct (decide (d' = d)) as [->|Hne]; [|by rewrite lookup_insert_ne].
  rewrite lookup_insert_eq, Hx. cbn [fmap option_fmap option_map]. by rewrite route_of_announced.
Qed.

Lemma framed_refresh addr ifindex : framed (refresh_expl addr ifindex).
Proof.
  intros w Hinv. apply kwp_expl_get_bind. destruct (expl_map w !! addr) as [x|] eqn:Ex; [|by apply framed_ret].
  apply kwp_locked_bind. cbn [kgets fst snd]. apply kwp_bind.
  eapply kwp_wand; [by eapply frame_update|]. intros c w1 H1. cbv beta in H1.
  destruct (negb _); [|exact H1]. apply kwp_expl_get_bind.
  destruct (expl_map w1 !! ex_nhop x) as [y|] eqn:Ey; [|exact H1].
  apply kwp_locked_bind. cbn [kgets fst snd]. apply kwp_bind.
  eapply kwp_wand; [eapply frame_update; [by apply H1|done]|]. intros c' w2 H2. cbv beta in H2.
  apply kwp_ret. by etrans.
Qed.

Lemma framed_update_route_timeouts hooknum ifindex saddr daddr :
  framed (kaodv_update_route_timeouts hooknum ifindex saddr daddr).
Proof.
  apply framed_bind; [apply framed_gets|]. intros [[ifa bc]|]; [|apply framed_ret].
  apply framed_bind; [|intros ?; apply framed_bind; [|intros ?]; apply framed_refresh].
  case_match; [apply framed_update_msg|]. unfold pwhen.
  case_match; [apply framed_update_msg|apply framed_ret].
Qed.

(** ** Packets the hook can read *)

(** A packet with a complete IP header and, for UDP, complete ports; the
    kernel only guarantees the first. *)
Definition readable (skb : sk_buff) : Prop :=
  ∃ hl, ip_packet hl (skb_data skb) ∧
    (ip_protocol (skb_data skb) = Some IPPROTO_UDP → hl + 4 ≤ Z.of_nat (length (skb_data skb))).

Lemma pkt_ld_total d off n :
  0 ≤ off → off + Z.of_nat n ≤ Z.of_nat (length d) → is_Some (pkt_ld d off n).
Proof. intros. unfold pkt_ld. destruct (load_bytes_ok d off n) as [l ->]; [lia..|by eexists]. Qed.

Lemma readable_fields skb :
  readable skb → ∃ saddr daddr tos aodv,
    ip_saddr (skb_data skb) = Some saddr ∧ ip_daddr (skb_data skb) = Some daddr ∧
    ip_tos (skb_data skb) = Some tos ∧ aodv_packet (skb_data skb) = Ret aodv.
Proof.
  intros (hl & (Hip & Hlen & _) & Hudp). set (d := skb_data skb) in *.
  destruct (pkt_ld_total d 12 4) as [saddr Hs]; [lia..|].
  destruct (pkt_ld_total d 16 4) as [daddr Hd]; [lia..|].
  destruct (pkt_ld_total d 1 1) as [tos Ht]; [lia..|].
  destruct (pkt_ld_total d 9 1) as [p Hp]; [lia..|]. change (ip_protocol d = Some p) in Hp.
  exists saddr, daddr, tos. unfold aodv_packet. rewrite Hp, Hip.
  destruct (decide (p = IPPROTO_UDP)) as [->|Hne].
  - specialize (Hudp Hp). destruct (pkt_ld_total d (hl + 2) 2) as [v Hv]; [lia..|].
    destruct (pkt_ld_total d hl 2) as [v' Hv']; [lia..|]. eexists. split_and!; [done..|].
    cbn. by rewrite Hv, Hv'.
  - exists false. split_and!; [done..|]. cbn. by rewrite (proj2 (Z.eqb_neq _ _) Hne).
Qed.

(** ** Stages of the hook *)

(** The packet waits last in the queue, or it is in no list and not freed. *)
Definition queued_or_lost (skb : sk_buff) (okfn : nat) (w w' : kworld) : Prop :=
  kinv w' ∧ k_env w' = k_env w ∧
  (∃ l, k_out w' = l ++ k_out w ∧ Forall is_message l) ∧
  ((∃ q, q_skb q = skb ∧ q_okfn q = okfn ∧ ip_daddr (skb_data skb) = Some (q_daddr q) ∧
         queue_list w' = queue_list w ++ [q]) ∨
   queue_list w' = queue_list w).

Lemma kwp_enqueue skb okfn w0 w :
  readable skb → kinv w → hook_frame w0 w →
  kwp (_ ← kaodv_queue_enqueue_packet skb okfn; mret NF_STOLEN)
    (λ v w', v = NF_STOLEN ∧ queued_or_lost skb okfn w0 w') w.
Proof.
  intros Hr Hinv H0. destruct (readable_fields skb Hr) as (saddr & daddr & tos & aodv & Hs & Hd & Ht & _).
  destruct (kaodv_queue_enqueue_run skb okfn tos daddr saddr w (ki_queue w Hinv) Ht Hd Hs)
    as (c & w' & Hrun & Hcase).
  pose proof Hinv as [Hc Hx [Hq Hm] Hp]. destruct H0 as [_ Q0 T0 E0 _ O0 _].
  apply kwp_bind. eapply kwp_run; [exact Hrun|]. apply kwp_ret. split; [done|].
  destruct Hcase as [(_ & _ & Hroom & ->)|(_ & _ & ->)].
  - split_and!; [|done|done|].
    + constructor; [done..| |].
      * unfold queue_ok. cbn. rewrite length_app. simpl. split; lia.
      * cbn. apply Forall_app. split; [done|]. apply Forall_singleton.
        destruct Hr as (hl & ? & _). by exists hl.
    + left. exists (QEntry skb okfn tos daddr saddr). split_and!; [done..|]. cbn. by rewrite Q0.
  - split_and!; [|done..|by right]. by apply (kinv_same w).
Qed.

(** The decision on a packet from this host without a usable route. *)
Lemma kwp_request skb okfn daddr w :
  readable skb → kinv w →
  kwp (queued ← kaodv_queue_check daddr;
       pwhen (queued =? 0) (kaodv_netlink_send_rt_msg KAODVM_ROUTE_REQ 0 daddr);;
       _ ← kaodv_queue_enqueue_packet skb okfn;
       mret NF_STOLEN)
    (λ v w', v = NF_STOLEN ∧ queued_or_lost skb okfn w w') w.
Proof.
  intros Hr Hinv. apply kwp_locked_bind. cbv beta.
  apply kwp_bind. apply (kwp_wand _ (λ _, hook_frame w)).
  - unfold pwhen. case_match; [by apply framed_rt_msg|apply kwp_ret; reflexivity].
  - intros _ w1 H1. apply kwp_enqueue; [done|by apply H1|done].
Qed.

Lemma framed_finish {A} (p : prog A) (v : Z) w0 w :
  framed p → kinv w → hook_frame w0 w →
  kwp (_ ← p; mret v) (λ v' w', v' = v ∧ hook_frame w0 w') w.
Proof.
  intros Hp Hinv H0. apply kwp_bind. eapply kwp_wand; [by apply Hp|].
  intros a w1 H1. apply kwp_ret. split; [done|]. cbv beta in H1. by etrans.
Qed.

(** Encapsulation frees the packet in every case. *)
Lemma encapsulate_frees hl skb dest w :
  kinv w → ip_packet hl (skb_data skb) →
  kwp (ip_pkt_encapsulate skb dest) (λ _ w', kinv w' ∧ k_out w' = KEvFree skb :: k_out w) w.
Proof.
  intros Hinv Hpk. apply kwp_locked_bind. cbn [kcall ktick fst snd].
  destruct (ke_ok _ _); cbn [negb].
  - apply kwp_locked_bind. cbn [kgets fst snd].
    destruct (encapsulated_total hl (k_env w) dest _ (ki_check w Hinv) Hpk) as [n Hn].
    eapply kwp_some; [exact Hn|]. apply kwp_locked_bind, kwp_ret.
    split; [by apply (kinv_same w)|done].
  - apply kwp_locked_bind, kwp_ret. split; [by apply (kinv_same w)|done].
Qed.

(** ** Properties of the hook *)

(** Where the hook gets the interface from. *)
Definition hook_dev (hooknum : Z) (in_dev out_dev : option Z) : option Z :=
  if hooknum =? NF_INET_PRE_ROUTING then in_dev else out_dev.

(** A packet to one host, not of the AODV port, on a known interface. *)
Definition unicast_on (d : list Z) (ifindex saddr daddr ifaddr : Z) (w : kworld) : Prop :=
  aodv_packet d = Ret false ∧ ip_saddr d = Some saddr ∧ ip_daddr d = Some daddr ∧
  ∃ bcaddr, ifi_scan ifindex (ifihead w) = Some (ifaddr, bcaddr) ∧
    daddr ≠ INADDR_BROADCAST ∧ IN_MULTICAST (ntohl daddr) = false ∧ daddr ≠ bcaddr.

Lemma run_get_bind {A} (o : option (Z * Z)) ifindex (f : option (Z * Z) → prog A) Q w :
  ifi_scan ifindex (ifihead w) = o → kwp (f o) Q w → kwp (if_info_from_ifindex ifindex ≫= f) Q w.
Proof. intros <- H. by apply kwp_locked_bind. Qed.



(** ** Every packet *)

(** A part of the hook that keeps the invariant and ends with a verdict. *)
Definition decides (p : prog Z) : Prop :=
  ∀ w, kinv w → kwp p (λ v w', kinv w' ∧ v ∈ [NF_ACCEPT; NF_DROP; NF_STOLEN]) w.

Lemma decides_framed {A} (p : prog A) f :
  framed p → (∀ a, decides (f a)) → decides (p ≫= f).
Proof.
  intros Hp Hf w Hinv. apply kwp_bind. eapply kwp_wand; [by apply Hp|].
  intros a w1 H1. by apply Hf, H1.
Qed.

Lemma decides_ret v : v ∈ [NF_ACCEPT; NF_DROP; NF_STOLEN] → decides (mret v).
Proof. intros Hv w Hinv. by apply kwp_ret. Qed.

Lemma decides_wand (p : prog Z) (Q : kworld → kworld → Prop) :
  (∀ w, kinv w → kwp p (λ v w', v = NF_STOLEN ∧ Q w w') w) →
  (∀ w w', Q w w' → kinv w') → decides p.
Proof.
  intros Hp HQ w Hinv. eapply kwp_wand; [by apply Hp|]. intros v w' [-> H].
  split; [by eapply HQ|]. set_solver.
Qed.

Lemma decides_enqueue skb okfn :
  readable skb → decides (_ ← kaodv_queue_enqueue_packet skb okfn; mret NF_STOLEN).
Proof.
  intros Hr. apply (decides_wand _ (queued_or_lost skb okfn)).
  - intros w Hinv. by apply kwp_enqueue.
  - by intros w w' (? & _).
Qed.

Lemma decides_request skb okfn daddr :
  readable skb →
  decides (queued ← kaodv_queue_check daddr;
           pwhen (queued =? 0) (kaodv_netlink_send_rt_msg KAODVM_ROUTE_REQ 0 daddr);;
           _ ← kaodv_queue_enqueue_packet skb okfn;
           mret NF_STOLEN).
Proof.
  intros Hr. apply (decides_wand _ (queued_or_lost skb okfn)).
  - intros w Hinv. by apply kwp_request.
  - by intros w w' (? & _).
Qed.

Lemma decides_encap skb nhop :
  readable skb →
  decides (skb ← ip_pkt_encapsulate skb nhop;
           match skb with
           | None => mret NF_STOLEN
           | Some skb => locked (kemit (KEvRoute skb));; mret NF_ACCEPT
           end).
Proof.
  intros (hl & Hpk & _) w Hinv. apply kwp_bind.
  eapply kwp_wand; [by apply (encapsulate_frees hl)|]. intros [skb'|] w1 [Hinv1 _]; cbv beta iota.
  - apply kwp_locked_bind, kwp_ret. split; [by apply (kinv_same w1)|set_solver].
  - apply kwp_ret. split; [done|set_solver].
Qed.

Ltac decides_step :=
  lazymatch goal with
  | |- decides (mret _) => apply decides_ret; set_solver
  | |- decides (kaodv_update_route_timeouts _ _ _ _ ≫= _) =>
      apply decides_framed; [apply framed_update_route_timeouts|intros ?]
  | |- decides (kaodv_netlink_send_rt_msg _ _ _ ≫= _) =>
      apply decides_framed; [apply framed_rt_msg|intros ?]
  | |- decides (kaodv_netlink_send_rerr_msg _ _ _ _ ≫= _) =>
      apply decides_framed; [apply framed_rerr_msg|intros ?]
  | |- decides (if_info_from_ifindex _ ≫= _) => apply decides_framed; [apply framed_gets|intros ?]
  | |- decides (kaodv_expl_get _ ≫= _) => apply decides_framed; [apply framed_get|intros ?]
  | |- decides (kaodv_queue_check _ ≫= _) => by apply decides_request
  | |- decides (kaodv_queue_enqueue_packet _ _ ≫= _) => by apply decides_enqueue
  | |- decides (ip_pkt_encapsulate _ _ ≫= _) => by apply decides_encap
  | |- decides (match ?x with _ => _ end) => destruct x
  end.


(** Packets that are not the module's business. A packet of the protocol
    itself, on an unknown interface, or for a broadcast or multicast address is
    let through and waits for nothing. *)
Theorem kaodv_hook_bypass hooknum skb in_dev out_dev okfn i aodv daddr w :
  kinv w → readable skb → hook_dev hooknum in_dev out_dev = Some i →
  aodv_packet (skb_data skb) = Ret aodv → ip_daddr (skb_data skb) = Some daddr →
  aodv = true ∨ daddr = INADDR_BROADCAST ∨ IN_MULTICAST (ntohl daddr) = true ∨
    ifi_scan i (ifihead w) = None →
  kwp (kaodv_hook hooknum skb in_dev out_dev okfn) (λ v w', v = NF_ACCEPT ∧ hook_frame w w') w.
Proof.
  intros Hinv Hr Hi Ha Hd Hcase.
  destruct (readable_fields skb Hr) as (saddr & _ & _ & _ & Hs & _).
  unfold kaodv_hook. rewrite Ha, Hs, Hd. change (if hooknum =? _ then in_dev else out_dev)
    with (hook_dev hooknum in_dev out_dev). rewrite Hi.
  change (Ret ?a ≫= ?f) with (f a). cbv beta. repeat (change (of_option (Some ?a) ≫= ?f) with (f a); cbv beta zeta).
  destruct aodv.
  - apply framed_finish; [|done|reflexivity].
    destruct in_dev; [|apply framed_ret]. unfold pwhen.
    case_match; [apply framed_update_route_timeouts|apply framed_ret].
  - destruct Hcase as [|Hcase]; [done|]. eapply run_get_bind; [reflexivity|].
    destruct (ifi_scan i (ifihead w)) as [[ifaddr bcaddr]|].
    2:{ apply kwp_ret. by split. }
    replace ((daddr =? INADDR_BROADCAST) || IN_MULTICAST (ntohl daddr) || (daddr =? bcaddr)) with true.
    { apply kwp_ret. by split. }
    destruct Hcase as [-> |[-> |?]]; [done|by rewrite orb_true_r|done].
Qed.

(** ** Loading and unloading *)

(** Registering the interfaces leaves everything else as it is. *)
Lemma kwp_if_info_add dev w : kwp (if_info_add dev) (λ _ w', k_res w' = k_res w) w.
Proof.
  apply kwp_locked_bind. cbn [kcall ktick fst snd]. destruct (ke_ok _ _); cbn [negb]; [|done].
  do 3 apply kwp_locked_bind. case_match. by apply kwp_locked_bind.
Qed.

Lemma kwp_add_interfaces names w : kwp (add_interfaces names) (λ _ w', k_res w' = k_res w) w.
Proof.
  revert w. induction names as [|name names IH]; intros w; [done|]. cbn [add_interfaces].
  apply kwp_locked_bind. cbn [kgets fst snd]. apply kwp_bind.
  apply (kwp_wand _ (λ _ w', k_res w' = k_res w)).
  - destruct (dev_find _ _) as [dev|]; [|done]. apply kwp_locked_bind, kwp_bind.
    eapply kwp_wand; [apply kwp_if_info_add|]. intros ? w1 H1. cbv beta in H1. by apply kwp_locked.
  - intros _ w1 H1. eapply kwp_wand; [apply IH|]. intros ? w2 H2. cbv beta in H2. by etrans.
Qed.

(** What is registered, with the packet queue empty. *)
Definition loaded (res : list resource) (w : kworld) : Prop := k_res w = res ∧ queue_list w = [].

Section loading.
Context {A : Type} (Q : A → kworld → Prop) (res : list resource).

Lemma kwp_register r (f : unit → prog A) w :
  loaded res w → (∀ w', loaded (r :: res) w' → kwp (f tt) Q w') →
  kwp (locked (kmodify (λ w, w <| k_res ::= cons r |>)) ≫= f) Q w.
Proof. intros [Hr Hq] HQ. apply kwp_locked_bind, HQ. split; [cbn; by rewrite Hr|done]. Qed.

Lemma kwp_unregister r (f : unit → prog A) w :
  loaded res w → (∀ w', loaded (del r res) w' → kwp (f tt) Q w') →
  kwp (locked (kmodify (λ w, w <| k_res ::= del r |>)) ≫= f) Q w.
Proof. intros [Hr Hq] HQ. apply kwp_locked_bind, HQ. split; [cbn; by rewrite Hr|done]. Qed.

Lemma kwp_attempt (f : bool → prog A) w :
  loaded res w → (∀ ok w', loaded res w' → kwp (f ok) Q w') → kwp (locked kcall ≫= f) Q w.
Proof. intros [Hr Hq] HQ. apply kwp_locked_bind. by apply HQ. Qed.

Lemma kwp_queue_finish (f : unit → prog A) w :
  loaded res w → (∀ w', loaded (del R_queue_proc res) w' → kwp (f tt) Q w') →
  kwp (kaodv_queue_finish ≫= f) Q w.
Proof.
  intros [Hr Hq] HQ. apply kwp_bind, kwp_locked_bind, kwp_locked, HQ.
  pose proof (delqueue_run None 0 w) as H. rewrite Hq in H. cbn in H.
  unfold __kaodv_queue_flush. unfold mbind, KM_bind, kgets. cbn [queue_flush_loop].
  unfold mbind, KM_bind. rewrite H. split; [cbn; by rewrite Hr|done].
Qed.
End loading.

Lemma kwp_register_hook i (f : bool → prog Z) Q res w :
  loaded res w →
  (∀ w', loaded res w' → kwp (f false) Q w') →
  (∀ w', loaded (R_hook i :: res) w' → kwp (f true) Q w') →
  kwp (nf_register_hook i ≫= f) Q w.
Proof.
  intros Hw Hf Ht. apply kwp_bind. eapply kwp_attempt; [done|]. intros [|] w1 H1; cbn [pwhen].
  - eapply kwp_register; [done|]. intros w2 H2. by apply kwp_ret, Ht.
  - by apply kwp_ret, Hf.
Qed.

(** The clean-up of [kaodv_init], label by label. *)
Definition cleaned (ret : Z) (res : list resource) (r : Z) (w' : kworld) : Prop :=
  r = ret ∧ loaded res w'.

Lemma kwp_cleanup_queue ret res w :
  loaded res w →
  kwp (kaodv_queue_finish;; mret ret) (cleaned ret (del R_queue_proc res)) w.
Proof. intros Hw. eapply kwp_queue_finish; [done|]. intros w1 H1. by apply kwp_ret. Qed.

Lemma kwp_cleanup_netlink ret res w :
  loaded res w →
  kwp (kaodv_netlink_finish;; kaodv_queue_finish;; mret ret)
    (cleaned ret (del R_queue_proc (del R_notifier (del R_nlsock res)))) w.
Proof.
  intros Hw. apply kwp_bind. eapply kwp_unregister; [done|]. intros w1 H1.
  destruct H1 as [Hr Hq]. apply kwp_locked. apply kwp_cleanup_queue.
  split; [cbn; by rewrite Hr|done].
Qed.

Lemma kwp_cleanup_hook i (p : prog Z) res Q w :
  loaded res w → (∀ w', loaded (del (R_hook i) res) w' → kwp p Q w') →
  kwp (nf_unregister_hook i;; p) Q w.
Proof. intros Hw HQ. by eapply kwp_unregister. Qed.

(** A module that fails to load. When [kaodv_init] returns an error, what
    it registered is unregistered again except the [/proc] file of the cache,
    which stays whenever it could be created; when it succeeds everything is
    registered. *)
Theorem kaodv_init_spec w :
  k_res w = [] → queue_list w = [] →
  let expl := if ke_ok (k_env w) (k_tick w) then [R_expl_proc] else [] in
  kwp kaodv_init (λ r w',
    k_res w' = if r <? 0 then expl
               else [R_hook 2; R_hook 1; R_hook 0; R_nlsock; R_notifier; R_queue_proc] ++ expl) w.
Proof.
  intros Hr Hq expl. unfold kaodv_init, kaodv_expl_init. apply kwp_bind, kwp_locked_bind, kwp_locked.
  set (w1 := (kmodify _ _).2). assert (loaded expl w1) as Hw1.
  { unfold w1, loaded, expl, mbind, KM_bind. cbn. destruct (ke_ok _ _); cbn; by rewrite Hr, Hq. }
  clearbody w1. assert (∀ r, r ∈ [R_queue_proc; R_notifier; R_nlsock; R_hook 0; R_hook 1] → del r expl = expl)
    as Hdel by (unfold expl; intros r Hin; apply del_notin; case_match; set_solver).
  unfold kaodv_queue_init, queue_show_buf_update. apply kwp_bind, kwp_locked_bind, kwp_locked_bind.
  eapply kwp_attempt; [exact Hw1|]. intros [|] w2 H2; cbn [negb].
  2:{ apply kwp_ret. cbn. apply H2. }
  assert (∀ ret res r w', cleaned ret res r w' → ret < 0 → res = expl →
    k_res w' = if r <? 0 then expl else
      [R_hook 2; R_hook 1; R_hook 0; R_nlsock; R_notifier; R_queue_proc] ++ expl) as Hend.
  { intros ret res r w' [-> [-> _]] Hneg ->. by rewrite (proj2 (Z.ltb_lt _ _) Hneg). }
  eapply kwp_register; [done|]. intros w3 H3. apply kwp_ret. cbn [Z.ltb Z.compare].
  unfold kaodv_netlink_init. apply kwp_bind. eapply kwp_register; [done|]. intros w4 H4.
  eapply kwp_attempt; [done|]. intros [|] w5 H5; cbn [negb].
  2:{ eapply kwp_unregister; [done|]. intros w6 H6. apply kwp_ret. cbn [Z.ltb Z.compare].
      eapply kwp_wand; [by apply kwp_cleanup_queue|]. intros r w' H. eapply Hend; [done..|].
      unfold expl. by destruct (ke_ok _ _). }
  eapply kwp_register; [done|]. intros w6 H6. apply kwp_ret. cbn [Z.ltb Z.compare].
  eapply kwp_register_hook; [done|intros w7 H7|intros w7 H7]; cbn [negb].
  { eapply kwp_wand; [by apply kwp_cleanup_netlink|]. intros r w' H. eapply Hend; [done..|].
    unfold expl. by destruct (ke_ok _ _). }
  eapply kwp_register_hook; [done|intros w8 H8|intros w8 H8]; cbn [negb].
  { eapply kwp_cleanup_hook; [done|]. intros w9 H9.
    eapply kwp_wand; [by apply kwp_cleanup_netlink|]. intros r w' H. eapply Hend; [done..|].
    unfold expl. by destruct (ke_ok _ _). }
  eapply kwp_register_hook; [done|intros w9 H9|intros w9 H9]; cbn [negb].
  { eapply kwp_cleanup_hook; [done|]. intros w10 H10. eapply kwp_cleanup_hook; [done|]. intros w11 H11.
    eapply kwp_wand; [by apply kwp_cleanup_netlink|]. intros r w' H. eapply Hend; [done..|].
    unfold expl. by destruct (ke_ok _ _). }
  apply kwp_bind. eapply kwp_wand; [apply kwp_add_interfaces|]. intros ? w10 H10.
  apply kwp_ret. cbv beta in H10. rewrite H10. apply H9.
Qed.
