(* ===== verification/Text.v ===== *)
(** * Text

    Lengths of strings, and the conversions of [sprintf] that the log and the
    [/proc] files use. *)

From S2P Require Export Prelude.
From stdpp Require Export strings pretty.
From Stdlib Require Import Ascii.

#[global] Open Scope c_scope.
#[global] Open Scope Z_scope.

(** ** Strings *)

(** The number of characters, without the terminator. *)
Definition slen (s : string) : Z := Z.of_nat (String.length s).

Lemma slen_nonneg s : 0 ≤ slen s.
Proof. unfold slen. lia. Qed.

Lemma slen_cons c s : slen (String c s) = slen s + 1.
Proof. unfold slen. simpl. lia. Qed.

Lemma slen_app s t : slen (s +:+ t) = slen s + slen t.
Proof.
  induction s as [|c s IH]; [by unfold slen|].
  change (String c s +:+ t) with (String c (s +:+ t)). rewrite !slen_cons, IH. lia.
Qed.

Lemma str_app_assoc (s t u : string) : (s +:+ t) +:+ u = s +:+ (t +:+ u).
Proof. induction s as [|c s IH]; [done|]. apply (f_equal (String c)), IH. Qed.

Lemma str_app_nil_r s : s +:+ EmptyString = s.
Proof. induction s as [|c s IH]; [done|]. apply (f_equal (String c)), IH. Qed.

(** The characters of a string. *)
Fixpoint chars (s : string) : list ascii :=
  match s with EmptyString => [] | String c s => c :: chars s end.

Lemma length_chars s : Z.of_nat (length (chars s)) = slen s.
Proof.
  induction s as [|c s IH]; [done|]. rewrite slen_cons, <-IH. cbn [chars length]. lia.
Qed.

Lemma chars_app s t : chars (s +:+ t) = chars s ++ chars t.
Proof.
  induction s as [|c s IH]; [done|].
  change (String c s +:+ t) with (String c (s +:+ t)). cbn [chars]. by rewrite IH.
Qed.

(** ** Numbers *)

(** A number below [10 ^ k] has at most [k] digits. *)
Lemma slen_pretty_N_go k x s : (x < 10 ^ N.of_nat k)%N → slen (pretty_N_go x s) ≤ Z.of_nat k + slen s.
Proof.
  revert x s. induction k as [|k IH]; intros x s Hx.
  { replace x with 0%N by (simpl in Hx; lia). rewrite pretty_N_go_0. lia. }
  destruct (decide (x = 0%N)) as [->|]; [rewrite pretty_N_go_0; lia|].
  rewrite pretty_N_go_step by lia.
  etrans; [apply IH|rewrite slen_cons; lia].
  rewrite Nat2N.inj_succ, N.pow_succ_r' in Hx. apply N.Div0.div_lt_upper_bound; lia.
Qed.

Lemma slen_pretty_N k x : (x < 10 ^ N.of_nat (S k))%N → slen (pretty x) ≤ Z.of_nat (S k).
Proof.
  intros Hx. unfold pretty, pretty_N. case_decide; [unfold slen; simpl; lia|].
  etrans; [by apply slen_pretty_N_go|]. change (slen EmptyString) with 0. lia.
Qed.

(** [%d] and [%u]. *)
Definition fmt_d (z : Z) : string := pretty z.

Lemma slen_fmt_d k z : 0 ≤ z < 10 ^ Z.of_nat (S k) → slen (fmt_d z) ≤ Z.of_nat (S k).
Proof.
  intros [H0 Hz]. unfold fmt_d. replace (pretty z) with (pretty (Z.to_N z)).
  - apply slen_pretty_N. apply N2Z.inj_lt. rewrite N2Z.inj_pow, Z2N.id, nat_N_Z by done. exact Hz.
  - unfold pretty at 2, pretty_Z. destruct z; [done|done|lia].
Qed.

Lemma slen_fmt_d_neg k z : - 10 ^ Z.of_nat (S k) < z < 0 → slen (fmt_d z) ≤ Z.of_nat (S k) + 1.
Proof.
  intros Hz. destruct z as [|p|p]; [lia..|].
  change (fmt_d (Z.neg p)) with ("-" +:+ pretty (N.pos p)). rewrite slen_app.
  change (slen "-") with 1. assert (slen (pretty (N.pos p)) ≤ Z.of_nat (S k)); [|lia].
  apply slen_pretty_N. apply N2Z.inj_lt. rewrite N2Z.inj_pow, nat_N_Z. simpl (Z.of_N (N.pos p)).
  change (Z.of_N 10) with 10. lia.
Qed.

(** A number of 32 bits with a sign. *)
Lemma slen_fmt_s32 z : - 2 ^ 31 ≤ z < 2 ^ 31 → slen (fmt_d z) ≤ 11.
Proof.
  intros Hz. destruct (Z_lt_le_dec z 0).
  - apply (slen_fmt_d_neg 9). lia.
  - pose proof (slen_fmt_d 9 z ltac:(lia)). lia.
Qed.

(** ** Widths *)

Fixpoint fill (n : nat) (c : ascii) : string :=
  match n with O => EmptyString | S n => String c (fill n c) end.

Lemma slen_fill n c : slen (fill n c) = Z.of_nat n.
Proof. induction n as [|n IH]; [done|]. cbn [fill]. rewrite slen_cons, IH. lia. Qed.

(** [%-Ns] and [%Ns]: at least [n] characters. *)
Definition pad_right (n : Z) (s : string) : string := s +:+ fill (Z.to_nat (n - slen s)) " "%char.
Definition pad_left (n : Z) (s : string) : string := fill (Z.to_nat (n - slen s)) " "%char +:+ s.

(** [%0Nd] of a number that is not negative. *)
Definition fmt_0d (n : Z) (z : Z) : string :=
  let s := fmt_d z in fill (Z.to_nat (n - slen s)) "0"%char +:+ s.

Lemma slen_pad_right n s : 0 ≤ n → slen (pad_right n s) = Z.max n (slen s).
Proof. intros. unfold pad_right. rewrite slen_app, slen_fill. pose proof (slen_nonneg s). lia. Qed.

Lemma slen_pad_left n s : 0 ≤ n → slen (pad_left n s) = Z.max n (slen s).
Proof. intros. unfold pad_left. rewrite slen_app, slen_fill. pose proof (slen_nonneg s). lia. Qed.

Lemma slen_fmt_0d n z : 0 ≤ n → slen (fmt_0d n z) = Z.max n (slen (fmt_d z)).
Proof.
  intros. unfold fmt_0d. rewrite slen_app, slen_fill. pose proof (slen_nonneg (fmt_d z)). lia.
Qed.

(** ** Addresses *)

(** The dotted form of an address whose bytes in memory, first to last, are
    those of [a] from the lowest up ([inet_ntoa], and the [sprintf] of the
    kernel module). *)
Definition dotted (a : Z) : string :=
  fmt_d (Z.land a 255) +:+ "." +:+ fmt_d (Z.land (Z.shiftr a 8) 255) +:+ "."
  +:+ fmt_d (Z.land (Z.shiftr a 16) 255) +:+ "." +:+ fmt_d (Z.land (Z.shiftr a 24) 255).

Lemma land255_range a : 0 ≤ Z.land a 255 < 256.
Proof. change 255 with (Z.ones 8). rewrite Z.land_ones by done. apply Z.mod_pos_bound. lia. Qed.

Lemma slen_byte a : slen (fmt_d (Z.land a 255)) ≤ 3.
Proof. pose proof (land255_range a). apply (slen_fmt_d 2). lia. Qed.

(** It fits the 16 characters that every caller has for it. *)
Lemma slen_dotted a : slen (dotted a) ≤ 15.
Proof.
  unfold dotted. rewrite !slen_app. change (slen ".") with 1.
  pose proof (slen_byte a). pose proof (slen_byte (Z.shiftr a 8)).
  pose proof (slen_byte (Z.shiftr a 16)). pose proof (slen_byte (Z.shiftr a 24)). lia.
Qed.

(** ** Strings without a terminator inside *)

Definition no_nul (s : string) : Prop := "000"%char ∉ chars s.

Lemma no_nul_app s t : no_nul s → no_nul t → no_nul (s +:+ t).
Proof. unfold no_nul. rewrite chars_app, elem_of_app. tauto. Qed.

Lemma no_nul_pretty_N_go x s : no_nul s → no_nul (pretty_N_go x s).
Proof.
  revert s. induction (N.lt_wf_0 x) as [x _ IH]; intros s Hs.
  destruct (decide (x = 0%N)) as [->|]; [by rewrite pretty_N_go_0|].
  rewrite pretty_N_go_step by lia. apply IH; [by apply N.div_lt; lia|].
  unfold no_nul. cbn [chars]. apply not_elem_of_cons. split; [|done].
  unfold pretty_N_char. by repeat case_match.
Qed.

Lemma no_nul_fmt_d z : no_nul (fmt_d z).
Proof.
  assert (∀ x : N, no_nul (pretty x)) as HN.
  { intros x. unfold pretty, pretty_N. case_decide; [by apply (bool_decide_unpack _)|].
    apply no_nul_pretty_N_go, not_elem_of_nil. }
  unfold fmt_d, pretty, pretty_Z. destruct z; [by apply (bool_decide_unpack _)|apply HN|].
  apply no_nul_app; [by apply (bool_decide_unpack _)|apply HN].
Qed.

Lemma no_nul_dotted a : no_nul (dotted a).
Proof.
  unfold dotted.
  repeat (apply no_nul_app; [first [apply no_nul_fmt_d|by apply (bool_decide_unpack _)]|]).
  apply no_nul_fmt_d.
Qed.
