(* ===== verification/KProc.v ===== *)
(** * The files under /proc of the kernel module (kaodv_expl.c, kaodv_queue.c)

    What a read of [/proc/net/kaodv_expl] and of [/proc/net/kaodv_queue]
    returns: the four operations of each file, and the texts they make. A read
    here runs alone; the operations take no lock. *)

From S2P Require Export KHook.
From S2P Require Import Text.
From Stdlib Require Import Ascii.

(** ** Texts *)

(** [sprintf] into an array of [size] characters. *)
Definition sput (size : Z) (s : string) : option string :=
  if size <=? slen s then None else Some s.

Definition newline : string := String "010"%char EmptyString.

(** [typenames], and the entries after the last name, which are zero. *)
Definition typenames : list (Z * option string) :=
  [(KAODVM_ADDROUTE, Some "Add route"%string); (KAODVM_DELROUTE, Some "Delete route"%string);
   (KAODVM_TIMEOUT, Some "Timeout"%string); (KAODVM_ROUTE_REQ, Some "Route Request"%string);
   (KAODVM_REPAIR, Some "Route repair"%string); (KAODVM_NOROUTE_FOUND, Some "No route found"%string);
   (KAODVM_ROUTE_UPDATE, Some "Route update"%string);
   (KAODVM_SEND_RERR, Some "Send route error"%string); (KAODVM_CONFIG, Some "Configuration"%string);
   (KAODVM_DEBUG, Some "Debug"%string)] ++ replicate 101 (0, None).

(** [None] is a null pointer. *)
Definition kaodv_msg_type_to_str (type : Z) : option string :=
  match list_find (λ t, type = t.1) typenames with
  | Some (_, (_, name)) => name
  | None => Some "Unknown message type"%string
  end.

(** ** /proc/net/kaodv_expl *)

Definition expl_header : string :=
  "# " +:+ pad_right 15 "Addr" +:+ " " +:+ pad_right 15 "Nhop" +:+ " " +:+ pad_right 5 "Flags"
  +:+ " " +:+ pad_right 5 "Iface" +:+ " Expires" +:+ newline.

(** The letters [expl_seq_show] collects in [flags]. *)
Definition expl_flags (flags : Z) : string :=
  (if Z.land flags KAODV_RT_GW_ENCAP =? 0 then EmptyString else "E")
  +:+ (if Z.land flags KAODV_RT_REPAIR =? 0 then EmptyString else "R").

(** [dev_get_by_index]: the device with that index, held. *)
Definition dev_get_by_index (i : Z) : KM (option net_device) :=
  dev ← kgets (λ w, snd <$> list_find (λ d, nd_ifindex d = i) (ke_devs (k_env w)));
  match dev with
  | None => mret None
  | Some d => kmodify (λ w, w <| k_holds ::= cons (nd_ifindex d) |>);; mret (Some d)
  end.

(** The line of an entry, [jiffies] being [j]. *)
Definition expl_line (hz j : Z) (e : expl_entry) (name addr nhop flags : string) : string :=
  "  " +:+ pad_right 15 addr +:+ " " +:+ pad_right 15 nhop +:+ " " +:+ pad_right 5 flags +:+ " "
  +:+ pad_right 5 name +:+ " " +:+ fmt_d (u32 (u32 (ex_expires e - j) * 1000) / hz) +:+ newline.

(** [v] is the position of the entry. *)
Definition expl_seq_show (v : nat) : prog string :=
  e ← locked (kgets (λ w, expl_head w !! v));
  e ← of_option e;
  dev ← locked (dev_get_by_index (ex_ifindex e));
  match dev with
  | None => mret EmptyString
  | Some dev =>
      addr ← of_option (sput 16 (dotted (ex_daddr e)));
      nhop ← of_option (sput 16 (dotted (ex_nhop e)));
      flags ← of_option (sput 4 (expl_flags (ex_flags e)));
      j ← locked jiffies;
      hz ← locked (kgets (λ w, ke_HZ (k_env w)));
      let line := expl_line hz j e (nd_name dev) addr nhop flags in
      locked (dev_put (nd_ifindex dev));;
      mret line
  end.

Section expl.
(** [seq_list_start] and [seq_list_next] of the kernel, on positions. *)
Context (seq_list_start : list expl_entry → Z → option nat).
Context (seq_list_next : nat → list expl_entry → Z → option nat * Z).

(** The text printed, and the first entry to show. *)
Definition expl_seq_start (pos : Z) : prog (string * option nat) :=
  let text := if pos =? 0 then expl_header else EmptyString in
  v ← locked (kgets (λ w, seq_list_start (expl_head w) pos));
  mret (text, v).

Definition expl_seq_next (v : nat) (pos : Z) : prog (option nat * Z) :=
  locked (kgets (λ w, seq_list_next v (expl_head w) pos)).

Definition expl_seq_stop : prog unit := mret tt.

(** The calls that a read makes: start, then show and next until there is
    no entry, then stop. *)
Fixpoint expl_seq_entries (fuel : nat) (v : option nat) (pos : Z) : prog string :=
  match v, fuel with
  | None, _ => expl_seq_stop;; mret EmptyString
  | Some _, O => Stuck
  | Some v, S fuel =>
      line ← expl_seq_show v;
      next ← expl_seq_next v pos;
      rest ← expl_seq_entries fuel next.1 next.2;
      mret (line +:+ rest)
  end.

Definition expl_proc_read (fuel : nat) : prog string :=
  start ← expl_seq_start 0;
  rest ← expl_seq_entries fuel start.2 0;
  mret (start.1 +:+ rest).
End expl.

(** ** /proc/net/kaodv_queue *)

(** The position in [queue_show_buf], an array of one. *)
Definition queue_seq_start (pos : Z) : prog (option Z) :=
  queue_show_buf_update;;
  mret (if 1 <=? pos then None else Some pos).

Definition queue_seq_next (pos : Z) : prog (option Z * Z) :=
  let pos := pos + 1 in
  mret (if 1 <=? pos then None else Some pos, pos).

Definition queue_seq_stop : prog unit := mret tt.

Definition queue_seq_show (v : Z) : prog string :=
  tmp ← locked (kgets queue_show_buf);
  if v =? 0
  then mret ("Queue length      : " +:+ fmt_d (u32 tmp.1) +:+ newline
             +:+ "Queue max. length : " +:+ fmt_d (u32 tmp.2) +:+ newline)
  else Stuck.

Fixpoint queue_seq_entries (fuel : nat) (v : option Z) (pos : Z) : prog string :=
  match v, fuel with
  | None, _ => queue_seq_stop;; mret EmptyString
  | Some _, O => Stuck
  | Some v, S fuel =>
      text ← queue_seq_show v;
      next ← queue_seq_next pos;
      rest ← queue_seq_entries fuel next.1 next.2;
      mret (text +:+ rest)
  end.

Definition queue_proc_read (fuel : nat) : prog string :=
  v ← queue_seq_start 0;
  queue_seq_entries fuel v 0.

(** ** What a read of the route cache returns *)

(** The text of the entries, the clock being read once for each entry whose
    device exists. *)
Fixpoint expl_text (env : kenv) (tick : nat) (l : list expl_entry) : string :=
  match l with
  | [] => EmptyString
  | e :: l =>
      match snd <$> list_find (λ d, nd_ifindex d = ex_ifindex e) (ke_devs env) with
      | None => expl_text env tick l
      | Some dev =>
          expl_line (ke_HZ env) (u32 (ke_jiffies env tick)) e (nd_name dev)
            (dotted (ex_daddr e)) (dotted (ex_nhop e)) (expl_flags (ex_flags e))
          +:+ expl_text env (S tick) l
      end
  end.

Lemma sput_Some size s : slen s < size → sput size s = Some s.
Proof. intros. unfold sput. by rewrite (proj2 (Z.leb_gt _ _)). Qed.

Lemma slen_expl_flags flags : slen (expl_flags flags) ≤ 2.
Proof. unfold expl_flags. rewrite slen_app. by destruct (_ =? 0), (_ =? 0). Qed.

Lemma put_one_head i l : put_one i (i :: l) = l.
Proof. cbn [put_one]. by rewrite Z.eqb_refl. Qed.

Lemma dev_get_by_index_run i w :
  dev_get_by_index i w =
    match snd <$> list_find (λ d, nd_ifindex d = i) (ke_devs (k_env w)) with
    | None => (None, w)
    | Some d => (Some d, w <| k_holds ::= cons (nd_ifindex d) |>)
    end.
Proof. unfold dev_get_by_index, mbind, KM_bind, kgets. by destruct (snd <$> _). Qed.

(** One entry: its line, and the reference to the device is given back. *)
Lemma expl_seq_show_run v e w :
  expl_head w !! v = Some e →
  run (expl_seq_show v) w =
    match snd <$> list_find (λ d, nd_ifindex d = ex_ifindex e) (ke_devs (k_env w)) with
    | None => Some (EmptyString, w)
    | Some dev =>
        Some (expl_line (ke_HZ (k_env w)) (u32 (ke_jiffies (k_env w) (k_tick w))) e (nd_name dev)
                (dotted (ex_daddr e)) (dotted (ex_nhop e)) (expl_flags (ex_flags e)),
              w <| k_tick ::= S |>)
    end.
Proof.
  intros He. unfold expl_seq_show. rewrite run_locked_bind. cbn [kgets fst snd]. rewrite He.
  cbn [of_option mbind prog_bind]. rewrite run_locked_bind, dev_get_by_index_run.
  destruct (snd <$> _) as [dev|]; [|done]. cbn [fst snd].
  rewrite !sput_Some by
    (pose proof (slen_dotted (ex_daddr e)); pose proof (slen_dotted (ex_nhop e));
     pose proof (slen_expl_flags (ex_flags e)); lia).
  cbn -[put_one]. do 2 f_equal. unfold dev_put, kmodify.
  unfold upd_field, set_k_holds, set_k_tick.
  cbn -[put_one]. by rewrite put_one_head.
Qed.

Lemma same_tick (w : kworld) : w <| k_tick := k_tick w |> = w.
Proof. by destruct w. Qed.

Section expl_read.
Context (seq_list_start : list expl_entry → Z → option nat).
Context (seq_list_next : nat → list expl_entry → Z → option nat * Z).

(** What the kernel documents: the entry at position [pos], and the entry
    after [v], with the position one further. *)
Definition seq_list_ok : Prop :=
  (∀ l pos, 0 ≤ pos → seq_list_start l pos =
     if decide (Z.to_nat pos < length l)%nat then Some (Z.to_nat pos) else None) ∧
  (∀ v l pos, seq_list_next v l pos =
     (if decide (S v < length l)%nat then Some (S v) else None, pos + 1)).

Lemma expl_seq_entries_run fuel n w pos :
  seq_list_ok → (length (expl_head w) <= n + fuel)%nat →
  ∃ t, run (expl_seq_entries seq_list_next fuel
              (if decide (n < length (expl_head w))%nat then Some n else None) pos) w
       = Some (expl_text (k_env w) (k_tick w) (drop n (expl_head w)), w <| k_tick := t |>).
Proof.
  intros [Hs Hn]. revert n w pos. induction fuel as [|fuel IH]; intros n w pos Hlen.
  { rewrite decide_False by lia. exists (k_tick w). rewrite same_tick, drop_ge by lia. done. }
  case_decide as Hin.
  2:{ exists (k_tick w). rewrite same_tick, drop_ge by lia. done. }
  destruct (lookup_lt_is_Some_2 _ _ Hin) as [e He].
  rewrite (drop_S _ _ _ He). cbn [expl_seq_entries expl_text].
  rewrite run_bind, (expl_seq_show_run n e w He).
  destruct (snd <$> _) as [dev|]; cbn [mbind option_bind].
  - unfold expl_seq_next. rewrite run_locked_bind. cbn [kgets fst snd]. rewrite Hn. cbn [fst snd].
    rewrite run_bind.
    destruct (IH (S n) (w <| k_tick ::= S |>) (pos + 1)) as (t & Ht).
    { change (expl_head (w <| k_tick ::= S |>)) with (expl_head w). lia. }
    exists t. change (expl_head (w <| k_tick ::= S |>)) with (expl_head w) in *. by rewrite Ht.
  - unfold expl_seq_next. rewrite run_locked_bind. cbn [kgets fst snd]. rewrite Hn. cbn [fst snd].
    rewrite run_bind.
    destruct (IH (S n) w (pos + 1)) as (t & Ht); [lia|]. exists t. by rewrite Ht.
Qed.
End expl_read.


(** A read of the queue's file returns the length of the queue and its
    limit at the time of the read, whatever was in [queue_show_buf]. *)
Theorem queue_proc_read_spec fuel w :
  run (queue_proc_read (S fuel)) w =
    Some ("Queue length      : " +:+ fmt_d (u32 (queue_total w)) +:+ newline
          +:+ "Queue max. length : " +:+ fmt_d (u32 queue_maxlen) +:+ newline,
          w <| queue_show_buf := (queue_total w, queue_maxlen) |>).
Proof.
  etrans; [|apply (f_equal (λ s, Some (s, w <| queue_show_buf := (queue_total w, queue_maxlen) |>))),
    str_app_nil_r]. destruct fuel; reflexivity.
Qed.

(** ** A sample read *)

(** Two routes, the device of the second gone. *)
Definition proc_kw : kworld :=
  KWorld (KEnv (λ n, 1000 + Z.of_nat n) (λ _, true) (λ _, 0) 100 [NetDev 2 "wlan0" None]
            (λ l, l) (λ l, l))
    0 [Expl 1500 KAODV_RT_GW_ENCAP 0x0800000a 0x0200000a 2; Expl 1600 0 0x0700000a 0x0200000a 3] 2
    [] 0 (0, 0) 0 9000 [] [2] [] [].

Definition list_start (l : list expl_entry) (pos : Z) : option nat :=
  if decide (Z.to_nat pos < length l)%nat then Some (Z.to_nat pos) else None.
Definition list_next (v : nat) (l : list expl_entry) (pos : Z) : option nat * Z :=
  (if decide (S v < length l)%nat then Some (S v) else None, pos + 1).

Lemma list_start_next_ok : seq_list_ok list_start list_next.
Proof. done. Qed.

