(* ===== verification/KConc.v ===== *)
(** * The kernel module under concurrency

    The hook runs on every packet, on any processor, while the daemon's
    messages arrive; each function is a sequence of critical sections, and the
    critical sections of several functions interleave. What every interleaving
    keeps, what only holds because one process announces routes, and what an
    interleaving can lose. *)

From S2P Require Export KHook.

(** ** The code that runs concurrently *)

Definition as_thread {A} (p : prog A) : prog unit := _ ← p; mret tt.

Inductive handler_prog : prog unit → Prop :=
| H_hook hooknum skb in_dev out_dev okfn :
    handler_prog (as_thread (kaodv_hook hooknum skb in_dev out_dev okfn))
| H_msg skb : handler_prog (kaodv_netlink_rcv_skb skb)
| H_event portid : handler_prog (kaodv_netlink_rcv_nl_event portid).

(** ** What every critical section keeps *)

Section every.
Context (I : kworld → Prop).

(** [I] depends on cache and queue only, and the sections that change them keep
    it; [AddI] says whether adding a route does. *)
Record keeps_cache : Prop := KeepsCache {
  kc_frame w w' : queue_list w' = queue_list w → queue_total w' = queue_total w →
    expl_head w' = expl_head w → I w → I w';
  kc_delq f d w : I w → I (__kaodv_queue_check_delqueue_entry f d w).2;
  kc_enq e w : I w → I (__kaodv_queue_enqueue_entry e w).2;
  kc_flushq n w : I w → I (queue_flush_loop n w).2;
  kc_update d nhop time flags ifindex : preserves I (kaodv_expl_update d nhop time flags ifindex);
  kc_del d : preserves I (kaodv_expl_del d);
  kc_flush : preserves I kaodv_expl_flush
}.

Context (K : keeps_cache).

Lemma kc_locked {A} (m : KM A) :
  (∀ w, queue_list (m w).2 = queue_list w ∧ queue_total (m w).2 = queue_total w ∧
        expl_head (m w).2 = expl_head w) → preserves I (locked m).
Proof. apply preserves_frame. apply kc_frame, K. Qed.

Lemma kc_get d : preserves I (kaodv_expl_get d).
Proof. apply preserves_get. apply kc_frame, K. Qed.

Lemma kc_verdict v d : preserves I (kaodv_queue_set_verdict v d).
Proof. apply preserves_verdict; [apply kc_frame, K|apply kc_delq, K]. Qed.

Lemma kc_encapsulate skb d : preserves I (ip_pkt_encapsulate skb d).
Proof. apply preserves_encapsulate. apply kc_frame, K. Qed.

Lemma kc_enqueue skb okfn : preserves I (kaodv_queue_enqueue_packet skb okfn).
Proof. apply preserves_enqueue; [apply kc_frame, K|apply kc_enq, K]. Qed.

Lemma kc_queue_flush : preserves I kaodv_queue_flush.
Proof.
  apply preserves_locked. intros w HI. unfold __kaodv_queue_flush, mbind, KM_bind, kgets.
  by apply kc_flushq.
Qed.

(** The programs built from them, all but the one that adds a route. *)
Ltac kc_step :=
  lazymatch goal with
  | |- preserves _ (kaodv_expl_get _) => apply kc_get
  | |- preserves _ (kaodv_expl_update _ _ _ _ _) => apply kc_update, K
  | |- preserves _ (kaodv_expl_del _) => apply kc_del, K
  | |- preserves _ kaodv_expl_flush => apply kc_flush, K
  | |- preserves _ kaodv_queue_flush => apply kc_queue_flush
  | |- preserves _ (kaodv_queue_set_verdict _ _) => apply kc_verdict
  | |- preserves _ (ip_pkt_encapsulate _ _) => apply kc_encapsulate
  | |- preserves _ (kaodv_queue_enqueue_packet _ _) => apply kc_enqueue
  | |- preserves _ (kaodv_queue_check _) => apply kc_locked; done
  | |- preserves _ (netlink_ack _ _) => apply kc_locked; done
  | |- preserves _ (locked _) => apply kc_locked; done
  | _ => preserves_step
  end.

Lemma kc_broadcast skb : preserves I (netlink_broadcast skb).
Proof. unfold netlink_broadcast. repeat kc_step. Qed.

Lemma kc_build type data : preserves I (kaodv_netlink_build_msg type data).
Proof. unfold kaodv_netlink_build_msg. repeat kc_step. Qed.

Lemma kc_send type data : preserves I (skb ← kaodv_netlink_build_msg type data; netlink_broadcast skb).
Proof. apply preserves_bind; [apply kc_build|intros ?; apply kc_broadcast]. Qed.

Lemma kc_update_route_timeouts hooknum ifindex saddr daddr :
  preserves I (kaodv_update_route_timeouts hooknum ifindex saddr daddr).
Proof.
  unfold kaodv_update_route_timeouts, if_info_from_ifindex, refresh_expl,
    kaodv_netlink_send_rt_update_msg.
  repeat first [apply kc_send | kc_step].
Qed.

Lemma kc_hook hooknum skb in_dev out_dev okfn :
  preserves I (kaodv_hook hooknum skb in_dev out_dev okfn).
Proof.
  unfold kaodv_hook, aodv_packet, if_info_from_ifindex, kaodv_netlink_send_rerr_msg,
    kaodv_netlink_send_rt_msg.
  repeat first [apply kc_update_route_timeouts | apply kc_send | kc_step].
Qed.

Lemma kc_event portid : preserves I (kaodv_netlink_rcv_nl_event portid).
Proof. unfold kaodv_netlink_rcv_nl_event. repeat kc_step. Qed.

(** A message, as far as adding a route keeps [I]. *)
Lemma kc_rcv skb :
  (∀ d nhop time flags ifindex, preserves I (kaodv_expl_add d nhop time flags ifindex)) →
  preserves I (kaodv_netlink_rcv_skb skb).
Proof.
  intros Hadd. unfold kaodv_netlink_rcv_skb, kaodv_netlink_receive_peer.
  repeat first [apply Hadd | kc_step].
Qed.

Lemma kc_handler p :
  (∀ d nhop time flags ifindex, preserves I (kaodv_expl_add d nhop time flags ifindex)) →
  handler_prog p → preserves I p.
Proof.
  intros Hadd [hooknum skb in_dev out_dev okfn|skb|portid].
  - apply preserves_bind; [apply kc_hook|done].
  - by apply kc_rcv.
  - apply kc_event.
Qed.
End every.

(** ** Order and bounds, whatever runs *)

(** The cache is in the order of expiry, the queue within its bound and
    counted. *)
Definition kconc_inv (w : kworld) : Prop := expl_sorted w ∧ queue_ok w.

Lemma preserves_and (I J : kworld → Prop) {A} (p : prog A) :
  preserves I p → preserves J p → preserves (λ w, I w ∧ J w) p.
Proof. induction p; simpl; naive_solver. Qed.

Lemma preserves_impl (I J : kworld → Prop) {A} (p : prog A) :
  (∀ w, I w ↔ J w) → preserves I p → preserves J p.
Proof. intros HIJ. induction p; simpl; naive_solver. Qed.

Lemma sorted_head w w' : expl_head w' = expl_head w → expl_sorted w → expl_sorted w'.
Proof. unfold expl_sorted. by intros ->. Qed.

Lemma queue_ok_same w w' :
  queue_list w' = queue_list w → queue_total w' = queue_total w → queue_ok w → queue_ok w'.
Proof. unfold queue_ok. by intros -> ->. Qed.

(** The queue's critical sections do not touch the cache ... *)
Lemma delqueue_head f d w :
  expl_head (__kaodv_queue_check_delqueue_entry f d w).2 = expl_head w.
Proof.
  pose proof (delqueue_run f d w) as H. destruct (queue_scan f d (queue_list w)).
  - by destruct H as (e & _ & ->).
  - by rewrite H.
Qed.

Lemma enqueue_head e w : expl_head (__kaodv_queue_enqueue_entry e w).2 = expl_head w.
Proof.
  unfold __kaodv_queue_enqueue_entry, mbind, KM_bind, kgets. cbn. by case_match.
Qed.

Lemma flush_loop_head n w : expl_head (queue_flush_loop n w).2 = expl_head w.
Proof.
  revert w. induction n as [|n IH]; intros w; [done|]. simpl. unfold mbind, KM_bind.
  pose proof (delqueue_head None 0 w) as H.
  destruct (__kaodv_queue_check_delqueue_entry None 0 w) as [[e|] w'] eqn:E; [|done].
  simpl. rewrite IH. exact H.
Qed.

(** ... and the cache's do not touch the queue. *)
Lemma preserves_queue_frame {A} (m : KM A) :
  (∀ w, queue_list (m w).2 = queue_list w ∧ queue_total (m w).2 = queue_total w) →
  preserves queue_ok (locked m).
Proof. intros H. apply preserves_locked. intros w. destruct (H w). by apply queue_ok_same. Qed.

Lemma expl_add_queue e w :
  queue_list (__kaodv_expl_add e w).2 = queue_list w ∧
  queue_total (__kaodv_expl_add e w).2 = queue_total w.
Proof. rewrite __kaodv_expl_add_run. by case_match. Qed.

Lemma preserves_queue_add d nhop time flags ifindex :
  preserves queue_ok (kaodv_expl_add d nhop time flags ifindex).
Proof.
  apply preserves_bind.
  { apply preserves_queue_frame. intros w. unfold mbind, KM_bind. cbn. by case_match. }
  intros [e|]; [done|]. apply preserves_bind; [by apply preserves_queue_frame|].
  intros [|]; [|done]. apply preserves_bind; [by apply preserves_queue_frame|]. intros expires.
  apply preserves_queue_frame. intros w. unfold mbind, KM_bind, kwhen.
  pose proof (expl_add_queue (Expl expires (u16 flags) d nhop (s32 ifindex)) w) as H.
  destruct (__kaodv_expl_add _ w) as [c w']. destruct (negb (c =? 0)); exact H.
Qed.

Lemma preserves_queue_update d nhop time flags ifindex :
  preserves queue_ok (kaodv_expl_update d nhop time flags ifindex).
Proof.
  apply preserves_queue_frame. intros w. unfold mbind, KM_bind. cbn.
  destruct (expl_scan d (expl_head w)) as [i|]; [|done]. rewrite expires_after_run. cbn.
  set (w1 := _ <| expl_head ::= _ |>). set (e := Expl _ _ _ _ _).
  pose proof (expl_add_queue e w1) as H. by destruct (__kaodv_expl_add e w1).
Qed.

Lemma kconc_keeps : keeps_cache kconc_inv.
Proof.
  constructor.
  - intros w w' Hq Ht Hh [Hs Hk]. split; [by eapply sorted_head|by eapply queue_ok_same].
  - intros f d w [Hs Hk]. split; [|by apply queue_ok_delqueue].
    eapply sorted_head; [apply delqueue_head|done].
  - intros e w [Hs Hk]. split; [|by apply queue_ok_enqueue].
    eapply sorted_head; [apply enqueue_head|done].
  - intros n w [Hs Hk]. split; [|by apply queue_ok_flush_loop].
    eapply sorted_head; [apply flush_loop_head|done].
  - intros. apply preserves_and; [apply preserves_sorted_update|apply preserves_queue_update].
  - intros. apply preserves_and; [apply preserves_sorted_del|]. apply preserves_queue_frame.
    intros w. unfold mbind, KM_bind. cbn. by case_match.
  - apply preserves_and; [apply preserves_sorted_flush|]. by apply preserves_queue_frame.
Qed.

(** ** One entry per destination *)

(** No destination twice, and only destinations satisfying [P]. *)
Definition one_entry_each (P : Z → Prop) (w : kworld) : Prop :=
  NoDup (expl_daddrs w) ∧ Forall P (expl_daddrs w).

(** The destinations of [w'] are among those of [w], none of them twice if none
    was: what everything but [kaodv_expl_add] guarantees. *)
Definition shrinks (w w' : kworld) : Prop := expl_daddrs w' ⊆ expl_daddrs w.

#[export] Instance shrinks_preorder : PreOrder shrinks.
Proof. split; [intros w; unfold shrinks; done|]. intros w1 w2 w3. unfold shrinks. set_solver. Qed.

Lemma one_entry_head P w w' :
  expl_head w' = expl_head w → one_entry_each P w → one_entry_each P w'.
Proof. unfold one_entry_each, expl_daddrs. by intros ->. Qed.

Lemma fmap_delete {A B} (f : A → B) (i : nat) (l : list A) : f <$> delete i l = delete i (f <$> l).
Proof. revert i. induction l as [|x l IH]; intros [|i]; simpl; [done..|]. by rewrite <-IH. Qed.

Lemma one_entry_delete P i w :
  one_entry_each P w → one_entry_each P (w <| expl_head ::= delete i |>).
Proof.
  intros [Hnd HP]. unfold one_entry_each, expl_daddrs in *.
  change (expl_head (w <| expl_head ::= delete i |>)) with (delete i (expl_head w)).
  rewrite fmap_delete. split; [|by apply Forall_delete].
  eapply sublist_NoDup; [apply Hnd|apply sublist_delete].
Qed.

(** An update removes the entry and puts one for the same destination back. *)
Lemma one_entry_replace P d i e w :
  one_entry_each P w → expl_scan d (expl_head w) = Some i → ex_daddr e = d →
  one_entry_each P (__kaodv_expl_add e (w <| expl_head ::= delete i |>)).2.
Proof.
  intros [Hnd HP] (x & l1 & l2 & Hl & <- & <- & _)%expl_scan_Some He.
  rewrite __kaodv_expl_add_run. case_match; [by apply one_entry_delete|].
  set (w1 := w <| expl_head ::= _ |>).
  assert (expl_head w1 = l1 ++ l2) as Hw1 by (unfold w1; cbn; rewrite Hl; apply delete_mid).
  change (one_entry_each P (w1 <| expl_head := expl_insert e (expl_head w1) |>)).
  rewrite Hw1. unfold one_entry_each, expl_daddrs in *.
  change (expl_head (_ <| expl_head := ?h |>)) with h.
  assert (ex_daddr <$> expl_insert e (l1 ++ l2) ≡ₚ ex_daddr <$> expl_head w) as Hp.
  { rewrite expl_insert_perm, Hl, fmap_cons, !fmap_app, fmap_cons, He. apply Permutation_middle. }
  rewrite Hp. by split.
Qed.

Lemma preserves_one_entry_update P d nhop time flags ifindex :
  preserves (one_entry_each P) (kaodv_expl_update d nhop time flags ifindex).
Proof.
  apply preserves_locked. intros w H. unfold mbind, KM_bind. cbn.
  destruct (expl_scan d (expl_head w)) as [i|] eqn:Ei; [|done]. rewrite expires_after_run. cbn.
  set (e := Expl _ _ _ _ _). set (w0 := w <| k_tick ::= S |>).
  pose proof (one_entry_replace P d i e w0 H Ei eq_refl) as H1.
  by destruct (__kaodv_expl_add e _).
Qed.

Lemma one_entry_keeps P : keeps_cache (one_entry_each P).
Proof.
  constructor.
  - intros w w' _ _. apply one_entry_head.
  - intros f d w. apply one_entry_head, delqueue_head.
  - intros e w. apply one_entry_head, enqueue_head.
  - intros n w. apply one_entry_head, flush_loop_head.
  - apply preserves_one_entry_update.
  - intros d. apply preserves_locked. intros w H. unfold mbind, KM_bind. cbn.
    destruct (expl_scan d (expl_head w)) as [i|]; [|done]. by apply one_entry_delete.
  - apply preserves_locked. intros w _. split; constructor.
Qed.

(** A program that runs where the others only shrink the cache: each of its
    steps, from whatever they left, keeps the entries distinct. *)
Fixpoint distinct_under {A} (p : prog A) (w : kworld) : Prop :=
  match p with
  | Ret _ | Stuck => True
  | Act op k => ∀ w', shrinks w w' → NoDup (expl_daddrs w') →
      NoDup (expl_daddrs (op w').2) ∧ distinct_under (k (op w').1) (op w').2
  end.

Lemma distinct_shrinks {A} (p : prog A) w w' :
  shrinks w w' → distinct_under p w → distinct_under p w'.
Proof. destruct p as [a|B op k|]; simpl; [done| |done]. intros Hs H w2 Hs2. apply H. exact (transitivity Hs Hs2). Qed.

Lemma distinct_bind {A B} (m : prog A) (f : A → prog B) w :
  distinct_under m w → (∀ a w', distinct_under (f a) w') → distinct_under (m ≫= f) w.
Proof.
  intros Hm Hf. revert w Hm. induction m as [a|C op k IH|]; intros w Hm; simpl; [done| |done].
  intros w' Hs Hnd. destruct (Hm w' Hs Hnd) as [H1 H2]. split; [done|]. by apply IH.
Qed.

Lemma one_entry_all w : NoDup (expl_daddrs w) ↔ one_entry_each (λ _, True) w.
Proof. split; [|by intros [? _]]. intros. split; [done|by apply Forall_true]. Qed.

(** In particular one that never adds. *)
Lemma distinct_preserves {A} (p : prog A) w :
  preserves (one_entry_each (λ _, True)) p → distinct_under p w.
Proof.
  revert w. induction p as [a|B op k IH|]; intros w; simpl; [done| |done].
  intros [Hop Hk] w' _ Hnd%one_entry_all. split; [by apply one_entry_all, Hop|]. by apply IH.
Qed.

Lemma distinct_get d w : distinct_under (kaodv_expl_get d) w.
Proof. apply distinct_preserves, kc_get, one_entry_keeps. Qed.

(** An adder finds no entry, and then nobody else adds one. *)
Lemma distinct_add d nhop time flags ifindex w :
  distinct_under (kaodv_expl_add d nhop time flags ifindex) w.
Proof.
  unfold kaodv_expl_add, kaodv_expl_get, locked.
  cbn [mbind prog_bind distinct_under]. intros w1 _ Hnd1.
  pose proof (kaodv_expl_get_run d w1) as Hget. unfold kaodv_expl_get, locked in Hget. cbn [run] in Hget.
  destruct ((_ : KM (option expl_entry)) w1) as [r w2]. injection Hget as -> ->. cbn [fst snd].
  split; [done|]. destruct (expl_map w1 !! d) as [x|] eqn:Hd; [done|]. apply expl_map_None in Hd.
  cbn [mbind prog_bind distinct_under]. intros w2 Hs2 Hnd2. split; [done|].
  destruct (_.1); [|done]. cbn [negb mbind prog_bind distinct_under]. intros w3 Hs3 Hnd3.
  split; [done|]. cbn [distinct_under]. intros w4 Hs4 Hnd4. split; [|done].
  set (e := Expl _ _ _ _ _). assert (ex_daddr e ∉ expl_daddrs w4) as Hn by set_solver.
  assert (NoDup (expl_daddrs (__kaodv_expl_add e w4).2)) as Hadd.
  { rewrite __kaodv_expl_add_run. case_match; [done|].
    change (NoDup (ex_daddr <$> expl_insert e (expl_head w4))).
    rewrite expl_insert_perm, fmap_cons. by apply NoDup_cons. }
  unfold mbind, KM_bind, kwhen. destruct (__kaodv_expl_add e w4) as [c w5].
  destruct (negb (c =? 0)); exact Hadd.
Qed.

Lemma distinct_of_option {A} (o : option A) w : distinct_under (of_option o) w.
Proof. by destruct o. Qed.

Lemma distinct_locked {A} (m : KM A) w :
  (∀ w, queue_list (m w).2 = queue_list w ∧ queue_total (m w).2 = queue_total w ∧
        expl_head (m w).2 = expl_head w) → distinct_under (locked m) w.
Proof. intros H. apply distinct_preserves, kc_locked; [apply one_entry_keeps|done]. Qed.

Lemma distinct_verdict v d w : distinct_under (kaodv_queue_set_verdict v d) w.
Proof. apply distinct_preserves, kc_verdict, one_entry_keeps. Qed.

Lemma distinct_update d nhop time flags ifindex w :
  distinct_under (kaodv_expl_update d nhop time flags ifindex) w.
Proof. apply distinct_preserves, preserves_one_entry_update. Qed.

Lemma distinct_del d w : distinct_under (kaodv_expl_del d) w.
Proof. apply distinct_preserves, kc_del, one_entry_keeps. Qed.

Ltac distinct_step :=
  lazymatch goal with
  | |- distinct_under (kaodv_expl_get _) _ => apply distinct_get
  | |- distinct_under (kaodv_expl_add _ _ _ _ _) _ => apply distinct_add
  | |- distinct_under (kaodv_expl_update _ _ _ _ _) _ => apply distinct_update
  | |- distinct_under (kaodv_expl_del _) _ => apply distinct_del
  | |- distinct_under (kaodv_queue_set_verdict _ _) _ => apply distinct_verdict
  | |- distinct_under (of_option _) _ => apply distinct_of_option
  | |- distinct_under (locked _) _ => by apply distinct_locked
  | |- distinct_under (netlink_ack _ _) _ => by apply distinct_locked
  | |- distinct_under (_ ≫= _) _ => apply distinct_bind; [|intros ??]
  | |- distinct_under (mret _) _ => done
  | |- distinct_under (pwhen ?b _) _ => destruct b; cbn [pwhen]
  | |- distinct_under (match ?x with _ => _ end) _ => destruct x
  | |- distinct_under (let _ := _ in _) _ => cbv zeta
  end.

(** The daemon's messages, one after the other. *)
Lemma distinct_rcv skb w : distinct_under (kaodv_netlink_rcv_skb skb) w.
Proof. unfold kaodv_netlink_rcv_skb, kaodv_netlink_receive_peer. repeat distinct_step. Qed.

Lemma distinct_rcv_all skbs w : distinct_under (pfor_each skbs kaodv_netlink_rcv_skb) w.
Proof.
  revert w. induction skbs as [|skb skbs IH]; intros w; [done|].
  cbn [pfor_each]. apply distinct_bind; [apply distinct_rcv|]. intros _ w'. apply IH.
Qed.

(** The others only shrink the cache. *)
Definition never_adds (p : prog unit) : Prop := ∀ P, preserves (one_entry_each P) p.

Inductive packet_prog : prog unit → Prop :=
| P_hook hooknum skb in_dev out_dev okfn :
    packet_prog (as_thread (kaodv_hook hooknum skb in_dev out_dev okfn))
| P_event portid : packet_prog (kaodv_netlink_rcv_nl_event portid).

Lemma packet_never_adds p : packet_prog p → never_adds p.
Proof.
  intros [hooknum skb in_dev out_dev okfn|portid] P.
  - apply preserves_bind; [apply kc_hook, one_entry_keeps|done].
  - apply kc_event, one_entry_keeps.
Qed.

Lemma never_adds_step {B} (op : KM B) (k : B → prog unit) w :
  never_adds (Act op k) → NoDup (expl_daddrs w) →
  NoDup (expl_daddrs (op w).2) ∧ shrinks w (op w).2.
Proof.
  intros Hn Hnd. destruct (Hn (.∈ expl_daddrs w)) as [Hop _].
  destruct (Hop w) as [H1 H2]; [split; [done|by apply Forall_forall]|].
  split; [done|]. by rewrite Forall_forall in H2.
Qed.

(** A pool of threads of which only the [i]-th may add. *)
Definition pool_ok (i : nat) (w : kworld) (ts : list (prog unit)) : Prop :=
  NoDup (expl_daddrs w) ∧
  ∀ j p, ts !! j = Some p → if decide (j = i) then distinct_under p w else never_adds p.

Lemma never_adds_cont {B} (op : KM B) k b : never_adds (Act op k) → never_adds (k b).
Proof. intros Hn P. apply (Hn P). Qed.

Lemma pool_ok_step i w ts w' ts' : kstep (w, ts) (w', ts') → pool_ok i w ts → pool_ok i w' ts'.
Proof.
  inversion 1 as [w0 B op k ts1 ts2 E1 E2]; subst. intros [Hnd Hts].
  pose proof (Hts (length ts1) (Act op k)) as Hj. rewrite list_lookup_middle in Hj by done.
  specialize (Hj eq_refl).
  assert (ts1 ++ k (op w).1 :: ts2 = <[length ts1 := k (op w).1]> (ts1 ++ Act op k :: ts2)) as ->.
  { by rewrite insert_app_r_alt, Nat.sub_diag by done. }
  assert (length ts1 < length (ts1 ++ Act op k :: ts2))%nat as Hlt by (rewrite length_app; simpl; lia).
  destruct (decide (length ts1 = i)) as [Hi|Hi].
  - destruct (Hj w (reflexivity w) Hnd) as [Hnd' Hk]. split; [done|].
    intros j p [(<- & <- & _)|[Hne Hp]]%list_lookup_insert_Some.
    + by rewrite decide_True by done.
    + specialize (Hts j p Hp). by rewrite decide_False in * by congruence.
  - destruct (never_adds_step op k w Hj Hnd) as [Hnd' Hs]. split; [done|].
    intros j p [(<- & <- & _)|[Hne Hp]]%list_lookup_insert_Some.
    + rewrite decide_False by done. by eapply never_adds_cont.
    + specialize (Hts j p Hp). destruct (decide (j = i)); [|done]. by eapply distinct_shrinks.
Qed.

Lemma pool_ok_steps i w ts w' ts' :
  rtc kstep (w, ts) (w', ts') → pool_ok i w ts → pool_ok i w' ts'.
Proof.
  intros Hst. remember (w, ts) as c eqn:Ec. remember (w', ts') as c' eqn:Ec'.
  revert w ts Ec. induction Hst as [c|c1 [w1 ts1] c3 H1 Hst IH]; intros w ts ->; [by simplify_eq|].
  intros Hok. apply (IH Ec' w1 ts1 eq_refl). by eapply pool_ok_step.
Qed.

(** ** Properties of the module under concurrency *)

(** C9: every interleaving. Whatever packets arrive on whatever processors
    while whatever datagrams and socket events are handled, and however their
    critical sections interleave, the route cache stays in the order of expiry
    and the packet queue stays counted and within its bound. *)
Theorem kmod_interleaving_safe w ts w' ts' :
  Forall handler_prog ts → rtc kstep (w, ts) (w', ts') →
  expl_sorted w ∧ queue_ok w → expl_sorted w' ∧ queue_ok w'.
Proof.
  intros Hts Hst Hw. apply (preserves_steps kconc_inv w ts w' ts' Hst); [|done].
  eapply Forall_impl; [exact Hts|]. intros p Hp. apply (kc_handler _ kconc_keeps p); [|done].
  intros. apply preserves_and; [apply preserves_sorted_add|apply preserves_queue_add].
Qed.

(** C10: one process announces routes. As long as the datagrams of the daemon
    are handled one after the other, no interleaving with any packets and
    socket events ever gives the cache two entries for a destination, although
    [kaodv_expl_add] looks up and inserts in two critical sections. *)
Theorem one_announcer_no_duplicates w skbs ts w' ts' :
  Forall packet_prog ts →
  rtc kstep (w, pfor_each skbs kaodv_netlink_rcv_skb :: ts) (w', ts') →
  NoDup (expl_daddrs w) → NoDup (expl_daddrs w').
Proof.
  intros Hts Hst Hnd. refine (proj1 (pool_ok_steps 0 _ _ _ _ Hst _)). split; [done|].
  intros [|j] p Hp; simpl in Hp.
  - injection Hp as <-. apply distinct_rcv_all.
  - rewrite decide_False by done. apply packet_never_adds. rewrite Forall_lookup in Hts. by eapply Hts.
Qed.

(** ** A refresh that overwrites an announcement *)

(** A thread of a pool runs to its end. *)
Lemma run_steps (p : prog unit) w w' ts1 ts2 :
  run p w = Some (tt, w') → rtc kstep (w, ts1 ++ p :: ts2) (w', ts1 ++ mret tt :: ts2).
Proof.
  revert w. induction p as [[]|B op k IH|]; intros w Hrun; simpl in Hrun; [by simplify_eq| |done].
  eapply rtc_l; [apply kstep_act|]. destruct (op w) as [b w1] eqn:E. cbn [fst snd]. by apply IH.
Qed.

Lemma run_thread {A} (p : prog A) w Q :
  kwp p Q w → ∃ a w', run (as_thread p) w = Some (tt, w') ∧ Q a w'.
Proof.
  unfold kwp, as_thread. rewrite run_bind. destruct (run p w) as [[a w']|]; [|done].
  intros HQ. by exists a, w'.
Qed.

(** What [refresh_expl] does once it has copied the entry [x]. *)
Definition write_back (x : expl_entry) (ifindex : Z) : prog unit :=
  art ← locked (kgets k_active_route_timeout);
  _ ← kaodv_expl_update (ex_daddr x) (ex_nhop x) art (ex_flags x) ifindex;
  if negb (ex_nhop x =? ex_daddr x) then
    e ← kaodv_expl_get (ex_nhop x);
    match e with
    | None => mret tt
    | Some e =>
        art ← locked (kgets k_active_route_timeout);
        _ ← kaodv_expl_update (ex_daddr e) (ex_nhop e) art (ex_flags e) ifindex;
        mret tt
    end
  else mret tt.

Lemma refresh_first_step d x ifindex w ts :
  expl_map w !! d = Some x →
  kstep (w, refresh_expl d ifindex :: ts) (w, write_back x ifindex :: ts).
Proof.
  intros Hx. pose proof (kaodv_expl_get_run d w) as Hget. rewrite Hx in Hget.
  unfold refresh_expl, kaodv_expl_get, locked in *. cbn [run] in Hget. cbn [mbind prog_bind].
  match goal with |- kstep (_, Act ?op ?k :: _) _ =>
    pose proof (kstep_act w op k [] ts) as Hst; destruct (op w) as [r w1] end.
  injection Hget as -> ->. exact Hst.
Qed.

Lemma expl_map_daddr w d x : expl_map w !! d = Some x → ex_daddr x = d.
Proof.
  pose proof (expl_map_lookup_scan d w) as H. destruct (expl_scan d (expl_head w)); [|congruence].
  destruct H as (e & _ & H & <-). congruence.
Qed.

Lemma write_back_nhop x y ifindex w :
  kinv w → expl_len w ≤ EXPL_MAX_LEN → expl_map w !! ex_daddr x = Some y →
  ∃ w', run (write_back x ifindex) w = Some (tt, w') ∧
    ex_nhop <$> expl_map w' !! ex_daddr x = Some (ex_nhop x).
Proof.
  intros Hinv Hlen Hy.
  cut (kwp (write_back x ifindex) (λ _ w', ex_nhop <$> expl_map w' !! ex_daddr x = Some (ex_nhop x)) w).
  { unfold kwp. destruct (run _ w) as [[[] w']|]; [|done]. intros H. by exists w'. }
  apply kwp_locked_bind. cbn [kgets fst snd]. apply kwp_bind.
  eapply kwp_wand; [by apply kinv_update|]. unfold update_outcome. rewrite Hy.
  intros c w1 (Hinv1 & _ & _ & Hl1 & Hm1). rewrite (proj2 (Z.ltb_ge _ _)) in Hm1 by done.
  destruct Hm1 as [j Hm1].
  assert (ex_nhop <$> expl_map w1 !! ex_daddr x = Some (ex_nhop x)) as H1.
  { by rewrite Hm1, lookup_insert_eq. }
  destruct (negb _); [|by apply kwp_ret]. apply kwp_expl_get_bind.
  destruct (expl_map w1 !! ex_nhop x) as [z|] eqn:Ez; [|by apply kwp_ret].
  apply kwp_locked_bind. cbn [kgets fst snd]. apply kwp_bind.
  eapply kwp_wand; [by eapply frame_update|]. intros c' w2 H2. cbv beta in H2. apply kwp_ret.
  destruct (hf_routes _ _ H2) as [_ Hr]; [lia|]. specialize (Hr (ex_daddr x)).
  destruct (expl_map w2 !! ex_daddr x) as [z2|], (expl_map w1 !! ex_daddr x) as [z1|]; try done.
  injection Hr as Hr _ _. injection H1 as <-. cbn. by f_equal.
Qed.

(** C18: a lost announcement. The hook copies an entry, and writes it back with
    a new lifetime in another critical section. When the daemon announces a new
    next hop in between, the announcement succeeds and is in the cache; but
    the hook then restores the old next hop, which stays. *)
Theorem refresh_loses_announcement w d x ifindex m :
  kinv w → expl_len w ≤ EXPL_MAX_LEN → expl_map w !! d = Some x →
  rt_msg_ok m → km_dest m = d →
  let announce := kaodv_netlink_receive_peer KAODVM_ADDROUTE (rt_msg_bytes m) sizeof_rt_msg in
  ∃ w1 p w2,
    rtc kstep (w, [refresh_expl d ifindex; as_thread announce]) (w1, [p; mret tt]) ∧
    ex_nhop <$> expl_map w1 !! d = Some (km_nhop m) ∧
    rtc kstep (w1, [p; mret tt]) (w2, [mret tt; mret tt]) ∧
    ex_nhop <$> expl_map w2 !! d = Some (ex_nhop x).
Proof.
  intros Hinv Hlen Hx Hm <- announce. pose proof (expl_map_daddr _ _ _ Hx) as Hd.
  destruct (run_thread announce w _ (receive_addroute_run m (rt_msg_bytes m) sizeof_rt_msg w Hinv
    ltac:(rewrite <-(app_nil_r (rt_msg_bytes m)); by apply rt_msg_of_bytes) ltac:(done)))
    as (c & w1 & Hrun & Hinv1 & _ & Hl1 & Hout).
  rewrite Hx in Hl1, Hout. specialize (Hl1 ltac:(done)).
  destruct (Hout Hlen) as [(_ & _ & ? & _)|(_ & j & Hm1)]; [done|].
  destruct (write_back_nhop x (announced_entry (k_env w) j (km_dest m) (km_nhop m) (km_time m)
    (km_flags m) (km_ifindex m)) ifindex w1) as (w2 & Hrun2 & Hn2); [done|lia|by rewrite Hd, Hm1, lookup_insert_eq|].
  exists w1, (write_back x ifindex), w2. split_and!.
  - eapply rtc_l; [by apply refresh_first_step|]. by apply (run_steps _ _ _ [write_back x ifindex] []).
  - by rewrite Hm1, lookup_insert_eq.
  - by apply (run_steps _ _ _ [] [mret tt]).
  - by rewrite <-Hd.
Qed.
