(* ===== verification/State.v ===== *)
(** * State of the daemon: data types, environment, the monad of C statements

    The C objects of [defs.h], [timer_queue.h], [routing_table.h],
    [seek_list.h], [aodv_rreq.h] and the static variables of [main.c],
    [aodv_socket.c] and [nl.c], and the small state-and-error monad the
    operations are written in.

    - A heap object (routing entry, seek entry, RREQ record, blacklist entry)
      has an identifier, its address; [free] removes it from its store and a
      later access is the fault [UseAfterFree].
    - A pointer is a [ptr], with [None] for [NULL].
    - The [struct timer]s embedded in the objects are named by [timer_id]:
      [T_rt r] is [&r->rt_timer].  An intrusive list is the list of the
      identifiers linked in it; [DList.v] shows that the pointer operations
      of [list.c] implement these lists.
    - The environment ([gettimeofday], [malloc], socket calls) is a record of
      oracles read in the order in which the program calls them. *)

From S2P Require Export Prelude.

(** ** Time *)

(** [struct timeval]; both fields are 32-bit [long]s on the targets. *)
Record timeval := TV {
  tv_sec : Z;
  tv_usec : Z
}.

#[export] Instance set_tv_sec : Setter tv_sec := λ g r,
  TV (g (tv_sec r)) (tv_usec r).
#[export] Instance set_tv_usec : Setter tv_usec := λ g r,
  TV (tv_sec r) (g (tv_usec r)).

(** The environment: what the [n]-th call returns. [e_clock] is the time of
    day, [e_malloc] whether an allocation succeeds, [e_sys] whether a socket
    call ([setsockopt], [sendto], [sendmsg]) succeeds. *)
Record env := Env {
  e_clock : nat → timeval;
  e_malloc : nat → bool;
  e_sys : nat → bool
}.

#[export] Instance set_e_clock : Setter e_clock := λ g r,
  Env (g (e_clock r)) (e_malloc r) (e_sys r).
#[export] Instance set_e_malloc : Setter e_malloc := λ g r,
  Env (e_clock r) (g (e_malloc r)) (e_sys r).
#[export] Instance set_e_sys : Setter e_sys := λ g r,
  Env (e_clock r) (e_malloc r) (g (e_sys r)).

(** ** Timers (timer_queue.h) *)

(** The timeout functions a [struct timer] may call ([timeout_func_t]). *)
Inductive handler :=
| rreq_record_timeout_h | rreq_blacklist_timeout_h | route_discovery_timeout_h
| local_repair_timeout_h | route_expire_timeout_h | route_delete_timeout_h
| hello_timeout_h | rrep_ack_timeout_h | wait_on_reboot_timeout_h
| hello_send_h | print_rt_table_h.

#[export] Instance handler_eq_dec : EqDecision handler.
Proof. solve_decision. Defined.

(** The address of a [struct timer]: a field of a heap object or a static. *)
Inductive timer_id :=
| T_rt (r : nat) | T_ack (r : nat) | T_hello (r : nat)
| T_seek (s : nat) | T_rec (r : nat) | T_bl (b : nat)
| T_worb | T_hello_send | T_rt_log.

#[export] Instance timer_id_eq_dec : EqDecision timer_id.
Proof. solve_decision. Defined.

#[export] Instance timer_id_countable : Countable timer_id.
Proof.
  apply (inj_countable'
    (λ t, match t with
      | T_rt r => (0, r) | T_ack r => (1, r) | T_hello r => (2, r)
      | T_seek s => (3, s) | T_rec r => (4, r) | T_bl b => (5, b)
      | T_worb => (6, 0%nat) | T_hello_send => (7, 0%nat) | T_rt_log => (8, 0%nat)
      end)
    (λ p, match p with
      | (0, r) => T_rt r | (1, r) => T_ack r | (2, r) => T_hello r
      | (3, s) => T_seek s | (4, r) => T_rec r | (5, b) => T_bl b
      | (6, _) => T_worb | (7, _) => T_hello_send | (_, _) => T_rt_log
      end)).
  by intros [].
Defined.

(** A pointer to a heap object; [None] is [NULL]. *)
Abbreviation ptr := (option nat).

(** [struct timer] without its list links, which are membership in the queue. *)
Record timer := Timer {
  t_used : bool;
  t_timeout : timeval;
  t_handler : option handler;
  t_data : ptr
}.

#[export] Instance set_t_used : Setter t_used := λ g r,
  Timer (g (t_used r)) (t_timeout r) (t_handler r) (t_data r).
#[export] Instance set_t_timeout : Setter t_timeout := λ g r,
  Timer (t_used r) (g (t_timeout r)) (t_handler r) (t_data r).
#[export] Instance set_t_handler : Setter t_handler := λ g r,
  Timer (t_used r) (t_timeout r) (g (t_handler r)) (t_data r).
#[export] Instance set_t_data : Setter t_data := λ g r,
  Timer (t_used r) (t_timeout r) (t_handler r) (g (t_data r)).

(** ** Routing table (routing_table.h) *)

(** [INVALID] and [VALID]. *)
Inductive rt_state := INVALID | VALID.

#[export] Instance rt_state_eq_dec : EqDecision rt_state.
Proof. solve_decision. Defined.

(** [rt_table_t]; the three timers are [T_rt], [T_ack], [T_hello] and the
    precursor nodes are the list of their [neighbor] fields, head first. *)
Record rt_table_t := RT {
  rt_dest_addr : Z;
  rt_dest_seqno : Z;
  rt_next_hop : Z;
  rt_hopcnt : Z;
  rt_flags : Z;
  rt_st : rt_state;
  rt_last_hello_time : timeval;
  rt_hello_cnt : Z;
  rt_hash : Z;
  rt_nprecursor : Z;
  rt_precursors : list Z
}.

#[export] Instance set_rt_dest_addr : Setter rt_dest_addr := λ g r,
  RT (g (rt_dest_addr r)) (rt_dest_seqno r) (rt_next_hop r) (rt_hopcnt r)
    (rt_flags r) (rt_st r) (rt_last_hello_time r) (rt_hello_cnt r) (rt_hash r)
    (rt_nprecursor r) (rt_precursors r).
#[export] Instance set_rt_dest_seqno : Setter rt_dest_seqno := λ g r,
  RT (rt_dest_addr r) (g (rt_dest_seqno r)) (rt_next_hop r) (rt_hopcnt r)
    (rt_flags r) (rt_st r) (rt_last_hello_time r) (rt_hello_cnt r) (rt_hash r)
    (rt_nprecursor r) (rt_precursors r).
#[export] Instance set_rt_next_hop : Setter rt_next_hop := λ g r,
  RT (rt_dest_addr r) (rt_dest_seqno r) (g (rt_next_hop r)) (rt_hopcnt r)
    (rt_flags r) (rt_st r) (rt_last_hello_time r) (rt_hello_cnt r) (rt_hash r)
    (rt_nprecursor r) (rt_precursors r).
#[export] Instance set_rt_hopcnt : Setter rt_hopcnt := λ g r,
  RT (rt_dest_addr r) (rt_dest_seqno r) (rt_next_hop r) (g (rt_hopcnt r))
    (rt_flags r) (rt_st r) (rt_last_hello_time r) (rt_hello_cnt r) (rt_hash r)
    (rt_nprecursor r) (rt_precursors r).
#[export] Instance set_rt_flags : Setter rt_flags := λ g r,
  RT (rt_dest_addr r) (rt_dest_seqno r) (rt_next_hop r) (rt_hopcnt r) (g
    (rt_flags r)) (rt_st r) (rt_last_hello_time r) (rt_hello_cnt r) (rt_hash
    r) (rt_nprecursor r) (rt_precursors r).
#[export] Instance set_rt_st : Setter rt_st := λ g r,
  RT (rt_dest_addr r) (rt_dest_seqno r) (rt_next_hop r) (rt_hopcnt r)
    (rt_flags r) (g (rt_st r)) (rt_last_hello_time r) (rt_hello_cnt r)
    (rt_hash r) (rt_nprecursor r) (rt_precursors r).
#[export] Instance set_rt_last_hello_time : Setter rt_last_hello_time := λ g r,
  RT (rt_dest_addr r) (rt_dest_seqno r) (rt_next_hop r) (rt_hopcnt r)
    (rt_flags r) (rt_st r) (g (rt_last_hello_time r)) (rt_hello_cnt r)
    (rt_hash r) (rt_nprecursor r) (rt_precursors r).
#[export] Instance set_rt_hello_cnt : Setter rt_hello_cnt := λ g r,
  RT (rt_dest_addr r) (rt_dest_seqno r) (rt_next_hop r) (rt_hopcnt r)
    (rt_flags r) (rt_st r) (rt_last_hello_time r) (g (rt_hello_cnt r))
    (rt_hash r) (rt_nprecursor r) (rt_precursors r).
#[export] Instance set_rt_hash : Setter rt_hash := λ g r,
  RT (rt_dest_addr r) (rt_dest_seqno r) (rt_next_hop r) (rt_hopcnt r)
    (rt_flags r) (rt_st r) (rt_last_hello_time r) (rt_hello_cnt r) (g (rt_hash
    r)) (rt_nprecursor r) (rt_precursors r).
#[export] Instance set_rt_nprecursor : Setter rt_nprecursor := λ g r,
  RT (rt_dest_addr r) (rt_dest_seqno r) (rt_next_hop r) (rt_hopcnt r)
    (rt_flags r) (rt_st r) (rt_last_hello_time r) (rt_hello_cnt r) (rt_hash r)
    (g (rt_nprecursor r)) (rt_precursors r).
#[export] Instance set_rt_precursors : Setter rt_precursors := λ g r,
  RT (rt_dest_addr r) (rt_dest_seqno r) (rt_next_hop r) (rt_hopcnt r)
    (rt_flags r) (rt_st r) (rt_last_hello_time r) (rt_hello_cnt r) (rt_hash r)
    (rt_nprecursor r) (g (rt_precursors r)).

(** [struct routing_table]: counters and the [RT_TABLESIZE] bucket lists. *)
Record routing_table := RTbl {
  rt_num_entries : Z;
  rt_num_active : Z;
  rt_buckets : list (list nat)
}.

#[export] Instance set_rt_num_entries : Setter rt_num_entries := λ g r,
  RTbl (g (rt_num_entries r)) (rt_num_active r) (rt_buckets r).
#[export] Instance set_rt_num_active : Setter rt_num_active := λ g r,
  RTbl (rt_num_entries r) (g (rt_num_active r)) (rt_buckets r).
#[export] Instance set_rt_buckets : Setter rt_buckets := λ g r,
  RTbl (rt_num_entries r) (rt_num_active r) (g (rt_buckets r)).

(** ** Pending discoveries, RREQ records, blacklist *)

(** [seek_list_t]; its timer is [T_seek]. *)
Record seek_list_t := Seek {
  sk_dest_addr : Z;
  sk_dest_seqno : Z;
  sk_flags : Z;
  sk_rreq_cnt : Z;
  sk_ttl : Z
}.

#[export] Instance set_sk_dest_addr : Setter sk_dest_addr := λ g r,
  Seek (g (sk_dest_addr r)) (sk_dest_seqno r) (sk_flags r) (sk_rreq_cnt r)
    (sk_ttl r).
#[export] Instance set_sk_dest_seqno : Setter sk_dest_seqno := λ g r,
  Seek (sk_dest_addr r) (g (sk_dest_seqno r)) (sk_flags r) (sk_rreq_cnt r)
    (sk_ttl r).
#[export] Instance set_sk_flags : Setter sk_flags := λ g r,
  Seek (sk_dest_addr r) (sk_dest_seqno r) (g (sk_flags r)) (sk_rreq_cnt r)
    (sk_ttl r).
#[export] Instance set_sk_rreq_cnt : Setter sk_rreq_cnt := λ g r,
  Seek (sk_dest_addr r) (sk_dest_seqno r) (sk_flags r) (g (sk_rreq_cnt r))
    (sk_ttl r).
#[export] Instance set_sk_ttl : Setter sk_ttl := λ g r,
  Seek (sk_dest_addr r) (sk_dest_seqno r) (sk_flags r) (sk_rreq_cnt r) (g
    (sk_ttl r)).

(** [struct rreq_record]; its timer is [T_rec]. *)
Record rreq_record := Rec {
  rec_orig_addr : Z;
  rec_rreq_id : Z
}.

#[export] Instance set_rec_orig_addr : Setter rec_orig_addr := λ g r,
  Rec (g (rec_orig_addr r)) (rec_rreq_id r).
#[export] Instance set_rec_rreq_id : Setter rec_rreq_id := λ g r,
  Rec (rec_orig_addr r) (g (rec_rreq_id r)).

(** [struct rreq_blacklist]; its timer is [T_bl]. *)
Record rreq_blacklist := Bl {
  bl_dest_addr : Z
}.

#[export] Instance set_bl_dest_addr : Setter bl_dest_addr := λ g r,
  Bl (g (bl_dest_addr r)).

(** ** Host, configuration, sockets *)

(** [struct dev_info]; interface name and socket descriptor are left out. *)
Record dev_info := Dev {
  dev_enabled : Z;
  dev_ifindex : Z;
  dev_ipaddr : Z;
  dev_netmask : Z;
  dev_broadcast : Z
}.

#[export] Instance set_dev_enabled : Setter dev_enabled := λ g r,
  Dev (g (dev_enabled r)) (dev_ifindex r) (dev_ipaddr r) (dev_netmask r)
    (dev_broadcast r).
#[export] Instance set_dev_ifindex : Setter dev_ifindex := λ g r,
  Dev (dev_enabled r) (g (dev_ifindex r)) (dev_ipaddr r) (dev_netmask r)
    (dev_broadcast r).
#[export] Instance set_dev_ipaddr : Setter dev_ipaddr := λ g r,
  Dev (dev_enabled r) (dev_ifindex r) (g (dev_ipaddr r)) (dev_netmask r)
    (dev_broadcast r).
#[export] Instance set_dev_netmask : Setter dev_netmask := λ g r,
  Dev (dev_enabled r) (dev_ifindex r) (dev_ipaddr r) (g (dev_netmask r))
    (dev_broadcast r).
#[export] Instance set_dev_broadcast : Setter dev_broadcast := λ g r,
  Dev (dev_enabled r) (dev_ifindex r) (dev_ipaddr r) (dev_netmask r) (g
    (dev_broadcast r)).

(** [struct host_info]. *)
Record host_info := Host {
  h_seqno : Z;
  h_rreq_id : Z;
  h_last_forward_time : timeval;
  h_last_broadcast_time : timeval;
  h_dev : dev_info
}.

#[export] Instance set_h_seqno : Setter h_seqno := λ g r,
  Host (g (h_seqno r)) (h_rreq_id r) (h_last_forward_time r)
    (h_last_broadcast_time r) (h_dev r).
#[export] Instance set_h_rreq_id : Setter h_rreq_id := λ g r,
  Host (h_seqno r) (g (h_rreq_id r)) (h_last_forward_time r)
    (h_last_broadcast_time r) (h_dev r).
#[export] Instance set_h_last_forward_time : Setter h_last_forward_time := λ g r,
  Host (h_seqno r) (h_rreq_id r) (g (h_last_forward_time r))
    (h_last_broadcast_time r) (h_dev r).
#[export] Instance set_h_last_broadcast_time : Setter h_last_broadcast_time := λ g r,
  Host (h_seqno r) (h_rreq_id r) (h_last_forward_time r) (g
    (h_last_broadcast_time r)) (h_dev r).
#[export] Instance set_h_dev : Setter h_dev := λ g r,
  Host (h_seqno r) (h_rreq_id r) (h_last_forward_time r)
    (h_last_broadcast_time r) (g (h_dev r)).

(** The global settings of [main.c]. *)
Record config := Cfg {
  wait_on_reboot : Z;
  ratelimit : Z;
  expanding_ring_search : Z;
  receive_n_hellos : Z;
  local_repair : Z;
  rt_log_interval : Z;
  active_route_timeout : Z;
  ttl_start : Z;
  delete_period : Z
}.

#[export] Instance set_wait_on_reboot : Setter wait_on_reboot := λ g r,
  Cfg (g (wait_on_reboot r)) (ratelimit r) (expanding_ring_search r)
    (receive_n_hellos r) (local_repair r) (rt_log_interval r)
    (active_route_timeout r) (ttl_start r) (delete_period r).
#[export] Instance set_ratelimit : Setter ratelimit := λ g r,
  Cfg (wait_on_reboot r) (g (ratelimit r)) (expanding_ring_search r)
    (receive_n_hellos r) (local_repair r) (rt_log_interval r)
    (active_route_timeout r) (ttl_start r) (delete_period r).
#[export] Instance set_expanding_ring_search : Setter expanding_ring_search := λ g r,
  Cfg (wait_on_reboot r) (ratelimit r) (g (expanding_ring_search r))
    (receive_n_hellos r) (local_repair r) (rt_log_interval r)
    (active_route_timeout r) (ttl_start r) (delete_period r).
#[export] Instance set_receive_n_hellos : Setter receive_n_hellos := λ g r,
  Cfg (wait_on_reboot r) (ratelimit r) (expanding_ring_search r) (g
    (receive_n_hellos r)) (local_repair r) (rt_log_interval r)
    (active_route_timeout r) (ttl_start r) (delete_period r).
#[export] Instance set_local_repair : Setter local_repair := λ g r,
  Cfg (wait_on_reboot r) (ratelimit r) (expanding_ring_search r)
    (receive_n_hellos r) (g (local_repair r)) (rt_log_interval r)
    (active_route_timeout r) (ttl_start r) (delete_period r).
#[export] Instance set_rt_log_interval : Setter rt_log_interval := λ g r,
  Cfg (wait_on_reboot r) (ratelimit r) (expanding_ring_search r)
    (receive_n_hellos r) (local_repair r) (g (rt_log_interval r))
    (active_route_timeout r) (ttl_start r) (delete_period r).
#[export] Instance set_active_route_timeout : Setter active_route_timeout := λ g r,
  Cfg (wait_on_reboot r) (ratelimit r) (expanding_ring_search r)
    (receive_n_hellos r) (local_repair r) (rt_log_interval r) (g
    (active_route_timeout r)) (ttl_start r) (delete_period r).
#[export] Instance set_ttl_start : Setter ttl_start := λ g r,
  Cfg (wait_on_reboot r) (ratelimit r) (expanding_ring_search r)
    (receive_n_hellos r) (local_repair r) (rt_log_interval r)
    (active_route_timeout r) (g (ttl_start r)) (delete_period r).
#[export] Instance set_delete_period : Setter delete_period := λ g r,
  Cfg (wait_on_reboot r) (ratelimit r) (expanding_ring_search r)
    (receive_n_hellos r) (local_repair r) (rt_log_interval r)
    (active_route_timeout r) (ttl_start r) (g (delete_period r)).

(** The static variables of [aodv_socket.c]: the two message buffers and the
    rate-limit windows. *)
Record sock_state := Sock {
  recv_bytes : list Z;
  send_bytes : list Z;
  num_rreq : Z;
  num_rerr : Z;
  rreq_rl : list timeval;
  rerr_rl : list timeval
}.

#[export] Instance set_recv_bytes : Setter recv_bytes := λ g r,
  Sock (g (recv_bytes r)) (send_bytes r) (num_rreq r) (num_rerr r) (rreq_rl r)
    (rerr_rl r).
#[export] Instance set_send_bytes : Setter send_bytes := λ g r,
  Sock (recv_bytes r) (g (send_bytes r)) (num_rreq r) (num_rerr r) (rreq_rl r)
    (rerr_rl r).
#[export] Instance set_num_rreq : Setter num_rreq := λ g r,
  Sock (recv_bytes r) (send_bytes r) (g (num_rreq r)) (num_rerr r) (rreq_rl r)
    (rerr_rl r).
#[export] Instance set_num_rerr : Setter num_rerr := λ g r,
  Sock (recv_bytes r) (send_bytes r) (num_rreq r) (g (num_rerr r)) (rreq_rl r)
    (rerr_rl r).
#[export] Instance set_rreq_rl : Setter rreq_rl := λ g r,
  Sock (recv_bytes r) (send_bytes r) (num_rreq r) (num_rerr r) (g (rreq_rl r))
    (rerr_rl r).
#[export] Instance set_rerr_rl : Setter rerr_rl := λ g r,
  Sock (recv_bytes r) (send_bytes r) (num_rreq r) (num_rerr r) (rreq_rl r) (g
    (rerr_rl r)).

(** Which of the two message buffers an [AODV_msg *] points to. *)
Inductive bufid := send_buf | recv_buf.

(** ** Effects the program has on its surroundings *)

(** A message of [nl.c] to the kernel module: the [nlmsghdr] fields it sets
    and the [kaodv_rt_msg] payload. *)
Record nl_msg := NlMsg {
  nl_type : Z;
  nl_seq : Z;
  nl_flags : Z;
  m_dest : Z;
  m_nhop : Z;
  m_flags : Z;
  m_ifindex : Z;
  m_time : Z
}.

#[export] Instance set_nl_type : Setter nl_type := λ g r,
  NlMsg (g (nl_type r)) (nl_seq r) (nl_flags r) (m_dest r) (m_nhop r) (m_flags
    r) (m_ifindex r) (m_time r).
#[export] Instance set_nl_seq : Setter nl_seq := λ g r,
  NlMsg (nl_type r) (g (nl_seq r)) (nl_flags r) (m_dest r) (m_nhop r) (m_flags
    r) (m_ifindex r) (m_time r).
#[export] Instance set_nl_flags : Setter nl_flags := λ g r,
  NlMsg (nl_type r) (nl_seq r) (g (nl_flags r)) (m_dest r) (m_nhop r) (m_flags
    r) (m_ifindex r) (m_time r).
#[export] Instance set_m_dest : Setter m_dest := λ g r,
  NlMsg (nl_type r) (nl_seq r) (nl_flags r) (g (m_dest r)) (m_nhop r) (m_flags
    r) (m_ifindex r) (m_time r).
#[export] Instance set_m_nhop : Setter m_nhop := λ g r,
  NlMsg (nl_type r) (nl_seq r) (nl_flags r) (m_dest r) (g (m_nhop r)) (m_flags
    r) (m_ifindex r) (m_time r).
#[export] Instance set_m_flags : Setter m_flags := λ g r,
  NlMsg (nl_type r) (nl_seq r) (nl_flags r) (m_dest r) (m_nhop r) (g (m_flags
    r)) (m_ifindex r) (m_time r).
#[export] Instance set_m_ifindex : Setter m_ifindex := λ g r,
  NlMsg (nl_type r) (nl_seq r) (nl_flags r) (m_dest r) (m_nhop r) (m_flags r)
    (g (m_ifindex r)) (m_time r).
#[export] Instance set_m_time : Setter m_time := λ g r,
  NlMsg (nl_type r) (nl_seq r) (nl_flags r) (m_dest r) (m_nhop r) (m_flags r)
    (m_ifindex r) (g (m_time r)).

(** A routing attribute as [addattr] stores it: its offset from the message
    header, type, length and 32-bit payload. *)
Record rt_attr := RtAttr {
  ra_off : Z;
  ra_type : Z;
  ra_len : Z;
  ra_data : Z
}.

#[export] Instance set_ra_off : Setter ra_off := λ g r,
  RtAttr (g (ra_off r)) (ra_type r) (ra_len r) (ra_data r).
#[export] Instance set_ra_type : Setter ra_type := λ g r,
  RtAttr (ra_off r) (g (ra_type r)) (ra_len r) (ra_data r).
#[export] Instance set_ra_len : Setter ra_len := λ g r,
  RtAttr (ra_off r) (ra_type r) (g (ra_len r)) (ra_data r).
#[export] Instance set_ra_data : Setter ra_data := λ g r,
  RtAttr (ra_off r) (ra_type r) (ra_len r) (g (ra_data r)).

(** A request of [nl_kernel_route] to the kernel's routing socket. *)
Record rt_req := RtReq {
  rq_type : Z;
  rq_flags : Z;
  rq_seq : Z;
  rq_len : Z;
  rtm_family : Z;
  rtm_dst_len : Z;
  rtm_scope : Z;
  rtm_protocol : Z;
  rq_attrs : list rt_attr
}.

#[export] Instance set_rq_type : Setter rq_type := λ g r,
  RtReq (g (rq_type r)) (rq_flags r) (rq_seq r) (rq_len r) (rtm_family r)
    (rtm_dst_len r) (rtm_scope r) (rtm_protocol r) (rq_attrs r).
#[export] Instance set_rq_flags : Setter rq_flags := λ g r,
  RtReq (rq_type r) (g (rq_flags r)) (rq_seq r) (rq_len r) (rtm_family r)
    (rtm_dst_len r) (rtm_scope r) (rtm_protocol r) (rq_attrs r).
#[export] Instance set_rq_seq : Setter rq_seq := λ g r,
  RtReq (rq_type r) (rq_flags r) (g (rq_seq r)) (rq_len r) (rtm_family r)
    (rtm_dst_len r) (rtm_scope r) (rtm_protocol r) (rq_attrs r).
#[export] Instance set_rq_len : Setter rq_len := λ g r,
  RtReq (rq_type r) (rq_flags r) (rq_seq r) (g (rq_len r)) (rtm_family r)
    (rtm_dst_len r) (rtm_scope r) (rtm_protocol r) (rq_attrs r).
#[export] Instance set_rtm_family : Setter rtm_family := λ g r,
  RtReq (rq_type r) (rq_flags r) (rq_seq r) (rq_len r) (g (rtm_family r))
    (rtm_dst_len r) (rtm_scope r) (rtm_protocol r) (rq_attrs r).
#[export] Instance set_rtm_dst_len : Setter rtm_dst_len := λ g r,
  RtReq (rq_type r) (rq_flags r) (rq_seq r) (rq_len r) (rtm_family r) (g
    (rtm_dst_len r)) (rtm_scope r) (rtm_protocol r) (rq_attrs r).
#[export] Instance set_rtm_scope : Setter rtm_scope := λ g r,
  RtReq (rq_type r) (rq_flags r) (rq_seq r) (rq_len r) (rtm_family r)
    (rtm_dst_len r) (g (rtm_scope r)) (rtm_protocol r) (rq_attrs r).
#[export] Instance set_rtm_protocol : Setter rtm_protocol := λ g r,
  RtReq (rq_type r) (rq_flags r) (rq_seq r) (rq_len r) (rtm_family r)
    (rtm_dst_len r) (rtm_scope r) (g (rtm_protocol r)) (rq_attrs r).
#[export] Instance set_rq_attrs : Setter rq_attrs := λ g r,
  RtReq (rq_type r) (rq_flags r) (rq_seq r) (rq_len r) (rtm_family r)
    (rtm_dst_len r) (rtm_scope r) (rtm_protocol r) (g (rq_attrs r)).

(** What leaves the process: a datagram (destination, TTL, bytes), a message
    to the kernel module, its configuration message (type, sequence number,
    flags, announced length, timeout), a request to the kernel's routing
    table. *)
Inductive event :=
| EvSend (dest ttl : Z) (payload : list Z)
| EvNl (m : nl_msg)
| EvConf (type seq flags len active_route_timeout : Z)
| EvRt (q : rt_req).

(** ** The whole state *)

(** The state of the process. [w_tick] counts the environment calls made,
    [w_next] is the next fresh object address, [rts], [seeks], [recs], [bls]
    are the live heap objects, [timers] the live timer structures, [tq] and
    [exptq] the timer queue and the local list of [timer_timeout], [out] the
    effects so far, latest first. *)
Record world := World {
  w_env : env;
  w_tick : nat;
  w_next : nat;
  this_host : host_info;
  cfg : config;
  rt_tbl : routing_table;
  rts : gmap nat rt_table_t;
  seeks : gmap nat seek_list_t;
  recs : gmap nat rreq_record;
  bls : gmap nat rreq_blacklist;
  sl : list nat;
  rreq_records : list nat;
  rreq_blacklists : list nat;
  timers : gmap timer_id timer;
  tq : list timer_id;
  exptq : list timer_id;
  sock : sock_state;
  aodvnl_seqno : Z;
  rtnl_seqno : Z;
  out : list event
}.

#[export] Instance set_w_env : Setter w_env := λ g r,
  World (g (w_env r)) (w_tick r) (w_next r) (this_host r) (cfg r) (rt_tbl r)
    (rts r) (seeks r) (recs r) (bls r) (sl r) (rreq_records r)
    (rreq_blacklists r) (timers r) (tq r) (exptq r) (sock r) (aodvnl_seqno r)
    (rtnl_seqno r) (out r).
#[export] Instance set_w_tick : Setter w_tick := λ g r,
  World (w_env r) (g (w_tick r)) (w_next r) (this_host r) (cfg r) (rt_tbl r)
    (rts r) (seeks r) (recs r) (bls r) (sl r) (rreq_records r)
    (rreq_blacklists r) (timers r) (tq r) (exptq r) (sock r) (aodvnl_seqno r)
    (rtnl_seqno r) (out r).
#[export] Instance set_w_next : Setter w_next := λ g r,
  World (w_env r) (w_tick r) (g (w_next r)) (this_host r) (cfg r) (rt_tbl r)
    (rts r) (seeks r) (recs r) (bls r) (sl r) (rreq_records r)
    (rreq_blacklists r) (timers r) (tq r) (exptq r) (sock r) (aodvnl_seqno r)
    (rtnl_seqno r) (out r).
#[export] Instance set_this_host : Setter this_host := λ g r,
  World (w_env r) (w_tick r) (w_next r) (g (this_host r)) (cfg r) (rt_tbl r)
    (rts r) (seeks r) (recs r) (bls r) (sl r) (rreq_records r)
    (rreq_blacklists r) (timers r) (tq r) (exptq r) (sock r) (aodvnl_seqno r)
    (rtnl_seqno r) (out r).
#[export] Instance set_cfg : Setter cfg := λ g r,
  World (w_env r) (w_tick r) (w_next r) (this_host r) (g (cfg r)) (rt_tbl r)
    (rts r) (seeks r) (recs r) (bls r) (sl r) (rreq_records r)
    (rreq_blacklists r) (timers r) (tq r) (exptq r) (sock r) (aodvnl_seqno r)
    (rtnl_seqno r) (out r).
#[export] Instance set_rt_tbl : Setter rt_tbl := λ g r,
  World (w_env r) (w_tick r) (w_next r) (this_host r) (cfg r) (g (rt_tbl r))
    (rts r) (seeks r) (recs r) (bls r) (sl r) (rreq_records r)
    (rreq_blacklists r) (timers r) (tq r) (exptq r) (sock r) (aodvnl_seqno r)
    (rtnl_seqno r) (out r).
#[export] Instance set_rts : Setter rts := λ g r,
  World (w_env r) (w_tick r) (w_next r) (this_host r) (cfg r) (rt_tbl r) (g
    (rts r)) (seeks r) (recs r) (bls r) (sl r) (rreq_records r)
    (rreq_blacklists r) (timers r) (tq r) (exptq r) (sock r) (aodvnl_seqno r)
    (rtnl_seqno r) (out r).
#[export] Instance set_seeks : Setter seeks := λ g r,
  World (w_env r) (w_tick r) (w_next r) (this_host r) (cfg r) (rt_tbl r) (rts
    r) (g (seeks r)) (recs r) (bls r) (sl r) (rreq_records r) (rreq_blacklists
    r) (timers r) (tq r) (exptq r) (sock r) (aodvnl_seqno r) (rtnl_seqno r)
    (out r).
#[export] Instance set_recs : Setter recs := λ g r,
  World (w_env r) (w_tick r) (w_next r) (this_host r) (cfg r) (rt_tbl r) (rts
    r) (seeks r) (g (recs r)) (bls r) (sl r) (rreq_records r) (rreq_blacklists
    r) (timers r) (tq r) (exptq r) (sock r) (aodvnl_seqno r) (rtnl_seqno r)
    (out r).
#[export] Instance set_bls : Setter bls := λ g r,
  World (w_env r) (w_tick r) (w_next r) (this_host r) (cfg r) (rt_tbl r) (rts
    r) (seeks r) (recs r) (g (bls r)) (sl r) (rreq_records r) (rreq_blacklists
    r) (timers r) (tq r) (exptq r) (sock r) (aodvnl_seqno r) (rtnl_seqno r)
    (out r).
#[export] Instance set_sl : Setter sl := λ g r,
  World (w_env r) (w_tick r) (w_next r) (this_host r) (cfg r) (rt_tbl r) (rts
    r) (seeks r) (recs r) (bls r) (g (sl r)) (rreq_records r) (rreq_blacklists
    r) (timers r) (tq r) (exptq r) (sock r) (aodvnl_seqno r) (rtnl_seqno r)
    (out r).
#[export] Instance set_rreq_records : Setter rreq_records := λ g r,
  World (w_env r) (w_tick r) (w_next r) (this_host r) (cfg r) (rt_tbl r) (rts
    r) (seeks r) (recs r) (bls r) (sl r) (g (rreq_records r)) (rreq_blacklists
    r) (timers r) (tq r) (exptq r) (sock r) (aodvnl_seqno r) (rtnl_seqno r)
    (out r).
#[export] Instance set_rreq_blacklists : Setter rreq_blacklists := λ g r,
  World (w_env r) (w_tick r) (w_next r) (this_host r) (cfg r) (rt_tbl r) (rts
    r) (seeks r) (recs r) (bls r) (sl r) (rreq_records r) (g (rreq_blacklists
    r)) (timers r) (tq r) (exptq r) (sock r) (aodvnl_seqno r) (rtnl_seqno r)
    (out r).
#[export] Instance set_timers : Setter timers := λ g r,
  World (w_env r) (w_tick r) (w_next r) (this_host r) (cfg r) (rt_tbl r) (rts
    r) (seeks r) (recs r) (bls r) (sl r) (rreq_records r) (rreq_blacklists r)
    (g (timers r)) (tq r) (exptq r) (sock r) (aodvnl_seqno r) (rtnl_seqno r)
    (out r).
#[export] Instance set_tq : Setter tq := λ g r,
  World (w_env r) (w_tick r) (w_next r) (this_host r) (cfg r) (rt_tbl r) (rts
    r) (seeks r) (recs r) (bls r) (sl r) (rreq_records r) (rreq_blacklists r)
    (timers r) (g (tq r)) (exptq r) (sock r) (aodvnl_seqno r) (rtnl_seqno r)
    (out r).
#[export] Instance set_exptq : Setter exptq := λ g r,
  World (w_env r) (w_tick r) (w_next r) (this_host r) (cfg r) (rt_tbl r) (rts
    r) (seeks r) (recs r) (bls r) (sl r) (rreq_records r) (rreq_blacklists r)
    (timers r) (tq r) (g (exptq r)) (sock r) (aodvnl_seqno r) (rtnl_seqno r)
    (out r).
#[export] Instance set_sock : Setter sock := λ g r,
  World (w_env r) (w_tick r) (w_next r) (this_host r) (cfg r) (rt_tbl r) (rts
    r) (seeks r) (recs r) (bls r) (sl r) (rreq_records r) (rreq_blacklists r)
    (timers r) (tq r) (exptq r) (g (sock r)) (aodvnl_seqno r) (rtnl_seqno r)
    (out r).
#[export] Instance set_aodvnl_seqno : Setter aodvnl_seqno := λ g r,
  World (w_env r) (w_tick r) (w_next r) (this_host r) (cfg r) (rt_tbl r) (rts
    r) (seeks r) (recs r) (bls r) (sl r) (rreq_records r) (rreq_blacklists r)
    (timers r) (tq r) (exptq r) (sock r) (g (aodvnl_seqno r)) (rtnl_seqno r)
    (out r).
#[export] Instance set_rtnl_seqno : Setter rtnl_seqno := λ g r,
  World (w_env r) (w_tick r) (w_next r) (this_host r) (cfg r) (rt_tbl r) (rts
    r) (seeks r) (recs r) (bls r) (sl r) (rreq_records r) (rreq_blacklists r)
    (timers r) (tq r) (exptq r) (sock r) (aodvnl_seqno r) (g (rtnl_seqno r))
    (out r).
#[export] Instance set_out : Setter out := λ g r,
  World (w_env r) (w_tick r) (w_next r) (this_host r) (cfg r) (rt_tbl r) (rts
    r) (seeks r) (recs r) (bls r) (sl r) (rreq_records r) (rreq_blacklists r)
    (timers r) (tq r) (exptq r) (sock r) (aodvnl_seqno r) (rtnl_seqno r) (g
    (out r)).

(** ** Outcomes and the monad *)

(** Undefined behaviour the model detects, and resource faults of the model
    itself ([OutOfFuel] is proved unreachable). *)
Inductive fault := UseAfterFree | NullDeref | OutOfBounds | SendBufOverflow | OutOfFuel.

(** Why a run stops: a fault, or a call of [exit]. *)
Inductive err := Fault (f : fault) | Exit (code : Z).

#[export] Instance fault_eq_dec : EqDecision fault.
Proof. solve_decision. Defined.

#[export] Instance err_eq_dec : EqDecision err.
Proof. solve_decision. Defined.

Inductive res (A : Type) := Ok (a : A) (w : world) | Err (e : err).
Arguments Ok {A} a w.
Arguments Err {A} e.

Definition M (A : Type) : Type := world → res A.

#[export] Instance M_ret : MRet M := λ A a w, Ok a w.
#[export] Instance M_bind : MBind M := λ A B f m w,
  match m w with
  | Ok a w' => f a w'
  | Err e => Err e
  end.

Definition raise {A} (e : err) : M A := λ w, Err e.
Definition get : M world := λ w, Ok w w.
Definition gets {A} (f : world → A) : M A := λ w, Ok (f w) w.
Definition modify (f : world → world) : M unit := λ w, Ok tt (f w).
Definition when (b : bool) (m : M unit) : M unit := if b then m else mret tt.

(** [list_for_each] over the identifiers of a list, body first to last. *)
Fixpoint for_each {A} (l : list A) (body : A → M unit) : M unit :=
  match l with
  | [] => mret tt
  | x :: l' => body x;; for_each l' body
  end.

(** A loop with local variables [s]. *)
Fixpoint foldM {A S} (body : S → A → M S) (s : S) (l : list A) : M S :=
  match l with
  | [] => mret s
  | x :: l' => s' ← body s x; foldM body s' l'
  end.

(** ** Environment calls *)

Definition tick : M nat := λ w, Ok (w_tick w) (w <| w_tick ::= S |>).

Definition gettimeofday : M timeval :=
  n ← tick; gets (λ w, e_clock (w_env w) n).

(** A socket call: [true] when it succeeds. *)
Definition syscall : M bool :=
  n ← tick; gets (λ w, e_sys (w_env w) n).

Definition emit (e : event) : M unit := modify (λ w, w <| out ::= cons e |>).

(** [malloc] of an object when [live] objects of its kind exist: [NULL] when
    the system refuses, or when a 32-bit address space cannot hold one more. *)
Definition malloc (live : nat) : M ptr :=
  n ← tick;
  w ← get;
  if e_malloc (w_env w) n && (Z.of_nat live <? 2 ^ 32 - 1)
  then modify (λ w, w <| w_next ::= S |>);; mret (Some (w_next w))
  else mret None.

(** ** Access to heap objects *)

Definition deref {A} (store : world → gmap nat A) (p : ptr) : M A := λ w,
  match p with
  | None => Err (Fault NullDeref)
  | Some i =>
      match store w !! i with
      | Some x => Ok x w
      | None => Err (Fault UseAfterFree)
      end
  end.

Definition get_rt (p : ptr) : M rt_table_t := deref rts p.
Definition get_seek (p : ptr) : M seek_list_t := deref seeks p.
Definition get_rec (p : ptr) : M rreq_record := deref recs p.
Definition get_bl (p : ptr) : M rreq_blacklist := deref bls p.

(** The object behind a pointer that was just dereferenced. *)
Definition addr (p : ptr) : nat := default 0%nat p.

Definition upd_rt (p : ptr) (f : rt_table_t → rt_table_t) : M unit :=
  r ← get_rt p; modify (λ w, w <| rts ::= <[addr p := f r]> |>).
Definition upd_seek (p : ptr) (f : seek_list_t → seek_list_t) : M unit :=
  s ← get_seek p; modify (λ w, w <| seeks ::= <[addr p := f s]> |>).

(** The timer structure at an address. *)
Definition get_timer (t : timer_id) : M timer := λ w,
  match timers w !! t with
  | Some x => Ok x w
  | None => Err (Fault UseAfterFree)
  end.

Definition upd_timer (t : timer_id) (f : timer → timer) : M unit :=
  x ← get_timer t; modify (λ w, w <| timers ::= <[t := f x]> |>).

(** The buffer a message pointer designates, and its bytes as the C structs
    of the message headers lay them out (little-endian, no padding). *)
Definition buf_of (b : bufid) (w : world) : list Z :=
  match b with send_buf => send_bytes (sock w) | recv_buf => recv_bytes (sock w) end.

Definition set_buf (b : bufid) (l : list Z) (w : world) : world :=
  match b with
  | send_buf => w <| sock ::= λ s, s <| send_bytes := l |> |>
  | recv_buf => w <| sock ::= λ s, s <| recv_bytes := l |> |>
  end.

Definition ld (b : bufid) (off : Z) (n : nat) : M Z := λ w,
  match load_bytes (buf_of b w) off n with
  | Some bs => Ok (of_bytes bs) w
  | None => Err (Fault OutOfBounds)
  end.

Definition st (b : bufid) (off : Z) (bs : list Z) : M unit := λ w,
  match store_bytes (buf_of b w) off bs with
  | Some l => Ok tt (set_buf b l w)
  | None => Err (Fault match b with send_buf => SendBufOverflow | recv_buf => OutOfBounds end)
  end.

Definition ld8 (b : bufid) (off : Z) : M Z := ld b off 1.
Definition ld32 (b : bufid) (off : Z) : M Z := ld b off 4.
Definition st8 (b : bufid) (off v : Z) : M unit := st b off [u8 v].
Definition st32 (b : bufid) (off v : Z) : M unit := st b off (bytes32 v).

(** Bit-fields of one byte: [n] bits from bit [lo] up. *)
Definition ld_bits (b : bufid) (off lo n : Z) : M Z :=
  v ← ld8 b off; mret (Z.land (Z.shiftr v lo) (Z.ones n)).
Definition st_bits (b : bufid) (off lo n x : Z) : M unit :=
  v ← ld8 b off;
  st8 b off (Z.lor (Z.ldiff v (Z.shiftl (Z.ones n) lo)) (Z.shiftl (Z.land x (Z.ones n)) lo)).
