(* ===== verification/Params.v ===== *)
(** * Constants of defs.h, parameters.h, routing_table.h and the message headers

    Macros whose value depends on a variable of the program
    ([ACTIVE_ROUTE_TIMEOUT], [RING_TRAVERSAL_TIME], ...) are operations that
    read it. *)

From S2P Require Export State.

(** ** defs.h *)

Definition AODV_HELLO : Z := 0.
Definition AODV_RREQ : Z := 1.
Definition AODV_RREP : Z := 2.
Definition AODV_RERR : Z := 3.
Definition AODV_RREP_ACK : Z := 4.
Definition AODV_BROADCAST : Z := 0xffffffff.
Definition RREQ_RATELIMIT : Z := 10.
Definition RERR_RATELIMIT : Z := 10.

(** ** parameters.h *)

Definition K : Z := 5.
Definition ACTIVE_ROUTE_TIMEOUT_HELLO : Z := 3000.
Definition TTL_START_HELLO : Z := 2.
Definition ALLOWED_HELLO_LOSS : Z := 2.
Definition HELLO_INTERVAL : Z := 1000.
Definition DELETE_PERIOD_HELLO : Z :=
  K * Z.max ACTIVE_ROUTE_TIMEOUT_HELLO (ALLOWED_HELLO_LOSS * HELLO_INTERVAL).
Definition LOCAL_ADD_TTL : Z := 2.
Definition NET_DIAMETER : Z := 35.
Definition MAX_REPAIR_TTL : Z := Z.quot (3 * NET_DIAMETER) 10.
Definition NODE_TRAVERSAL_TIME : Z := 40.
Definition NET_TRAVERSAL_TIME : Z := 2 * NODE_TRAVERSAL_TIME * NET_DIAMETER.
Definition NEXT_HOP_WAIT : Z := NODE_TRAVERSAL_TIME + 10.
Definition PATH_DISCOVERY_TIME : Z := 2 * NET_TRAVERSAL_TIME.
Definition RREQ_RETRIES : Z := 2.
Definition TIMEOUT_BUFFER : Z := 2.
Definition TTL_INCREMENT : Z := 2.
Definition TTL_THRESHOLD : Z := 7.

(** [RING_TRAVERSAL_TIME] at the point where [TTL_VALUE] is [ttl]. *)
Definition RING_TRAVERSAL_TIME (ttl : Z) : Z :=
  2 * NODE_TRAVERSAL_TIME * (ttl + TIMEOUT_BUFFER).

Definition ACTIVE_ROUTE_TIMEOUT : M Z := gets (λ w, active_route_timeout (cfg w)).
Definition DELETE_PERIOD : M Z := gets (λ w, delete_period (cfg w)).
Definition TTL_START : M Z := gets (λ w, ttl_start (cfg w)).
Definition MY_ROUTE_TIMEOUT : M Z := t ← ACTIVE_ROUTE_TIMEOUT; mret (s32 (2 * t)).

(** The macro is not parenthesised; it is used as a whole argument. *)
Definition BLACKLIST_TIMEOUT : M Z :=
  ttl0 ← TTL_START;
  mret (RREQ_RETRIES * NET_TRAVERSAL_TIME
        + Z.quot (TTL_THRESHOLD - ttl0) TTL_INCREMENT + 1 + RREQ_RETRIES).

(** ** routing_table.h *)

Definition RT_UNIDIR : Z := 0x1.
Definition RT_REPAIR : Z := 0x2.
Definition RT_INET_DEST : Z := 0x8.
Definition RT_TABLESIZE : Z := 64.
Definition RT_TABLEMASK : Z := RT_TABLESIZE - 1.

(** [flags & mask] as a condition. *)
Definition flag (flags mask : Z) : bool := negb (Z.land flags mask =? 0).

(** [seqno_incr]: what the macro leaves in the variable. *)
Definition seqno_incr (s : Z) : Z :=
  if s =? 0 then 0 else if s =? 0xffffffff then 1 else s + 1.

(** ** Message headers *)

Definition RREQ_JOIN : Z := Z.shiftl 1 7.
Definition RREQ_REPAIR : Z := Z.shiftl 1 6.
Definition RREQ_GRATUITOUS : Z := Z.shiftl 1 5.
Definition RREQ_DEST_ONLY : Z := Z.shiftl 1 4.
Definition RREQ_UNKNOWN_SEQNO : Z := Z.shiftl 1 3.
Definition RREP_REPAIR : Z := Z.shiftl 1 7.
Definition RREP_ACK : Z := Z.shiftl 1 6.
Definition RERR_NODELETE : Z := Z.shiftl 1 7.

(** Sizes of the C structs. *)
Definition RREQ_SIZE : Z := 24.
Definition RREP_SIZE : Z := 20.
Definition RERR_SIZE : Z := 12.
Definition RERR_UDEST_SIZE : Z := 8.

(** ** aodv_socket.h, aodv_hello.h *)

Definition RECE_BUF_SIZE : Z := 1024.
Definition SEND_BUF_SIZE : Z := RECE_BUF_SIZE.
Definition ROUTE_TIMEOUT_SLACK : Z := 100.
Definition HELLO_DELAY : Z := 50.

(** [MAXTTL] of <netinet/ip.h>. *)
Definition MAXTTL : Z := 255.

(** [exit(-1)]. *)
Definition exit_fail {A} : M A := raise (Exit (-1)).
