(* ===== verification/Logic.v ===== *)
(** * Reasoning about the monad: weakest preconditions and frames

    [wp E m Q w]: from [w] the statement [m] either ends in a state satisfying
    [Q], or stops with an error that [E] allows. [keeps f m]: every run of [m]
    that ends leaves [f] of the state unchanged. *)

From S2P Require Export Params.
From Stdlib Require Import Morphisms.

(** ** Weakest preconditions *)

Definition wp {A} (E : err → Prop) (m : M A) (Q : A → world → Prop) (w : world) : Prop :=
  match m w with
  | Ok a w' => Q a w'
  | Err e => E e
  end.

(** The stops that are not memory errors of the daemon: [exit], and the
    overflow of the send buffer by a RERR with too many destinations. *)
Definition benign (e : err) : Prop :=
  match e with
  | Exit _ | Fault SendBufOverflow => True
  | _ => False
  end.

Section wp.
Context {A : Type}.
Implicit Types (E : err → Prop) (m : M A) (Q : A → world → Prop) (w : world).

#[global] Instance wp_proper E m :
  Proper (pointwise_relation A (pointwise_relation world impl) ==> eq ==> impl) (wp E m).
Proof.
  intros Q1 Q2 HQ w w' <-. unfold wp, impl. destruct (m w); [apply HQ|done].
Qed.

Lemma wp_wand E m Q Q' w :
  wp E m Q w → (∀ a w', Q a w' → Q' a w') → wp E m Q' w.
Proof. unfold wp. destruct (m w); eauto. Qed.

Lemma wp_mono_err E E' m Q w : (∀ e, E e → E' e) → wp E m Q w → wp E' m Q w.
Proof. unfold wp. destruct (m w); eauto. Qed.

(** Statements with the same run. *)
Lemma wp_ext E m m' Q w : m w = m' w → wp E m' Q w → wp E m Q w.
Proof. unfold wp. by intros ->. Qed.

Lemma wp_ret E Q a w : Q a w → wp E (mret a) Q w.
Proof. done. Qed.

Lemma wp_bind {B} E (m : M B) (k : B → M A) Q w :
  wp E m (λ b w', wp E (k b) Q w') w → wp E (m ≫= k) Q w.
Proof. unfold wp, mbind, M_bind. by destruct (m w). Qed.

Lemma wp_raise E Q e w : E e → wp E (@raise A e) Q w.
Proof. done. Qed.

Lemma wp_gets E (f : world → A) Q w : Q (f w) w → wp E (gets f) Q w.
Proof. done. Qed.

Lemma wp_ok E m Q w a w' : m w = Ok a w' → wp E m Q w → Q a w'.
Proof. unfold wp. by intros ->. Qed.

Lemma wp_eq E m Q w a w' : m w = Ok a w' → Q a w' → wp E m Q w.
Proof. unfold wp. by intros ->. Qed.

Lemma wp_conj E m Q Q' w : wp E m Q w → wp E m Q' w → wp E m (λ a w', Q a w' ∧ Q' a w') w.
Proof. unfold wp. destruct (m w); eauto. Qed.

(** Facts about every run that ends may be added to a postcondition. *)
Lemma wp_strengthen E m Q (R : A → world → Prop) w :
  (∀ a w', m w = Ok a w' → R a w') →
  wp E m Q w → wp E m (λ a w', Q a w' ∧ R a w') w.
Proof. unfold wp. destruct (m w); eauto. Qed.
End wp.

Lemma wp_get E Q w : Q w w → wp E get Q w.
Proof. done. Qed.

Lemma wp_modify E f (Q : unit → world → Prop) w : Q tt (f w) → wp E (modify f) Q w.
Proof. done. Qed.

Lemma wp_when E b m (Q : unit → world → Prop) w :
  (b = true → wp E m Q w) → (b = false → Q tt w) → wp E (when b m) Q w.
Proof. intros H1 H2. destruct b; [by apply H1|by apply wp_ret, H2]. Qed.

(** Loops, with an invariant on the state (and on the local variables). *)
Lemma wp_for_each {A} E (l : list A) body (P : world → Prop) w :
  (∀ x w, x ∈ l → P w → wp E (body x) (λ _ : unit, P) w) →
  P w → wp E (for_each l body) (λ _ : unit, P) w.
Proof.
  revert w. induction l as [|x l IH]; intros w Hb HP; simpl; [done|].
  apply wp_bind. eapply wp_wand; [apply Hb; [left|done]|]. intros [] w' HP'.
  apply IH; [|done]. intros. apply Hb; [by right|done].
Qed.

Lemma wp_foldM {A S} E (l : list A) (body : S → A → M S) s (P : S → world → Prop) w :
  (∀ s x w, x ∈ l → P s w → wp E (body s x) P w) →
  P s w → wp E (foldM body s l) P w.
Proof.
  revert s w. induction l as [|x l IH]; intros s w Hb HP; simpl; [done|].
  apply wp_bind. eapply wp_wand; [apply Hb; [left|done]|]. intros s' w' HP'.
  apply IH; [|done]. intros. apply Hb; [by right|done].
Qed.

(** ** Equations of the monad *)

(** Associativity, up to the outcome at each state. *)
Lemma bind_assoc_run {A B C} (x : M A) (k : A → M B) (h : B → M C) w :
  ((x ≫= k) ≫= h) w = (x ≫= λ a, k a ≫= h) w.
Proof. unfold mbind, M_bind. by destruct (x w). Qed.

Lemma bind_Ok {A B} (m : M A) (k : A → M B) w b w'' :
  (m ≫= k) w = Ok b w'' → ∃ a w', m w = Ok a w' ∧ k a w' = Ok b w''.
Proof. unfold mbind, M_bind. destruct (m w) eqn:E; [eauto|done]. Qed.

Lemma bind_run {A B} (m : M A) (k : A → M B) w a w' :
  m w = Ok a w' → (m ≫= k) w = k a w'.
Proof. unfold mbind, M_bind. by intros ->. Qed.

(** ** Frames *)

Definition keeps {B A} (f : world → B) (m : M A) : Prop :=
  ∀ w a w', m w = Ok a w' → f w' = f w.

Section keeps.
Context {B : Type} (f : world → B).

Lemma keeps_ret {A} (a : A) : keeps f (mret a).
Proof. by intros w a' w' [= _ <-]. Qed.

Lemma keeps_bind {A C} (m : M A) (k : A → M C) :
  keeps f m → (∀ a, keeps f (k a)) → keeps f (m ≫= k).
Proof.
  intros Hm Hk w c w'' (a & w' & H1 & H2)%bind_Ok.
  rewrite (Hk _ _ _ _ H2). eauto.
Qed.

Lemma keeps_raise {A} e : keeps f (@raise A e).
Proof. by intros ???. Qed.

Lemma keeps_get : keeps f get.
Proof. by intros w ? w' [= _ <-]. Qed.

Lemma keeps_gets {A} (g : world → A) : keeps f (gets g).
Proof. by intros w ? w' [= _ <-]. Qed.

Lemma keeps_modify g : (∀ w, f (g w) = f w) → keeps f (modify g).
Proof. by intros H w ? w' [= _ <-]. Qed.

Lemma keeps_when b m : keeps f m → keeps f (when b m).
Proof. intros. by destruct b; [|apply keeps_ret]. Qed.

Lemma keeps_for_each {A} (l : list A) body :
  (∀ x, keeps f (body x)) → keeps f (for_each l body).
Proof.
  intros. induction l as [|x l IH]; simpl; [apply keeps_ret|].
  by apply keeps_bind.
Qed.

Lemma keeps_foldM {A S} (l : list A) (body : S → A → M S) s :
  (∀ s x, keeps f (body s x)) → keeps f (foldM body s l).
Proof.
  intros. revert s. induction l as [|x l IH]; intros s; simpl; [apply keeps_ret|].
  by apply keeps_bind.
Qed.

Lemma keeps_deref {A} (store : world → gmap nat A) p : keeps f (deref store p).
Proof. intros w a w'. unfold deref. cases; naive_solver. Qed.

Lemma keeps_get_timer t : keeps f (get_timer t).
Proof. intros w a w'. unfold get_timer. cases; naive_solver. Qed.

Lemma keeps_ld b off n : keeps f (ld b off n).
Proof. intros w a w'. unfold ld. cases; naive_solver. Qed.
End keeps.

(** Partial correctness: what holds of every run that ends. *)
Abbreviation wpo := (wp (λ _, True)).

Lemma wpo_Ok {A} (m : M A) (Q : A → world → Prop) w :
  (∀ a w', m w = Ok a w' → Q a w') → wpo m Q w.
Proof. unfold wp. destruct (m w); eauto. Qed.

Lemma wpo_keeps {A B} (f : world → B) (m : M A) (Q : A → world → Prop) w :
  keeps f m → (∀ a w', f w' = f w → Q a w') → wpo m Q w.
Proof. intros Hk HQ. apply wpo_Ok. intros a w' H. apply HQ. by eapply Hk. Qed.

Lemma wpo_keeps_bind {A B C} (f : world → B) (m : M A) (k : A → M C) Q w :
  keeps f m → (∀ a w', f w' = f w → wpo (k a) Q w') → wpo (m ≫= k) Q w.
Proof. intros Hk HQ. apply wp_bind. by eapply wpo_keeps. Qed.

(** A statement with a specification under errors [E], and a fact about all
    its runs. *)
Lemma wp_total {A} E (m : M A) (P Q : A → world → Prop) w :
  wp E m P w → wpo m Q w → wp E m (λ a w', P a w' ∧ Q a w') w.
Proof. unfold wp. destruct (m w); eauto. Qed.

(** ** Monotone statements

    [evolves R m]: every run of [m] that ends relates its first and last state
    by the preorder [R]. *)

Definition evolves (R : relation world) {A} (m : M A) : Prop :=
  ∀ w a w', m w = Ok a w' → R w w'.

Lemma evolves_keeps {A B} R (f : world → B) (m : M A) :
  keeps f m → (∀ w w', f w' = f w → R w w') → evolves R m.
Proof. intros Hk HR w a w' H. apply HR. by eapply Hk. Qed.

Lemma evolves_modify (R : relation world) g : (∀ w, R w (g w)) → evolves R (modify g).
Proof. by intros H w ? w' [= _ <-]. Qed.

Lemma wpo_evolves {A} R (m : M A) (Q : A → world → Prop) w :
  evolves R m → (∀ a w', R w w' → Q a w') → wpo m Q w.
Proof. intros Hm HQ. apply wpo_Ok. intros a w' H. apply HQ. by eapply Hm. Qed.

Section evolves.
Context (R : relation world) `{!PreOrder R}.

Lemma evolves_id {A} (m : M A) : (∀ w a w', m w = Ok a w' → w' = w) → evolves R m.
Proof. by intros H w a w' ->%H. Qed.

Lemma evolves_ret {A} (a : A) : evolves R (mret a).
Proof. by apply evolves_id; intros w a' w' [= _ <-]. Qed.

Lemma evolves_raise {A} e : evolves R (@raise A e).
Proof. by intros ???. Qed.

Lemma evolves_gets {A} (g : world → A) : evolves R (gets g).
Proof. by apply evolves_id; intros w ? w' [= _ <-]. Qed.

Lemma evolves_deref {A} (store : world → gmap nat A) p : evolves R (deref store p).
Proof. apply evolves_id. intros w a w'. unfold deref. cases; naive_solver. Qed.

Lemma evolves_get_timer t : evolves R (get_timer t).
Proof. apply evolves_id. intros w a w'. unfold get_timer. cases; naive_solver. Qed.

Lemma evolves_bind {A C} (m : M A) (k : A → M C) :
  evolves R m → (∀ a, evolves R (k a)) → evolves R (m ≫= k).
Proof.
  intros Hm Hk w c w'' (a & w' & H1 & H2)%bind_Ok.
  etrans; [by eapply Hm|by eapply Hk].
Qed.

Lemma evolves_when b m : evolves R m → evolves R (when b m).
Proof. intros. by destruct b; [|apply evolves_ret]. Qed.

Lemma evolves_for_each {A} (l : list A) body :
  (∀ x, evolves R (body x)) → evolves R (for_each l body).
Proof.
  intros. induction l as [|x l IH]; simpl; [apply evolves_ret|]. by apply evolves_bind.
Qed.

Lemma evolves_foldM {A S} (l : list A) (body : S → A → M S) s :
  (∀ s x, evolves R (body s x)) → evolves R (foldM body s l).
Proof.
  intros. revert s. induction l as [|x l IH]; intros s; simpl; [apply evolves_ret|].
  by apply evolves_bind.
Qed.

(** A loop whose body establishes [Q x], which no later step undoes. *)
Lemma wpo_foldM_each {A S} (Q : A → world → Prop) (l : list A) (body : S → A → M S) s w :
  (∀ s x, evolves R (body s x)) →
  (∀ x w w', R w w' → Q x w → Q x w') →
  (∀ s x w', x ∈ l → R w w' → wpo (body s x) (λ _, Q x) w') →
  wpo (foldM body s l) (λ _ w', R w w' ∧ ∀ x, x ∈ l → Q x w') w.
Proof.
  intros Hb HQ Hest. revert s w Hest. induction l as [|x l IH]; intros s w Hest; simpl.
  { split; [done|]. by intros ? ?%elem_of_nil. }
  apply wp_bind.
  eapply wp_wand; [apply wp_total;
    [apply (Hest s x w); [left|done]|eapply (wpo_evolves _ _ (λ _ w', R w w')); [apply Hb|done]]|].
  intros s' w' [HQx HR]. eapply wp_wand; [apply IH|].
  - intros s1 x1 w1 Hx1 HR1. apply Hest; [by right|by etrans].
  - intros s2 w2 [HR2 Hall]. split; [by etrans|].
    intros y [->|Hy]%elem_of_cons; [by eapply HQ|by apply Hall].
Qed.
End evolves.

(** Walk through a statement with the [evolves] rules; the calls that are left
    are those the caller knows about. *)
Ltac evolves_step :=
  lazymatch goal with
  | |- evolves _ (_ ≫= _) => apply (evolves_bind _); [|intros ?]
  | |- evolves _ (mret _) => apply (evolves_ret _)
  | |- evolves _ (raise _) => apply evolves_raise
  | |- evolves _ (gets _) => apply (evolves_gets _)
  | |- evolves _ (get_rt _) => apply (evolves_deref _)
  | |- evolves _ (get_seek _) => apply (evolves_deref _)
  | |- evolves _ (get_timer _) => apply (evolves_get_timer _)
  | |- evolves _ (when _ _) => apply (evolves_when _)
  | |- evolves _ (for_each _ _) => apply (evolves_for_each _); intros ?
  | |- evolves _ (foldM _ _ _) => apply (evolves_foldM _); intros ? ?
  | |- evolves _ (match ?x with _ => _ end) => destruct x
  | |- evolves _ (let _ := _ in _) => cbv zeta
  end.

Create HintDb keeps.
#[export] Hint Resolve keeps_ret keeps_raise keeps_get keeps_gets keeps_deref
  keeps_get_timer keeps_ld : keeps.

(** Walk through a statement, closing each step with the [keeps] lemmas. *)
Ltac keeps_step :=
  lazymatch goal with
  | |- keeps _ (_ ≫= _) => apply keeps_bind; [|intros ?]
  | |- keeps _ (mret _) => apply keeps_ret
  | |- keeps _ (when _ _) => apply keeps_when
  | |- keeps _ (for_each _ _) => apply keeps_for_each; intros ?
  | |- keeps _ (foldM _ _ _) => apply keeps_foldM; intros ? ?
  | |- keeps _ (modify _) => apply keeps_modify; intros ?; first [reflexivity | by destruct_or! | idtac]
  | |- keeps _ (match ?x with _ => _ end) => destruct x
  | |- keeps _ (let _ := _ in _) => cbv zeta
  end.
Ltac keeps_auto := repeat (first [solve [auto with keeps nocore] | keeps_step]).

Ltac keeps_unfold := unfold ld8, ld32, get_rt, get_seek, get_rec, get_bl in *.

Lemma keeps_tick {B} (f : world → B) :
  (∀ w, f (w <| w_tick ::= S |>) = f w) → keeps f tick.
Proof. by intros H w ? w' [= _ <-]. Qed.

Lemma keeps_gettimeofday {B} (f : world → B) :
  (∀ w, f (w <| w_tick ::= S |>) = f w) → keeps f gettimeofday.
Proof. intros. unfold gettimeofday. apply keeps_bind; [by apply keeps_tick|]. auto with keeps. Qed.

Lemma keeps_syscall {B} (f : world → B) :
  (∀ w, f (w <| w_tick ::= S |>) = f w) → keeps f syscall.
Proof. intros. unfold syscall. apply keeps_bind; [by apply keeps_tick|]. auto with keeps. Qed.

#[export] Hint Extern 1 (keeps _ gettimeofday) => apply keeps_gettimeofday; reflexivity : keeps.
#[export] Hint Extern 1 (keeps _ syscall) => apply keeps_syscall; reflexivity : keeps.
#[export] Hint Extern 1 (keeps _ tick) => apply keeps_tick; reflexivity : keeps.
#[export] Hint Extern 1 (keeps _ (emit _)) => apply keeps_modify; reflexivity : keeps.
#[export] Hint Extern 1 (keeps _ (get_rt _)) => apply keeps_deref : keeps.
#[export] Hint Extern 1 (keeps _ (get_seek _)) => apply keeps_deref : keeps.
#[export] Hint Extern 1 (keeps _ (get_rec _)) => apply keeps_deref : keeps.
#[export] Hint Extern 1 (keeps _ (get_bl _)) => apply keeps_deref : keeps.
#[export] Hint Extern 1 (keeps _ (ld8 _ _)) => apply keeps_ld : keeps.
#[export] Hint Extern 1 (keeps _ (ld32 _ _)) => apply keeps_ld : keeps.
