(* ===== verification/Invariant.v ===== *)
(** * The global invariant of the daemon and its proof rules

    [Inv lim w] is the well-formedness of the whole state: every intrusive
    list links exactly the live objects it should, every queued timer belongs
    to a live object and has the right handler, the routing table is a hash
    table with one entry per destination, the buffers have their sizes, and
    no RREP has left the process. [lim] is an entry that [rt_table_delete]
    has unlinked but not freed yet.

    [safe lim m post w]: from [w] the statement [m] has no memory error, ends
    in a state satisfying the invariant, keeps the routing entries alive, and
    establishes [post]. *)

From S2P Require Export Logic.

(** ** The invariant *)

Definition bucket_of (e : rt_table_t) : nat :=
  Z.to_nat (Z.land (rt_dest_addr e) RT_TABLEMASK).

Definition entry_ok (e : rt_table_t) : Prop :=
  rt_hash e = rt_dest_addr e ∧ rt_nprecursor e = u32 (Z.of_nat (length (rt_precursors e))).

(** One entry per destination. *)
Record rts_ok (m : gmap nat rt_table_t) : Prop := {
  rts_entry r e : m !! r = Some e → entry_ok e;
  rts_unique r r' e e' :
    m !! r = Some e → m !! r' = Some e' → rt_dest_addr e = rt_dest_addr e' → r = r'
}.

(** The buckets link the live entries, each in the bucket of its hash. *)
Record table_ok (lim : ptr) (m : gmap nat rt_table_t) (t : routing_table) : Prop := {
  tbl_length : length (rt_buckets t) = 64%nat;
  tbl_nodup i l : rt_buckets t !! i = Some l → NoDup l;
  tbl_live i l r : rt_buckets t !! i = Some l → r ∈ l →
    lim ≠ Some r ∧ ∃ e, m !! r = Some e ∧ bucket_of e = i;
  tbl_linked r e : m !! r = Some e → lim ≠ Some r →
    ∃ l, rt_buckets t !! bucket_of e = Some l ∧ r ∈ l;
  tbl_entries : rt_num_entries t = Z.of_nat (size m);
  tbl_size : Z.of_nat (size m) < 2 ^ 32
}.

(** What each timer may be programmed to do. *)
Definition timer_ok (t : timer_id) (x : timer) : Prop :=
  match t with
  | T_rt r => t_data x = Some r ∧
      (t_handler x = Some route_expire_timeout_h ∨ t_handler x = Some route_delete_timeout_h
       ∨ t_handler x = Some local_repair_timeout_h)
  | T_ack r => t_data x = Some r ∧ t_handler x = Some rrep_ack_timeout_h
  | T_hello r => t_data x = Some r ∧ t_handler x = Some hello_timeout_h
  | T_seek s => t_data x = Some s ∧ t_handler x = Some route_discovery_timeout_h
  | T_rec r => t_data x = Some r ∧ t_handler x = Some rreq_record_timeout_h
  | T_bl b => t_data x = Some b ∧ t_handler x = Some rreq_blacklist_timeout_h
  | T_worb => t_handler x = None
  | T_hello_send => t_handler x = None ∨ t_handler x = Some hello_send_h
  | T_rt_log => t_handler x = None ∨ t_handler x = Some print_rt_table_h
  end.

(** [q] is all queued timers: those in [tq] and the expired ones. *)
Record queue_ok (m : gmap timer_id timer) (q : list timer_id) : Prop := {
  q_nodup : NoDup q;
  q_used t x : m !! t = Some x → t_used x = bool_decide (t ∈ q);
  q_armed t : t ∈ q → ∃ x, m !! t = Some x ∧ t_handler x ≠ None;
  q_timer t x : m !! t = Some x → timer_ok t x
}.

(** The object a timer is embedded in is live. *)
Definition owner_live (w : world) (t : timer_id) : Prop :=
  match t with
  | T_rt r | T_ack r | T_hello r => is_Some (rts w !! r)
  | T_seek s => is_Some (seeks w !! s)
  | T_rec r => is_Some (recs w !! r)
  | T_bl b => is_Some (bls w !! b)
  | T_worb | T_hello_send | T_rt_log => True
  end.

(** A list of all the objects of a store, each once. *)
Definition list_ok {A} (m : gmap nat A) (l : list nat) : Prop :=
  NoDup l ∧ ∀ i, i ∈ l ↔ is_Some (m !! i).

Definition is_byte (b : Z) : Prop := 0 ≤ b < 256.

Record sock_ok (s : sock_state) : Prop := {
  sock_recv : length (recv_bytes s) = 1024%nat;
  sock_send : length (send_bytes s) = 1024%nat;
  sock_recv_bytes : Forall is_byte (recv_bytes s);
  sock_send_bytes : Forall is_byte (send_bytes s);
  sock_num_rreq : 0 ≤ num_rreq s ≤ 10;
  sock_num_rerr : 0 ≤ num_rerr s ≤ 10;
  sock_rreq_rl : length (rreq_rl s) = 10%nat;
  sock_rerr_rl : length (rerr_rl s) = 10%nat
}.

(** Objects at addresses not handed out yet do not exist. *)
Record fresh_ok (w : world) : Prop := {
  fresh_rts r : is_Some (rts w !! r) → (r < w_next w)%nat;
  fresh_seeks r : is_Some (seeks w !! r) → (r < w_next w)%nat;
  fresh_recs r : is_Some (recs w !! r) → (r < w_next w)%nat;
  fresh_bls r : is_Some (bls w !! r) → (r < w_next w)%nat
}.

(** An effect other than sending a RREP. *)
Definition not_rrep (e : event) : Prop :=
  match e with EvSend _ _ p => head p ≠ Some AODV_RREP | _ => True end.

Record Inv (lim : ptr) (w : world) : Prop := {
  I_rts : rts_ok (rts w);
  I_table : table_ok lim (rts w) (rt_tbl w);
  I_queue : queue_ok (timers w) (tq w ++ exptq w);
  I_owner t : is_Some (timers w !! t) ↔ owner_live w t;
  I_sl : list_ok (seeks w) (sl w);
  I_recs : list_ok (recs w) (rreq_records w);
  I_bls : list_ok (bls w) (rreq_blacklists w);
  I_fresh : fresh_ok w;
  I_sock : sock_ok (sock w);
  I_wait : wait_on_reboot (cfg w) ≠ 0;
  I_out : Forall not_rrep (out w)
}.

(** Entries stay alive, for the same destination, and no timer expires. *)
Record ext (w w' : world) : Prop := {
  ext_rts r e : rts w !! r = Some e →
    ∃ e', rts w' !! r = Some e' ∧ rt_dest_addr e' = rt_dest_addr e;
  ext_exptq : (length (exptq w') <= length (exptq w))%nat
}.

#[export] Instance ext_preorder : PreOrder ext.
Proof.
  split.
  - intros w. split; [eauto|lia].
  - intros w1 w2 w3 H12 H23. split.
    + intros r e (e2 & H2 & E2)%(ext_rts _ _ H12).
      destruct (ext_rts _ _ H23 r e2 H2) as (e3 & H3 & E3).
      exists e3. split; [done|congruence].
    + etrans; [apply (ext_exptq _ _ H23)|apply (ext_exptq _ _ H12)].
Qed.

Definition live (w : world) (r : nat) : Prop := is_Some (rts w !! r).
Definition valid (w : world) (p : ptr) : Prop :=
  match p with Some r => live w r | None => True end.

Lemma live_ext w w' r : ext w w' → live w r → live w' r.
Proof. intros H [e He]. destruct (ext_rts _ _ H r e He) as (e' & ? & _). by exists e'. Qed.

Lemma valid_ext w w' p : ext w w' → valid w p → valid w' p.
Proof. destruct p; simpl; [apply live_ext|done]. Qed.

Lemma valid_Some w r : live w r → valid w (Some r).
Proof. done. Qed.

Lemma valid_None w : valid w None.
Proof. done. Qed.

(** ** Safety of statements *)

Definition safe {A} (lim : ptr) (m : M A) (post : A → world → Prop) (w : world) : Prop :=
  wp benign m (λ a w', Inv lim w' ∧ ext w w' ∧ post a w') w.

Section safe.
Context {A : Type} (lim : ptr).
Implicit Types (m : M A) (post : A → world → Prop) (w : world).

Lemma safe_ret post a w : Inv lim w → post a w → safe lim (mret a) post w.
Proof. intros. by apply wp_ret. Qed.

Lemma safe_bind {B} (m : M B) (k : B → M A) mid post w :
  safe lim m mid w →
  (∀ b w', Inv lim w' → ext w w' → mid b w' → safe lim (k b) post w') →
  safe lim (m ≫= k) post w.
Proof.
  intros Hm Hk. apply wp_bind. eapply wp_wand; [exact Hm|].
  intros b w' (HI & HE & Hmid). eapply wp_wand; [by apply Hk|].
  intros a w'' (? & ? & ?). split_and!; [done| |done]. by etrans.
Qed.

Lemma safe_wand post post' m w :
  safe lim m post w → (∀ a w', Inv lim w' → ext w w' → post a w' → post' a w') →
  safe lim m post' w.
Proof. intros H Hp. eapply wp_wand; [exact H|].
  intros a w' (? & ? & ?). eauto.
Qed.

Lemma safe_raise post e w : benign e → safe lim (@raise A e) post w.
Proof. intros. by apply wp_raise. Qed.

Lemma safe_gets_last (f : world → A) post w :
  Inv lim w → post (f w) w → safe lim (gets f) post w.
Proof. intros. by apply wp_gets. Qed.

(** Reads leave the state alone. *)
Lemma safe_gets {B} (f : world → B) (k : B → M A) post w :
  safe lim (k (f w)) post w → safe lim (gets f ≫= k) post w.
Proof. done. Qed.

Lemma safe_get (k : world → M A) post w :
  safe lim (k w) post w → safe lim (get ≫= k) post w.
Proof. done. Qed.

Lemma safe_read {B} (m : M B) (k : B → M A) post b w :
  m w = Ok b w → safe lim (k b) post w → safe lim (m ≫= k) post w.
Proof. intros H Hk. unfold safe, wp, mbind, M_bind. by rewrite H. Qed.

Lemma safe_get_rt r (k : rt_table_t → M A) post w :
  Inv lim w → live w r →
  (∀ e, rts w !! r = Some e → entry_ok e → safe lim (k e) post w) →
  safe lim (get_rt (Some r) ≫= k) post w.
Proof.
  intros HI [e He] Hk. apply safe_read with e.
  { unfold get_rt, deref. by rewrite He. }
  apply Hk; [done|]. by eapply rts_entry; [apply I_rts in HI|].
Qed.

Lemma safe_get_timer t (k : timer → M A) post w :
  Inv lim w → owner_live w t →
  (∀ x, timers w !! t = Some x → timer_ok t x → safe lim (k x) post w) →
  safe lim (get_timer t ≫= k) post w.
Proof.
  intros HI [x Hx]%(I_owner _ _ HI) Hk. apply safe_read with x.
  { unfold get_timer. by rewrite Hx. }
  apply Hk; [done|]. by eapply q_timer; [apply I_queue in HI|].
Qed.

(** A loop whose body keeps the invariant. *)
Lemma safe_for_each {B} (l : list B) body (P : world → Prop) w :
  (∀ w w', ext w w' → P w → P w') →
  (∀ x w, x ∈ l → Inv lim w → P w → safe lim (body x) (λ _, P) w) →
  Inv lim w → P w → safe lim (for_each l body) (λ _, P) w.
Proof.
  intros HP Hb HI HPw.
  eapply wp_wand; [apply (wp_for_each _ _ _ (λ w', Inv lim w' ∧ ext w w' ∧ P w'))|done].
  - intros x w' Hx (HI' & HE & HP'). eapply wp_wand; [by apply Hb|].
    intros _ w'' (? & ? & ?). split_and!; [done| |done]. by etrans.
  - by split_and!.
Qed.
End safe.

Lemma safe_when lim b m (post : unit → world → Prop) w :
  Inv lim w → (b = true → safe lim m post w) → (b = false → post tt w) →
  safe lim (when b m) post w.
Proof. intros ? H1 H2. destruct b; [by apply H1|]. by apply safe_ret, H2. Qed.

Lemma safe_modify lim f (post : unit → world → Prop) w :
  Inv lim (f w) → ext w (f w) → post tt (f w) → safe lim (modify f) post w.
Proof. intros. by apply wp_modify. Qed.

(** A loop with local variables. *)
Lemma safe_foldM {A S} lim (l : list A) (body : S → A → M S) (P : S → world → Prop) s w :
  (∀ s x w, x ∈ l → Inv lim w → P s w → safe lim (body s x) P w) →
  Inv lim w → P s w → safe lim (foldM body s l) P w.
Proof.
  intros Hb HI HPw.
  eapply wp_wand; [apply (wp_foldM _ _ _ _ (λ s w', Inv lim w' ∧ ext w w' ∧ P s w'))|done].
  - intros s' x w' Hx (HI' & HE & HP'). eapply wp_wand; [by apply Hb|].
    intros s'' w'' (? & ? & ?). split_and!; [done| |done]. by etrans.
  - by split_and!.
Qed.

(** States are equal when their fields are. *)
Lemma world_eq w1 w2 :
  w_env w1 = w_env w2 →
  w_tick w1 = w_tick w2 →
  w_next w1 = w_next w2 →
  this_host w1 = this_host w2 →
  cfg w1 = cfg w2 →
  rt_tbl w1 = rt_tbl w2 →
  rts w1 = rts w2 →
  seeks w1 = seeks w2 →
  recs w1 = recs w2 →
  bls w1 = bls w2 →
  sl w1 = sl w2 →
  rreq_records w1 = rreq_records w2 →
  rreq_blacklists w1 = rreq_blacklists w2 →
  timers w1 = timers w2 →
  tq w1 = tq w2 →
  exptq w1 = exptq w2 →
  sock w1 = sock w2 →
  aodvnl_seqno w1 = aodvnl_seqno w2 →
  rtnl_seqno w1 = rtnl_seqno w2 →
  out w1 = out w2 →
  w1 = w2.
Proof. destruct w1, w2. simpl. intros. by subst. Qed.

Ltac world_simpl := apply world_eq; simpl; try reflexivity.

(** ** Frame rules for single updates *)

Section updates.
Context {lim : ptr}.

Lemma safe_modify_bind {A} f (k : unit → M A) post w :
  safe lim (k tt) post (f w) → ext w (f w) → safe lim (modify f ≫= k) post w.
Proof.
  intros H HE. eapply wp_wand; [exact H|]. intros a w' (? & ? & ?).
  split_and!; [done| |done]. by etrans.
Qed.

Lemma safe_mret_bind {A B} (a : B) (k : B → M A) post w :
  safe lim (k a) post w → safe lim (mret a ≫= k) post w.
Proof. intros H. exact H. Qed.

Lemma safe_assoc {A B C} (m : M A) (k : A → M B) (h : B → M C) post w :
  safe lim (m ≫= λ a, k a ≫= h) post w → safe lim ((m ≫= k) ≫= h) post w.
Proof. unfold safe, wp. by rewrite bind_assoc_run. Qed.

(** A statement whose run is known. *)
Lemma safe_run {A} (m : M A) post w a w' :
  m w = Ok a w' → Inv lim w' → ext w w' → post a w' → safe lim m post w.
Proof. intros H ???. unfold safe, wp. by rewrite H. Qed.

(** Facts about every run that ends may be added to a postcondition. *)
Lemma safe_strengthen {A} (m : M A) post (R : A → world → Prop) w :
  (∀ a w', m w = Ok a w' → R a w') → safe lim m post w →
  safe lim m (λ a w', post a w' ∧ R a w') w.
Proof.
  intros HR H. unfold safe, wp in *. destruct (m w) as [a w'|e]; [|done].
  destruct H as (? & ? & ?). eauto 10.
Qed.

Lemma safe_conseq {A} (m : M A) (post post' : A → world → Prop) w :
  safe lim m post w → (∀ a w', post a w' → post' a w') → safe lim m post' w.
Proof. intros H Hp. eapply safe_wand; [exact H|]. eauto. Qed.
End updates.

(** Split the invariant of an updated state, closing what did not change. *)
Ltac inv_split HI :=
  let H := fresh in pose proof HI as H;
  destruct H as [I_rts0 I_table0 I_queue0 I_owner0 I_sl0 I_recs0 I_bls0 I_fresh0 I_sock0
                 I_wait0 I_out0];
  constructor; simpl; try assumption;
  lazymatch goal with
  | |- fresh_ok _ =>
      let F1 := fresh in let F2 := fresh in let F3 := fresh in let F4 := fresh in
      destruct I_fresh0 as [F1 F2 F3 F4]; constructor; simpl; try assumption
  | _ => idtac
  end.

Lemma ext_rts_eq w w' :
  rts w' = rts w → (length (exptq w') <= length (exptq w))%nat → ext w w'.
Proof. intros H ?. split; [|done]. rewrite H. eauto. Qed.

#[export] Hint Extern 2 (ext _ _) => apply ext_rts_eq; [reflexivity|simpl; lia] : core.

Lemma is_Some_insert_old `{Countable B} {A} (m : gmap B A) i j x y :
  m !! i = Some x → is_Some (<[i := y]> m !! j) ↔ is_Some (m !! j).
Proof.
  intros Hx. rewrite lookup_insert_is_Some'. split; [|by right].
  intros [->|]; [by rewrite Hx|done].
Qed.

(** Replacing one timer structure. *)
Lemma queue_ok_update m q q' t x y :
  queue_ok m q → m !! t = Some x → NoDup q' →
  (∀ t', t' ≠ t → t' ∈ q' ↔ t' ∈ q) →
  t_used y = bool_decide (t ∈ q') → (t ∈ q' → t_handler y ≠ None) → timer_ok t y →
  queue_ok (<[t := y]> m) q'.
Proof.
  intros [Hnd Hu Ha Ht] Hx Hnd' Hq Hy Harm Hok. split; [done|..].
  - intros t' z [[<- <-]|[Hne Hz]]%lookup_insert_Some; [done|].
    rewrite (Hu _ _ Hz). apply bool_decide_ext. by rewrite Hq.
  - intros t' Hin. destruct (decide (t' = t)) as [->|Hne].
    + exists y. rewrite lookup_insert_eq. eauto.
    + rewrite lookup_insert_ne by done. apply Ha. by apply Hq.
  - intros t' z [[<- <-]|[Hne Hz]]%lookup_insert_Some; [done|]. by apply Ht.
Qed.

Lemma Inv_timer lim w t x y q1 q2 :
  Inv lim w → timers w !! t = Some x → NoDup (q1 ++ q2) →
  (∀ t', t' ≠ t → t' ∈ q1 ++ q2 ↔ t' ∈ tq w ++ exptq w) →
  t_used y = bool_decide (t ∈ q1 ++ q2) → (t ∈ q1 ++ q2 → t_handler y ≠ None) →
  timer_ok t y →
  Inv lim (w <| tq := q1 |> <| exptq := q2 |> <| timers ::= <[t := y]> |>).
Proof.
  intros HI Hx ?????. inv_split HI.
  - eapply queue_ok_update; eauto.
  - intros t'. rewrite (is_Some_insert_old _ _ _ x) by done. apply (I_owner _ _ HI).
Qed.

(** Replacing one routing entry. *)
Lemma rts_ok_update m r e e' :
  rts_ok m → m !! r = Some e → entry_ok e' → rt_dest_addr e' = rt_dest_addr e →
  rts_ok (<[r := e']> m).
Proof.
  intros [He Hu] Hr Hok Hd. split.
  - intros r' x [[<- <-]|[? ?]]%lookup_insert_Some; eauto.
  - intros r1 r2 e1 e2 H1 H2 Heq.
    apply lookup_insert_Some in H1 as [[<- <-]|[? ?]];
      apply lookup_insert_Some in H2 as [[<- <-]|[? ?]]; eauto.
    + eapply (Hu r r2); [done..|congruence].
    + eapply (Hu r1 r); [done..|congruence].
Qed.

Lemma table_ok_update lim m t r e e' :
  table_ok lim m t → m !! r = Some e → rt_dest_addr e' = rt_dest_addr e →
  table_ok lim (<[r := e']> m) t.
Proof.
  intros [Hl Hnd Hlive Hlink Hn Hsz] Hr Hd.
  assert (bucket_of e' = bucket_of e) as Hb by (unfold bucket_of; by rewrite Hd).
  assert (size (<[r:=e']> m) = size m) as Hs by (by apply map_size_insert_Some; exists e).
  split; [done|done|..].
  - intros i l r' Hi Hin. destruct (Hlive i l r' Hi Hin) as (? & x & Hx & ?).
    split; [done|]. destruct (decide (r' = r)) as [->|].
    + exists e'. rewrite lookup_insert_eq. split; [done|congruence].
    + exists x. by rewrite lookup_insert_ne.
  - intros r' x [[<- <-]|[? ?]]%lookup_insert_Some Hlim; [|eauto].
    rewrite Hb. eauto.
  - by rewrite Hs.
  - by rewrite Hs.
Qed.

Lemma Inv_upd_rt lim w r e e' :
  Inv lim w → rts w !! r = Some e → entry_ok e' → rt_dest_addr e' = rt_dest_addr e →
  Inv lim (w <| rts ::= <[r := e']> |>) ∧ ext w (w <| rts ::= <[r := e']> |>).
Proof.
  intros HI Hr Hok Hd. split.
  - inv_split HI.
    + by eapply rts_ok_update.
    + by eapply table_ok_update.
    + intros t. rewrite (I_owner _ _ HI t).
      destruct t; simpl; rewrite ?(is_Some_insert_old _ _ _ e) by done; done.
    + intros r'. rewrite (is_Some_insert_old _ _ _ e) by done. auto.
  - split; simpl; [|lia]. intros r' x Hx. destruct (decide (r' = r)) as [->|].
    + rewrite lookup_insert_eq. exists e'. split; [done|congruence].
    + rewrite lookup_insert_ne by done. eauto.
Qed.

Lemma upd_rt_run w r e f :
  rts w !! r = Some e → upd_rt (Some r) f w = Ok tt (w <| rts ::= <[r := f e]> |>).
Proof.
  intros H. unfold upd_rt, get_rt, deref, mbind, M_bind. simpl. by rewrite H.
Qed.

Lemma upd_timer_run w t x f :
  timers w !! t = Some x → upd_timer t f w = Ok tt (w <| timers ::= <[t := f x]> |>).
Proof.
  intros H. unfold upd_timer, get_timer, mbind, M_bind. simpl. by rewrite H.
Qed.

(** [upd_rt] of a field that is neither the destination nor the precursors. *)
Lemma safe_upd_rt lim r f w :
  Inv lim w → live w r →
  (∀ e, entry_ok e → entry_ok (f e) ∧ rt_dest_addr (f e) = rt_dest_addr e) →
  safe lim (upd_rt (Some r) f) (λ _ _, True) w.
Proof.
  intros HI [e He] Hf.
  destruct (Hf e) as [Hok Hd]; [by eapply rts_entry; [apply I_rts in HI|]|].
  destruct (Inv_upd_rt lim w r e (f e)) as [? ?]; [done..|].
  eapply safe_run; [by apply upd_rt_run|done..].
Qed.

Create HintDb safe.

(** Passing through states where the invariant does not hold: run single
    updates under [wp], then resume at a state where it does. *)
Lemma wp_modify_bind {A} E f (k : unit → M A) Q w :
  wp E (k tt) Q (f w) → wp E (modify f ≫= k) Q w.
Proof. intros H. exact H. Qed.

Lemma wp_get_rt {A} E r e (k : rt_table_t → M A) Q w :
  rts w !! r = Some e → wp E (k e) Q w → wp E (get_rt (Some r) ≫= k) Q w.
Proof. intros He H. unfold wp, mbind, M_bind, get_rt, deref. by rewrite He. Qed.

Lemma wp_safe_bind {A B} lim (m : M B) (k : B → M A) mid Q w :
  safe lim m mid w →
  (∀ b w', Inv lim w' → ext w w' → mid b w' → wp benign (k b) Q w') →
  wp benign (m ≫= k) Q w.
Proof.
  intros Hm Hk. apply wp_bind. eapply wp_wand; [exact Hm|].
  intros b w' (? & ? & ?). eauto.
Qed.

Lemma safe_resume {A} lim (m : M A) post w w' :
  ext w w' → safe lim m post w' →
  wp benign m (λ a w'', Inv lim w'' ∧ ext w w'' ∧ post a w'') w'.
Proof.
  intros HE H. eapply wp_wand; [exact H|]. intros a w'' (? & ? & ?).
  split_and!; [done| |done]. by etrans.
Qed.

(** ** Environment calls *)

Section calls.
Context (lim : ptr).
Implicit Types (w : world).

Lemma Inv_tick w : Inv lim w → Inv lim (w <| w_tick ::= S |>).
Proof. intros HI. inv_split HI. Qed.

Lemma safe_gettimeofday w : Inv lim w → safe lim gettimeofday (λ _ _, True) w.
Proof. intros HI. eapply safe_run; [reflexivity|by apply Inv_tick|auto|done]. Qed.

Lemma safe_syscall w : Inv lim w → safe lim syscall (λ _ _, True) w.
Proof. intros HI. eapply safe_run; [reflexivity|by apply Inv_tick|auto|done]. Qed.

Lemma safe_emit e w : Inv lim w → not_rrep e → safe lim (emit e) (λ _ _, True) w.
Proof.
  intros HI He. apply safe_modify; [|auto|done].
  inv_split HI. by constructor.
Qed.

(** An allocation: refused, or a fresh address with room for one more. *)
Lemma malloc_cases n w :
  malloc n w = Ok None (w <| w_tick ::= S |>) ∨
  malloc n w = Ok (Some (w_next w)) (w <| w_tick ::= S |> <| w_next ::= S |>) ∧
    Z.of_nat n < 2 ^ 32 - 1.
Proof.
  unfold malloc, mbind, M_bind, tick, get, modify, mret, M_ret. simpl.
  case_match eqn:E; [right|by left]. bool_prop. split; [done|lia].
Qed.

Lemma safe_malloc {A} n (k : ptr → M A) post w :
  Inv lim w →
  (∀ w', Inv lim w' → ext w w' → safe lim (k None) post w') →
  (∀ w' r, Inv lim w' → w' = w <| w_tick ::= S |> <| w_next ::= S |> → r = w_next w →
     Z.of_nat n < 2 ^ 32 - 1 → (r < w_next w')%nat → safe lim (k (Some r)) post w') →
  safe lim (malloc n ≫= k) post w.
Proof.
  intros HI HN HS.
  destruct (malloc_cases n w) as [E|[E Hn]];
    eapply safe_bind with (mid := λ p w', malloc n w = Ok p w');
    try (intros p w' HI' HE [= <- <-]%(eq_trans (eq_sym E))).
  - eapply safe_run; [done|by apply Inv_tick|auto|done].
  - by apply HN.
  - eapply safe_run; [done| |auto|done].
    inv_split HI; intros r Hr; apply Nat.lt_lt_succ_r; eauto.
  - apply HS; simpl; done || lia.
Qed.
End calls.

Lemma safe_when_any lim b m w :
  Inv lim w → safe lim m (λ _ _, True) w → safe lim (when b m) (λ _ _, True) w.
Proof. intros. by apply safe_when. Qed.

Lemma safe_ignore {A B} lim (m : M A) (b : B) post w :
  safe lim m post w → safe lim (m ≫= λ _, mret b) (λ _ _, True) w.
Proof. intros H. eapply safe_bind; [exact H|]. intros. by apply safe_ret. Qed.

#[export] Hint Resolve valid_Some valid_None Inv_tick safe_when_any safe_ignore : safe.
#[export] Hint Resolve safe_gettimeofday safe_syscall : safe.

(** ** Stepping through a statement

    [sstep] treats the head of the statement: reads of the state are
    evaluated, calls use the specification found in the [safe] database, and
    what is known of live entries is carried over to the new state. *)

Ltac lift_ext HE :=
  lazymatch type of HE with
  | ext ?w ?w' =>
      repeat match goal with
      | H : live w _ |- _ => apply (live_ext _ _ _ HE) in H
      | H : valid w _ |- _ => apply (valid_ext _ _ _ HE) in H
      end
  end.

Lemma live_of_lookup w r e : rts w !! r = Some e → live w r.
Proof. intros H. by exists e. Qed.

Ltac side := solve [eassumption | simpl; eassumption | simpl; done | eauto 4 with safe nocore].

(** After a call: the new state, its invariant, and the postcondition. *)
Ltac call_post :=
  let b := fresh "b" in let w' := fresh "w" in let HI := fresh "HI" in
  let HE := fresh "HE" in let Hp := fresh "Hp" in
  intros b w' HI HE Hp; lift_ext HE; simpl in Hp;
  try match type of Hp with True => clear Hp end.

Ltac sstep :=
  cbv beta;
  lazymatch goal with
  | |- safe _ (mret _) _ _ => apply safe_ret; [side|try done]
  | |- safe _ (mret _ ≫= _) _ _ => apply safe_mret_bind
  | |- safe _ ((_ ≫= _) ≫= _) _ _ => apply safe_assoc
  | |- safe _ (gets _ ≫= _) _ _ => apply safe_gets
  | |- safe _ (gets _) _ _ => apply safe_gets_last; [side|try done]
  | |- safe _ (get ≫= _) _ _ => apply safe_get
  | |- safe _ (raise _) _ _ => apply safe_raise; done
  | |- safe _ (exit_fail ≫= _) _ _ => done
  | |- safe _ exit_fail _ _ => done
  | |- safe _ (get_rt (Some _) ≫= _) _ _ =>
      let e := fresh "e" in let He := fresh "He" in let Hok := fresh "Hok" in
      eapply safe_get_rt; [side|side|intros e He Hok]
  | |- safe _ (get_timer _ ≫= _) _ _ =>
      let x := fresh "x" in let Hx := fresh "Hx" in let Hok := fresh "Hok" in
      eapply safe_get_timer; [side|side|intros x Hx Hok]
  | |- safe _ (when _ _) _ _ =>
      let Hb := fresh "Hb" in
      apply safe_when; [side|intros Hb|intros Hb; try done]
  | |- safe _ (match ?x with _ => _ end) _ _ =>
      let Hx := fresh "Hx" in destruct x eqn:Hx; simplify_eq; cbv beta iota
  | |- safe _ (let _ := _ in _) _ _ => cbv zeta
  | |- safe _ (?m ≫= _) _ _ =>
      first
        [ eapply safe_bind; [solve [eauto 6 with safe nocore]|call_post]
        | lazymatch type of m with M bufid => idtac end;
          eapply (safe_bind _ _ _ (λ b _, b = send_buf)); [|call_post]
        | lazymatch type of m with
          | M ptr => fail
          | M unit => idtac
          | _ => lazymatch m with match _ with _ => _ end => idtac end
          end;
          eapply (safe_bind _ _ _ (λ _ _, True)); [|call_post] ]
  | |- safe _ _ _ _ => eapply safe_conseq; [solve [eauto 6 with safe nocore]|try done]
  end.

(** A branch whose result is not used. *)
Ltac sbranch :=
  eapply (safe_bind _ _ _ (λ _ _, True)); [|call_post].

(** ** Creation and destruction of objects *)

Lemma queue_ok_new m q t y :
  queue_ok m q → m !! t = None → t_used y = false → timer_ok t y →
  queue_ok (<[t := y]> m) q.
Proof.
  intros [Hnd Hu Ha Ht] Hn Hy Hok.
  assert (t ∉ q) as Hnin by (intros (x & ? & _)%Ha; congruence).
  split; [done|..].
  - intros t' z [[<- <-]|[? ?]]%lookup_insert_Some; [|eauto].
    rewrite Hy. symmetry. by apply bool_decide_eq_false.
  - intros t' Hin. rewrite lookup_insert_ne by (by intros ->). eauto.
  - intros t' z [[<- <-]|[? ?]]%lookup_insert_Some; eauto.
Qed.

Lemma queue_ok_delete m q t : queue_ok m q → t ∉ q → queue_ok (delete t m) q.
Proof.
  intros [Hnd Hu Ha Ht] Hnin. split; [done|..].
  - intros t' z [? ?]%lookup_delete_Some. eauto.
  - intros t' Hin. rewrite lookup_delete_ne by (by intros ->). eauto.
  - intros t' z [? ?]%lookup_delete_Some. eauto.
Qed.

Lemma list_ok_insert {A} (m : gmap nat A) l i x :
  list_ok m l → m !! i = None → list_ok (<[i := x]> m) (i :: l).
Proof.
  intros [Hnd Hl] Hi. split.
  - constructor; [|done]. rewrite Hl. by intros [? ?]; simplify_eq.
  - intros j. rewrite elem_of_cons, lookup_insert_is_Some', Hl. naive_solver.
Qed.

Lemma list_ok_delete {A} (m : gmap nat A) l i :
  list_ok m l → list_ok (delete i m) (del i l).
Proof.
  intros [Hnd Hl]. split; [by apply NoDup_del|].
  intros j. rewrite elem_of_del, lookup_delete_is_Some, Hl. naive_solver.
Qed.

(** The timer of a live object that is not queued. *)
Lemma unused_not_queued lim w t x :
  Inv lim w → timers w !! t = Some x → t_used x = false → t ∉ tq w ++ exptq w.
Proof.
  intros HI Hx Hu. rewrite (q_used _ _ (I_queue _ _ HI) t x Hx) in Hu.
  by apply bool_decide_eq_false in Hu.
Qed.

Lemma dead_timer lim w t : Inv lim w → ¬ owner_live w t → timers w !! t = None.
Proof. intros HI Hn. apply eq_None_not_Some. by rewrite (I_owner _ _ HI). Qed.

Section objects.
Context (lim : ptr) (w : world).
Hypothesis HI : Inv lim w.

Ltac owner :=
  intros t; rewrite ?lookup_insert_is_Some', ?lookup_delete_is_Some, (I_owner _ _ HI);
  destruct t; simpl; rewrite ?lookup_insert_is_Some', ?lookup_delete_is_Some; naive_solver.

Lemma Inv_new_seek e s y :
  seeks w !! e = None → (e < w_next w)%nat → timer_ok (T_seek e) y → t_used y = false →
  Inv lim (w <| seeks ::= <[e := s]> |> <| timers ::= <[T_seek e := y]> |>
             <| sl ::= cons e |>).
Proof.
  intros He Hlt Hy Hu. inv_split HI.
  - apply queue_ok_new; [done| |done..]. eapply dead_timer; [done|]. simpl.
    rewrite He. by intros [? ?].
  - owner.
  - by apply list_ok_insert.
  - intros r [<-|?]%lookup_insert_is_Some'; eauto.
Qed.

Lemma Inv_new_rec r rec y :
  recs w !! r = None → (r < w_next w)%nat → timer_ok (T_rec r) y → t_used y = false →
  Inv lim (w <| recs ::= <[r := rec]> |> <| timers ::= <[T_rec r := y]> |>
             <| rreq_records ::= cons r |>).
Proof.
  intros He Hlt Hy Hu. inv_split HI.
  - apply queue_ok_new; [done| |done..]. eapply dead_timer; [done|]. simpl.
    rewrite He. by intros [? ?].
  - owner.
  - by apply list_ok_insert.
  - intros r' [<-|?]%lookup_insert_is_Some'; eauto.
Qed.

Lemma Inv_new_bl b bl y :
  bls w !! b = None → (b < w_next w)%nat → timer_ok (T_bl b) y → t_used y = false →
  Inv lim (w <| bls ::= <[b := bl]> |> <| timers ::= <[T_bl b := y]> |>
             <| rreq_blacklists ::= cons b |>).
Proof.
  intros He Hlt Hy Hu. inv_split HI.
  - apply queue_ok_new; [done| |done..]. eapply dead_timer; [done|]. simpl.
    rewrite He. by intros [? ?].
  - owner.
  - by apply list_ok_insert.
  - intros r' [<-|?]%lookup_insert_is_Some'; eauto.
Qed.

Lemma Inv_free_seek e :
  T_seek e ∉ tq w ++ exptq w →
  Inv lim (w <| sl ::= del e |> <| seeks ::= delete e |>
             <| timers ::= delete (T_seek e) |>).
Proof.
  intros Hq. inv_split HI.
  - by apply queue_ok_delete.
  - owner.
  - by apply list_ok_delete.
  - intros r [? ?]%lookup_delete_is_Some; eauto.
Qed.

Lemma Inv_free_rec r :
  T_rec r ∉ tq w ++ exptq w →
  Inv lim (w <| rreq_records ::= del r |> <| recs ::= delete r |>
             <| timers ::= delete (T_rec r) |>).
Proof.
  intros Hq. inv_split HI.
  - by apply queue_ok_delete.
  - owner.
  - by apply list_ok_delete.
  - intros r' [? ?]%lookup_delete_is_Some; eauto.
Qed.

Lemma Inv_free_bl b :
  T_bl b ∉ tq w ++ exptq w →
  Inv lim (w <| rreq_blacklists ::= del b |> <| bls ::= delete b |>
             <| timers ::= delete (T_bl b) |>).
Proof.
  intros Hq. inv_split HI.
  - by apply queue_ok_delete.
  - owner.
  - by apply list_ok_delete.
  - intros r' [? ?]%lookup_delete_is_Some; eauto.
Qed.
End objects.
