(* ===== verification/TimerQueue.v ===== *)
(** * The timer queue (timer_queue.h, timer_queue.c)

    [tq] is kept sorted by timeout by [timer_add]; [timer_timeout] moves the
    expired prefix to a local list and calls the handlers from it. *)

From S2P Require Export Invariant.

(** ** Time arithmetic, at the width of [long] *)

(** The [long] expression under the cast, operation by operation, and the C
    division by 1000, which truncates. *)
Definition timeval_diff (t1 t2 : timeval) : Z :=
  Z.quot
    (s32 (s32 (s32 (s32 (tv_sec t1 - tv_sec t2) * 1000000) + tv_usec t1) - tv_usec t2))
    1000.

#[global] Arguments timeval_diff : simpl never.

(** [add] is computed as [unsigned long] before it is widened. *)
Definition timeval_add_msec (t : timeval) (msec : Z) : timeval :=
  let add := u32 (u32 (tv_usec t) + u32 (u32 msec * 1000)) in
  TV (s32 (tv_sec t + add / 1000000)) (add mod 1000000).

(** ** Timers *)

(** Whether a timer is linked in a list: the negation of [list_unattached]. *)
Definition attached (t : timer_id) (w : world) : bool :=
  bool_decide (t ∈ tq w ++ exptq w).

Definition timer_init (t : option timer_id) (f : option handler) (data : ptr) : M Z :=
  match t with
  | None => mret (-1)
  | Some t =>
      modify (λ w, w <| timers ::= <[t := Timer false (TV 0 0) f data]> |>);;
      mret 0
  end.

(** [list_remove] of a timer: it is linked in at most one of the two lists. *)
Definition timer_unlink (t : timer_id) : M unit :=
  modify (λ w, w <| tq ::= del t |> <| exptq ::= del t |>).

Definition timer_remove (t : option timer_id) : M Z :=
  match t with
  | None => mret (-1)
  | Some t =>
      _ ← get_timer t;
      a ← gets (attached t);
      (if a : bool then timer_unlink t else mret tt);;
      upd_timer t (λ x, x <| t_used := false |>);;
      mret (if a : bool then 1 else 0)
  end.

(** The loop of [timer_add]: insert before the first timer that is strictly
    later. *)
Fixpoint tq_insert (t : timer_id) (timeout : timeval) (l : list timer_id)
    : M (list timer_id) :=
  match l with
  | [] => mret [t]
  | pos :: l' =>
      curr ← get_timer pos;
      if timeval_diff timeout (t_timeout curr) <? 0
      then mret (t :: pos :: l')
      else l'' ← tq_insert t timeout l'; mret (pos :: l'')
  end.

Definition timer_add (t : option timer_id) : M unit :=
  match t with
  | None => mret tt
  | Some t =>
      x ← get_timer t;
      match t_handler x with
      | None => mret tt
      | Some _ =>
          if t_used x then mret tt
          else
            upd_timer t (λ x, x <| t_used := true |>);;
            l ← gets tq;
            match l with
            | [] => modify (λ w, w <| tq := t :: l |>)
            | _ => l' ← tq_insert t (t_timeout x) l; modify (λ w, w <| tq := l' |>)
            end
      end
  end.

(** [msec] is a [long]; the three assignments compute at its width. *)
Definition timeout_after (now : timeval) (msec : Z) : timeval :=
  let usec := s32 (tv_usec now + s32 (msec * 1000)) in
  TV (s32 (tv_sec now + Z.quot usec 1000000)) (Z.rem usec 1000000).

Definition timer_set_timeout (t : timer_id) (msec : Z) : M unit :=
  x ← get_timer t;
  (if t_used x then (_ ← timer_remove (Some t); mret tt) else mret tt);;
  now ← gettimeofday;
  upd_timer t (λ x, x <| t_timeout := now |>);;
  if msec <? 0 then mret tt
  else
    upd_timer t (λ x, x <| t_timeout ::= λ now, timeout_after now msec |>);;
    timer_add (Some t).

(** ** Expiry *)

(** The first loop of [timer_timeout]: move the timers that are due. *)
Fixpoint timer_collect (now : timeval) (l : list timer_id) : M unit :=
  match l with
  | [] => mret tt
  | t :: l' =>
      x ← get_timer t;
      if 0 <? timeval_diff (t_timeout x) now then mret tt
      else
        timer_unlink t;;
        modify (λ w, w <| exptq ::= λ e, e ++ [t] |>);;
        timer_collect now l'
  end.

(** The timeout handlers, provided by the components that own the timers. *)
Section expiry.
Context (run_handler : handler → ptr → M unit).

(** The second loop; the number of expired timers bounds its iterations. *)
Fixpoint timer_fire (fuel : nat) : M unit :=
  e ← gets exptq;
  match e with
  | [] => mret tt
  | t :: _ =>
      match fuel with
      | O => raise (Fault OutOfFuel)
      | S fuel =>
          timer_unlink t;;
          upd_timer t (λ x, x <| t_used := false |>);;
          x ← get_timer t;
          match t_handler x with
          | Some h => run_handler h (t_data x)
          | None => mret tt
          end;;
          timer_fire fuel
      end
  end.

Definition timer_timeout (now : timeval) : M unit :=
  modify (λ w, w <| exptq := [] |>);;
  l ← gets tq;
  timer_collect now l;;
  e ← gets exptq;
  timer_fire (length e).

(** [remaining] of [timer_age_queue] for the head of the queue. *)
Definition remaining_until (timeout now : timeval) : timeval :=
  let usec := s32 (tv_usec timeout - tv_usec now) in
  let sec := s32 (tv_sec timeout - tv_sec now) in
  if usec <? 0 then TV (s32 (sec - 1)) (s32 (usec + 1000000)) else TV sec usec.

Definition timer_age_queue : M (option timeval) :=
  now ← gettimeofday;
  l ← gets tq;
  match l with
  | [] => mret None
  | _ =>
      timer_timeout now;;
      l ← gets tq;
      match l with
      | [] => mret None
      | t :: _ => x ← get_timer t; mret (Some (remaining_until (t_timeout x) now))
      end
  end.
End expiry.

(** ** The operations keep the state well formed *)

Definition unlinked (t : timer_id) (x : timer) (w : world) : world :=
  w <| tq ::= del t |> <| exptq ::= del t |>
    <| timers ::= <[t := x <| t_used := false |>]> |>.

(** [timer_remove] leaves the timer unlinked and unused, and tells whether it
    was linked. *)
Lemma timer_remove_run w t x :
  timers w !! t = Some x →
  timer_remove (Some t) w = Ok (if attached t w then 1 else 0) (unlinked t x w).
Proof.
  intros Hx. unfold timer_remove, get_timer, mbind, M_bind, gets. rewrite Hx.
  unfold attached. case_bool_decide as Hin; simpl.
  - unfold upd_timer, get_timer, mbind, M_bind. simpl. by rewrite Hx.
  - rewrite (upd_timer_run _ _ x) by done. unfold unlinked. f_equal.
    rewrite elem_of_app in Hin. destruct w; simpl in *.
    unfold upd_field, set_timers, set_tq, set_exptq; simpl.
    rewrite !del_notin by tauto. done.
Qed.

Lemma Inv_unlinked lim w t x :
  Inv lim w → timers w !! t = Some x →
  Inv lim (unlinked t x w) ∧ ext w (unlinked t x w).
Proof.
  intros HI Hx. pose proof (I_queue _ _ HI) as [Hnd Hu Ha Ht]. split.
  - apply (Inv_timer lim w t x _ (del t (tq w)) (del t (exptq w))); rewrite <-?del_app;
      [done..| | | | |].
    + by apply NoDup_del.
    + intros t' Hne. rewrite elem_of_del. tauto.
    + symmetry. apply bool_decide_eq_false. apply not_elem_of_del.
    + by intros ?%not_elem_of_del.
    + apply Ht in Hx. by destruct t.
  - apply ext_rts_eq; [done|]. simpl. apply length_filter.
Qed.

Lemma safe_timer_remove lim w t :
  Inv lim w → owner_live w t →
  safe lim (timer_remove (Some t))
    (λ _ w', ∃ x, timers w !! t = Some x ∧ w' = unlinked t x w) w.
Proof.
  intros HI [x Hx]%(I_owner _ _ HI).
  destruct (Inv_unlinked lim w t x) as [? ?]; [done..|].
  eapply safe_run; [by apply timer_remove_run|done..|eauto].
Qed.

(** Where [timer_add] puts a timer: after every timer that is not strictly
    later, before the first one that is. *)
Lemma tq_insert_run w t tv l :
  (∀ p, p ∈ l → is_Some (timers w !! p)) →
  ∃ l1 l2, l = l1 ++ l2 ∧ tq_insert t tv l w = Ok (l1 ++ t :: l2) w ∧
    Forall (λ p, ∀ x, timers w !! p = Some x → 0 ≤ timeval_diff tv (t_timeout x)) l1 ∧
    (∀ p x, head l2 = Some p → timers w !! p = Some x → timeval_diff tv (t_timeout x) < 0).
Proof.
  induction l as [|p l IH]; intros Hl.
  - exists [], []. split_and!; [done..|constructor|done].
  - destruct (Hl p) as [x Hx]; [left|].
    cbn [tq_insert]. unfold get_timer, mbind, M_bind. rewrite Hx.
    case_match eqn:E; bool_prop.
    + exists [], (p :: l). split_and!; [done..|constructor|]. simpl. naive_solver.
    + destruct IH as (l1 & l2 & -> & Hrun & H1 & H2); [intros; apply Hl; by right|].
      exists (p :: l1), l2. rewrite Hrun. split_and!; [done..| |done].
      constructor; [naive_solver|done].
Qed.

(** What [timer_add] does to a timer that can be armed. *)
Lemma timer_add_run w t x :
  (∀ p, p ∈ tq w → is_Some (timers w !! p)) →
  timers w !! t = Some x → t_handler x ≠ None → t_used x = false →
  ∃ l1 l2, tq w = l1 ++ l2 ∧
    timer_add (Some t) w
    = Ok tt (w <| timers ::= <[t := x <| t_used := true |>]> |> <| tq := l1 ++ t :: l2 |>) ∧
    Forall (λ p, ∀ y, timers w !! p = Some y →
                 0 ≤ timeval_diff (t_timeout x) (t_timeout y)) l1 ∧
    (∀ p y, p ≠ t → head l2 = Some p → timers w !! p = Some y →
            timeval_diff (t_timeout x) (t_timeout y) < 0).
Proof.
  intros Hl Hx Hh Hu.
  set (w1 := w <| timers ::= <[t := x <| t_used := true |>]> |>).
  destruct (tq_insert_run w1 t (t_timeout x) (tq w)) as (l1 & l2 & Heq & Hrun & H1 & H2).
  { intros p Hp. simpl. rewrite (is_Some_insert_old _ _ _ x) by done. auto. }
  exists l1, l2. split_and!; [done| | |].
  - unfold timer_add.
    rewrite (bind_run _ _ w x w) by (unfold get_timer; by rewrite Hx). cbv beta.
    destruct (t_handler x) eqn:E; [|done]. rewrite Hu.
    rewrite (bind_run _ _ w tt w1) by (by apply upd_timer_run).
    rewrite (bind_run _ _ w1 (tq w) w1) by done. cbv beta.
    destruct (tq w) as [|p l] eqn:El.
    + symmetry in Heq. apply app_eq_nil in Heq as [-> ->]. done.
    + by rewrite (bind_run _ _ w1 (l1 ++ t :: l2) w1).
  - eapply Forall_impl; [exact H1|]. simpl. intros p Hp y Hy.
    destruct (decide (p = t)) as [->|].
    + replace y with x by congruence.
      specialize (Hp (x <| t_used := true |>)). simpl in Hp. apply Hp.
      by rewrite lookup_insert_eq.
    + apply Hp. by rewrite lookup_insert_ne.
  - intros p y Hne Hp Hy. eapply H2; [done|]. simpl. by rewrite lookup_insert_ne.
Qed.

Lemma queued_timers lim w p : Inv lim w → p ∈ tq w → is_Some (timers w !! p).
Proof.
  intros HI Hp. destruct (q_armed _ _ (I_queue _ _ HI) p) as (x & -> & _); [|done].
  apply elem_of_app. by left.
Qed.

Lemma safe_timer_add lim w t :
  Inv lim w → owner_live w t → safe lim (timer_add (Some t)) (λ _ _, True) w.
Proof.
  intros HI [x Hx]%(I_owner _ _ HI).
  pose proof (I_queue _ _ HI) as [Hnd Hu Ha Ht].
  destruct (t_handler x) eqn:Eh; last first.
  { eapply safe_run; [|done..]. unfold timer_add, mbind, M_bind, get_timer. by rewrite Hx, Eh. }
  destruct (t_used x) eqn:Eu.
  { eapply safe_run; [|done..]. unfold timer_add, mbind, M_bind, get_timer.
    by rewrite Hx, Eh, Eu. }
  destruct (timer_add_run w t x) as (l1 & l2 & Hq & Hrun & _);
    [intros; by eapply queued_timers|done|congruence|done|].
  assert (t ∉ tq w ++ exptq w) as Hnin.
  { rewrite (Hu t x Hx) in Eu. by apply bool_decide_eq_false in Eu. }
  assert ((l1 ++ t :: l2) ++ exptq w ≡ₚ t :: (tq w ++ exptq w)) as HP.
  { rewrite Hq. by rewrite <-Permutation_middle. }
  eapply safe_run; [exact Hrun| |by apply ext_rts_eq|done].
  apply (Inv_timer lim w t x _ (l1 ++ t :: l2) (exptq w)); try done.
  - rewrite HP. by constructor.
  - intros t' Hne. rewrite HP, elem_of_cons. tauto.
  - symmetry. apply bool_decide_eq_true. rewrite HP. left.
  - simpl. congruence.
  - apply Ht in Hx. by destruct t.
Qed.

(** Reprogramming a timer without moving it. *)
Lemma safe_upd_timer lim w t f :
  Inv lim w → owner_live w t →
  (∀ x, t_used (f x) = t_used x ∧ (t_handler x ≠ None → t_handler (f x) ≠ None)) →
  (∀ x, timer_ok t x → timer_ok t (f x)) →
  safe lim (upd_timer t f) (λ _ w', ext w' w) w.
Proof.
  intros HI [x Hx]%(I_owner _ _ HI) Hf Hok.
  pose proof (I_queue _ _ HI) as [Hnd Hu Ha Ht]. destruct (Hf x) as [Hfu Hfh].
  eapply safe_run; [by apply upd_timer_run| |by apply ext_rts_eq|by apply ext_rts_eq].
  apply (Inv_timer lim w t x _ (tq w) (exptq w)); auto.
  - rewrite Hfu. auto.
  - intros (y & Hy & Hne)%Ha. apply Hfh. congruence.
Qed.


(** Setting the deadline of a timer that is not queued. *)
Lemma safe_set_deadline lim w t f :
  Inv lim w → owner_live w t →
  safe lim (upd_timer t (λ x, x <| t_timeout ::= f |>)) (λ _ w', owner_live w' t) w.
Proof.
  intros HI Hl. pose proof Hl as [x Hx]%(I_owner _ _ HI).
  pose proof (I_queue _ _ HI) as [Hnd Hu Ha Ht].
  eapply safe_run; [by apply upd_timer_run| |by apply ext_rts_eq|by destruct t].
  apply (Inv_timer lim w t x _ (tq w) (exptq w)); auto.
  - simpl. auto.
  - intros (y & Hy & Hne)%Ha. simpl. congruence.
  - apply Ht in Hx. by destruct t.
Qed.

(** Where the owner of a timer lives is not affected by its reprogramming. *)
Lemma owner_live_eq w w' t :
  rts w' = rts w → seeks w' = seeks w → recs w' = recs w → bls w' = bls w →
  owner_live w t → owner_live w' t.
Proof. intros E1 E2 E3 E4. destruct t; simpl; by rewrite ?E1, ?E2, ?E3, ?E4. Qed.

Lemma safe_timer_set_timeout lim w t msec :
  Inv lim w → owner_live w t → safe lim (timer_set_timeout t msec) (λ _ _, True) w.
Proof.
  intros HI Hl. unfold timer_set_timeout.
  eapply safe_get_timer; [done..|]. intros x Hx Hok.
  eapply (safe_bind _ _ _ (λ _ w', owner_live w' t)).
  { destruct (t_used x); [|by apply safe_ret].
    eapply safe_bind; [by apply safe_timer_remove|].
    intros _ w' HI' _ (y & _ & ->). apply safe_ret; [done|]. by destruct t. }
  intros _ w1 HI1 _ Hl1.
  eapply (safe_bind _ _ _ (λ _ w', owner_live w' t)).
  { eapply safe_run; [reflexivity|by apply Inv_tick|auto|by destruct t]. }
  intros now w2 HI2 _ Hl2.
  eapply safe_bind; [by apply (safe_set_deadline _ _ _ (λ _, now))|].
  intros [] w3 HI3 _ Hl3. destruct (msec <? 0); [by apply safe_ret|].
  eapply safe_bind; [by apply safe_set_deadline|].
  intros [] w4 HI4 _ Hl4. by apply safe_timer_add.
Qed.

(** [timer_init] on a timer structure that comes with a new object. *)
Lemma wp_timer_init_bind {A} E t f d (k : Z → M A) Q w :
  wp E (k 0) Q (w <| timers ::= <[t := Timer false (TV 0 0) f d]> |>) →
  wp E (timer_init (Some t) f d ≫= k) Q w.
Proof. intros H. exact H. Qed.

#[export] Hint Resolve safe_timer_set_timeout safe_timer_add : safe.
#[export] Hint Extern 1 (safe _ (timer_remove (Some _)) _ _) =>
  eapply safe_conseq; [apply safe_timer_remove|intros; exact I] : safe.
#[export] Hint Extern 2 (owner_live _ _) => simpl; first [eassumption | exact I] : safe.

(** ** What the timer operations leave alone *)

Section keeps_timer.
Context {B : Type} (f : world → B).
Hypothesis f_tick : ∀ w, f (w <| w_tick ::= S |>) = f w.
Hypothesis f_timers : ∀ g w, f (w <| timers ::= g |>) = f w.
Hypothesis f_tq : ∀ g w, f (w <| tq ::= g |>) = f w.
Hypothesis f_exptq : ∀ g w, f (w <| exptq ::= g |>) = f w.

Lemma keeps_upd_timer t g : keeps f (upd_timer t g).
Proof. apply keeps_bind; [apply keeps_get_timer|]. intros x. by apply keeps_modify. Qed.

Lemma keeps_timer_unlink t : keeps f (timer_unlink t).
Proof. apply keeps_modify. intros w. by rewrite f_exptq, f_tq. Qed.

Lemma keeps_timer_remove t : keeps f (timer_remove t).
Proof.
  unfold timer_remove. keeps_auto; [apply keeps_timer_unlink|apply keeps_upd_timer].
Qed.

Lemma keeps_tq_insert t tv l : keeps f (tq_insert t tv l).
Proof. induction l; cbn [tq_insert]; keeps_auto. Qed.

Lemma keeps_timer_add t : keeps f (timer_add t).
Proof.
  unfold timer_add. keeps_auto.
  all: first [apply keeps_upd_timer | apply keeps_tq_insert | apply f_tq].
Qed.

Lemma keeps_timer_set_timeout t ms : keeps f (timer_set_timeout t ms).
Proof.
  unfold timer_set_timeout. keeps_auto.
  all: first [apply keeps_timer_remove | apply keeps_upd_timer | apply keeps_timer_add
             | by apply keeps_gettimeofday].
Qed.
End keeps_timer.

(** ** Expiry

    What the queue needs of the timeout handlers, whoever provides them: from
    a well-formed state in which the timer is no longer queued, a handler has
    no memory error, ends in a well-formed state, and does not make the list
    of expired timers grow. *)

Definition handler_post (w w' : world) : Prop :=
  Inv None w' ∧ (length (exptq w') <= length (exptq w))%nat.

Class HandlersOk (run_handler : handler → ptr → M unit) : Prop :=
  handlers_ok w t x h :
    Inv None w → timers w !! t = Some x → t_handler x = Some h → t ∉ tq w ++ exptq w →
    wp benign (run_handler h (t_data x)) (λ _, handler_post w) w.

(** The first loop moves the longest prefix that is due. *)
Lemma timer_collect_run now l w :
  (∀ t, t ∈ l → is_Some (timers w !! t)) → NoDup l → tq w = l →
  (∀ t, t ∈ l → t ∉ exptq w) →
  ∃ l1 l2, l = l1 ++ l2 ∧
    timer_collect now l w = Ok tt (w <| tq := l2 |> <| exptq := exptq w ++ l1 |>) ∧
    Forall (λ t, ∀ x, timers w !! t = Some x → timeval_diff (t_timeout x) now ≤ 0) l1 ∧
    (∀ t x, head l2 = Some t → timers w !! t = Some x → 0 < timeval_diff (t_timeout x) now).
Proof.
  revert w. induction l as [|t l IH]; intros w Hl Hnd Hq Hx.
  - exists [], []. split_and!; [done| |constructor|done].
    cbn [timer_collect]. f_equal. world_simpl; [done|by rewrite app_nil_r].
  - destruct (Hl t) as [x Ht]; [left|]. cbn [timer_collect].
    rewrite (bind_run _ _ w x w) by (unfold get_timer; by rewrite Ht). cbv beta.
    destruct (Z.ltb_spec 0 (timeval_diff (t_timeout x) now)) as [Hlt|Hge].
    { exists [], (t :: l). split_and!; [done| |constructor|].
      - f_equal. world_simpl; [done|by rewrite app_nil_r].
      - simpl. naive_solver. }
    apply NoDup_cons in Hnd as [Hnt Hnd].
    set (w1 := w <| tq := l |> <| exptq := exptq w ++ [t] |>).
    assert ((timer_unlink t;; modify (λ w, w <| exptq ::= λ e, e ++ [t] |>);;
             timer_collect now l) w = timer_collect now l w1) as ->.
    { unfold timer_unlink, mbind, M_bind, modify, w1. f_equal. world_simpl.
      - rewrite Hq. by apply del_cons_eq.
      - rewrite del_notin; [done|]. apply Hx. left. }
    destruct (IH w1) as (l1 & l2 & -> & Hrun & H1 & H2); try done.
    + intros t' Ht'. apply Hl. by right.
    + intros t' Ht'. simpl. rewrite elem_of_app, list_elem_of_singleton.
      intros [?| ->]; [|done]. eapply Hx; [by right|done].
    + exists (t :: l1), l2. split_and!; [done| | |done].
      * rewrite Hrun. f_equal. world_simpl. by rewrite <-(assoc_L (++)).
      * constructor; [|done]. intros x' Hx'. by simplify_eq.
Qed.

Lemma queue_ok_perm m q q' : q ≡ₚ q' → queue_ok m q → queue_ok m q'.
Proof.
  intros HP [Hnd Hu Ha Ht]. split; [by rewrite <-HP| | |done].
  - intros t x Hx. rewrite (Hu _ _ Hx). apply bool_decide_ext. by rewrite HP.
  - intros t Hin. apply Ha. by rewrite HP.
Qed.

Lemma Inv_requeue lim w q1 q2 :
  Inv lim w → q1 ++ q2 ≡ₚ tq w ++ exptq w →
  Inv lim (w <| tq := q1 |> <| exptq := q2 |>).
Proof. intros HI HP. inv_split HI. by eapply queue_ok_perm. Qed.

Section fire.
Context (run_handler : handler → ptr → M unit) `{!HandlersOk run_handler}.

(** One iteration per expired timer is enough, and empties the list. *)
Lemma wp_timer_fire fuel w :
  Inv None w → (length (exptq w) <= fuel)%nat →
  wp benign (timer_fire run_handler fuel) (λ _ w', Inv None w' ∧ exptq w' = []) w.
Proof.
  revert w. induction fuel as [|fuel IH]; intros w HI Hlen; cbn [timer_fire];
    apply wp_bind, wp_gets; destruct (exptq w) as [|t l] eqn:El;
    try (by apply wp_ret); [simpl in *; lia|].
  pose proof (I_queue _ _ HI) as [Hnd _ Ha _].
  destruct (Ha t) as (x & Hx & Hh); [rewrite El; set_solver|].
  destruct (t_handler x) as [h|] eqn:Eh; [|done].
  destruct (Inv_unlinked None w t x HI Hx) as [HI1 _]. set (w1 := unlinked t x w) in *.
  assert (timers w1 !! t = Some (x <| t_used := false |>)) as Hx1 by apply lookup_insert_eq.
  assert (exptq w1 = l) as El1.
  { unfold w1. simpl. rewrite El. apply del_cons_eq.
    rewrite El in Hnd. apply NoDup_app in Hnd as (_ & _ & Hnd). by apply NoDup_cons in Hnd as [? _]. }
  apply wp_modify_bind, wp_bind.
  eapply (wp_eq _ _ _ _ tt w1); [by apply upd_timer_run|].
  apply wp_bind. unfold wp at 1, get_timer. rewrite Hx1. simpl. rewrite Eh.
  assert (wp benign (run_handler h (t_data x)) (λ _, handler_post w1) w1) as Hok.
  { change (t_data x) with (t_data (x <| t_used := false |>)).
    apply (handlers_ok w1 t); [done|done|done|].
    unfold w1. simpl. rewrite <-del_app. apply not_elem_of_del. }
  apply wp_bind. eapply wp_wand; [exact Hok|].
  intros [] w2 [HI2 Hlen2]. apply IH; [done|]. rewrite El1 in Hlen2. simpl in Hlen. lia.
Qed.

Lemma wp_timer_timeout now w :
  Inv None w → exptq w = [] →
  wp benign (timer_timeout run_handler now) (λ _ w', Inv None w' ∧ exptq w' = []) w.
Proof.
  intros HI He. unfold timer_timeout.
  apply wp_modify_bind. replace (w <| exptq := [] |>) with w by (world_simpl; done).
  apply wp_bind, wp_gets.
  pose proof (I_queue _ _ HI) as [Hnd _ _ _]. rewrite He, app_nil_r in Hnd.
  destruct (timer_collect_run now (tq w) w) as (l1 & l2 & Hq & Hrun & _); try done.
  { intros. by eapply queued_timers. }
  { intros t _. rewrite He. by intros ?%elem_of_nil. }
  apply wp_bind. eapply wp_eq; [exact Hrun|]. apply wp_bind, wp_gets.
  apply wp_timer_fire; [|done]. apply Inv_requeue; [done|].
  rewrite He, Hq, app_nil_r. simpl. apply Permutation_app_comm.
Qed.

Lemma wp_timer_age_queue w :
  Inv None w → exptq w = [] →
  wp benign (timer_age_queue run_handler) (λ _ w', Inv None w' ∧ exptq w' = []) w.
Proof.
  intros HI He. unfold timer_age_queue. apply wp_bind.
  eapply wp_eq; [reflexivity|]. set (w1 := w <| w_tick ::= S |>).
  assert (Inv None w1) as HI1 by (by apply Inv_tick).
  apply wp_bind, wp_gets. destruct (tq w1); [by apply wp_ret|].
  apply wp_bind. eapply wp_wand; [by apply wp_timer_timeout|].
  intros [] w2 [HI2 He2]. apply wp_bind, wp_gets.
  destruct (tq w2) as [|t' l'] eqn:El; [by apply wp_ret|].
  destruct (queued_timers None w2 t' HI2) as [x Hx]; [rewrite El; left|].
  apply wp_bind. unfold wp at 1, get_timer. rewrite Hx. by apply wp_ret.
Qed.
End fire.

(** ** Time arithmetic *)

(** The time a [timeval] denotes, in microseconds. *)
Definition us (t : timeval) : Z := tv_sec t * 1000000 + tv_usec t.

Definition normalized (t : timeval) : Prop := 0 ≤ tv_usec t < 1000000.

Lemma timeval_diff_eq t1 t2 : timeval_diff t1 t2 = Z.quot (s32 (us t1 - us t2)) 1000.
Proof.
  unfold timeval_diff, us. f_equal. rewrite s32_mul_l, s32_add_l, s32_sub_l. f_equal. lia.
Qed.

Lemma timeval_diff_in_range t1 t2 :
  - 2 ^ 31 ≤ us t1 - us t2 < 2 ^ 31 → timeval_diff t1 t2 = Z.quot (us t1 - us t2) 1000.
Proof. intros. rewrite timeval_diff_eq, s32_small; done. Qed.

Lemma quot_1000_neg d : Z.quot d 1000 < 0 ↔ d ≤ -1000.
Proof.
  destruct (Z_le_gt_dec 0 d).
  - pose proof (Z.quot_pos d 1000). lia.
  - replace d with (- (- d)) by lia. rewrite Z.quot_opp_l by lia.
    rewrite Z.quot_div_nonneg by lia. pose proof (Z.div_mod (- d) 1000).
    pose proof (Z.mod_pos_bound (- d) 1000). lia.
Qed.

(** [timeval_diff] is the difference in milliseconds, truncated towards
    zero, exactly as long as the difference in microseconds fits in a 32-bit
    [long]; from about 35 minutes on it has the wrong sign, although the
    result variable is a [long long] ``to avoid overflows''. *)
Theorem timeval_diff_exact t1 t2 :
  (- 2 ^ 31 ≤ us t1 - us t2 < 2 ^ 31 →
     timeval_diff t1 t2 = Z.quot (us t1 - us t2) 1000) ∧
  (2 ^ 31 ≤ us t1 - us t2 < 2 ^ 32 - 1000 → timeval_diff t1 t2 < 0).
Proof.
  split; [apply timeval_diff_in_range|]. intros Hd.
  rewrite timeval_diff_eq. apply quot_1000_neg.
  rewrite (s32_congr _ (us t1 - us t2 - 2 ^ 32)).
  - rewrite s32_small; lia.
  - by rewrite <-(Z_mod_plus_full (us t1 - us t2 - 2 ^ 32) 1), Z.mul_1_l, Z.sub_add.
Qed.

Lemma timeval_add_msec_us t msec :
  normalized t → 0 ≤ msec → tv_usec t + msec * 1000 < 2 ^ 32 →
  0 ≤ tv_sec t → tv_sec t + 4295 < 2 ^ 31 →
  us (timeval_add_msec t msec) = us t + msec * 1000 ∧ normalized (timeval_add_msec t msec).
Proof.
  unfold normalized, timeval_add_msec, us. cbn [tv_sec tv_usec]. intros Hn Hm Hs Ht1 Ht2.
  rewrite (u32_small (tv_usec t)), (u32_small msec) by lia.
  rewrite (u32_small (msec * 1000)) by lia. rewrite u32_small by lia.
  set (a := tv_usec t + msec * 1000) in *.
  pose proof (Z.div_mod a 1000000). pose proof (Z.mod_pos_bound a 1000000).
  assert (0 ≤ a / 1000000 < 4295) by (split; [apply Z.div_pos; lia|
    apply Z.div_lt_upper_bound; lia]).
  rewrite s32_small by lia. lia.
Qed.

(** [timeval_add_msec] adds exactly [msec] milliseconds and keeps the
    microseconds normalized, as long as the sum of the microseconds fits in
    32 bits (about 71 minutes) and the seconds do. *)
Theorem timeval_add_msec_exact t msec :
  normalized t → 0 ≤ msec → tv_usec t + msec * 1000 < 2 ^ 32 →
  0 ≤ tv_sec t → tv_sec t + 4295 < 2 ^ 31 →
  us (timeval_add_msec t msec) = us t + msec * 1000 ∧ normalized (timeval_add_msec t msec).
Proof. apply timeval_add_msec_us. Qed.

(** The deadline [timer_set_timeout] computes. *)
Lemma timeout_after_exact now msec :
  normalized now → 0 ≤ msec → tv_usec now + msec * 1000 < 2 ^ 31 →
  0 ≤ tv_sec now → tv_sec now + 2148 < 2 ^ 31 →
  us (timeout_after now msec) = us now + msec * 1000 ∧ normalized (timeout_after now msec).
Proof.
  unfold normalized, timeout_after, us. cbn [tv_sec tv_usec]. intros Hn Hm Hs Ht1 Ht2.
  rewrite (s32_small (msec * 1000)) by lia. rewrite (s32_small (tv_usec now + _)) by lia.
  set (a := tv_usec now + msec * 1000) in *.
  rewrite Z.quot_div_nonneg, Z.rem_mod_nonneg by lia.
  pose proof (Z.div_mod a 1000000). pose proof (Z.mod_pos_bound a 1000000).
  assert (0 ≤ a / 1000000 < 2148) by (split; [apply Z.div_pos; lia|
    apply Z.div_lt_upper_bound; lia]).
  rewrite s32_small by lia. lia.
Qed.

(** [timer_age_queue] hands [select] the exact time to the next
    deadline, with the microseconds borrowed so that they stay in range. *)
Theorem remaining_until_exact timeout now :
  normalized timeout → normalized now →
  0 ≤ tv_sec timeout < 2 ^ 31 → 0 ≤ tv_sec now < 2 ^ 31 - 1 →
  us (remaining_until timeout now) = us timeout - us now ∧
  normalized (remaining_until timeout now).
Proof.
  unfold normalized, remaining_until, us. intros H1 H2 H3 H4.
  rewrite (s32_small (tv_usec timeout - tv_usec now)) by lia.
  rewrite (s32_small (tv_sec timeout - tv_sec now)) by lia.
  destruct (Z.ltb_spec (tv_usec timeout - tv_usec now) 0); cbn [tv_sec tv_usec]; [|lia].
  rewrite (s32_small (tv_usec timeout - tv_usec now + 1000000)) by lia.
  rewrite s32_small by lia. lia.
Qed.

(** ** Order of the queue *)

(** [p] may precede [q]: it is not due a millisecond or more after it. *)
Definition may_precede (m : gmap timer_id timer) (p q : timer_id) : Prop :=
  ∀ x y, m !! p = Some x → m !! q = Some y → us (t_timeout x) - us (t_timeout y) < 1000.

(** All deadlines lie within the 2147 seconds [timeval_diff] can compare. *)
Definition comparable (m : gmap timer_id timer) (l : list timer_id) : Prop :=
  ∀ p q x y, p ∈ l → q ∈ l → m !! p = Some x → m !! q = Some y →
    - 2 ^ 31 ≤ us (t_timeout x) - us (t_timeout y) < 2 ^ 31.

Lemma StronglySorted_insert {A} (R : A → A → Prop) l1 l2 x :
  StronglySorted R (l1 ++ l2) → Forall (λ y, R y x) l1 → Forall (R x) l2 →
  StronglySorted R (l1 ++ x :: l2).
Proof.
  induction l1 as [|y l1 IH]; intros Hs H1 H2; simpl in *.
  - by constructor.
  - apply StronglySorted_inv in Hs as [Hs Hf]. apply Forall_cons in H1 as [Hy H1].
    constructor; [by apply IH|]. apply Forall_app in Hf as [? ?].
    apply Forall_app. split; [done|by constructor].
Qed.

Lemma StronglySorted_app_r {A} (R : A → A → Prop) l1 l2 :
  StronglySorted R (l1 ++ l2) → StronglySorted R l2.
Proof. induction l1; simpl; [done|]. by intros [? _]%StronglySorted_inv; auto. Qed.


(** ** Setting a timer *)

(** The first statement of [timer_set_timeout]: after it the timer is neither
    linked nor used, and nothing else has changed. *)
Lemma timer_disarm_run lim w t x :
  Inv lim w → timers w !! t = Some x →
  ∃ w', (if t_used x then (_ ← timer_remove (Some t); mret tt) else mret tt) w = Ok tt w' ∧
    Inv lim w' ∧ timers w' = <[t := x <| t_used := false |>]> (timers w) ∧
    tq w' = del t (tq w) ∧ exptq w' = del t (exptq w) ∧
    w_env w' = w_env w ∧ w_tick w' = w_tick w.
Proof.
  intros HI Hx. destruct (t_used x) eqn:Eu.
  - exists (unlinked t x w). split_and!; try done; [|by apply Inv_unlinked].
    by rewrite (bind_run _ _ _ _ _ (timer_remove_run _ _ _ Hx)).
  - exists w. pose proof (unused_not_queued _ _ _ _ HI Hx Eu) as Hq.
    rewrite elem_of_app in Hq. split_and!; try done.
    + rewrite insert_id; [done|]. rewrite Hx. destruct x; simpl in *; subst. done.
    + rewrite del_notin; tauto.
    + rewrite del_notin; tauto.
Qed.

(** Setting the deadline of a timer that is not queued, and queueing it. *)
Lemma timer_arm_run lim w t x g :
  Inv lim w → timers w !! t = Some x → t_handler (g x) ≠ None → t_used (g x) = false →
  t ∉ tq w ++ exptq w →
  ∃ w', (upd_timer t g;; timer_add (Some t)) w = Ok tt w' ∧
    timers w' !! t = Some ((g x) <| t_used := true |>) ∧
    t ∈ tq w' ++ exptq w' ∧ NoDup (tq w' ++ exptq w') ∧
    (∀ t', t' ≠ t → timers w' !! t' = timers w !! t' ∧ (t' ∈ tq w' ↔ t' ∈ tq w)).
Proof.
  intros HI Hx Hh Hu Hnq.
  rewrite (bind_run _ _ _ _ _ (upd_timer_run _ _ _ _ Hx)). cbv beta. set (w1 := w <| timers ::= _ |>).
  assert (timers w1 !! t = Some (g x)) as Hx1 by apply lookup_insert_eq.
  destruct (timer_add_run w1 t (g x)) as (l1 & l2 & Hq & Hrun & _); [|done..|].
  { intros p Hp. apply (is_Some_insert_old (timers w) t p _ (g x) Hx).
    by apply (queued_timers lim w). }
  assert (tq w = l1 ++ l2) as Hq' by exact Hq.
  assert ((l1 ++ t :: l2) ++ exptq w ≡ₚ t :: (tq w ++ exptq w)) as HP.
  { rewrite Hq'. by rewrite <-Permutation_middle. }
  eexists. split; [exact Hrun|]. cbn. split_and!.
  - by rewrite lookup_insert_eq.
  - rewrite HP. left.
  - rewrite HP. apply NoDup_cons. split; [done|apply (I_queue _ _ HI)].
  - intros t' Hne. split; [by rewrite !lookup_insert_ne by done|].
    rewrite Hq', !elem_of_app, elem_of_cons. tauto.
Qed.

Lemma timer_set_timeout_run lim w t x msec :
  Inv lim w → timers w !! t = Some x → t_handler x ≠ None →
  let now := e_clock (w_env w) (w_tick w) in
  ∃ w', timer_set_timeout t msec w = Ok tt w' ∧
    timers w' !! t = Some (x <| t_used := (0 <=? msec) |>
      <| t_timeout := if msec <? 0 then now else timeout_after now msec |>) ∧
    (t ∈ tq w' ++ exptq w' ↔ 0 ≤ msec) ∧ NoDup (tq w' ++ exptq w') ∧
    (∀ t', t' ≠ t → timers w' !! t' = timers w !! t' ∧ (t' ∈ tq w' ↔ t' ∈ tq w)).
Proof.
  intros HI Hx Hh now.
  destruct (timer_disarm_run lim w t x HI Hx) as (w0 & Hrun0 & HI0 & Ht0 & Hq0 & He0 & Henv & Htick).
  assert (t ∉ tq w0 ++ exptq w0) as Hnq.
  { rewrite Hq0, He0, <-del_app. apply not_elem_of_del. }
  unfold timer_set_timeout.
  rewrite (bind_run _ _ w x w) by (unfold get_timer; by rewrite Hx). cbv beta.
  rewrite (bind_run _ _ _ _ _ Hrun0).
  rewrite (bind_run _ _ w0 now (w0 <| w_tick ::= S |>)); last first.
  { unfold gettimeofday, tick, mbind, M_bind, gets. simpl. by rewrite Henv, Htick. }
  set (x0 := x <| t_used := false |>).
  assert (timers (w0 <| w_tick ::= S |>) !! t = Some x0) as Hx0.
  { simpl. rewrite Ht0. apply lookup_insert_eq. }
  rewrite (bind_run _ _ _ _ _ (upd_timer_run _ _ _ _ Hx0)). cbv beta.
  set (w2 := _ <| timers ::= _ |>).
  assert (Inv lim w2) as HI2.
  { apply (Inv_timer lim (w0 <| w_tick ::= S |>) t x0 _ (tq w0) (exptq w0)); try done.
    - by apply Inv_tick.
    - apply (I_queue _ _ HI0).
    - symmetry. by apply bool_decide_eq_false.
    - pose proof (q_timer _ _ (I_queue _ _ HI0) t x0 Hx0) as Hok. by destruct t. }
  assert (timers w2 !! t = Some (x0 <| t_timeout := now |>)) as Hx2 by apply lookup_insert_eq.
  assert (∀ t', t' ≠ t → timers w2 !! t' = timers w !! t') as Hother.
  { intros t' Hne. simpl. rewrite lookup_insert_ne, Ht0, lookup_insert_ne; done. }
  destruct (Z.ltb_spec msec 0) as [Hneg|Hpos].
  { exists w2. split_and!; [done| | |apply (I_queue _ _ HI2)|].
    - rewrite Hx2. rewrite (proj2 (Z.leb_gt 0 msec)) by lia. by destruct x.
    - split; [done|lia].
    - intros t' Hne. split; [auto|]. simpl. rewrite Hq0, elem_of_del. tauto. }
  destruct (timer_arm_run lim w2 t _ (λ x, x <| t_timeout ::= λ now, timeout_after now msec |>) HI2 Hx2)
    as (w3 & Hrun3 & Ht3 & Hin3 & Hnd3 & Hoth3); [done..|].
  exists w3. split_and!; [exact Hrun3| |by split|done|].
  - rewrite Ht3. rewrite (proj2 (Z.leb_le 0 msec)) by lia. by destruct x.
  - intros t' Hne. destruct (Hoth3 t' Hne) as [Ht Hq]. split; [rewrite Ht; auto|].
    rewrite Hq. simpl. rewrite Hq0, elem_of_del. tauto.
Qed.

(** [timer_set_timeout] takes the timer out of the queue and, for a
    non-negative delay, links it exactly once with the deadline [now + msec];
    a negative delay (which a large unsigned lifetime becomes) leaves it
    disarmed.  Other timers are not affected. *)
Theorem timer_set_timeout_spec lim w t x msec :
  Inv lim w → timers w !! t = Some x → t_handler x ≠ None →
  let now := e_clock (w_env w) (w_tick w) in
  ∃ w', timer_set_timeout t msec w = Ok tt w' ∧
    timers w' !! t = Some (x <| t_used := (0 <=? msec) |>
      <| t_timeout := if msec <? 0 then now else timeout_after now msec |>) ∧
    (t ∈ tq w' ++ exptq w' ↔ 0 ≤ msec) ∧ NoDup (tq w' ++ exptq w') ∧
    (∀ t', t' ≠ t → timers w' !! t' = timers w !! t' ∧ (t' ∈ tq w' ↔ t' ∈ tq w)).
Proof. exact (timer_set_timeout_run lim w t x msec). Qed.

(** The first loop of [timer_timeout] takes exactly the timers that are
    due: it moves the longest prefix of the queue whose deadlines are not
    more than a millisecond ahead, in order, and stops at the first timer
    that is. *)
Theorem timer_collect_due now w :
  Inv None w → exptq w = [] →
  ∃ due rest, tq w = due ++ rest ∧
    timer_collect now (tq w) w = Ok tt (w <| tq := rest |> <| exptq := due |>) ∧
    Forall (λ t, ∀ x, timers w !! t = Some x → timeval_diff (t_timeout x) now ≤ 0) due ∧
    (∀ t x, head rest = Some t → timers w !! t = Some x →
       0 < timeval_diff (t_timeout x) now).
Proof.
  intros HI He. pose proof (I_queue _ _ HI) as [Hnd _ _ _].
  rewrite He, app_nil_r in Hnd.
  destruct (timer_collect_run now (tq w) w) as (l1 & l2 & Hq & Hrun & H1 & H2); try done.
  - intros. by eapply queued_timers.
  - intros t _. rewrite He. apply not_elem_of_nil.
  - exists l1, l2. rewrite He in Hrun. by split_and!.
Qed.


(** Operations on one timer do not touch the structure of another. *)
Section other_timer.
Context (t t' : timer_id) (Hne : t' ≠ t).
Let f (w : world) : option timer := timers w !! t'.

Lemma keeps_other_upd_timer g : keeps f (upd_timer t g).
Proof.
  apply keeps_bind; [apply keeps_get_timer|]. intros x. apply keeps_modify.
  intros w. unfold f. simpl. by rewrite lookup_insert_ne.
Qed.

Lemma keeps_other_timer_remove : keeps f (timer_remove (Some t)).
Proof. unfold timer_remove, timer_unlink. keeps_auto. apply keeps_other_upd_timer. Qed.

Lemma keeps_other_set_timeout ms : keeps f (timer_set_timeout t ms).
Proof.
  unfold timer_set_timeout, timer_add. keeps_auto.
  all: first [apply keeps_other_timer_remove | apply keeps_other_upd_timer
             | apply keeps_tq_insert].
Qed.
End other_timer.

(** What [timer_set_timeout] leaves in the timer, in any state. *)
Lemma wpo_timer_set_timeout t x msec w :
  timers w !! t = Some x → t_handler x ≠ None →
  let now := e_clock (w_env w) (w_tick w) in
  wpo (timer_set_timeout t msec)
    (λ _ w', timers w' !! t = Some (x <| t_used := (0 <=? msec) |>
       <| t_timeout := if msec <? 0 then now else timeout_after now msec |>)) w.
Proof.
  intros Hx Hh now. unfold timer_set_timeout.
  apply wp_bind. eapply wp_eq; [unfold get_timer; by rewrite Hx|].
  apply wp_bind, (wp_wand _ _ (λ _ w', timers w' !! t = Some (x <| t_used := false |>) ∧
                                        w_env w' = w_env w ∧ w_tick w' = w_tick w)).
  { destruct (t_used x) eqn:Eu.
    - apply wp_bind. eapply wp_eq; [by apply timer_remove_run|]. apply wp_ret.
      simpl. by rewrite lookup_insert_eq.
    - apply wp_ret. split; [|done]. rewrite Hx. by destruct x; simpl in *; subst. }
  intros _ w1 (H1 & Henv & Htick).
  apply wp_bind. eapply wp_eq; [reflexivity|]. simpl. rewrite Henv, Htick. fold now.
  apply wp_bind. eapply wp_eq; [apply upd_timer_run; exact H1|].
  assert ((0 <=? msec) = negb (msec <? 0)) as -> by (rewrite Z.leb_antisym; done).
  destruct (msec <? 0); cbn [negb].
  { apply wp_ret. simpl. by rewrite lookup_insert_eq. }
  apply wp_bind. eapply wp_eq; [apply upd_timer_run; simpl; apply lookup_insert_eq|].
  unfold timer_add. apply wp_bind.
  eapply wp_eq; [unfold get_timer; simpl; by rewrite lookup_insert_eq|]. simpl.
  destruct (t_handler x) as [h|] eqn:Eh; [|done].
  apply wp_bind. eapply wp_eq; [apply upd_timer_run; simpl; apply lookup_insert_eq|].
  apply (wpo_keeps (λ w, timers w !! t)); [|intros _ w' ->; simpl; by rewrite lookup_insert_eq].
  keeps_auto; by apply keeps_tq_insert.
Qed.
