(* ===== verification/Netlink.v ===== *)
(** * Messages from the daemon to the kernel (the sending half of nl.c)

    [nl_send_add_route_msg] and its siblings build a message for the kernel
    module and one for the kernel's routing table; what they send is an event
    of the world. *)

From S2P Require Export KMsg Invariant.

(** ** The rtnetlink constants of the platform headers *)

Definition RTM_NEWROUTE : Z := 24.
Definition RTM_DELROUTE : Z := 25.
Definition RTA_DST : Z := 1.
Definition RTA_OIF : Z := 4.
Definition RTA_GATEWAY : Z := 5.
Definition RTA_PRIORITY : Z := 6.
Definition RT_SCOPE_UNIVERSE : Z := 0.
Definition RT_SCOPE_LINK : Z := 253.
Definition AF_INET : Z := 2.
Definition RTA_LENGTH (len : Z) : Z := len + 4.
Definition sizeof_rtmsg : Z := 12.
Definition sizeof_in_addr : Z := 4.

(** ** nl.c *)

(** [struct nlsock aodvnl, rtnl]. *)
Inductive nlsock := aodvnl | rtnl.

Definition bump_seqno (nl : nlsock) : M Z :=
  match nl with
  | aodvnl => modify (λ w, w <| aodvnl_seqno ::= λ s, s32 (s + 1) |>);; gets aodvnl_seqno
  | rtnl => modify (λ w, w <| rtnl_seqno ::= λ s, s32 (s + 1) |>);; gets rtnl_seqno
  end.

(** [nl_send] completes the header (sequence number, [NLM_F_ACK]) of the
    message [n] and sends it. *)
Definition nl_send (nl : option nlsock) (n : Z → event) : M Z :=
  match nl with
  | None => mret (-1)
  | Some nl =>
      seq ← bump_seqno nl;
      ok ← syscall;
      if ok : bool then emit (n seq);; mret 0 else mret (-1)
  end.

(** The loop of [prefix_length]; [fuel] bounds the shifts. *)
Fixpoint prefix_loop (fuel : nat) (tmp prefix : Z) : option Z :=
  if tmp =? 0 then Some prefix
  else match fuel with
  | O => None
  | S fuel => prefix_loop fuel (u32 (Z.shiftl tmp 1)) (prefix + 1)
  end.

Definition prefix_length (family nm : Z) : M Z :=
  if family =? AF_INET
  then match prefix_loop 32 (u32 nm) 0 with
  | Some p => mret p
  | None => raise (Fault OutOfFuel)
  end
  else mret 0.

(** [addattr] appends to the message whose length so far is [rq_len]. *)
Definition addattr (n : rt_req) (type data alen : Z) : rt_req :=
  let len := RTA_LENGTH alen in
  n <| rq_attrs ::= λ l, l ++ [RtAttr (NLMSG_LENGTH (rq_len n)) type len data] |>
    <| rq_len := NLMSG_ALIGN (rq_len n) + len |>.

(** The request [nl_kernel_route] builds; [nm] is the optional netmask whose
    prefix length is [dst_len]. *)
Definition kernel_route_req
    (action flags family index dest gw dst_len metric : Z) : rt_req :=
  let req := RtReq action (Z.lor NLM_F_REQUEST flags) 0 (NLMSG_LENGTH sizeof_rtmsg)
    family dst_len RT_SCOPE_LINK 100 [] in
  let req := addattr req RTA_DST dest sizeof_in_addr in
  let req :=
    if negb (dest =? gw)
    then addattr (req <| rtm_scope := RT_SCOPE_UNIVERSE |>) RTA_GATEWAY gw sizeof_in_addr
    else req in
  let req := if 0 <? index then addattr req RTA_OIF index 4 else req in
  addattr req RTA_PRIORITY metric 4.

Definition nl_kernel_route (action flags family index : Z) (dest gw nm : option Z)
    (metric : Z) : M Z :=
  match dest, gw with
  | Some dest, Some gw =>
      dst_len ← match nm with
        | None => mret (sizeof_in_addr * 8)
        | Some nm => prefix_length AF_INET nm
        end;
      nl_send (Some rtnl) (λ seq,
        EvRt ((kernel_route_req action flags family index dest gw dst_len metric)
              <| rq_seq := seq |>
              <| rq_flags ::= λ f, Z.lor f NLM_F_ACK |>))
  | _, _ => mret (-1)
  end.

Definition nl_send_add_route_msg
    (dest next_hop metric lifetime rt_flags ifindex : Z) : M Z :=
  let mflags := if flag rt_flags RT_INET_DEST then KAODV_RT_GW_ENCAP else 0 in
  let mflags := if flag rt_flags RT_REPAIR then Z.lor mflags KAODV_RT_REPAIR else mflags in
  r ← nl_send (Some aodvnl) (λ seq,
    EvNl (NlMsg KAODVM_ADDROUTE seq (Z.lor NLM_F_REQUEST NLM_F_ACK)
            dest next_hop mflags ifindex (s32 lifetime)));
  if r <? 0 then mret (-1)
  else nl_kernel_route RTM_NEWROUTE NLM_F_CREATE AF_INET ifindex
         (Some dest) (Some next_hop) None metric.

Definition nl_send_no_route_found_msg (dest : Z) : M Z :=
  nl_send (Some aodvnl) (λ seq,
    EvNl (NlMsg KAODVM_NOROUTE_FOUND seq (Z.lor NLM_F_REQUEST NLM_F_ACK) dest 0 0 0 0)).

Definition nl_send_del_route_msg (dest next_hop metric : Z) : M Z :=
  let index := -1 in
  r ← nl_send (Some aodvnl) (λ seq,
    EvNl (NlMsg KAODVM_DELROUTE seq (Z.lor NLM_F_REQUEST NLM_F_ACK) dest next_hop 0 0 0));
  if r <? 0 then mret (-1)
  else nl_kernel_route RTM_DELROUTE 0 AF_INET index (Some dest) (Some next_hop) None metric.

(** [sizeof(struct kaodv_rt_msg)] on the targets. *)
Definition sizeof_kaodv_rt_msg : Z := 28.

(** The length announced is that of a route message, not of the
    configuration message that follows the header. *)
Definition nl_send_conf_msg : M Z :=
  art ← ACTIVE_ROUTE_TIMEOUT;
  nl_send (Some aodvnl) (λ seq,
    EvConf KAODVM_CONFIG seq (Z.lor NLM_F_REQUEST NLM_F_ACK)
      (NLMSG_LENGTH sizeof_kaodv_rt_msg) art).

(** ** Sending keeps the state well formed *)

Lemma safe_nl_send lim nl n w :
  Inv lim w → (∀ seq, not_rrep (n seq)) → safe lim (nl_send nl n) (λ _ _, True) w.
Proof.
  intros HI Hn. unfold nl_send. destruct nl as [nl|]; [|by sstep].
  eapply (safe_bind _ _ _ (λ _ _, True)).
  { destruct nl; (eapply safe_run; [reflexivity| |auto|done]);
      inv_split HI. }
  intros seq w1 HI1 _ _. sstep. destruct b; [|by sstep].
  eapply safe_bind; [by apply safe_emit|]. intros. by apply safe_ret.
Qed.

Lemma safe_nl_kernel_route lim action flags family index dest gw metric w :
  Inv lim w →
  safe lim (nl_kernel_route action flags family index dest gw None metric) (λ _ _, True) w.
Proof.
  intros HI. destruct dest, gw; [|by apply safe_ret..].
  apply safe_mret_bind. by apply safe_nl_send.
Qed.

Lemma safe_nl_send_add_route_msg lim dest nh metric lifetime flags ifindex w :
  Inv lim w →
  safe lim (nl_send_add_route_msg dest nh metric lifetime flags ifindex) (λ _ _, True) w.
Proof.
  intros HI. unfold nl_send_add_route_msg. cbv zeta.
  eapply safe_bind; [by apply safe_nl_send|call_post].
  sstep; [by sstep|by apply safe_nl_kernel_route].
Qed.

Lemma safe_nl_send_del_route_msg lim dest nh metric w :
  Inv lim w → safe lim (nl_send_del_route_msg dest nh metric) (λ _ _, True) w.
Proof.
  intros HI. unfold nl_send_del_route_msg. cbv zeta.
  eapply safe_bind; [by apply safe_nl_send|call_post].
  sstep; [by sstep|by apply safe_nl_kernel_route].
Qed.

Lemma safe_nl_send_no_route_found_msg lim dest w :
  Inv lim w → safe lim (nl_send_no_route_found_msg dest) (λ _ _, True) w.
Proof. intros HI. by apply safe_nl_send. Qed.

Lemma safe_nl_send_conf_msg lim w : Inv lim w → safe lim nl_send_conf_msg (λ _ _, True) w.
Proof. intros HI. unfold nl_send_conf_msg, ACTIVE_ROUTE_TIMEOUT. sstep. by apply safe_nl_send. Qed.

#[export] Hint Resolve safe_nl_send_add_route_msg safe_nl_send_del_route_msg
  safe_nl_send_no_route_found_msg safe_nl_send_conf_msg : safe.

(** ** What messages to the kernel leave alone *)

Section keeps_nl.
Context {B : Type} (f : world → B).
Hypothesis f_tick : ∀ w, f (w <| w_tick ::= S |>) = f w.
Hypothesis f_aodvnl : ∀ g w, f (w <| aodvnl_seqno ::= g |>) = f w.
Hypothesis f_rtnl : ∀ g w, f (w <| rtnl_seqno ::= g |>) = f w.
Hypothesis f_out : ∀ g w, f (w <| out ::= g |>) = f w.

Lemma keeps_nl_send nl n : keeps f (nl_send nl n).
Proof.
  unfold nl_send, bump_seqno. destruct nl as [nl|]; [|apply keeps_ret].
  apply keeps_bind; [|intros seq; apply keeps_bind; [by apply keeps_syscall|intros []]].
  - destruct nl; (apply keeps_bind; [by apply keeps_modify|intros; apply keeps_gets]).
  - apply keeps_bind; [by apply keeps_modify|intros; apply keeps_ret].
  - apply keeps_ret.
Qed.

Lemma keeps_del_route d n m : keeps f (nl_send_del_route_msg d n m).
Proof.
  unfold nl_send_del_route_msg, nl_kernel_route. keeps_auto; apply keeps_nl_send.
Qed.

Lemma keeps_add_route d n m l fl i : keeps f (nl_send_add_route_msg d n m l fl i).
Proof.
  unfold nl_send_add_route_msg, nl_kernel_route. keeps_auto; apply keeps_nl_send.
Qed.
End keeps_nl.
