(* ===== verification/Socket.v ===== *)
(** * The AODV socket (aodv_socket.c): buffers, rate limits, sending

    There is one send buffer: [aodv_socket_new_msg] clears it and hands it
    out, and [aodv_socket_send] transmits its first bytes, whatever message
    pointer it is given. *)

From S2P Require Export TimerQueue.

(** [s8_t *aodv_socket_new_msg(void)]: the result is always [send_buf]. *)
Definition aodv_socket_new_msg : M bufid :=
  modify (set_buf send_buf (replicate (Z.to_nat SEND_BUF_SIZE) 0));;
  mret send_buf.

(** [memcpy(send_buf, aodv_msg, len)]. *)
Definition aodv_socket_queue_msg (aodv_msg : bufid) (len : Z) : M bufid :=
  w ← get;
  match load_bytes (buf_of aodv_msg w) 0 (Z.to_nat (u32 len)) with
  | Some bs => st send_buf 0 bs;; mret send_buf
  | None => raise (Fault OutOfBounds)
  end.

(** ** Rate limits *)

(** What the [switch] of [aodv_socket_send] decides for one message type. *)
Inductive rl_result := RL_drop | RL_pass (num : Z) (times : list timeval) | RL_fault.

(** One window of the limiter: [times] is the array of [limit] times, [num]
    how many of its entries are in use. *)
Definition ratelimit_step (limit num : Z) (times : list timeval) (now : timeval)
    : rl_result :=
  if num =? limit
  then match times with
    | [] => RL_fault
    | t0 :: rest =>
        if timeval_diff now t0 <? 1000 then RL_drop
        else
          (* memmove of num - 1 entries one place down, memcpy to the last one *)
          let n := Z.to_nat (num - 1) in
          RL_pass num (<[n := now]> (take n rest ++ drop n times))
    end
  else
    if num <? Z.of_nat (length times)
    then RL_pass (u32 (num + 1)) (<[Z.to_nat num := now]> times)
    else RL_fault.

(** The [switch(aodv_msg->type)]; [false] when the message is dropped. *)
Definition ratelimit_check (type : Z) (now : timeval) : M bool :=
  s ← gets sock;
  if type =? AODV_RREQ then
    match ratelimit_step RREQ_RATELIMIT (num_rreq s) (rreq_rl s) now with
    | RL_drop => mret false
    | RL_pass n l =>
        modify (λ w, w <| sock ::= λ s, s <| num_rreq := n |> <| rreq_rl := l |> |>);;
        mret true
    | RL_fault => raise (Fault OutOfBounds)
    end
  else if type =? AODV_RERR then
    match ratelimit_step RERR_RATELIMIT (num_rerr s) (rerr_rl s) now with
    | RL_drop => mret false
    | RL_pass n l =>
        modify (λ w, w <| sock ::= λ s, s <| num_rerr := n |> <| rerr_rl := l |> |>);;
        mret true
    | RL_fault => raise (Fault OutOfBounds)
    end
  else mret true.

(** ** Sending *)

(** [sendto(dev->sock, send_buf, len, ...)]. *)
Definition sendto (dest ttl len : Z) : M bool :=
  ok ← syscall;
  w ← get;
  match load_bytes (buf_of send_buf w) 0 (Z.to_nat (u32 len)) with
  | None => raise (Fault SendBufOverflow)
  | Some payload => if ok : bool then emit (EvSend dest ttl payload);; mret true else mret false
  end.

Definition aodv_socket_send (aodv_msg : bufid) (dest len ttl : Z) : M unit :=
  wait ← gets (λ w, wait_on_reboot (cfg w));
  type ← ld8 aodv_msg 0;
  if negb (wait =? 0) && (type =? AODV_RREP) then mret tt
  else
    ok ← syscall;                                      (* setsockopt(IP_TTL) *)
    if negb ok then mret tt
    else
      rl ← gets (λ w, ratelimit (cfg w));
      pass ← (if negb (rl =? 0)
              then now ← gettimeofday; ratelimit_check type now
              else mret true);
      if negb pass then mret tt
      else
        (if dest =? AODV_BROADCAST
         then now ← gettimeofday;
              modify (λ w, w <| this_host ::= λ h, h <| h_last_broadcast_time := now |> |>)
         else mret tt);;
        _ ← sendto dest ttl len;
        mret tt.

(** ** Access to the buffers *)

Lemma length_buf lim w b : Inv lim w → length (buf_of b w) = 1024%nat.
Proof. intros HI%I_sock. destruct b, HI; done. Qed.

Lemma bytes_buf lim w b : Inv lim w → Forall is_byte (buf_of b w).
Proof. intros HI%I_sock. destruct b, HI; done. Qed.

Lemma of_bytes_1 b : of_bytes [b] = b.
Proof. simpl. lia. Qed.

(** Loads inside a buffer. *)
Lemma ld_run lim w b off n :
  Inv lim w → 0 ≤ off → off + Z.of_nat n ≤ 1024 →
  ∃ bs, ld b off n w = Ok (of_bytes bs) w ∧ length bs = n ∧ Forall is_byte bs.
Proof.
  intros HI H0 H1. pose proof (length_buf _ _ b HI) as Hlen.
  destruct (load_bytes_ok (buf_of b w) off n) as [bs Hbs]; [lia..|].
  exists bs. unfold ld. rewrite Hbs. split_and!; [done|by eapply load_bytes_Some|].
  unfold load_bytes in Hbs. case_match; [|done]. injection Hbs as <-.
  apply Forall_take, Forall_drop, (bytes_buf _ _ _ HI).
Qed.

Lemma safe_ld8 {A} lim b off (k : Z → M A) post w :
  Inv lim w → 0 ≤ off < 1024 →
  (∀ v, is_byte v → ld8 b off w = Ok v w → safe lim (k v) post w) →
  safe lim (ld8 b off ≫= k) post w.
Proof.
  intros HI Hoff Hk. destruct (ld_run lim w b off 1) as (bs & Hrun & Hl & Hb); [done|lia..|].
  destruct bs as [|v []]; try done. rewrite of_bytes_1 in Hrun.
  eapply safe_read; [exact Hrun|]. apply Hk; [by inversion_clear Hb|done].
Qed.

Lemma safe_ld32 {A} lim b off (k : Z → M A) post w :
  Inv lim w → 0 ≤ off ≤ 1020 →
  (∀ v, safe lim (k v) post w) → safe lim (ld32 b off ≫= k) post w.
Proof.
  intros HI Hoff Hk. destruct (ld_run lim w b off 4) as (bs & Hrun & _); [done|lia..|].
  eapply safe_read; [exact Hrun|]. done.
Qed.

Lemma safe_ld_bits {A} lim b off lo n (k : Z → M A) post w :
  Inv lim w → 0 ≤ off < 1024 →
  (∀ v, safe lim (k v) post w) → safe lim (ld_bits b off lo n ≫= k) post w.
Proof.
  intros HI Hoff Hk. unfold ld_bits. apply safe_assoc.
  apply safe_ld8; [done..|]. intros v _ _. by apply safe_mret_bind.
Qed.

(** A new content of a buffer. *)
Lemma Inv_set_buf lim w b l :
  Inv lim w → length l = 1024%nat → Forall is_byte l → Inv lim (set_buf b l w).
Proof.
  intros HI Hl Hb. destruct b; inv_split HI;
    destruct I_sock0; by split.
Qed.

Lemma ext_set_buf b l w : ext w (set_buf b l w).
Proof. destruct b; auto. Qed.

Lemma Forall_store_bytes P l off bs l' :
  Forall P l → Forall P bs → store_bytes l off bs = Some l' → Forall P l'.
Proof.
  intros Hl Hb. unfold store_bytes. case_match; [|done]. intros [= <-].
  rewrite !Forall_app. split_and!; [by apply Forall_take|done|by apply Forall_drop].
Qed.

(** Stores: into the receive buffer they must be in range; beyond the send
    buffer they are the overflow of a RERR. *)
Lemma safe_st lim b off bs w :
  Inv lim w → Forall is_byte bs →
  (b = send_buf ∨ 0 ≤ off ∧ off + Z.of_nat (length bs) ≤ 1024) →
  safe lim (st b off bs)
    (λ _ w', ∃ l, store_bytes (buf_of b w) off bs = Some l ∧ w' = set_buf b l w) w.
Proof.
  intros HI Hbs Hr. pose proof (length_buf _ _ b HI) as Hlen.
  destruct (store_bytes (buf_of b w) off bs) as [l|] eqn:E.
  - eapply safe_run; [unfold st; by rewrite E| |apply ext_set_buf|eauto].
    apply Inv_set_buf; [done|by rewrite (store_bytes_length _ _ _ _ E)|].
    eapply Forall_store_bytes; [|done..]. by eapply bytes_buf.
  - unfold safe, wp, st. rewrite E. destruct Hr as [->|Hr]; [done|].
    destruct (store_bytes_ok (buf_of b w) off bs) as [l Hl]; [lia..|congruence].
Qed.

Lemma safe_st8 lim b off v w :
  Inv lim w → (b = send_buf ∨ 0 ≤ off < 1024) →
  safe lim (st8 b off v)
    (λ _ w', ∃ l, store_bytes (buf_of b w) off [u8 v] = Some l ∧ w' = set_buf b l w) w.
Proof.
  intros HI Hr. apply safe_st; [done| |simpl; destruct Hr; [by left|right; lia]].
  repeat constructor; apply u8_range.
Qed.

Lemma safe_st32 lim b off v w :
  Inv lim w → (b = send_buf ∨ 0 ≤ off ≤ 1020) →
  safe lim (st32 b off v)
    (λ _ w', ∃ l, store_bytes (buf_of b w) off (bytes32 v) = Some l ∧ w' = set_buf b l w) w.
Proof.
  intros HI Hr. apply safe_st; [done|apply bytes32_range|].
  rewrite length_bytes32. destruct Hr; [by left|right; lia].
Qed.

Lemma safe_st_bits lim b off lo n x w :
  Inv lim w → 0 ≤ off < 1024 → safe lim (st_bits b off lo n x) (λ _ _, True) w.
Proof.
  intros HI Hr. unfold st_bits. apply safe_ld8; [done..|]. intros v _ _.
  eapply safe_conseq; [apply safe_st8; [done|by right]|done].
Qed.

Lemma safe_new_msg lim w :
  Inv lim w →
  safe lim aodv_socket_new_msg
    (λ b w', b = send_buf ∧ w' = set_buf send_buf (replicate 1024 0) w) w.
Proof.
  intros HI. eapply safe_run; [reflexivity| |apply (ext_set_buf send_buf)|done].
  apply Inv_set_buf; [done|done|]. apply Forall_replicate. done.
Qed.

(** The message must fit, which every received message does. *)
Lemma safe_queue_msg lim b len w :
  Inv lim w → 0 ≤ len ≤ 1024 →
  safe lim (aodv_socket_queue_msg b len) (λ b' _, b' = send_buf) w.
Proof.
  intros HI Hlen. unfold aodv_socket_queue_msg. sstep.
  rewrite u32_small by lia.
  destruct (load_bytes_ok (buf_of b w) 0 (Z.to_nat len)) as [bs Hbs];
    [lia|rewrite (length_buf _ _ b HI); lia|].
  rewrite Hbs. eapply safe_bind; [apply safe_st; [done| |by left]|].
  - unfold load_bytes in Hbs. case_match; [|done]. injection Hbs as <-.
    apply Forall_take, Forall_drop, (bytes_buf _ _ _ HI).
  - intros _ w' HI' _ _. by apply safe_ret.
Qed.

(** ** Rate limits stay within their arrays *)

Lemma ratelimit_step_ok limit num times now :
  0 ≤ num ≤ limit → 0 < limit → Z.of_nat (length times) = limit → limit < 2 ^ 32 - 1 →
  match ratelimit_step limit num times now with
  | RL_drop => True
  | RL_pass n l => 0 ≤ n ≤ limit ∧ Z.of_nat (length l) = limit
  | RL_fault => False
  end.
Proof.
  intros Hn Hl Hlen Hb. unfold ratelimit_step. destruct (Z.eqb_spec num limit) as [->|Hne].
  - destruct times as [|t0 rest]; [simpl in *; lia|]. destruct (_ <? _); [done|].
    split; [lia|]. rewrite length_insert, length_app, length_take, length_drop.
    simpl in *. lia.
  - rewrite (proj2 (Z.ltb_lt _ _)) by lia.
    split; [rewrite u32_small; lia|by rewrite length_insert].
Qed.

Lemma safe_ratelimit_check lim type now w :
  Inv lim w →
  safe lim (ratelimit_check type now)
    (λ _ w', send_bytes (sock w') = send_bytes (sock w)) w.
Proof.
  intros HI. pose proof (I_sock _ _ HI) as [Hrb Hsb Hrf Hsf Hn1 Hn2 Hl1 Hl2].
  unfold ratelimit_check. sstep.
  destruct (type =? AODV_RREQ).
  - pose proof (ratelimit_step_ok RREQ_RATELIMIT (num_rreq (sock w)) (rreq_rl (sock w)) now)
      as Hs. unfold RREQ_RATELIMIT in *.
    destruct (ratelimit_step _ _ _ _); [by apply safe_ret| |exfalso; apply Hs; lia].
    destruct Hs as [Hs1 Hs2]; [lia..|].
    eapply safe_run; [reflexivity| |auto|done].
    inv_split HI. split; simpl; done || lia.
  - destruct (type =? AODV_RERR); [|by apply safe_ret].
    pose proof (ratelimit_step_ok RERR_RATELIMIT (num_rerr (sock w)) (rerr_rl (sock w)) now)
      as Hs. unfold RERR_RATELIMIT in *.
    destruct (ratelimit_step _ _ _ _); [by apply safe_ret| |exfalso; apply Hs; lia].
    destruct Hs as [Hs1 Hs2]; [lia..|].
    eapply safe_run; [reflexivity| |auto|done].
    inv_split HI. split; simpl; done || lia.
Qed.

(** ** Sending *)

Lemma safe_sendto lim dest ttl len w :
  Inv lim w → head (send_bytes (sock w)) ≠ Some AODV_RREP →
  safe lim (sendto dest ttl len) (λ _ _, True) w.
Proof.
  intros HI Hh. unfold sendto.
  eapply (safe_bind _ _ _ (λ _ w', w' = w <| w_tick ::= S |>)).
  { eapply safe_run; [reflexivity|by apply Inv_tick|auto|done]. }
  intros ok w' HI' _ ->. sstep.
  destruct (load_bytes _ _ _) as [l|] eqn:E; [|by apply safe_raise].
  destruct ok; [|by apply safe_ret].
  eapply safe_bind; [apply safe_emit; [done|]|intros; by apply safe_ret].
  unfold load_bytes in E. case_match; [|done]. injection E as <-. simpl in *.
  by destruct (Z.to_nat (u32 len)), (send_bytes (sock w)).
Qed.

Lemma ld8_head w b v : ld8 b 0 w = Ok v w → head (buf_of b w) = Some v.
Proof.
  unfold ld8, ld. destruct (load_bytes _ _ _) as [bs|] eqn:E; [|done]. intros [= <-].
  pose proof (load_bytes_Some _ _ _ _ E) as (_ & Hlen & _).
  unfold load_bytes in E. case_match; [|done]. injection E as <-.
  destruct (buf_of b w) as [|x l]; [simpl in *; lia|].
  simpl. f_equal. lia.
Qed.

(** No RREP leaves the process: [wait_on_reboot] is set, and what is sent is
    what [aodv_socket_send] looked at. *)
Lemma safe_aodv_socket_send lim dest len ttl w :
  Inv lim w → safe lim (aodv_socket_send send_buf dest len ttl) (λ _ _, True) w.
Proof.
  intros HI. unfold aodv_socket_send. sstep. apply safe_ld8; [done|lia|].
  intros type Htype Hld.
  assert (head (send_bytes (sock w)) = Some type) as Hhead.
  { by apply (ld8_head w send_buf). }
  destruct (_ && _) eqn:E; [by apply safe_ret|].
  assert (type ≠ AODV_RREP) as Htr.
  { pose proof (I_wait _ _ HI). bool_prop; done. }
  assert (head (send_bytes (sock w)) ≠ Some AODV_RREP) as Hok by congruence. clear Hld.
  eapply (safe_bind _ _ _ (λ _ w', send_bytes (sock w') = send_bytes (sock w))).
  { eapply safe_run; [reflexivity|by apply Inv_tick|auto|done]. }
  intros ok w1 HI1 _ E1. destruct ok; [|by apply safe_ret]. simpl. sstep.
  eapply (safe_bind _ _ _ (λ _ w', send_bytes (sock w') = send_bytes (sock w))).
  { destruct (negb (ratelimit (cfg w1) =? 0)); [|by apply safe_ret].
    eapply (safe_bind _ _ _ (λ _ w', send_bytes (sock w') = send_bytes (sock w))).
    - eapply safe_run; [reflexivity|by apply Inv_tick|auto|done].
    - intros now w2 HI2 _ E2.
      eapply safe_conseq; [by apply safe_ratelimit_check|]. simpl. congruence. }
  intros pass w2 HI2 _ E2. destruct pass; [|by apply safe_ret]. simpl.
  eapply (safe_bind _ _ _ (λ _ w', send_bytes (sock w') = send_bytes (sock w))).
  { destruct (dest =? AODV_BROADCAST); [|by apply safe_ret].
    eapply safe_run; [reflexivity| |auto|done]. inv_split HI2. }
  intros _ w3 HI3 _ E3.
  eapply safe_bind; [apply safe_sendto; [done|congruence]|].
  intros. by apply safe_ret.
Qed.

#[export] Hint Resolve safe_aodv_socket_send : safe.

(** Stores into the send buffer, and updates of the host record, as steps. *)
Lemma safe_st8_send lim off v w : Inv lim w → safe lim (st8 send_buf off v) (λ _ _, True) w.
Proof. intros HI. eapply safe_conseq; [apply safe_st8; [done|by left]|done]. Qed.

Lemma safe_st32_send lim off v w : Inv lim w → safe lim (st32 send_buf off v) (λ _ _, True) w.
Proof. intros HI. eapply safe_conseq; [apply safe_st32; [done|by left]|done]. Qed.

Lemma safe_upd_host lim f w :
  Inv lim w → safe lim (modify (λ w, w <| this_host ::= f |>)) (λ _ _, True) w.
Proof. intros HI. eapply safe_run; [reflexivity| |auto|done]. inv_split HI. Qed.

#[export] Hint Resolve safe_st8_send safe_st32_send safe_upd_host : safe.
#[export] Hint Extern 1 (safe _ (st_bits _ _ _ _ _) _ _) =>
  apply safe_st_bits; [assumption|done] : safe.

(** What was stored in a byte is what is loaded from it. *)
Lemma ld8_after_st8 b off v l w :
  store_bytes (buf_of b w) off [u8 v] = Some l → ld8 b off (set_buf b l w) = Ok (u8 v) (set_buf b l w).
Proof.
  intros H. unfold ld8, ld. assert (buf_of b (set_buf b l w) = l) as -> by (by destruct b).
  pose proof (load_store_same _ _ _ _ H) as Hl. simpl in Hl. rewrite Hl.
  by rewrite of_bytes_1.
Qed.

(** A load depends on the buffer only. *)
Lemma ld8_same b off w w' v :
  buf_of b w' = buf_of b w → ld8 b off w = Ok v w → ld8 b off w' = Ok v w'.
Proof. intros H. unfold ld8, ld. rewrite H. case_match; naive_solver. Qed.

(** ** What sending leaves alone *)

Section keeps_socket.
Context {B : Type} (f : world → B).
Hypothesis f_tick : ∀ w, f (w <| w_tick ::= S |>) = f w.
Hypothesis f_sock : ∀ g w, f (w <| sock ::= g |>) = f w.
Hypothesis f_host : ∀ g w, f (w <| this_host ::= g |>) = f w.
Hypothesis f_out : ∀ g w, f (w <| out ::= g |>) = f w.

Lemma keeps_ratelimit_check type now : keeps f (ratelimit_check type now).
Proof. unfold ratelimit_check. keeps_auto; apply f_sock. Qed.

Lemma keeps_sendto dest ttl len : keeps f (sendto dest ttl len).
Proof.
  unfold sendto, emit. keeps_auto; first [by apply keeps_syscall | apply f_out].
Qed.

Lemma keeps_aodv_socket_send b dest len ttl : keeps f (aodv_socket_send b dest len ttl).
Proof.
  unfold aodv_socket_send. keeps_auto.
  all: first [by apply keeps_syscall | by apply keeps_gettimeofday
             | apply keeps_ratelimit_check | apply keeps_sendto | apply f_host
             | apply keeps_ld].
Qed.
End keeps_socket.

(** ** What a send transmits *)

Definition tx_view (w : world) := (out w, send_bytes (sock w)).

Lemma keeps_tx_ratelimit_check type now : keeps tx_view (ratelimit_check type now).
Proof. unfold ratelimit_check. keeps_auto. Qed.

(** A send either drops the message or transmits the first bytes of the send
    buffer, once. *)
Lemma wpo_aodv_socket_send b dest len ttl w :
  0 ≤ len ≤ 1024 →
  wpo (aodv_socket_send b dest len ttl)
    (λ _ w', out w' = out w ∨
       out w' = EvSend dest ttl (take (Z.to_nat len) (send_bytes (sock w))) :: out w) w.
Proof.
  intros Hlen. unfold aodv_socket_send.
  apply (wpo_keeps_bind (λ w, w)); [apply keeps_gets|]. intros wait ? ->.
  apply (wpo_keeps_bind (λ w, w)); [apply keeps_ld|]. intros type ? ->.
  destruct (_ && _); [apply wp_ret; by left|].
  apply (wpo_keeps_bind tx_view); [by apply keeps_syscall|]. intros ok w1 [= O1 S1].
  destruct ok; cbn [negb]; [|apply wp_ret; by left].
  apply (wpo_keeps_bind tx_view); [apply keeps_gets|]. intros rl w2 [= O2 S2].
  apply (wpo_keeps_bind tx_view).
  { destruct (negb _); keeps_auto. apply keeps_tx_ratelimit_check. }
  intros pass w3 [= O3 S3]. destruct pass; cbn [negb]; [|apply wp_ret; left; congruence].
  apply (wpo_keeps_bind tx_view).
  { destruct (_ =? _); keeps_auto. }
  intros _ w4 [= O4 S4]. apply wp_bind. unfold sendto. apply wp_bind.
  eapply wp_eq; [reflexivity|]. apply wp_bind, wp_get. cbn [w_env w_tick].
  rewrite u32_small by lia. unfold load_bytes. cbn [buf_of].
  destruct (_ && _); [|done].
  destruct (e_sys _ _).
  - apply wp_bind. eapply wp_eq; [reflexivity|]. apply wp_ret, wp_ret. right. simpl.
    rewrite drop_0. congruence.
  - apply wp_ret, wp_ret. left. simpl. congruence.
Qed.

(** ** The rate limit, over a sequence of messages *)

(** The times at which messages pass, oldest first, when messages arrive at
    the times [nows] and the limiter starts from [num] and [times]. *)
Fixpoint ratelimit_run (limit num : Z) (times nows : list timeval) : list timeval :=
  match nows with
  | [] => []
  | now :: nows =>
      match ratelimit_step limit num times now with
      | RL_pass num' times' => now :: ratelimit_run limit num' times' nows
      | _ => ratelimit_run limit num times nows
      end
  end.

(** The array holds the latest times that passed. *)
Definition window_of (limit num : Z) (times acc : list timeval) : Prop :=
  num = Z.min (Z.of_nat (length acc)) limit ∧ Z.of_nat (length times) = limit ∧
  take (Z.to_nat num) times = drop (length acc - Z.to_nat limit) acc.

Lemma window_full (t0 : timeval) rest now :
  let n := Z.to_nat (Z.of_nat (length (t0 :: rest)) - 1) in
  <[n := now]> (take n rest ++ drop n (t0 :: rest)) = rest ++ [now].
Proof.
  intros n. assert (n = length rest) as -> by (unfold n; simpl; lia).
  rewrite take_ge by done.
  assert (length (drop (length rest) (t0 :: rest)) = 1%nat) as Hl
    by (rewrite length_drop; simpl; lia).
  destruct (drop (length rest) (t0 :: rest)) as [|x [|]] eqn:E; simpl in Hl; try lia.
  pose proof (insert_app_r rest [x] 0 now) as H. rewrite Nat.add_0_r in H. by rewrite H.
Qed.

(** One message, given what has passed before: the limiter never faults, and
    drops exactly when the window is full and too recent. *)
Lemma ratelimit_step_window limit num times acc now :
  0 < limit < 2 ^ 32 - 1 → window_of limit num times acc →
  match ratelimit_step limit num times now with
  | RL_drop => True
  | RL_pass num' times' => window_of limit num' times' (acc ++ [now]) ∧
      ∀ a, limit ≤ Z.of_nat (length acc) →
        acc !! (length acc - Z.to_nat limit)%nat = Some a → 1000 ≤ timeval_diff now a
  | RL_fault => False
  end.
Proof.
  intros Hlim (Hn & Hlen & Hw). unfold ratelimit_step.
  destruct (Z.eqb_spec num limit) as [->|Hne].
  - destruct times as [|t0 rest]; [simpl in *; lia|].
    rewrite take_ge in Hw by lia.
    destruct (Z.ltb_spec (timeval_diff now t0) 1000); [done|].
    rewrite <-Hlen. rewrite window_full. split; [split_and!|].
    + rewrite length_app. simpl in *. lia.
    + rewrite length_app. simpl. lia.
    + rewrite take_ge by (rewrite length_app; simpl; lia).
      rewrite length_app. simpl length.
      rewrite drop_app_le by lia.
      replace (length acc + 1 - Z.to_nat (Z.of_nat (S (length rest))))%nat
        with (S (length acc - Z.to_nat limit)) by (simpl in Hlen; lia).
      f_equal. rewrite <-(Nat.add_1_r (_ - _)), <-drop_drop, <-Hw. done.
    + intros a _ Ha. rewrite Hlen in Ha.
      assert (drop (length acc - Z.to_nat limit) acc !! 0%nat = Some a) as Ha'
        by (rewrite lookup_drop, Nat.add_0_r; done).
      rewrite <-Hw in Ha'. simpl in Ha'. by simplify_eq.
  - rewrite (proj2 (Z.ltb_lt _ _)) by lia. rewrite u32_small by lia.
    split; [split_and!|].
    + rewrite length_app. simpl. lia.
    + by rewrite length_insert.
    + rewrite Z2Nat.inj_add by lia. change (Z.to_nat 1) with 1%nat. rewrite Nat.add_1_r.
      rewrite (take_S_r _ _ now) by (rewrite list_lookup_insert_eq; [done|lia]).
      rewrite take_insert_ge by lia. rewrite Hw. rewrite length_app. simpl length.
      replace (length acc - Z.to_nat limit)%nat with 0%nat by lia.
      replace (length acc + 1 - Z.to_nat limit)%nat with 0%nat by lia. done.
    + intros a Hge. lia.
Qed.

Lemma ratelimit_run_window limit num times acc nows :
  0 < limit < 2 ^ 32 - 1 → window_of limit num times acc →
  (∀ i a b, acc !! i = Some a → acc !! (i + Z.to_nat limit)%nat = Some b →
     1000 ≤ timeval_diff b a) →
  let all := acc ++ ratelimit_run limit num times nows in
  ∀ i a b, all !! i = Some a → all !! (i + Z.to_nat limit)%nat = Some b →
    1000 ≤ timeval_diff b a.
Proof.
  intros Hlim. revert num times acc. induction nows as [|now nows IH];
    intros num times acc Hw Hacc; cbn [ratelimit_run]; [by rewrite app_nil_r|].
  pose proof (ratelimit_step_window limit num times acc now Hlim Hw) as Hs.
  destruct (ratelimit_step limit num times now) as [|num' times'|]; [by apply IH| |done].
  destruct Hs as [Hw' Hnew].
  replace (acc ++ now :: ratelimit_run limit num' times' nows)
    with ((acc ++ [now]) ++ ratelimit_run limit num' times' nows)
    by (by rewrite <-(assoc_L (++))).
  apply IH; [done|]. intros i a b Ha Hb.
  apply lookup_app_Some in Hb as [Hb|[Hge Hb]].
  - eapply Hacc; [|exact Hb]. rewrite lookup_app_l in Ha; [done|].
    apply lookup_lt_Some in Hb. lia.
  - apply list_lookup_singleton_Some in Hb as [Hi <-].
    apply Hnew; [lia|]. replace (length acc - Z.to_nat limit)%nat with i by lia.
    rewrite lookup_app_l in Ha; [done|]. lia.
Qed.


