(* ===== verification/Wire.v ===== *)
(** * Message layouts and constructors (aodv_rreq.h, aodv_rrep.h, aodv_rerr.h)

    The fields of the C structs by their byte offset, and the functions that
    build messages in the send buffer. *)

From S2P Require Export Socket.

(** ** RREQ *)

Definition RREQ_OFF_FLAGS : Z := 1.
Definition RREQ_OFF_RES2 : Z := 2.
Definition RREQ_OFF_HOPCNT : Z := 3.
Definition RREQ_OFF_ID : Z := 4.
Definition RREQ_OFF_DEST_ADDR : Z := 8.
Definition RREQ_OFF_DEST_SEQNO : Z := 12.
Definition RREQ_OFF_ORIG_ADDR : Z := 16.
Definition RREQ_OFF_ORIG_SEQNO : Z := 20.

Definition rreq_create (flags dest_addr dest_seqno orig_addr : Z) : M bufid :=
  rreq ← aodv_socket_new_msg;
  st8 rreq 0 AODV_RREQ;;
  st_bits rreq RREQ_OFF_FLAGS 5 3 0;;                             (* res1 *)
  st8 rreq RREQ_OFF_RES2 0;;
  st8 rreq RREQ_OFF_HOPCNT 0;;
  id ← gets (λ w, h_rreq_id (this_host w));
  modify (λ w, w <| this_host ::= λ h, h <| h_rreq_id ::= λ i, u32 (i + 1) |> |>);;
  st32 rreq RREQ_OFF_ID (htonl id);;
  st32 rreq RREQ_OFF_DEST_ADDR dest_addr;;
  st32 rreq RREQ_OFF_DEST_SEQNO (htonl dest_seqno);;
  st32 rreq RREQ_OFF_ORIG_ADDR orig_addr;;
  modify (λ w, w <| this_host ::= λ h, h <| h_seqno ::= seqno_incr |> |>);;
  seqno ← gets (λ w, h_seqno (this_host w));
  st32 rreq RREQ_OFF_ORIG_SEQNO (htonl seqno);;
  when (flag flags RREQ_JOIN) (st_bits rreq RREQ_OFF_FLAGS 0 1 1);;
  when (flag flags RREQ_REPAIR) (st_bits rreq RREQ_OFF_FLAGS 1 1 1);;
  when (flag flags RREQ_GRATUITOUS) (st_bits rreq RREQ_OFF_FLAGS 2 1 1);;
  when (flag flags RREQ_DEST_ONLY) (st_bits rreq RREQ_OFF_FLAGS 3 1 1);;
  when (flag flags RREQ_UNKNOWN_SEQNO) (st_bits rreq RREQ_OFF_FLAGS 4 1 1);;
  mret rreq.

(** ** RREP *)

Definition RREP_OFF_FLAGS : Z := 1.
Definition RREP_OFF_PREFIX : Z := 2.
Definition RREP_OFF_HOPCNT : Z := 3.
Definition RREP_OFF_DEST_ADDR : Z := 4.
Definition RREP_OFF_DEST_SEQNO : Z := 8.
Definition RREP_OFF_ORIG_ADDR : Z := 12.
Definition RREP_OFF_LIFETIME : Z := 16.

Definition rrep_create (flags prefix hopcnt dest_addr dest_seqno orig_addr life : Z)
    : M bufid :=
  rrep ← aodv_socket_new_msg;
  st8 rrep 0 AODV_RREP;;
  st_bits rrep RREP_OFF_FLAGS 2 6 0;;                             (* res1 *)
  st_bits rrep RREP_OFF_PREFIX 0 3 0;;                            (* res2 *)
  st_bits rrep RREP_OFF_PREFIX 3 5 prefix;;
  st8 rrep RREP_OFF_HOPCNT hopcnt;;
  st32 rrep RREP_OFF_DEST_ADDR dest_addr;;
  st32 rrep RREP_OFF_DEST_SEQNO (htonl dest_seqno);;
  st32 rrep RREP_OFF_ORIG_ADDR orig_addr;;
  st32 rrep RREP_OFF_LIFETIME (htonl life);;
  when (flag flags RREP_REPAIR) (st_bits rrep RREP_OFF_FLAGS 0 1 1);;
  when (flag flags RREP_ACK) (st_bits rrep RREP_OFF_FLAGS 1 1 1);;
  mret rrep.

Definition rrep_ack_create : M bufid :=
  rrep_ack ← aodv_socket_new_msg;
  st8 rrep_ack 0 AODV_RREP_ACK;;
  mret rrep_ack.

(** ** RERR *)

Definition RERR_OFF_FLAGS : Z := 1.
Definition RERR_OFF_RES2 : Z := 2.
Definition RERR_OFF_DEST_COUNT : Z := 3.
Definition RERR_OFF_DEST_ADDR : Z := 4.
Definition RERR_OFF_DEST_SEQNO : Z := 8.

(** [RERR_CALC_SIZE], an [unsigned long] expression. *)
Definition rerr_size (dest_count : Z) : Z :=
  u32 (RERR_SIZE + u32 (dest_count - 1) * RERR_UDEST_SIZE).

Definition RERR_CALC_SIZE (rerr : bufid) : M Z :=
  n ← ld8 rerr RERR_OFF_DEST_COUNT;
  mret (rerr_size n).

Definition rerr_create (flags dest_addr dest_seqno : Z) : M bufid :=
  rerr ← aodv_socket_new_msg;
  st8 rerr 0 AODV_RERR;;
  st_bits rerr RERR_OFF_FLAGS 0 1 (if flag flags RERR_NODELETE then 1 else 0);;
  st_bits rerr RERR_OFF_FLAGS 1 7 0;;                             (* res1 *)
  st8 rerr RERR_OFF_RES2 0;;
  st32 rerr RERR_OFF_DEST_ADDR dest_addr;;
  st32 rerr RERR_OFF_DEST_SEQNO (htonl dest_seqno);;
  st8 rerr RERR_OFF_DEST_COUNT 1;;
  mret rerr.

(** The new pair goes where the message ends so far; nothing bounds it. *)
Definition rerr_add_udest (rerr : bufid) (udest udest_seqno : Z) : M unit :=
  ud ← RERR_CALC_SIZE rerr;
  st32 rerr ud udest;;
  st32 rerr (ud + 4) (htonl udest_seqno);;
  n ← ld8 rerr RERR_OFF_DEST_COUNT;
  st8 rerr RERR_OFF_DEST_COUNT (n + 1).

(** ** The constructors keep the state well formed *)

Ltac msg_new :=
  eapply safe_bind; [by apply safe_new_msg|];
  intros ? ? ? ? [-> _].

Lemma safe_rreq_create lim flags d s o w :
  Inv lim w → safe lim (rreq_create flags d s o) (λ b _, b = send_buf) w.
Proof. intros HI. unfold rreq_create. msg_new. repeat sstep. Qed.

Lemma safe_rrep_create lim flags p h d s o l w :
  Inv lim w → safe lim (rrep_create flags p h d s o l) (λ b _, b = send_buf) w.
Proof. intros HI. unfold rrep_create. msg_new. repeat sstep. Qed.

Lemma safe_rrep_ack_create lim w :
  Inv lim w → safe lim rrep_ack_create (λ b _, b = send_buf) w.
Proof. intros HI. unfold rrep_ack_create. msg_new. repeat sstep. Qed.

Lemma safe_rerr_create lim flags d s w :
  Inv lim w → safe lim (rerr_create flags d s) (λ b _, b = send_buf) w.
Proof. intros HI. unfold rerr_create. msg_new. repeat sstep. Qed.

Lemma safe_RERR_CALC_SIZE lim b w :
  Inv lim w → safe lim (RERR_CALC_SIZE b) (λ _ _, True) w.
Proof.
  intros HI. unfold RERR_CALC_SIZE. apply safe_ld8; [done|done|].
  intros. by apply safe_ret.
Qed.

#[export] Hint Resolve safe_rreq_create safe_rrep_create safe_rrep_ack_create
  safe_rerr_create safe_RERR_CALC_SIZE : safe.

Lemma safe_rerr_add_udest lim ud s w :
  Inv lim w → safe lim (rerr_add_udest send_buf ud s) (λ _ _, True) w.
Proof.
  intros HI. unfold rerr_add_udest. do 3 sstep.
  apply safe_ld8; [done|done|]. intros. by sstep.
Qed.

#[export] Hint Resolve safe_rerr_add_udest : safe.

(** ** What building a message leaves alone *)

Section keeps_send.
Context {B : Type} (f : world → B).
Hypothesis Hf : ∀ l w, f (set_buf send_buf l w) = f w.

Lemma keeps_st off bs : keeps f (st send_buf off bs).
Proof. intros w [] w'. unfold st. case_match; [|done]. intros [= <-]. apply Hf. Qed.

Lemma keeps_st_bits off lo n x : keeps f (st_bits send_buf off lo n x).
Proof. apply keeps_bind; [apply keeps_ld|]. intros v. apply keeps_st. Qed.

Lemma keeps_new_msg {A} (k : bufid → M A) :
  keeps f (k send_buf) → keeps f (aodv_socket_new_msg ≫= k).
Proof. intros Hk w a w' H. rewrite (Hk _ _ _ H). apply Hf. Qed.

Lemma keeps_rerr_create flags d s : keeps f (rerr_create flags d s).
Proof.
  unfold rerr_create. apply keeps_new_msg.
  repeat first [apply keeps_st | apply keeps_st_bits | apply keeps_bind; [|intros ?]
               | apply keeps_ret].
Qed.

Lemma keeps_rerr_add_udest ud s : keeps f (rerr_add_udest send_buf ud s).
Proof.
  unfold rerr_add_udest, RERR_CALC_SIZE.
  repeat first [apply keeps_st | apply keeps_ld | apply keeps_bind; [|intros ?]
               | apply keeps_ret].
Qed.

Lemma keeps_rreq_create flags d s o :
  (∀ g w, f (w <| this_host ::= g |>) = f w) → keeps f (rreq_create flags d s o).
Proof.
  intros Hh. unfold rreq_create. apply keeps_new_msg.
  repeat first [apply keeps_st | apply keeps_st_bits | apply keeps_gets | by apply keeps_modify
               | apply keeps_when | apply keeps_bind; [|intros ?] | apply keeps_ret].
Qed.
End keeps_send.

#[export] Hint Extern 1 (keeps _ (rerr_create _ _ _)) =>
  apply keeps_rerr_create; reflexivity : keeps.
#[export] Hint Extern 1 (keeps _ (rerr_add_udest _ _ _)) =>
  apply keeps_rerr_add_udest; reflexivity : keeps.

(** ** What the constructors write *)

Lemma store_bytes_run l off bs :
  0 ≤ off → (Z.to_nat off + length bs <= length l)%nat →
  store_bytes l off bs = Some (take (Z.to_nat off) l ++ bs ++ drop (Z.to_nat off + length bs) l).
Proof.
  intros H0 H1. unfold store_bytes.
  rewrite (proj2 (Z.leb_le 0 off)) by done. by rewrite (proj2 (Z.leb_le _ _)) by lia.
Qed.

Lemma load_bytes_run l off n :
  0 ≤ off → (Z.to_nat off + n <= length l)%nat →
  load_bytes l off n = Some (take n (drop (Z.to_nat off) l)).
Proof.
  intros H0 H1. unfold load_bytes.
  rewrite (proj2 (Z.leb_le 0 off)) by done. by rewrite (proj2 (Z.leb_le _ _)) by lia.
Qed.

(** A load only depends on the bytes up to its end. *)
Lemma load_bytes_prefix k l l' off n :
  take k l = take k l' → (k <= length l)%nat → (k <= length l')%nat →
  0 ≤ off → (Z.to_nat off + n <= k)%nat → load_bytes l off n = load_bytes l' off n.
Proof.
  intros Ht Hl Hl' H0 H1. rewrite !load_bytes_run by lia. f_equal.
  rewrite <-(take_drop k l), <-(take_drop k l'), Ht.
  rewrite !drop_app_le by (rewrite length_take; lia).
  by rewrite !take_app_le by (rewrite length_drop, length_take; lia).
Qed.

(** A send buffer that starts with the bytes [l]. *)
Definition sending (l : list Z) (w : world) : world :=
  set_buf send_buf (l ++ replicate (1024 - length l) 0) w.

Lemma st_sending off bs l w :
  0 ≤ off → (Z.to_nat off + length bs <= length l)%nat →
  st send_buf off bs (sending l w)
  = Ok tt (sending (take (Z.to_nat off) l ++ bs ++ drop (Z.to_nat off + length bs) l) w).
Proof.
  intros H0 H1. unfold st, sending.
  change (buf_of send_buf (set_buf send_buf ?x ?y)) with x.
  rewrite store_bytes_run by (rewrite ?length_app; lia).
  rewrite take_app_le, drop_app_le by lia.
  assert (length (take (Z.to_nat off) l ++ bs ++ drop (Z.to_nat off + length bs) l) = length l)
    as ->.
  { rewrite !length_app, length_take, length_drop. lia. }
  by rewrite <-!(assoc_L (++)).
Qed.

Lemma ld8_sending off l w v :
  0 ≤ off → l !! Z.to_nat off = Some v → ld8 send_buf off (sending l w) = Ok v (sending l w).
Proof.
  intros H0 Hv. pose proof (lookup_lt_Some _ _ _ Hv).
  unfold ld8, ld, sending. change (buf_of send_buf (set_buf send_buf ?x ?y)) with x.
  rewrite load_bytes_run by (rewrite ?length_app; lia).
  rewrite drop_app_le by lia. rewrite take_app_le by (rewrite length_drop; lia).
  rewrite <-(take_drop_middle l (Z.to_nat off) v) by done.
  rewrite drop_app_length' by (rewrite length_take; lia). simpl. f_equal. lia.
Qed.

Lemma st8_sending off v l w :
  0 ≤ off → (Z.to_nat off < length l)%nat →
  st8 send_buf off v (sending l w) = Ok tt (sending (<[Z.to_nat off := u8 v]> l) w).
Proof.
  intros H0 H1. unfold st8. rewrite st_sending by (simpl; lia). do 2 f_equal.
  rewrite insert_take_drop by done. simpl. by rewrite Nat.add_1_r.
Qed.

Definition bits_set (v lo n x : Z) : Z :=
  u8 (Z.lor (Z.ldiff v (Z.shiftl (Z.ones n) lo)) (Z.shiftl (Z.land x (Z.ones n)) lo)).

Lemma st_bits_sending off lo n x v l w :
  0 ≤ off → l !! Z.to_nat off = Some v →
  st_bits send_buf off lo n x (sending l w)
  = Ok tt (sending (<[Z.to_nat off := bits_set v lo n x]> l) w).
Proof.
  intros H0 Hv. unfold st_bits. rewrite (bind_run _ _ _ _ _ (ld8_sending _ _ w _ H0 Hv)).
  apply st8_sending; [done|by eapply lookup_lt_Some].
Qed.

Lemma new_msg_sending {A} (k : bufid → M A) n w :
  (n <= 1024)%nat → (aodv_socket_new_msg ≫= k) w = k send_buf (sending (replicate n 0) w).
Proof.
  intros Hn. unfold sending. rewrite length_replicate, <-replicate_add.
  replace (n + (1024 - n))%nat with 1024%nat by lia. done.
Qed.

Lemma sending_host l f w :
  (sending l w) <| this_host ::= f |> = sending l (w <| this_host ::= f |>).
Proof. done. Qed.

Lemma this_host_sending l w : this_host (sending l w) = this_host w.
Proof. done. Qed.

(** Run the statements of a constructor on an explicit buffer. *)
Ltac numeral r := lazymatch r with Z0 => idtac | Zpos _ => idtac end.
Ltac closed_consts :=
  repeat match goal with
  | |- context [Z.to_nat ?o] =>
      let n := eval vm_compute in (Z.to_nat o) in change (Z.to_nat o) with n
  | |- context [bits_set ?v ?lo ?n ?x] =>
      let r := eval vm_compute in (bits_set v lo n x) in
      numeral r; change (bits_set v lo n x) with r
  | |- context [u8 ?v] =>
      let r := eval vm_compute in (u8 v) in numeral r; change (u8 v) with r
  end;
  cbn [take drop app length insert list_insert bytes32 Nat.add].

Ltac store_step :=
  lazymatch goal with
  | |- (gets ?f ≫= ?k) ?w = ?r => change (k (f w) w = r); cbv beta;
      rewrite ?this_host_sending
  | |- (modify ?f ≫= ?k) ?w = ?r =>
      change (k tt (f w) = r); cbv beta; rewrite ?sending_host
  | |- (when ?b _ ≫= _) _ = _ => destruct b; cbn [when]
  | |- (mret _ ≫= ?k) ?w = ?r => change (k tt w = r); cbv beta
  | |- (st_bits _ _ _ _ _ ≫= _) _ = _ =>
      erewrite bind_run by (eapply st_bits_sending; [done|reflexivity]); closed_consts
  | |- (st8 _ _ _ ≫= _) _ = _ =>
      erewrite bind_run by (apply st8_sending; [done|cbn [length]; vm_compute; lia]);
      closed_consts
  | |- (st32 _ _ _ ≫= _) _ = _ =>
      erewrite bind_run by (apply st_sending; [done|cbn [length bytes32]; vm_compute; lia]);
      closed_consts
  end.

Definition rreq_flag_byte (flags : Z) : Z :=
  Z.b2z (flag flags RREQ_JOIN) + 2 * Z.b2z (flag flags RREQ_REPAIR)
  + 4 * Z.b2z (flag flags RREQ_GRATUITOUS) + 8 * Z.b2z (flag flags RREQ_DEST_ONLY)
  + 16 * Z.b2z (flag flags RREQ_UNKNOWN_SEQNO).

(** The message of RFC 3561, section 5.1. *)
Definition rreq_bytes (flags id dest_addr dest_seqno orig_addr orig_seqno : Z) : list Z :=
  [AODV_RREQ; rreq_flag_byte flags; 0; 0] ++ bytes32 (htonl id) ++ bytes32 dest_addr
  ++ bytes32 (htonl dest_seqno) ++ bytes32 orig_addr ++ bytes32 (htonl orig_seqno).

Lemma rreq_create_run flags d s o w :
  let h := this_host w in
  rreq_create flags d s o w =
  Ok send_buf (sending (rreq_bytes flags (h_rreq_id h) d s o (seqno_incr (h_seqno h)))
    (w <| this_host := h <| h_rreq_id ::= λ i, u32 (i + 1) |> <| h_seqno ::= seqno_incr |> |>)).
Proof.
  intros h. unfold rreq_create. rewrite (new_msg_sending _ 24) by lia.
  cbn [replicate]. unfold rreq_bytes, rreq_flag_byte.
  repeat store_step; reflexivity.
Qed.

(** The message of RFC 3561, section 5.2. *)
Definition rrep_bytes (flags prefix hopcnt dest_addr dest_seqno orig_addr life : Z) : list Z :=
  [AODV_RREP; Z.b2z (flag flags RREP_REPAIR) + 2 * Z.b2z (flag flags RREP_ACK);
   bits_set 0 3 5 prefix; u8 hopcnt]
  ++ bytes32 dest_addr ++ bytes32 (htonl dest_seqno) ++ bytes32 orig_addr
  ++ bytes32 (htonl life).

Lemma rrep_create_run flags prefix hopcnt d s o life w :
  rrep_create flags prefix hopcnt d s o life w =
  Ok send_buf (sending (rrep_bytes flags prefix hopcnt d s o life) w).
Proof.
  unfold rrep_create. rewrite (new_msg_sending _ 20) by lia.
  cbn [replicate]. unfold rrep_bytes. repeat store_step; reflexivity.
Qed.

(** The message of RFC 3561, section 5.3, with one destination. *)
Definition udest_bytes (u : Z * Z) : list Z := bytes32 u.1 ++ bytes32 (htonl u.2).

Definition rerr_bytes (flags n : Z) (udests : list (Z * Z)) : list Z :=
  [AODV_RERR; Z.b2z (flag flags RERR_NODELETE); 0; n] ++ flat_map udest_bytes udests.

Lemma rerr_create_run flags d s w :
  rerr_create flags d s w = Ok send_buf (sending (rerr_bytes flags 1 [(d, s)]) w).
Proof.
  unfold rerr_create. rewrite (new_msg_sending _ 12) by lia.
  cbn [replicate]. unfold rerr_bytes. 
  destruct (flag flags RERR_NODELETE); repeat store_step; reflexivity.
Qed.

(** ** What a receiver reads *)

(** A datagram that starts with the bytes [l] has been received. *)
Definition received (l : list Z) (w : world) : Prop :=
  take (length l) (recv_bytes (sock w)) = l.

Lemma ld_received off n l w :
  received l w → 0 ≤ off → (Z.to_nat off + n <= length l)%nat →
  ld recv_buf off n w = Ok (of_bytes (take n (drop (Z.to_nat off) l))) w.
Proof.
  intros Hr H0 H1. unfold ld. cbn [buf_of].
  assert (length l <= length (recv_bytes (sock w)))%nat as Hlen.
  { rewrite <-Hr at 1. rewrite length_take. lia. }
  rewrite (load_bytes_prefix (length l) _ l); [|by rewrite Hr, take_ge|lia..].
  by rewrite load_bytes_run by lia.
Qed.

Lemma of_bytes_take32 z l : of_bytes (take 4 (bytes32 z ++ l)) = u32 z.
Proof. rewrite take_app_length' by done. apply of_bytes32. Qed.

(** [ntohl] of a word that was written with [htonl]. *)
Lemma ntohl_wire z : 0 ≤ z < 2 ^ 32 → ntohl (u32 (htonl z)) = z.
Proof.
  intros Hz. rewrite u32_small by apply htonl_range. by apply ntohl_htonl.
Qed.

Lemma seqno_incr_range s : 0 ≤ s < 2 ^ 32 → 0 ≤ seqno_incr s < 2 ^ 32.
Proof. unfold seqno_incr. intros. cases; bool_prop; lia. Qed.

Lemma ld_bits_received off lo n l w v :
  received l w → 0 ≤ off → l !! Z.to_nat off = Some v →
  ld_bits recv_buf off lo n w = Ok (Z.land (Z.shiftr v lo) (Z.ones n)) w.
Proof.
  intros Hr H0 Hv. pose proof (lookup_lt_Some _ _ _ Hv).
  unfold ld_bits. erewrite bind_run by (apply (ld_received _ _ l); [done|done|lia]).
  rewrite (drop_S _ _ _ Hv). cbn [take]. by rewrite of_bytes_1.
Qed.


(** Round trip of a RREP: a node that receives the 20 bytes that
    [rrep_create] wrote reads back the destination, its sequence number, the
    originator, the hop count, the lifetime and the flags, the way
    [rrep_process] reads them. *)
Theorem rrep_roundtrip flags prefix hopcnt d s o life w w' :
  0 ≤ d < 2 ^ 32 → 0 ≤ s < 2 ^ 32 → 0 ≤ o < 2 ^ 32 → 0 ≤ life < 2 ^ 32 →
  0 ≤ hopcnt < 256 →
  ∃ w1 msg, rrep_create flags prefix hopcnt d s o life w = Ok send_buf w1 ∧
    length msg = Z.to_nat RREP_SIZE ∧ take (Z.to_nat RREP_SIZE) (send_bytes (sock w1)) = msg ∧
    (received msg w' →
     ld8 recv_buf 0 w' = Ok AODV_RREP w' ∧ ld8 recv_buf RREP_OFF_HOPCNT w' = Ok hopcnt w' ∧
     ld32 recv_buf RREP_OFF_DEST_ADDR w' = Ok d w' ∧
     ld32 recv_buf RREP_OFF_ORIG_ADDR w' = Ok o w' ∧
     (∃ i, ld32 recv_buf RREP_OFF_DEST_SEQNO w' = Ok i w' ∧ ntohl i = s) ∧
     (∃ i, ld32 recv_buf RREP_OFF_LIFETIME w' = Ok i w' ∧ ntohl i = life) ∧
     ld_bits recv_buf RREP_OFF_FLAGS 1 1 w' = Ok (Z.b2z (flag flags RREP_ACK)) w').
Proof.
  intros Hd Hs Ho Hl Hh.
  set (msg := rrep_bytes flags prefix hopcnt d s o life).
  eexists _, msg. split; [apply rrep_create_run|].
  split; [done|]. split; [done|]. intros Hr. unfold ld8, ld32.
  assert (∀ off n, 0 ≤ off → (Z.to_nat off + n <= 20)%nat →
    ld recv_buf off n w' = Ok (of_bytes (take n (drop (Z.to_nat off) msg))) w') as Hld.
  { intros. by apply ld_received. }
  split_and!; rewrite ?Hld by (done || (vm_compute; lia)).
  - done.
  - change (take _ _) with [u8 hopcnt]. by rewrite of_bytes_1, u8_small.
  - change (take _ _) with (bytes32 d). by rewrite of_bytes32, u32_small.
  - change (take _ _) with (bytes32 o). by rewrite of_bytes32, u32_small.
  - eexists. split; [done|]. change (take _ _) with (bytes32 (htonl s)).
    rewrite of_bytes32. by apply ntohl_wire.
  - eexists. split; [done|]. change (take _ _) with (bytes32 (htonl life)).
    rewrite of_bytes32. by apply ntohl_wire.
  - erewrite ld_bits_received by done. f_equal.
    by destruct (flag flags RREP_REPAIR), (flag flags RREP_ACK).
Qed.

(** ** RERRs with several destinations *)

Lemma length_udests l :
  length (flat_map udest_bytes l) = (8 * length l)%nat.
Proof.
  induction l as [|u l IH]; [done|]. cbn [flat_map]. rewrite length_app, IH.
  change (length (udest_bytes u)) with 8%nat. simpl. lia.
Qed.

Lemma length_rerr_bytes flags n l : length (rerr_bytes flags n l) = (4 + 8 * length l)%nat.
Proof. unfold rerr_bytes. rewrite length_app, length_udests. done. Qed.

Lemma rerr_size_range n : 1 ≤ n ≤ 256 → rerr_size n = 4 + 8 * n.
Proof.
  intros. unfold rerr_size, RERR_SIZE, RERR_UDEST_SIZE.
  rewrite (u32_small (n - 1)) by lia. rewrite u32_small; lia.
Qed.

(** Zeros after the message may be counted as part of it. *)
Lemma sending_pad k l w :
  (length l + k <= 1024)%nat → sending l w = sending (l ++ replicate k 0) w.
Proof.
  intros Hl. unfold sending. rewrite length_app, length_replicate, <-(assoc_L (++)).
  rewrite <-replicate_add. do 3 f_equal. lia.
Qed.

(** A store right after the message extends it, if there is room. *)
Lemma st_append bs l w :
  (length l + length bs <= 1024)%nat →
  st send_buf (Z.of_nat (length l)) bs (sending l w) = Ok tt (sending (l ++ bs) w).
Proof.
  intros Hl. rewrite (sending_pad (length bs)) by done.
  rewrite st_sending by (rewrite ?length_app, ?length_replicate; lia).
  rewrite Nat2Z.id, take_app_length, <-drop_drop, drop_app_length.
  rewrite drop_ge by (by rewrite length_replicate). by rewrite app_nil_r.
Qed.

Lemma st_append_overflow bs l w :
  (length l <= 1024 < length l + length bs)%nat →
  st send_buf (Z.of_nat (length l)) bs (sending l w) = Err (Fault SendBufOverflow).
Proof.
  intros Hl. unfold st, sending, store_bytes.
  change (buf_of send_buf (set_buf send_buf ?x ?y)) with x.
  rewrite (proj2 (Z.leb_gt (Z.of_nat (length l) + _) _)); [by rewrite andb_false_r|].
  rewrite length_app, length_replicate. lia.
Qed.

(** One more destination, while there is room and when there is none. *)
Lemma rerr_add_run flags l d s w :
  1 ≤ Z.of_nat (length l) ≤ 127 →
  rerr_add_udest send_buf d s (sending (rerr_bytes flags (Z.of_nat (length l)) l) w)
  = if Z.of_nat (length l) <? 127
    then Ok tt (sending (rerr_bytes flags (Z.of_nat (length l) + 1) (l ++ [(d, s)])) w)
    else Err (Fault SendBufOverflow).
Proof.
  set (n := Z.of_nat (length l)). intros Hn. set (L := rerr_bytes flags n l).
  assert (Z.of_nat (length L) = 4 + 8 * n) as HL by (unfold L; rewrite length_rerr_bytes; lia).
  assert (∀ l', (1 <= length l')%nat → ld8 send_buf RERR_OFF_DEST_COUNT
    (sending (rerr_bytes flags n l') w) = Ok n (sending (rerr_bytes flags n l') w)) as Hcount.
  { intros l' _. by apply ld8_sending. }
  assert (RERR_CALC_SIZE send_buf (sending L w) = Ok (4 + 8 * n) (sending L w)) as Hsize.
  { unfold RERR_CALC_SIZE. rewrite (bind_run _ _ _ n (sending L w)) by (apply ld8_sending; done).
    by rewrite rerr_size_range by lia. }
  unfold rerr_add_udest. rewrite (bind_run _ _ _ _ _ Hsize). cbv beta. rewrite <-HL.
  erewrite bind_run by (apply st_append; rewrite length_bytes32; lia).
  replace (Z.of_nat (length L) + 4) with (Z.of_nat (length (L ++ bytes32 d)))
    by (rewrite length_app, length_bytes32; lia).
  destruct (Z.ltb_spec n 127) as [Hlt|Hge].
  - erewrite bind_run by (apply st_append; rewrite length_app, !length_bytes32; lia).
    erewrite bind_run by (apply ld8_sending; done).
    rewrite st8_sending by (done || (rewrite !length_app, !length_bytes32; change (Z.to_nat _) with 3%nat; lia)).
    rewrite u8_small by lia. unfold L, rerr_bytes. cbn [app].
    change (Z.to_nat RERR_OFF_DEST_COUNT) with 3%nat. cbn [insert list_insert].
    rewrite flat_map_app. cbn [flat_map]. rewrite app_nil_r.
    unfold udest_bytes at 3. by rewrite <-(assoc_L (++)).
  - unfold st32. unfold mbind at 1, M_bind at 1. rewrite st_append_overflow; [done|].
    rewrite !length_app, !length_bytes32. lia.
Qed.

(** Building a RERR. The first destination goes into a message made by
    [rerr_create], every further one is added by [rerr_add_udest]; up to 127
    destinations the send buffer holds exactly the message of RFC 3561 with
    all of them in order, and the 128th overruns the 1024-byte buffer: nothing
    in the code bounds their number. *)
Theorem rerr_build_spec flags d s rest w :
  (b ← rerr_create flags d s; for_each rest (λ u, rerr_add_udest b u.1 u.2)) w
  = if Z.of_nat (length rest) <? 127
    then Ok tt (sending (rerr_bytes flags (Z.of_nat (length rest) + 1) ((d, s) :: rest)) w)
    else Err (Fault SendBufOverflow).
Proof.
  rewrite (bind_run _ _ _ _ _ (rerr_create_run flags d s w)). cbv beta.
  assert (∀ rest l, 1 ≤ Z.of_nat (length l) ≤ 127 →
    for_each rest (λ u, rerr_add_udest send_buf u.1 u.2)
      (sending (rerr_bytes flags (Z.of_nat (length l)) l) w)
    = if Z.of_nat (length l + length rest) <=? 127
      then Ok tt (sending (rerr_bytes flags (Z.of_nat (length l + length rest)) (l ++ rest)) w)
      else Err (Fault SendBufOverflow)) as Hloop.
  { clear. intros rest. induction rest as [|[d s] rest IH]; intros l Hl; cbn [for_each].
    - rewrite Nat.add_0_r, app_nil_r. by rewrite (proj2 (Z.leb_le _ _)) by lia.
    - cbn [fst snd]. unfold mbind, M_bind. rewrite rerr_add_run by done.
      destruct (Z.ltb_spec (Z.of_nat (length l)) 127) as [Hlt|Hge].
      + replace (Z.of_nat (length l) + 1) with (Z.of_nat (length (l ++ [(d, s)])))
          by (rewrite length_app; simpl; lia).
        rewrite IH by (rewrite length_app; simpl; lia).
        rewrite length_app. simpl. rewrite <-(assoc_L (++)). simpl.
        by replace (length l + 1 + length rest)%nat with (length l + S (length rest))%nat by lia.
      + rewrite (proj2 (Z.leb_gt _ _)); [done|]. simpl. lia. }
  change (rerr_bytes flags 1 [(d, s)])
    with (rerr_bytes flags (Z.of_nat (length [(d, s)])) [(d, s)]).
  rewrite (Hloop rest [(d, s)]) by (simpl; lia). cbn [length app].
  destruct (Z.ltb_spec (Z.of_nat (length rest)) 127) as [Hlt|Hge].
  - rewrite (proj2 (Z.leb_le _ _)) by lia.
    by replace (Z.of_nat (1 + length rest)) with (Z.of_nat (length rest) + 1) by lia.
  - by rewrite (proj2 (Z.leb_gt _ _)) by lia.
Qed.

Lemma drop_udests i l : drop (8 * i) (flat_map udest_bytes l) = flat_map udest_bytes (drop i l).
Proof.
  revert l. induction i as [|i IH]; intros l; [by rewrite Nat.mul_0_r, !drop_0|].
  destruct l as [|u l]; [by rewrite !drop_nil|].
  replace (8 * S i)%nat with (length (udest_bytes u) + 8 * i)%nat by (simpl; lia).
  cbn [flat_map]. rewrite <-drop_drop, drop_app_length. apply IH.
Qed.

(** A node that receives a RERR reads back, where [rerr_process] looks
    for them, the number of destinations, the size of the message, and each
    pair of an unreachable destination and its sequence number. *)
Theorem rerr_roundtrip flags all w' :
  1 ≤ Z.of_nat (length all) ≤ 127 →
  Forall (λ u, 0 ≤ u.1 < 2 ^ 32 ∧ 0 ≤ u.2 < 2 ^ 32) all →
  received (rerr_bytes flags (Z.of_nat (length all)) all) w' →
  ld8 recv_buf RERR_OFF_DEST_COUNT w' = Ok (Z.of_nat (length all)) w' ∧
  RERR_CALC_SIZE recv_buf w' = Ok (4 + 8 * Z.of_nat (length all)) w' ∧
  (∀ i d s, all !! i = Some (d, s) →
     let udest := RERR_OFF_DEST_ADDR + RERR_UDEST_SIZE * Z.of_nat i in
     ld32 recv_buf udest w' = Ok d w' ∧
     ∃ v, ld32 recv_buf (udest + 4) w' = Ok v w' ∧ ntohl v = s).
Proof.
  intros Hn Hall Hr. set (L := rerr_bytes _ _ _) in *.
  assert (length L = 4 + 8 * length all)%nat as HL by apply length_rerr_bytes.
  assert (ld8 recv_buf RERR_OFF_DEST_COUNT w' = Ok (Z.of_nat (length all)) w') as Hc.
  { unfold ld8. rewrite (ld_received _ _ L) by (done || (rewrite HL; vm_compute Z.to_nat; lia)).
    change (take 1 _) with [Z.of_nat (length all)]. by rewrite of_bytes_1. }
  split; [done|]. split.
  { unfold RERR_CALC_SIZE. rewrite (bind_run _ _ _ _ _ Hc). by rewrite rerr_size_range by lia. }
  intros i d s Hi udest. pose proof (lookup_lt_Some _ _ _ Hi) as Hlt.
  rewrite Forall_forall in Hall.
  destruct (Hall (d, s)) as [Hd Hs]; [by eapply list_elem_of_lookup_2|]. cbn in Hd, Hs.
  assert (drop (Z.to_nat udest) L = bytes32 d ++ bytes32 (htonl s) ++ flat_map udest_bytes (drop (S i) all))
    as Hdrop.
  { replace (Z.to_nat udest) with (4 + 8 * i)%nat
      by (unfold udest, RERR_OFF_DEST_ADDR, RERR_UDEST_SIZE; lia).
    unfold L, rerr_bytes. rewrite <-drop_drop. cbn [app drop]. rewrite drop_0, drop_udests.
    rewrite (drop_S _ _ _ Hi). cbn [flat_map]. unfold udest_bytes at 1.
    by rewrite <-(assoc_L (++)). }
  unfold ld32. split; [|eexists; split].
  - rewrite (ld_received _ _ L) by (done || unfold udest, RERR_OFF_DEST_ADDR, RERR_UDEST_SIZE; lia).
    rewrite Hdrop, of_bytes_take32. by rewrite u32_small.
  - rewrite (ld_received _ _ L) by (done || unfold udest, RERR_OFF_DEST_ADDR, RERR_UDEST_SIZE; lia).
    replace (Z.to_nat (udest + 4)) with (Z.to_nat udest + length (bytes32 d))%nat
      by (rewrite length_bytes32; unfold udest, RERR_OFF_DEST_ADDR, RERR_UDEST_SIZE; lia).
    rewrite <-drop_drop, Hdrop, drop_app_length, of_bytes_take32. done.
  - by apply ntohl_wire.
Qed.
