(* ===== verification/SeekList.v ===== *)
(** * Pending route discoveries (seek_list.c)

    The list [sl] of destinations a RREQ was sent for. *)

From S2P Require Export TimerQueue.

Definition seek_list_insert (dest_addr dest_seqno ttl flags : Z) : M ptr :=
  live ← gets (λ w, size (seeks w));
  entry ← malloc live;
  match entry with
  | None => exit_fail
  | Some e =>
      modify (λ w, w <| seeks ::= <[e := Seek dest_addr dest_seqno flags 1 ttl]> |>);;
      _ ← timer_init (Some (T_seek e)) (Some route_discovery_timeout_h) (Some e);
      modify (λ w, w <| sl ::= cons e |>);;
      mret (Some e)
  end.

(** [free] of the entry, which ends its timer structure too. *)
Definition free_seek (e : nat) : M unit :=
  modify (λ w, w <| seeks ::= delete e |> <| timers ::= delete (T_seek e) |>).

Definition seek_list_remove (entry : ptr) : M Z :=
  match entry with
  | None => mret (-1)
  | Some e =>
      _ ← get_seek entry;
      modify (λ w, w <| sl ::= del e |>);;
      _ ← timer_remove (Some (T_seek e));
      free_seek e;;
      mret 0
  end.

Fixpoint seek_scan (dest_addr : Z) (l : list nat) : M ptr :=
  match l with
  | [] => mret None
  | pos :: l' =>
      entry ← get_seek (Some pos);
      if sk_dest_addr entry =? dest_addr then mret (Some pos) else seek_scan dest_addr l'
  end.

Definition seek_list_check (dest_addr : Z) : M ptr :=
  l ← gets sl; seek_scan dest_addr l.

(** ** Lookup *)

Lemma seek_scan_run w dest l :
  (∀ s, s ∈ l → is_Some (seeks w !! s)) →
  ∃ p, seek_scan dest l w = Ok p w ∧
    match p with
    | Some s => s ∈ l ∧ ∃ e, seeks w !! s = Some e ∧ sk_dest_addr e = dest
    | None => ∀ s e, s ∈ l → seeks w !! s = Some e → sk_dest_addr e ≠ dest
    end.
Proof.
  induction l as [|s l IH]; intros Hl; cbn [seek_scan].
  { exists None. split; [done|]. by intros ?? ?%elem_of_nil. }
  destruct (Hl s) as [e He]; [left|].
  rewrite (bind_run _ _ w e w) by (unfold get_seek, deref; by rewrite He). cbv beta.
  destruct (Z.eqb_spec (sk_dest_addr e) dest) as [Heq|Hne].
  { exists (Some s). split; [done|]. split; [left|eauto]. }
  destruct IH as (p & Hrun & Hp); [intros; apply Hl; by right|].
  exists p. split; [done|]. destruct p as [s'|].
  - destruct Hp as [? ?]. split; [by right|done].
  - intros s' e' [->|Hin]%elem_of_cons He'; [by simplify_eq|eauto].
Qed.

(** [seek_list_check] reads only, and finds an entry exactly when there is
    one for the destination. *)
Lemma seek_list_check_run lim w dest :
  Inv lim w →
  ∃ p, seek_list_check dest w = Ok p w ∧
    match p with
    | Some s => ∃ e, seeks w !! s = Some e ∧ sk_dest_addr e = dest
    | None => ∀ s e, seeks w !! s = Some e → sk_dest_addr e ≠ dest
    end.
Proof.
  intros HI. pose proof (I_sl _ _ HI) as [_ Hsl].
  destruct (seek_scan_run w dest (sl w)) as (p & Hrun & Hp); [intros; by apply Hsl|].
  exists p. split; [exact Hrun|]. destruct p; [naive_solver|].
  intros s e He. apply (Hp s); [|done]. apply Hsl. eauto.
Qed.

Definition seek_live (w : world) (p : ptr) : Prop :=
  match p with Some s => is_Some (seeks w !! s) | None => True end.

Lemma safe_seek_list_check {A} lim dest (k : ptr → M A) post w :
  Inv lim w → (∀ p, seek_live w p → safe lim (k p) post w) →
  safe lim (seek_list_check dest ≫= k) post w.
Proof.
  intros HI Hk. destruct (seek_list_check_run lim w dest HI) as (p & Hrun & Hp).
  eapply safe_read; [exact Hrun|]. apply Hk. destruct p; naive_solver.
Qed.

(** ** Insertion and removal keep the state well formed *)

Lemma safe_seek_list_insert lim d s t f w :
  Inv lim w →
  safe lim (seek_list_insert d s t f)
    (λ p w', ∃ e, p = Some e ∧ is_Some (seeks w' !! e)) w.
Proof.
  intros HI. unfold seek_list_insert. sstep.
  apply safe_malloc; [done|by intros; apply safe_raise|]. intros w' e HI' -> -> _ Hlt.
  assert (seeks w !! w_next w = None) as Hn.
  { apply eq_None_not_Some. intros Hs%(fresh_seeks _ (I_fresh _ _ HI)). lia. }
  eapply safe_run; [reflexivity| |auto|].
  - by apply (Inv_new_seek _ _ HI').
  - eexists. split; [done|]. simpl. rewrite lookup_insert_eq. eauto.
Qed.

(** The state after the entry [e] is gone. *)
Definition seek_freed (e : nat) (w : world) : world :=
  w <| sl ::= del e |> <| tq ::= del (T_seek e) |> <| exptq ::= del (T_seek e) |>
    <| seeks ::= delete e |> <| timers ::= delete (T_seek e) |>.

Lemma seek_list_remove_run lim w e :
  Inv lim w → is_Some (seeks w !! e) →
  seek_list_remove (Some e) w = Ok 0 (seek_freed e w).
Proof.
  intros HI [s Hs].
  assert (is_Some (timers w !! T_seek e)) as [x Hx] by (apply (I_owner _ _ HI); simpl; eauto).
  unfold seek_list_remove.
  rewrite (bind_run _ _ w s w) by (unfold get_seek, deref; by rewrite Hs). cbv beta.
  rewrite (bind_run _ _ w tt (w <| sl ::= del e |>)) by done.
  erewrite bind_run by (apply timer_remove_run; exact Hx).
  rewrite (bind_run _ _ _ tt (seek_freed e w)); [done|].
  unfold free_seek, modify, seek_freed, unlinked. f_equal.
  world_simpl. by rewrite delete_insert_eq.
Qed.

Lemma Inv_seek_freed lim w e :
  Inv lim w → is_Some (seeks w !! e) →
  Inv lim (seek_freed e w) ∧ ext w (seek_freed e w).
Proof.
  intros HI Hs.
  assert (is_Some (timers w !! T_seek e)) as [x Hx] by (apply (I_owner _ _ HI); simpl; eauto).
  destruct (Inv_unlinked lim w (T_seek e) x HI Hx) as [HI1 [_ HE]]. split.
  - pose proof (Inv_free_seek lim _ HI1 e) as HF.
    assert (seek_freed e w = (unlinked (T_seek e) x w)
      <| sl ::= del e |> <| seeks ::= delete e |> <| timers ::= delete (T_seek e) |>) as ->.
    { unfold unlinked, seek_freed. world_simpl. by rewrite delete_insert_eq. }
    apply HF. simpl. rewrite <-del_app. apply not_elem_of_del.
  - apply ext_rts_eq; [done|exact HE].
Qed.

Lemma safe_seek_list_remove lim p w :
  Inv lim w → seek_live w p → safe lim (seek_list_remove p) (λ _ _, True) w.
Proof.
  intros HI Hp. destruct p as [e|]; [|by apply safe_ret].
  destruct (Inv_seek_freed lim w e) as [? ?]; [done..|].
  eapply safe_run; [by eapply seek_list_remove_run|done..].
Qed.

(** [seek_list_remove(seek_list_check(dest))]. *)
Lemma safe_seek_forget lim dest w :
  Inv lim w →
  safe lim (s ← seek_list_check dest; _ ← seek_list_remove s; mret tt) (λ _ _, True) w.
Proof.
  intros HI. apply safe_seek_list_check; [done|]. intros p Hp.
  eapply safe_bind; [by apply safe_seek_list_remove|]. intros. by apply safe_ret.
Qed.

#[export] Hint Resolve safe_seek_forget : safe.
