(* ===== verification/RouteTable.v ===== *)
(** * The routing table (routing_table.c), all but [rt_table_update]

    [RT_TABLESIZE] buckets of routing entries, hashed by destination, with
    each entry's precursor list. [rt_table_update] calls [neighbor_link_break]
    and is in [Neighbor.v]. *)

From S2P Require Export Netlink SeekList.

(** ** Buckets *)

Definition bucket (index : Z) : M (list nat) := λ w,
  match rt_buckets (rt_tbl w) !! Z.to_nat index with
  | Some l => Ok l w
  | None => Err (Fault OutOfBounds)
  end.

Definition bucket_upd (index : Z) (f : list nat → list nat) : M unit :=
  modify (λ w, w <| rt_tbl ::= λ t, t <| rt_buckets ::= alter f (Z.to_nat index) |> |>).

(** [hashing]: the bucket index and the stored hash. *)
Definition hashing (addr : Z) : Z * Z := (Z.land addr RT_TABLEMASK, addr).

Definition rt_table_init : M unit :=
  modify (λ w, w <| rt_tbl := RTbl 0 0 (replicate (Z.to_nat RT_TABLESIZE) []) |>).

Fixpoint rt_scan (dest hash : Z) (l : list nat) : M ptr :=
  match l with
  | [] => mret None
  | pos :: l' =>
      rt ← get_rt (Some pos);
      if negb (rt_hash rt =? hash) then rt_scan dest hash l'
      else if dest =? rt_dest_addr rt then mret (Some pos)
      else rt_scan dest hash l'
  end.

Definition rt_table_check (dest : Z) : M ptr :=
  n ← gets (λ w, rt_num_entries (rt_tbl w));
  if n =? 0 then mret None
  else
    let '(index, hash) := hashing dest in
    l ← bucket index;
    rt_scan dest hash l.

(** The duplicate test of [rt_table_insert]. *)
Fixpoint rt_present (dest : Z) (l : list nat) : M bool :=
  match l with
  | [] => mret false
  | pos :: l' =>
      rt ← get_rt (Some pos);
      if rt_dest_addr rt =? dest then mret true else rt_present dest l'
  end.

Definition upd_num_entries (f : Z → Z) : M unit :=
  modify (λ w, w <| rt_tbl ::= λ t, t <| rt_num_entries ::= λ n, u32 (f n) |> |>).
Definition upd_num_active (f : Z → Z) : M unit :=
  modify (λ w, w <| rt_tbl ::= λ t, t <| rt_num_active ::= λ n, u32 (f n) |> |>).

Definition set_handler (t : timer_id) (h : handler) : M unit :=
  upd_timer t (λ x, x <| t_handler := Some h |>).

Definition rt_table_insert (dest next hops seqno lifetime : Z) (state : rt_state)
    (flags : Z) : M ptr :=
  let '(index, hash) := hashing dest in
  l ← bucket index;
  dup ← rt_present dest l;
  if dup : bool then mret None
  else
    live ← gets (λ w, size (rts w));
    p ← malloc live;
    match p with
    | None => exit_fail
    | Some r =>
        modify (λ w, w <| rts ::= <[r :=
          RT dest seqno next (u8 hops) flags state (TV 0 0) 0 hash 0 []]> |>);;
        _ ← timer_init (Some (T_rt r)) (Some route_expire_timeout_h) (Some r);
        _ ← timer_init (Some (T_ack r)) (Some rrep_ack_timeout_h) (Some r);
        _ ← timer_init (Some (T_hello r)) (Some hello_timeout_h) (Some r);
        upd_num_entries (λ n, n + 1);;
        bucket_upd index (cons r);;
        lifetime ← match state with
          | INVALID =>
              if flag flags RT_REPAIR then
                set_handler (T_rt r) local_repair_timeout_h;;
                t ← ACTIVE_ROUTE_TIMEOUT; mret (u32 t)
              else
                set_handler (T_rt r) route_delete_timeout_h;;
                t ← DELETE_PERIOD; mret (u32 t)
          | VALID =>
              upd_num_active (λ n, n + 1);;
              ifindex ← gets (λ w, dev_ifindex (h_dev (this_host w)));
              _ ← nl_send_add_route_msg dest next (s32 hops) lifetime flags (s32 ifindex);
              mret lifetime
          end;
        when (negb (lifetime =? 0)) (timer_set_timeout (T_rt r) (s32 lifetime));;
        rt ← get_rt p;
        when (bool_decide (rt_st rt = VALID))
          (s ← seek_list_check dest; _ ← seek_list_remove s; mret tt);;
        mret p
    end.

Definition rt_table_update_timeout (rt : ptr) (lifetime : Z) : M ptr :=
  match rt with
  | None => mret None
  | Some r =>
      e ← get_rt rt;
      match rt_st e with
      | VALID =>
          now ← gettimeofday;
          let new_timeout := timeval_add_msec now lifetime in
          x ← get_timer (T_rt r);
          when (timeval_diff (t_timeout x) new_timeout <? 0)
            (timer_set_timeout (T_rt r) (s32 lifetime))
      | INVALID => mret tt
      end;;
      mret rt
  end.

(** One half of [rt_table_update_route_timeouts]: refresh [rt] when
    [refresh] holds, then its next hop's route. *)
Definition refresh_route (rt : nat) (refresh : rt_table_t → bool) : M unit :=
  e ← get_rt (Some rt);
  match rt_st e with
  | INVALID => mret tt
  | VALID =>
      h ← get_timer (T_hello rt);
      art ← ACTIVE_ROUTE_TIMEOUT;
      when (refresh e || t_used h)
        (_ ← rt_table_update_timeout (Some rt) (u32 art); mret tt);;
      e ← get_rt (Some rt);
      next_hop_rt ← rt_table_check (rt_next_hop e);
      match next_hop_rt with
      | None => mret tt
      | Some _ =>
          n ← get_rt next_hop_rt;
          h ← get_timer (T_hello rt);
          when (bool_decide (rt_st n = VALID)
                && negb (rt_dest_addr n =? rt_dest_addr e) && t_used h)
            (art ← ACTIVE_ROUTE_TIMEOUT;
             _ ← rt_table_update_timeout next_hop_rt (u32 art); mret tt)
      end
  end.

Definition rt_table_update_route_timeouts (fwd_rt rev_rt : ptr) : M unit :=
  match fwd_rt with
  | None => mret tt
  | Some f => refresh_route f (λ e, flag (rt_flags e) RT_INET_DEST || negb (rt_hopcnt e =? 1))
  end;;
  match rev_rt with
  | None => mret tt
  | Some r => refresh_route r (λ e, negb (rt_hello_cnt e =? 1))
  end.

(** ** Invalidation and deletion *)

Definition rt_table_invalidate (rt : ptr) : M Z :=
  _ ← gettimeofday;
  match rt with
  | None => mret (-1)
  | Some r =>
      e ← get_rt rt;
      match rt_st e with
      | INVALID => mret (-1)
      | VALID =>
          _ ← timer_remove (Some (T_rt r));
          _ ← timer_remove (Some (T_hello r));
          _ ← timer_remove (Some (T_ack r));
          upd_rt rt (λ e, e <| rt_st := INVALID |>);;
          upd_num_active (λ n, n - 1);;
          upd_rt rt (λ e, e <| rt_hello_cnt := 0 |>);;
          upd_rt rt (λ e, e <| rt_dest_seqno ::= seqno_incr |>);;
          upd_rt rt (λ e, e <| rt_last_hello_time := TV 0 0 |>);;
          e ← get_rt rt;
          _ ← nl_send_del_route_msg (rt_dest_addr e) (rt_next_hop e) (rt_hopcnt e);
          (if flag (rt_flags e) RT_REPAIR then
             set_handler (T_rt r) local_repair_timeout_h;;
             t ← ACTIVE_ROUTE_TIMEOUT; timer_set_timeout (T_rt r) t
           else
             set_handler (T_rt r) route_delete_timeout_h;;
             t ← DELETE_PERIOD; timer_set_timeout (T_rt r) t);;
          mret 0
      end
  end.

(** ** Precursors *)

Definition precursor_add (rt : ptr) (addr : Z) : M unit :=
  match rt with
  | None => mret tt
  | Some _ =>
      e ← get_rt rt;
      if existsb (Z.eqb addr) (rt_precursors e) then mret tt
      else
        pr ← malloc (length (rt_precursors e));
        match pr with
        | None => exit_fail
        | Some _ =>
            upd_rt rt (λ e, e <| rt_precursors ::= cons addr |>);;
            upd_rt rt (λ e, e <| rt_nprecursor ::= λ n, u32 (n + 1) |>)
        end
  end.

(** The list without the first node whose neighbor is [addr]. *)
Fixpoint remove_first (addr : Z) (l : list Z) : list Z :=
  match l with
  | [] => []
  | n :: l' => if n =? addr then l' else n :: remove_first addr l'
  end.

Definition precursor_remove (rt : ptr) (addr : Z) : M unit :=
  match rt with
  | None => mret tt
  | Some _ =>
      e ← get_rt rt;
      when (existsb (Z.eqb addr) (rt_precursors e))
        (upd_rt rt (λ e, e <| rt_precursors ::= remove_first addr |>);;
         upd_rt rt (λ e, e <| rt_nprecursor ::= λ n, u32 (n - 1) |>))
  end.

Definition precursor_list_destroy (rt : ptr) : M unit :=
  match rt with
  | None => mret tt
  | Some _ =>
      e ← get_rt rt;
      for_each (rt_precursors e) (λ _,
        upd_rt rt (λ e, e <| rt_precursors ::= tail |>);;
        upd_rt rt (λ e, e <| rt_nprecursor ::= λ n, u32 (n - 1) |>))
  end.

(** [FIRST_PREC(rt->precursors)->neighbor]. *)
Definition first_prec (rt : ptr) : M Z :=
  e ← get_rt rt;
  match rt_precursors e with
  | n :: _ => mret n
  | [] => raise (Fault OutOfBounds)
  end.

(** [free] of an entry, which ends its three timer structures too. *)
Definition free_rt (r : nat) : M unit :=
  modify (λ w, w <| rts ::= delete r |>
    <| timers ::= λ m, delete (T_rt r) (delete (T_ack r) (delete (T_hello r) m)) |>).

Definition rt_table_delete (rt : ptr) : M unit :=
  match rt with
  | None => mret tt
  | Some r =>
      e ← get_rt rt;
      bucket_upd (Z.land (rt_hash e) RT_TABLEMASK) (del r);;
      precursor_list_destroy rt;;
      e ← get_rt rt;
      match rt_st e with
      | VALID =>
          _ ← nl_send_del_route_msg (rt_dest_addr e) (rt_next_hop e) (rt_hopcnt e);
          upd_num_active (λ n, n - 1)
      | INVALID => mret tt
      end;;
      _ ← timer_remove (Some (T_rt r));
      _ ← timer_remove (Some (T_hello r));
      _ ← timer_remove (Some (T_ack r));
      upd_num_entries (λ n, n - 1);;
      free_rt r
  end.

Definition rt_table_destroy : M unit :=
  for_each (seqZ 0 RT_TABLESIZE) (λ i,
    l ← bucket i;
    for_each l (λ pos, rt_table_delete (Some pos))).

(** ** Facts about the hash table *)

Lemma land_tablemask a : 0 ≤ Z.land a RT_TABLEMASK < 64.
Proof.
  change RT_TABLEMASK with (Z.ones 6). rewrite Z.land_ones by lia.
  apply Z.mod_pos_bound. lia.
Qed.

Lemma bucket_of_lt e : (bucket_of e < 64)%nat.
Proof. unfold bucket_of. pose proof (land_tablemask (rt_dest_addr e)). lia. Qed.

Lemma lookup_bucket lim m t i :
  table_ok lim m t → (i < 64)%nat → is_Some (rt_buckets t !! i).
Proof. intros HT Hi. apply lookup_lt_is_Some. by rewrite (tbl_length _ _ _ HT). Qed.

Lemma table_ok_insert m t r e :
  table_ok None m t → m !! r = None → Z.of_nat (size m) < 2 ^ 32 - 1 →
  table_ok None (<[r := e]> m)
    (t <| rt_num_entries ::= λ n, u32 (n + 1) |>
       <| rt_buckets ::= alter (cons r) (bucket_of e) |>).
Proof.
  intros HT Hr Hsz. pose proof HT as [Hl Hnd Hlive Hlink Hn _].
  assert (size (<[r:=e]> m) = S (size m)) as Hs by (by apply map_size_insert_None).
  assert (∀ i l, rt_buckets t !! i = Some l → r ∉ l) as Hnot.
  { intros i l Hi Hin. destruct (Hlive i l r Hi Hin) as (_ & x & ? & _). congruence. }
  split; simpl.
  - by rewrite length_alter.
  - intros i l. destruct (decide (i = bucket_of e)) as [->|].
    + rewrite list_lookup_alter_eq. intros (l' & Hl' & ->)%fmap_Some.
      constructor; eauto.
    + rewrite list_lookup_alter_ne by done. eauto.
  - intros i l r' Hi Hin. split; [done|].
    assert (r' = r ∧ i = bucket_of e ∨ ∃ l', rt_buckets t !! i = Some l' ∧ r' ∈ l')
      as [[-> ->]|(l' & Hi' & Hin')].
    { destruct (decide (i = bucket_of e)) as [->|].
      - rewrite list_lookup_alter_eq in Hi. apply fmap_Some in Hi as (l' & Hl' & ->).
        apply elem_of_cons in Hin as [->|?]; eauto.
      - rewrite list_lookup_alter_ne in Hi by done. eauto. }
    + exists e. by rewrite lookup_insert_eq.
    + destruct (Hlive i l' r' Hi' Hin') as (_ & x & Hx & ?). exists x.
      rewrite lookup_insert_ne; [done|]. intros ->. congruence.
  - intros r' x [[<- <-]|[Hne Hx]]%lookup_insert_Some _.
    + destruct (lookup_bucket _ _ _ (bucket_of e) HT (bucket_of_lt e)) as [l Hl'].
      exists (r :: l). rewrite list_lookup_alter_eq, Hl'. split; [done|left].
    + destruct (Hlink r' x Hx) as (l & Hl' & Hin); [done|].
      destruct (decide (bucket_of x = bucket_of e)) as [Heq|].
      * exists (r :: l). rewrite Heq in *. rewrite list_lookup_alter_eq, Hl'.
        split; [done|by right].
      * exists l. by rewrite list_lookup_alter_ne.
  - rewrite Hs, Hn, u32_small; lia.
  - rewrite Hs. lia.
Qed.

Lemma table_ok_unlink m t r e :
  table_ok None m t → m !! r = Some e →
  table_ok (Some r) m (t <| rt_buckets ::= alter (del r) (bucket_of e) |>).
Proof.
  intros [Hl Hnd Hlive Hlink Hn Hsz] Hr. split; simpl; [| | | |done|done].
  - by rewrite length_alter.
  - intros i l. destruct (decide (i = bucket_of e)) as [->|].
    + rewrite list_lookup_alter_eq. intros (l' & Hl' & ->)%fmap_Some. eauto with lists.
    + rewrite list_lookup_alter_ne by done. eauto.
  - intros i l r' Hi Hin. destruct (decide (i = bucket_of e)) as [->|Hne].
    + rewrite list_lookup_alter_eq in Hi. apply fmap_Some in Hi as (l' & Hl' & ->).
      apply elem_of_del in Hin as [? Hin]. destruct (Hlive _ _ _ Hl' Hin) as [_ ?].
      split; [congruence|done].
    + rewrite list_lookup_alter_ne in Hi by done.
      destruct (Hlive _ _ _ Hi Hin) as (_ & x & Hx & Hb).
      split; [|eauto]. intros [= <-]. congruence.
  - intros r' x Hx Hne. destruct (Hlink r' x Hx) as (l & Hl' & Hin); [done|].
    destruct (decide (bucket_of x = bucket_of e)) as [Heq|].
    + exists (del r l). rewrite Heq in *. rewrite list_lookup_alter_eq, Hl'.
      split; [done|]. apply elem_of_del. split; [congruence|done].
    + exists l. by rewrite list_lookup_alter_ne.
Qed.

Lemma table_ok_free m t r e :
  table_ok (Some r) m t → m !! r = Some e →
  table_ok None (delete r m) (t <| rt_num_entries ::= λ n, u32 (n - 1) |>).
Proof.
  intros [Hl Hnd Hlive Hlink Hn Hsz] Hr.
  assert (size m = S (size (delete r m))) as Hs.
  { rewrite <-(insert_delete_id m r e) at 1 by done.
    apply map_size_insert_None, lookup_delete_eq. }
  split; simpl; [done|done|..].
  - intros i l r' Hi Hin. destruct (Hlive _ _ _ Hi Hin) as (Hne & x & Hx & Hb).
    split; [done|]. exists x. rewrite lookup_delete_ne; [done|congruence].
  - intros r' x [? Hx]%lookup_delete_Some _. apply Hlink; [done|congruence].
  - rewrite Hn, u32_small; lia.
  - lia.
Qed.

Lemma rts_ok_insert m r e :
  rts_ok m → entry_ok e → (∀ r' e', m !! r' = Some e' → rt_dest_addr e' ≠ rt_dest_addr e) →
  rts_ok (<[r := e]> m).
Proof.
  intros [He Hu] Hok Hne. split.
  - intros r' x [[<- <-]|[? ?]]%lookup_insert_Some; eauto.
  - intros r1 r2 e1 e2 [[<- <-]|[? H1]]%lookup_insert_Some
      [[<- <-]|[? H2]]%lookup_insert_Some Heq; eauto.
    + exfalso. by eapply Hne.
    + exfalso. by eapply Hne.
Qed.

Lemma rts_ok_delete m r : rts_ok m → rts_ok (delete r m).
Proof.
  intros [He Hu]. split.
  - intros r' x [? ?]%lookup_delete_Some. eauto.
  - intros r1 r2 e1 e2 [? ?]%lookup_delete_Some [? ?]%lookup_delete_Some. eauto.
Qed.

(** ** Lookup *)

Lemma rt_scan_run w dest l :
  (∀ r, r ∈ l → ∃ e, rts w !! r = Some e ∧ rt_hash e = rt_dest_addr e) →
  ∃ p, rt_scan dest dest l w = Ok p w ∧
    match p with
    | Some r => r ∈ l ∧ ∃ e, rts w !! r = Some e ∧ rt_dest_addr e = dest
    | None => ∀ r e, r ∈ l → rts w !! r = Some e → rt_dest_addr e ≠ dest
    end.
Proof.
  induction l as [|r l IH]; intros Hl; cbn [rt_scan].
  { exists None. split; [done|]. by intros ?? ?%elem_of_nil. }
  destruct (Hl r) as (e & He & Hh); [left|].
  rewrite (bind_run _ _ w e w) by (unfold get_rt, deref; by rewrite He). cbv beta.
  destruct IH as (p & Hrun & Hp); [intros; apply Hl; by right|].
  destruct (Z.eq_dec (rt_dest_addr e) dest) as [Heq|Hne].
  - rewrite Hh, Heq, Z.eqb_refl. simpl. exists (Some r).
    split; [done|]. split; [left|eauto].
  - rewrite Hh, (proj2 (Z.eqb_neq _ _) Hne). simpl. exists p. split; [done|].
    destruct p as [r'|].
    + destruct Hp as [? ?]. split; [by right|done].
    + intros r' e' [->|Hin]%elem_of_cons He'; [by simplify_eq|eauto].
Qed.

(** [rt_table_check] only reads, and finds an entry exactly when the table
    links one for the destination. *)
Lemma rt_table_check_run lim w dest :
  Inv lim w →
  ∃ p, rt_table_check dest w = Ok p w ∧
    match p with
    | Some r => ∃ e, rts w !! r = Some e ∧ rt_dest_addr e = dest ∧ lim ≠ Some r
    | None => ∀ r e, rts w !! r = Some e → lim ≠ Some r → rt_dest_addr e ≠ dest
    end.
Proof.
  intros HI. pose proof (I_table _ _ HI) as HT. pose proof HT as [Hl Hnd Hlive Hlink Hn Hsz].
  unfold rt_table_check, mbind, M_bind, gets. rewrite Hn.
  destruct (Z.eqb_spec (Z.of_nat (size (rts w))) 0) as [H0|H0].
  { exists None. split; [done|]. intros r e He.
    assert (rts w = ∅) as Hem by (apply map_size_empty_inv; lia).
    rewrite Hem in He. by apply lookup_empty_Some in He. }
  unfold hashing, bucket.
  destruct (lookup_bucket _ _ _ (Z.to_nat (Z.land dest RT_TABLEMASK)) HT) as [l Hb].
  { pose proof (land_tablemask dest). lia. }
  rewrite Hb. destruct (rt_scan_run w dest l) as (p & Hrun & Hp).
  { intros r Hin. destruct (Hlive _ _ r Hb Hin) as (_ & e & He & _).
    exists e. split; [done|]. by eapply rts_entry; [apply I_rts in HI|]. }
  exists p. split; [exact Hrun|]. destruct p as [r|].
  - destruct Hp as (Hin & e & He & Hd). exists e. split_and!; [done..|].
    by eapply Hlive.
  - intros r e He Hne Hd. destruct (Hlink r e He Hne) as (l' & Hl' & Hin).
    unfold bucket_of in Hl'. rewrite Hd, Hb in Hl'. simplify_eq. by eapply Hp.
Qed.

(** No entry for the destination. *)
Definition absent (w : world) (dest : Z) : Prop :=
  ∀ r e, rts w !! r = Some e → rt_dest_addr e ≠ dest.

Lemma safe_rt_table_check {A} lim dest (k : ptr → M A) post w :
  Inv lim w →
  (∀ p, valid w p → (p = None → lim = None → absent w dest) → safe lim (k p) post w) →
  safe lim (rt_table_check dest ≫= k) post w.
Proof.
  intros HI Hk. destruct (rt_table_check_run lim w dest HI) as (p & Hrun & Hp).
  eapply safe_read; [exact Hrun|]. apply Hk.
  - destruct p; [|done]. destruct Hp as (e & ? & _). by exists e.
  - intros -> -> r e He. by eapply Hp.
Qed.

Lemma safe_rt_table_check_last lim dest w :
  Inv lim w → safe lim (rt_table_check dest) (λ p w', valid w' p) w.
Proof.
  intros HI. destruct (rt_table_check_run lim w dest HI) as (p & Hrun & Hp).
  eapply safe_run; [exact Hrun|done|done|].
  destruct p; [|done]. destruct Hp as (e & ? & _). by exists e.
Qed.

Lemma rt_present_run w dest l :
  (∀ r, r ∈ l → live w r) →
  ∃ b, rt_present dest l w = Ok b w ∧
    (b = false → ∀ r e, r ∈ l → rts w !! r = Some e → rt_dest_addr e ≠ dest) ∧
    (b = true → ¬ absent w dest).
Proof.
  induction l as [|r l IH]; intros Hl; cbn [rt_present].
  { exists false. split_and!; [done| |done]. by intros _ ?? ?%elem_of_nil. }
  destruct (Hl r) as [e He]; [left|].
  rewrite (bind_run _ _ w e w) by (unfold get_rt, deref; by rewrite He). cbv beta.
  destruct (Z.eqb_spec (rt_dest_addr e) dest) as [Heq|Hne].
  { exists true. split_and!; [done..|]. intros _ Habs. by apply (Habs r e). }
  destruct IH as (b & Hrun & Hb & Ht); [intros; apply Hl; by right|].
  exists b. split_and!; [done| |done]. intros Hf r' e' [->|Hin]%elem_of_cons He'; [by simplify_eq|eauto].
Qed.

(** ** Insertion *)

(** The state with a new entry [e] at the address [r]. *)
Definition rt_added (r : nat) (e : rt_table_t) (w : world) : world :=
  w <| rts ::= <[r := e]> |>
    <| timers ::= <[T_rt r := Timer false (TV 0 0) (Some route_expire_timeout_h) (Some r)]> |>
    <| timers ::= <[T_ack r := Timer false (TV 0 0) (Some rrep_ack_timeout_h) (Some r)]> |>
    <| timers ::= <[T_hello r := Timer false (TV 0 0) (Some hello_timeout_h) (Some r)]> |>
    <| rt_tbl ::= λ t, t <| rt_num_entries ::= λ n, u32 (n + 1) |> |>
    <| rt_tbl ::= λ t, t <| rt_buckets ::= alter (cons r) (bucket_of e) |> |>.

Lemma Inv_rt_added w r e :
  Inv None w → rts w !! r = None → (r < w_next w)%nat → entry_ok e →
  Z.of_nat (size (rts w)) < 2 ^ 32 - 1 →
  (∀ r' e', rts w !! r' = Some e' → rt_dest_addr e' ≠ rt_dest_addr e) →
  Inv None (rt_added r e w) ∧ ext w (rt_added r e w).
Proof.
  intros HI Hr Hlt Hok Hsz Hdup.
  assert (∀ t, t = T_rt r ∨ t = T_ack r ∨ t = T_hello r → timers w !! t = None) as Hdead.
  { intros t Ht. eapply dead_timer; [done|].
    destruct Ht as [->|[->| ->]]; simpl; rewrite Hr; by intros [? ?]. }
  split.
  - inv_split HI.
    + by apply rts_ok_insert.
    + by apply (table_ok_insert _ (rt_tbl w)).
    + apply queue_ok_new; [apply queue_ok_new; [apply queue_ok_new| | |]| | |];
        rewrite ?lookup_insert_ne by done; simpl; auto 10.
    + intros t. rewrite !lookup_insert_is_Some', (I_owner _ _ HI).
      destruct t; simpl; rewrite ?lookup_insert_is_Some'; naive_solver.
    + intros r' [<-|?]%lookup_insert_is_Some'; eauto.
  - split; simpl; [|lia]. intros r' x Hx. exists x.
    rewrite lookup_insert_ne; [done|]. intros ->. congruence.
Qed.

(** The timers of an entry may change their function, within what
    [timer_ok] allows. *)
Lemma safe_set_handler lim r h w :
  Inv lim w → live w r →
  h ∈ [route_expire_timeout_h; route_delete_timeout_h; local_repair_timeout_h] →
  safe lim (set_handler (T_rt r) h) (λ _ _, True) w.
Proof.
  intros HI Hl Hh. eapply safe_conseq; [apply safe_upd_timer|done]; [done|done|done|].
  intros x [Hd _]. split; [done|]. simpl.
  rewrite !elem_of_cons, elem_of_nil in Hh. naive_solver.
Qed.

#[export] Hint Extern 1 (safe _ (set_handler (T_rt _) _) _ _) =>
  apply safe_set_handler; [assumption|assumption|set_solver] : safe.

Lemma safe_upd_num_active lim f w :
  Inv lim w → safe lim (upd_num_active f) (λ _ _, True) w.
Proof.
  intros HI. eapply safe_run; [reflexivity| |auto|done].
  inv_split HI. by destruct I_table0.
Qed.

#[export] Hint Resolve safe_upd_num_active : safe.
#[export] Hint Extern 1 (safe _ (upd_rt (Some _) _) _ _) =>
  apply safe_upd_rt; [assumption|assumption|by intros ? [? ?]] : safe.

Lemma safe_rt_table_insert dest next hops seqno lifetime state flags w :
  Inv None w →
  safe None (rt_table_insert dest next hops seqno lifetime state flags)
    (λ p w', valid w' p ∧ (p = None → ¬ absent w dest)) w.
Proof.
  intros HI. unfold rt_table_insert, hashing, ACTIVE_ROUTE_TIMEOUT, DELETE_PERIOD.
  destruct (lookup_bucket _ _ _ (Z.to_nat (Z.land dest RT_TABLEMASK)) (I_table _ _ HI))
    as [l Hb]; [pose proof (land_tablemask dest); lia|].
  eapply safe_read; [unfold bucket; by rewrite Hb|].
  destruct (rt_present_run w dest l) as (b & Hrun & Hdup & Habs).
  { intros r Hin. destruct (tbl_live _ _ _ (I_table _ _ HI) _ _ _ Hb Hin) as (_ & e & ? & _).
    by exists e. }
  eapply safe_read; [exact Hrun|]. destruct b; [apply safe_ret; naive_solver|].
  sstep. apply safe_malloc; [done|by intros; apply safe_raise|].
  intros w' r HI' -> -> Hsz Hlt. set (r := w_next w).
  set (e := RT dest seqno next (u8 hops) flags state (TV 0 0) 0 dest 0 []).
  set (w' := w <| w_tick ::= S |> <| w_next ::= S |>).
  destruct (Inv_rt_added w' r e) as [HI2 HE2]; try done.
  { apply eq_None_not_Some. intros Hs%(fresh_rts _ (I_fresh _ _ HI)). unfold r in Hs. lia. }
  { intros r' e' He' Hd. destruct (tbl_linked _ _ _ (I_table _ _ HI) r' e' He') as (l' & Hl' & Hin);
      [done|]. unfold bucket_of in Hl'. rewrite Hd in Hl'. simpl in Hl'.
    rewrite Hb in Hl'. simplify_eq. by eapply Hdup. }
  assert (live (rt_added r e w') r) as Hlive by (eexists; apply lookup_insert_eq).
  apply wp_modify_bind. do 3 apply wp_timer_init_bind. do 2 apply wp_modify_bind.
  apply (safe_resume _ _ _ _ (rt_added r e w')); [by etrans|].
  eapply safe_bind; [|call_post].
  { instantiate (1 := λ _ _, True). destruct state; repeat sstep. }
  by repeat sstep.
Qed.

(** For a destination not in the table yet, the entry is created. *)
Lemma safe_rt_table_insert_new dest next hops seqno lifetime state flags w :
  Inv None w → absent w dest →
  safe None (rt_table_insert dest next hops seqno lifetime state flags)
    (λ p w', ∃ r, p = Some r ∧ live w' r) w.
Proof.
  intros HI Ha. eapply safe_conseq; [by apply safe_rt_table_insert|].
  intros [r|] w' [Hv Hn]; [eauto|naive_solver].
Qed.

(** [sstep] with the lookups, which only read. *)
Ltac rstep :=
  cbv beta;
  lazymatch goal with
  | |- safe _ (rt_table_check _ ≫= _) _ _ =>
      let p := fresh "p" in let Hp := fresh "Hp" in let Ha := fresh "Ha" in
      apply safe_rt_table_check; [side|intros p Hp Ha]
  | |- safe _ (seek_list_check _ ≫= _) _ _ =>
      let p := fresh "p" in let Hp := fresh "Hp" in
      apply safe_seek_list_check; [side|intros p Hp]
  | _ => sstep
  end.

(** ** Timeouts *)

Lemma safe_rt_table_update_timeout lim p lifetime w :
  Inv lim w → valid w p →
  safe lim (rt_table_update_timeout p lifetime) (λ p' _, p' = p) w.
Proof.
  intros HI Hp. unfold rt_table_update_timeout. destruct p as [r|]; [|by apply safe_ret].
  repeat sstep.
Qed.

#[export] Hint Resolve safe_rt_table_update_timeout : safe.

Lemma safe_refresh_route lim r f w :
  Inv lim w → live w r → safe lim (refresh_route r f) (λ _ _, True) w.
Proof.
  intros HI Hr. unfold refresh_route, ACTIVE_ROUTE_TIMEOUT. sstep.
  destruct (rt_st e); [by sstep|]. repeat rstep.
Qed.

Lemma safe_rt_table_update_route_timeouts lim f r w :
  Inv lim w → valid w f → valid w r →
  safe lim (rt_table_update_route_timeouts f r) (λ _ _, True) w.
Proof.
  intros HI Hf Hr. unfold rt_table_update_route_timeouts.
  repeat first [by apply safe_refresh_route | sstep].
Qed.

#[export] Hint Resolve safe_rt_table_update_route_timeouts : safe.

(** ** Invalidation *)

Lemma safe_rt_table_invalidate lim p w :
  Inv lim w → valid w p → safe lim (rt_table_invalidate p) (λ _ _, True) w.
Proof.
  intros HI Hp. unfold rt_table_invalidate, ACTIVE_ROUTE_TIMEOUT, DELETE_PERIOD.
  sstep. destruct p as [r|]; [|by sstep]. sstep.
  destruct (rt_st e); [by sstep|]. repeat sstep.
Qed.

#[export] Hint Resolve safe_rt_table_invalidate : safe.


(** ** Precursors *)

Lemma rts_insert_twice w r a b :
  (w <| rts ::= <[r := a]> |>) <| rts ::= <[r := b]> |> = w <| rts ::= <[r := b]> |>.
Proof. world_simpl. apply insert_insert_eq. Qed.

Lemma rts_insert_id w r e : rts w !! r = Some e → w <| rts ::= <[r := e]> |> = w.
Proof. intros He. world_simpl. by apply insert_id. Qed.

(** The loop empties the list and brings the counter to zero. *)
Lemma precursor_list_destroy_run w r e :
  rts w !! r = Some e → entry_ok e →
  precursor_list_destroy (Some r) w =
  Ok tt (w <| rts ::= <[r := e <| rt_precursors := [] |> <| rt_nprecursor := 0 |>]> |>).
Proof.
  intros He [_ Hn]. unfold precursor_list_destroy.
  rewrite (bind_run _ _ w e w) by (unfold get_rt, deref; by rewrite He). cbv beta.
  remember (rt_precursors e) as l eqn:Hl. revert w e He Hn Hl.
  induction l as [|a l IH]; intros w e He Hn Hl; cbn [for_each].
  - assert (e <| rt_precursors := [] |> <| rt_nprecursor := 0 |> = e) as ->.
    { destruct e; simpl in Hn, Hl; subst; reflexivity. }
    by rewrite rts_insert_id.
  - set (e1 := e <| rt_precursors ::= tail |>).
    set (e2 := e1 <| rt_nprecursor ::= λ n, u32 (n - 1) |>).
    erewrite bind_run; last first.
    { erewrite bind_run by (apply upd_rt_run, He).
      rewrite (upd_rt_run _ _ e1) by apply lookup_insert_eq. by rewrite rts_insert_twice. }
    rewrite (IH _ e2).
    + by rewrite rts_insert_twice.
    + apply lookup_insert_eq.
    + unfold e2, e1. simpl. rewrite Hn. unfold u32. rewrite Zminus_mod_idemp_l.
      f_equal. simpl. lia.
    + unfold e2, e1. simpl. by rewrite <-Hl.
Qed.

Lemma safe_precursor_list_destroy lim p w :
  Inv lim w → valid w p → safe lim (precursor_list_destroy p) (λ _ _, True) w.
Proof.
  intros HI Hp. destruct p as [r|]; [|by apply safe_ret]. destruct Hp as [e He].
  assert (entry_ok e) as Hok by (by eapply rts_entry; [apply I_rts in HI|]).
  destruct (Inv_upd_rt lim w r e (e <| rt_precursors := [] |> <| rt_nprecursor := 0 |>))
    as [? ?]; [done..| |done|].
  { by destruct Hok. }
  eapply safe_run; [by apply precursor_list_destroy_run|done..].
Qed.

(** A node is a precursor at most once, and is added at the head. *)
Lemma precursor_add_run w r e addr :
  rts w !! r = Some e → entry_ok e →
  (addr ∈ rt_precursors e ∧ precursor_add (Some r) addr w = Ok tt w) ∨
  (addr ∉ rt_precursors e) ∧
  (precursor_add (Some r) addr w = Err (Exit (-1)) ∨
   ∃ n, precursor_add (Some r) addr w
   = Ok tt (w <| w_tick := n |> <| w_next ::= S |>
      <| rts ::= <[r := e <| rt_precursors ::= cons addr |>
                          <| rt_nprecursor ::= λ n, u32 (n + 1) |>]> |>)).
Proof.
  intros He Hok. unfold precursor_add.
  rewrite (bind_run _ _ w e w) by (unfold get_rt, deref; by rewrite He). cbv beta.
  destruct (existsb (Z.eqb addr) (rt_precursors e)) eqn:E.
  { left. split; [|done]. apply existsb_exists in E as (x & Hx & ->%Z.eqb_eq).
    by apply list_elem_of_In. }
  right. split.
  { intros Hin. apply (eq_true_false_abs _ (proj2 (existsb_exists _ _)
      (ex_intro _ addr (conj (proj1 (list_elem_of_In _ _) Hin) (Z.eqb_refl _)))) E). }
  destruct (malloc_cases (length (rt_precursors e)) w) as [Hm|[Hm _]];
    rewrite (bind_run _ _ _ _ _ Hm); [by left|right].
  exists (S (w_tick w)).
  erewrite bind_run by (by apply upd_rt_run).
  erewrite upd_rt_run by apply lookup_insert_eq.
  f_equal. world_simpl. by rewrite insert_insert_eq.
Qed.

Lemma safe_precursor_add lim p addr w :
  Inv lim w → valid w p → safe lim (precursor_add p addr) (λ _ _, True) w.
Proof.
  intros HI Hp. destruct p as [r|]; [|by apply safe_ret]. destruct Hp as [e He].
  assert (entry_ok e) as Hok by (by eapply rts_entry; [apply I_rts in HI|]).
  destruct (precursor_add_run w r e addr) as [[_ Hr]|[_ [Hr|(n & Hr)]]]; [done..| | |].
  - eapply safe_run; [exact Hr|done..].
  - unfold safe, wp. by rewrite Hr.
  - set (w1 := w <| w_tick := n |> <| w_next ::= S |>) in *.
    assert (Inv lim w1) as HI1.
    { inv_split HI; intros ? ?; apply Nat.lt_lt_succ_r; eauto. }
    destruct (Inv_upd_rt lim w1 r e (e <| rt_precursors ::= cons addr |>
      <| rt_nprecursor ::= λ n, u32 (n + 1) |>)) as [? HE]; [done..| |done|].
    { destruct Hok as [? Hn]. split; [done|]. simpl. rewrite Hn. unfold u32.
      rewrite Zplus_mod_idemp_l. f_equal. lia. }
    eapply safe_run; [exact Hr|done| |done]. etrans; [|exact HE]. auto.
Qed.

#[export] Hint Resolve safe_precursor_add safe_precursor_list_destroy : safe.

(** A counted list has a first node. *)
Lemma safe_first_prec {A} lim r e (k : Z → M A) post w :
  Inv lim w → rts w !! r = Some e → rt_nprecursor e = 1 →
  (∀ n, safe lim (k n) post w) → safe lim (first_prec (Some r) ≫= k) post w.
Proof.
  intros HI He Hn Hk. unfold first_prec.
  assert (entry_ok e) as [_ Hc] by (by eapply rts_entry; [apply I_rts in HI|]).
  eapply safe_assoc, safe_read; [unfold get_rt, deref; by rewrite He|].
  destruct (rt_precursors e) as [|a l] eqn:E; [|by apply safe_mret_bind].
  rewrite Hn in Hc. done.
Qed.

(** ** Deletion *)

Lemma Inv_free_rt w r e :
  Inv (Some r) w → rts w !! r = Some e →
  (∀ t, t = T_rt r ∨ t = T_ack r ∨ t = T_hello r → t ∉ tq w ++ exptq w) →
  Inv None (w <| rt_tbl ::= λ t, t <| rt_num_entries ::= λ n, u32 (n - 1) |> |>
    <| rts ::= delete r |>
    <| timers ::= λ m, delete (T_rt r) (delete (T_ack r) (delete (T_hello r) m)) |>).
Proof.
  intros HI He Hq. inv_split HI.
  - by apply rts_ok_delete.
  - by apply (table_ok_free _ (rt_tbl w) _ e).
  - repeat apply queue_ok_delete; auto.
  - intros t. rewrite !lookup_delete_is_Some, (I_owner _ _ HI).
    destruct t; simpl; rewrite ?lookup_delete_is_Some; naive_solver.
  - intros r' [? ?]%lookup_delete_is_Some. eauto.
Qed.

Lemma Inv_unlink_rt w r e :
  Inv None w → rts w !! r = Some e →
  Inv (Some r) (w <| rt_tbl ::= λ t, t <| rt_buckets ::= alter (del r) (bucket_of e) |> |>).
Proof. intros HI He. inv_split HI. by apply (table_ok_unlink _ (rt_tbl w)). Qed.

(** What a deletion leaves of the other entries. *)
Definition ext_but (r : nat) (w w' : world) : Prop :=
  (∀ r' e, r' ≠ r → rts w !! r' = Some e →
     ∃ e', rts w' !! r' = Some e' ∧ rt_dest_addr e' = rt_dest_addr e) ∧
  rts w' !! r = None ∧ (length (exptq w') <= length (exptq w))%nat.

Lemma wp_rt_table_delete r w :
  Inv None w → live w r →
  wp benign (rt_table_delete (Some r)) (λ _ w', Inv None w' ∧ ext_but r w w') w.
Proof.
  intros HI Hl. pose proof Hl as [e He].
  assert (entry_ok e) as [Hh _] by (by eapply rts_entry; [apply I_rts in HI|]).
  unfold rt_table_delete.
  apply (wp_get_rt _ _ e); [done|]. apply wp_modify_bind. rewrite Hh.
  set (w1 := w <| rt_tbl ::= _ |>).
  assert (Inv (Some r) w1) as HI1 by (by apply Inv_unlink_rt).
  assert (ext w w1) as HE1 by auto. assert (live w1 r) as Hl1 by done.
  eapply wp_safe_bind; [by apply safe_precursor_list_destroy|].
  intros _ w2 HI2 HE2 _. pose proof (live_ext _ _ _ HE2 Hl1) as [e2 He2].
  apply (wp_get_rt _ _ e2); [done|].
  eapply (wp_safe_bind _ _ _ (λ _ _, True)).
  { destruct (rt_st e2); repeat sstep. }
  intros _ w3 HI3 HE3 _.
  assert (live w3 r) as Hl3 by (eapply live_ext; [exact HE3|by exists e2]).
  eapply wp_safe_bind; [by apply safe_timer_remove|].
  intros _ w4 HI4 HE4 (x4 & _ & E4).
  assert (live w4 r) as Hl4 by (by eapply live_ext).
  eapply wp_safe_bind; [by apply safe_timer_remove|].
  intros _ w5 HI5 HE5 (x5 & _ & E5).
  assert (live w5 r) as Hl5 by (by eapply live_ext).
  eapply wp_safe_bind; [by apply safe_timer_remove|].
  intros _ w6 HI6 HE6 (x6 & _ & E6).
  assert (live w6 r) as [e6 He6] by (by eapply live_ext).
  assert (ext w w6) as HE by (repeat (etrans; [eassumption|]); done).
  apply wp_modify_bind, wp_modify. split; [apply (Inv_free_rt w6 r e6 HI6 He6)|].
  - rewrite E6, E5, E4. unfold unlinked. simpl.
    intros t Ht. rewrite elem_of_app, !elem_of_del. naive_solver.
  - split_and!; simpl.
    + intros r' x Hne Hx. rewrite lookup_delete_ne by done. by apply (ext_rts _ _ HE).
    + apply lookup_delete_eq.
    + apply (ext_exptq _ _ HE).
Qed.

(** Reading a bucket: its entries are live. *)
Lemma safe_bucket {A} lim i (k : list nat → M A) post w :
  Inv lim w → 0 ≤ i < 64 →
  (∀ l, (∀ r, r ∈ l → live w r) → safe lim (k l) post w) →
  safe lim (bucket i ≫= k) post w.
Proof.
  intros HI Hi Hk. pose proof (I_table _ _ HI) as HT.
  destruct (lookup_bucket _ _ _ (Z.to_nat i) HT) as [l Hl]; [lia|].
  eapply safe_read; [unfold bucket; by rewrite Hl|]. apply Hk.
  intros r Hr. destruct (tbl_live _ _ _ HT _ _ _ Hl Hr) as (_ & e & ? & _). by exists e.
Qed.

(** ** What the lookups leave alone *)

Lemma keeps_rt_scan {B} (f : world → B) dest hash l : keeps f (rt_scan dest hash l).
Proof. induction l; cbn [rt_scan]; keeps_auto. Qed.

Lemma keeps_rt_table_check {B} (f : world → B) dest : keeps f (rt_table_check dest).
Proof.
  unfold rt_table_check. keeps_auto; [|apply keeps_rt_scan].
  intros w1 l1 w2. unfold bucket. case_match; naive_solver.
Qed.

(** ** What the operations do to the table *)

(** An entry is determined by its destination. *)
Lemma entry_unique lim w r r' e e' :
  Inv lim w → rts w !! r = Some e → rts w !! r' = Some e' →
  rt_dest_addr e = rt_dest_addr e' → r = r'.
Proof. intros HI. apply (rts_unique _ (I_rts _ _ HI)). Qed.

(** The table proper: the entries and their number. *)
Definition table_view (w : world) : gmap nat rt_table_t * Z := (rts w, rt_num_entries (rt_tbl w)).

Lemma keeps_seek_scan {B} (f : world → B) dest l : keeps f (seek_scan dest l).
Proof. induction l; cbn [seek_scan]; keeps_auto. Qed.

Lemma keeps_view_seek_forget dest :
  keeps table_view (s ← seek_list_check dest; _ ← seek_list_remove s; mret tt).
Proof.
  unfold seek_list_check, seek_list_remove, free_seek. keeps_auto;
    [apply keeps_seek_scan|by apply keeps_timer_remove].
Qed.

Lemma keeps_view_set_handler t h : keeps table_view (set_handler t h).
Proof. unfold set_handler. by apply keeps_upd_timer. Qed.

Lemma keeps_view_num_active f : keeps table_view (upd_num_active f).
Proof. unfold upd_num_active. keeps_auto. Qed.

Lemma wpo_rt_table_insert dest next hops seqno lifetime state flags w :
  Inv None w →
  wpo (rt_table_insert dest next hops seqno lifetime state flags)
    (λ p w',
      match p with
      | Some r => rts w !! r = None ∧
          table_view w' = (<[r := RT dest seqno next (u8 hops) flags state (TV 0 0) 0 dest 0 []]>
                             (rts w), rt_num_entries (rt_tbl w) + 1)
      | None => w' = w ∧ ¬ absent w dest
      end) w.
Proof.
  intros HI. unfold rt_table_insert, hashing, ACTIVE_ROUTE_TIMEOUT, DELETE_PERIOD.
  pose proof (I_table _ _ HI) as HT.
  destruct (lookup_bucket _ _ _ (Z.to_nat (Z.land dest RT_TABLEMASK)) HT)
    as [l Hb]; [pose proof (land_tablemask dest); lia|].
  apply wp_bind. eapply wp_eq; [unfold bucket; by rewrite Hb|].
  destruct (rt_present_run w dest l) as (b & Hrun & _ & Hp).
  { intros r Hin. destruct (tbl_live _ _ _ HT _ _ _ Hb Hin) as (_ & e & ? & _).
    by exists e. }
  apply wp_bind. eapply wp_eq; [exact Hrun|]. destruct b; [by apply wp_ret; auto|].
  apply wp_bind, wp_gets, wp_bind.
  destruct (malloc_cases (size (rts w)) w) as [Hm|[Hm Hsz]]; (eapply wp_eq; [exact Hm|]);
    [by apply wp_raise|].
  apply wp_modify_bind. do 3 apply wp_timer_init_bind. do 2 apply wp_modify_bind.
  set (r := w_next w).
  assert (rts w !! r = None) as Hr.
  { apply eq_None_not_Some. intros Hs%(fresh_rts _ (I_fresh _ _ HI)). unfold r in Hs. lia. }
  set (e := RT dest seqno next (u8 hops) flags state (TV 0 0) 0 dest 0 []).
  match goal with |- wp _ _ _ ?w2 => set (w1 := w2) end.
  assert (table_view w1 = (<[r := e]> (rts w), rt_num_entries (rt_tbl w) + 1)) as Hv.
  { unfold table_view. simpl. f_equal.
    rewrite u32_small by (rewrite (tbl_entries _ _ _ HT); lia). done. }
  clearbody w1.
  apply (wpo_keeps_bind table_view).
  { destruct state; keeps_auto; try apply keeps_view_set_handler. apply keeps_view_num_active.
    apply keeps_add_route; reflexivity. }
  intros lt w2 H2. apply (wpo_keeps_bind table_view).
  { keeps_auto. by apply keeps_timer_set_timeout. }
  intros _ w3 H3. apply (wpo_keeps_bind table_view); [keeps_auto|].
  intros x w4 H4. apply (wpo_keeps_bind table_view).
  { apply keeps_when, keeps_view_seek_forget. }
  intros _ w5 H5. apply wp_ret. split; [done|]. congruence.
Qed.

(** The one entry for a destination is what [rt_table_check] finds. *)
Lemma rt_table_check_unique w r e :
  Inv None w → rts w !! r = Some e → rt_table_check (rt_dest_addr e) w = Ok (Some r) w.
Proof.
  intros HI He. destruct (rt_table_check_run None w (rt_dest_addr e) HI) as (p & -> & Hp).
  destruct p as [r'|]; [|by destruct (Hp r e)].
  destruct Hp as (e' & He' & Hd & _). by rewrite (entry_unique _ _ _ _ _ _ HI He' He Hd).
Qed.

Lemma rt_table_check_absent w dest :
  Inv None w → absent w dest → rt_table_check dest w = Ok None w.
Proof.
  intros HI Ha. destruct (rt_table_check_run None w dest HI) as (p & -> & Hp).
  destruct p as [r|]; [|done]. destruct Hp as (e & He & Hd & _). by destruct (Ha r e).
Qed.

Lemma wpo_rt_table_delete r e w :
  rts w !! r = Some e → rt_hash e = rt_dest_addr e →
  rt_num_entries (rt_tbl w) = Z.of_nat (size (rts w)) → Z.of_nat (size (rts w)) < 2 ^ 32 →
  wpo (rt_table_delete (Some r))
    (λ _ w', table_view w' = (delete r (rts w), rt_num_entries (rt_tbl w) - 1)) w.
Proof.
  intros He Hh Hn Hsz. unfold rt_table_delete.
  set (f := λ w, (delete r (rts w), rt_num_entries (rt_tbl w))).
  apply (wpo_keeps_bind f); [keeps_auto|]. intros e1 w1 H1.
  apply (wpo_keeps_bind f); [unfold bucket_upd; keeps_auto|]. intros _ w2 H2.
  apply (wpo_keeps_bind f).
  { unfold precursor_list_destroy, upd_rt. keeps_auto; unfold f; simpl; f_equal;
      apply delete_insert_eq. }
  intros _ w3 H3. apply (wpo_keeps_bind f); [keeps_auto|]. intros e2 w4 H4.
  apply (wpo_keeps_bind f).
  { unfold upd_num_active. keeps_auto. by apply keeps_del_route. }
  intros _ w5 H5.
  apply (wpo_keeps_bind f); [by apply keeps_timer_remove|]. intros _ w6 H6.
  apply (wpo_keeps_bind f); [by apply keeps_timer_remove|]. intros _ w7 H7.
  apply (wpo_keeps_bind f); [by apply keeps_timer_remove|]. intros _ w8 H8.
  apply wp_modify_bind, wp_modify. unfold table_view. simpl.
  assert (f w8 = f w) as Hf by congruence. unfold f in Hf. injection Hf as Hf1 Hf2.
  rewrite Hf1, Hf2. f_equal. rewrite u32_small; [done|].
  assert (0 < size (rts w))%nat; [|lia].
  destruct (size (rts w)) eqn:E; [|lia]. apply map_size_empty_inv in E.
  rewrite E in He. by apply lookup_empty_Some in He.
Qed.

(** ** Properties of the table *)

(** C12: [rt_table_check] is a lookup. In a well-formed state it changes
    nothing, returns an entry exactly when there is one for the destination,
    and there is at most one. *)
Theorem rt_table_check_spec w dest :
  Inv None w →
  ∃ p, rt_table_check dest w = Ok p w ∧
    ∀ r, p = Some r ↔ ∃ e, rts w !! r = Some e ∧ rt_dest_addr e = dest.
Proof.
  intros HI. destruct (rt_table_check_run None w dest HI) as (p & Hrun & Hp).
  exists p. split; [done|]. intros r. split.
  - intros ->. destruct Hp as (e & ? & ? & _). eauto.
  - intros (e & He & <-). pose proof (rt_table_check_unique w r e HI He). congruence.
Qed.

(** C31: [rt_table_insert]. For a destination already in the table it returns
    [NULL] and changes nothing; otherwise it either exits for want of memory
    or creates one entry with the given fields, which the next
    [rt_table_check] finds, and counts it; the other entries are not touched
    and the state stays well formed. *)
Theorem rt_table_insert_spec dest next hops seqno lifetime state flags w :
  Inv None w →
  match rt_table_insert dest next hops seqno lifetime state flags w with
  | Ok (Some r) w' =>
      absent w dest ∧ rts w !! r = None ∧
      rts w' = <[r := RT dest seqno next (u8 hops) flags state (TV 0 0) 0 dest 0 []]> (rts w) ∧
      rt_num_entries (rt_tbl w') = rt_num_entries (rt_tbl w) + 1 ∧
      rt_table_check dest w' = Ok (Some r) w' ∧ Inv None w'
  | Ok None w' => w' = w ∧ ¬ absent w dest
  | Err e => benign e
  end.
Proof.
  intros HI.
  pose proof (wp_total _ _ _ _ _ (safe_rt_table_insert dest next hops seqno lifetime state flags w HI)
    (wpo_rt_table_insert dest next hops seqno lifetime state flags w HI)) as Hs.
  unfold wp in Hs. destruct (rt_table_insert _ _ _ _ _ _ _ w) as [[r|] w'|e]; [| |done].
  - destruct Hs as [(HI' & _ & _) [Hr [= Hrts Hn]]].
    set (x := RT dest seqno next (u8 hops) flags state (TV 0 0) 0 dest 0 []) in *.
    assert (rts w' !! r = Some x) as Hx by (rewrite Hrts; apply lookup_insert_eq).
    split_and!; [|done|done|done|by apply (rt_table_check_unique w' r x)|done].
    intros r' e' He' Hd. assert (r' ≠ r) as Hne by congruence.
    apply Hne. apply (entry_unique None w' r' r e' x HI'); [|done..].
    by rewrite Hrts, lookup_insert_ne.
  - by destruct Hs.
Qed.

(** [rt_table_delete]. A live entry is gone afterwards, the count goes
    down by one, every other entry is untouched, no timer of the entry stays
    queued, and its destination is not found any more. *)
Theorem rt_table_delete_spec w r e :
  Inv None w → rts w !! r = Some e →
  match rt_table_delete (Some r) w with
  | Ok _ w' =>
      rts w' = delete r (rts w) ∧
      rt_num_entries (rt_tbl w') = rt_num_entries (rt_tbl w) - 1 ∧
      rt_table_check (rt_dest_addr e) w' = Ok None w' ∧
      (∀ t, t = T_rt r ∨ t = T_ack r ∨ t = T_hello r → t ∉ tq w' ++ exptq w') ∧
      Inv None w'
  | Err e => benign e
  end.
Proof.
  intros HI He. pose proof (I_table _ _ HI) as HT.
  assert (entry_ok e) as [Hh _] by (by eapply rts_entry; [apply I_rts in HI|]).
  pose proof (wp_total _ _ _ _ _ (wp_rt_table_delete r w HI (live_of_lookup _ _ _ He))
    (wpo_rt_table_delete r e w He Hh (tbl_entries _ _ _ HT) (tbl_size _ _ _ HT))) as Hs.
  unfold wp in Hs. destruct (rt_table_delete (Some r) w) as [[] w'|]; [|done].
  destruct Hs as [[HI' _] [= Hrts Hn]]. split_and!; [done|done| | |done].
  - apply rt_table_check_absent; [done|]. intros r' e' He' Hd.
    rewrite Hrts in He'. apply lookup_delete_Some in He' as [Hne He'].
    apply Hne. symmetry. by apply (entry_unique None w r' r e' e).
  - intros t Ht Hin. destruct (q_armed _ _ (I_queue _ _ HI') t Hin) as (x & Hx & _).
    assert (owner_live w' t) as Hl by (apply (I_owner _ _ HI'); by rewrite Hx).
    destruct Ht as [->|[->| ->]]; simpl in Hl; rewrite Hrts, lookup_delete_eq in Hl;
      by destruct Hl.
Qed.

(** ** Invalidation *)

Definition invalidated (e : rt_table_t) : rt_table_t :=
  e <| rt_st := INVALID |> <| rt_hello_cnt := 0 |> <| rt_dest_seqno ::= seqno_incr |>
    <| rt_last_hello_time := TV 0 0 |>.

(** The function and the delay [rt_table_invalidate] arms the route timer with. *)
Definition delete_handler (e : rt_table_t) : handler :=
  if flag (rt_flags e) RT_REPAIR then local_repair_timeout_h else route_delete_timeout_h.
Definition delete_delay (e : rt_table_t) (c : config) : Z :=
  if flag (rt_flags e) RT_REPAIR then active_route_timeout c else delete_period c.

(** A timer in use with a given function. *)
Definition armed (w : world) (t : timer_id) (h : handler) (b : bool) : Prop :=
  ∃ x, timers w !! t = Some x ∧ t_handler x = Some h ∧ t_used x = b.
Definition disarmed (w : world) (t : timer_id) : Prop :=
  ∃ x, timers w !! t = Some x ∧ t_used x = false.

Lemma keeps_pair {A B C} (f : world → A) (g : world → B) (m : M C) :
  keeps f m → keeps g m → keeps (λ w, (f w, g w)) m.
Proof. intros Hf Hg w a w' H. by rewrite (Hf _ _ _ H), (Hg _ _ _ H). Qed.

(** The table and the helper timers of [r] when only its route timer is used. *)
Definition inval_view (r : nat) (w : world) :=
  (rts w, rt_tbl w, timers w !! T_hello r, timers w !! T_ack r).

Lemma keeps_inval_set_timeout r ms : keeps (inval_view r) (timer_set_timeout (T_rt r) ms).
Proof.
  unfold inval_view. repeat apply keeps_pair;
    [by apply keeps_timer_set_timeout..|by apply keeps_other_set_timeout|
     by apply keeps_other_set_timeout].
Qed.

(** [rt->rt_timer.handler = h; timer_set_timeout(&rt->rt_timer, DELAY);] for
    a delay [DELAY] that is a setting. *)
Lemma wpo_arm_route r h (sel : config → Z) w :
  is_Some (timers w !! T_rt r) →
  wpo (set_handler (T_rt r) h;; t ← gets (λ w, sel (cfg w)); timer_set_timeout (T_rt r) t)
    (λ _ w', armed w' (T_rt r) h (0 <=? sel (cfg w)) ∧ inval_view r w' = inval_view r w) w.
Proof.
  intros [x Hx]. unfold set_handler. apply wp_bind.
  eapply wp_eq; [by apply upd_timer_run|]. set (w1 := w <| timers ::= _ |>).
  assert (inval_view r w1 = inval_view r w) as <-.
  { unfold inval_view. simpl. by rewrite !lookup_insert_ne. }
  apply wp_bind, wp_gets. change (cfg w1) with (cfg w).
  eapply wp_wand; [apply wp_conj;
    [eapply (wpo_timer_set_timeout (T_rt r)); [simpl; apply lookup_insert_eq|done]
    |by apply (wpo_keeps (inval_view r) _ (λ _ w', inval_view r w' = inval_view r w1));
       [apply keeps_inval_set_timeout|]]|].
  intros _ w' [H1 H2]. split; [|done]. eexists. split; [exact H1|done].
Qed.

Lemma wpo_rt_table_invalidate r e w :
  rts w !! r = Some e → is_Some (timers w !! T_rt r) →
  is_Some (timers w !! T_hello r) → is_Some (timers w !! T_ack r) →
  wpo (rt_table_invalidate (Some r))
    (λ c w', match rt_st e with
       | INVALID => c = -1 ∧ w' = w <| w_tick ::= S |>
       | VALID => c = 0 ∧ rts w' = <[r := invalidated e]> (rts w) ∧
           rt_tbl w' = (rt_tbl w) <| rt_num_active ::= λ n, u32 (n - 1) |> ∧
           disarmed w' (T_hello r) ∧ disarmed w' (T_ack r) ∧
           armed w' (T_rt r) (delete_handler e) (0 <=? delete_delay e (cfg w))
       end) w.
Proof.
  intros He [x1 H1] [x2 H2] [x3 H3]. unfold rt_table_invalidate.
  apply wp_bind. eapply wp_eq; [reflexivity|]. set (w0 := w <| w_tick ::= S |>).
  apply (wp_get_rt _ _ e); [done|]. destruct (rt_st e); [by apply wp_ret|].
  apply wp_bind. eapply wp_eq; [by apply timer_remove_run|].
  apply wp_bind. eapply wp_eq; [apply timer_remove_run; simpl; by rewrite lookup_insert_ne|].
  apply wp_bind. eapply wp_eq; [apply timer_remove_run; simpl; by rewrite !lookup_insert_ne|].
  apply wp_bind. eapply wp_eq; [by apply upd_rt_run|]. apply wp_modify_bind.
  do 3 (apply wp_bind; eapply wp_eq; [apply upd_rt_run; simpl; apply lookup_insert_eq|]).
  eapply wp_get_rt; [simpl; apply lookup_insert_eq|].
  match goal with |- wp _ _ _ ?w1 => set (w3 := w1) end.
  assert (rts w3 = <[r := invalidated e]> (rts w)) as Hr3
    by (subst w3; simpl; by rewrite !insert_insert_eq).
  apply wp_bind.
  eapply (wpo_keeps (λ w, (inval_view r w, timers w !! T_rt r, cfg w)));
    [by apply keeps_del_route|].
  unfold inval_view. intros _ w4 [= E1 E2 E3 E4 E5 E6].
  assert (is_Some (timers w4 !! T_rt r)) as Hs4.
  { rewrite E5. subst w3. simpl. rewrite !lookup_insert_ne, lookup_insert_eq by done. eauto. }
  apply wp_bind, (wp_wand _ _ (λ _ w', armed w' (T_rt r) (delete_handler e)
      (0 <=? delete_delay e (cfg w)) ∧ inval_view r w' = inval_view r w4)).
  { change (cfg w3) with (cfg w) in E6. rewrite <-E6. unfold delete_handler, delete_delay.
    change (rt_flags (_ <| rt_last_hello_time := _ |>)) with (rt_flags e).
    destruct (flag (rt_flags e) RT_REPAIR); by apply wpo_arm_route. }
  intros _ w5 [Ha Hv]. apply wp_ret. unfold inval_view in Hv. injection Hv as V1 V2 V3 V4.
  split_and!; [done|by rewrite V1, E1|by rewrite V2, E2|..|exact Ha]; unfold disarmed.
  - rewrite V3, E3. subst w3. simpl. rewrite lookup_insert_ne, lookup_insert_eq by done. eauto.
  - rewrite V4, E4. subst w3. simpl. rewrite lookup_insert_eq. eauto.
Qed.

(** [rt_table_invalidate]. A route that is not valid is left alone and
    reported with -1. A valid one becomes invalid with its sequence number
    incremented and its HELLO state cleared, the other entries are untouched,
    the number of active routes goes down by one, the HELLO and RREP-ACK
    timers are disarmed, and the route timer is armed with the function that
    deletes the entry later, or that ends its repair. *)
Theorem rt_table_invalidate_spec w r e :
  Inv None w → rts w !! r = Some e →
  match rt_table_invalidate (Some r) w with
  | Ok c w' => Inv None w' ∧
      match rt_st e with
      | INVALID => c = -1 ∧ w' = w <| w_tick ::= S |>
      | VALID => c = 0 ∧ rts w' = <[r := invalidated e]> (rts w) ∧
          rt_tbl w' = (rt_tbl w) <| rt_num_active ::= λ n, u32 (n - 1) |> ∧
          disarmed w' (T_hello r) ∧ disarmed w' (T_ack r) ∧
          armed w' (T_rt r) (delete_handler e) (0 <=? delete_delay e (cfg w))
      end
  | Err e' => benign e'
  end.
Proof.
  intros HI He.
  assert (∀ t, owner_live w t → is_Some (timers w !! t)) as Ht by (intros t; by apply I_owner with None).
  pose proof (wp_total _ _ _ _ _ (safe_rt_table_invalidate None (Some r) w HI (live_of_lookup _ _ _ He))
    (wpo_rt_table_invalidate r e w He (Ht (T_rt r) (live_of_lookup _ _ _ He))
       (Ht (T_hello r) (live_of_lookup _ _ _ He)) (Ht (T_ack r) (live_of_lookup _ _ _ He)))) as Hs.
  unfold wp in Hs. destruct (rt_table_invalidate (Some r) w) as [c w'|]; [|done].
  destruct Hs as [(? & _) ?]. done.
Qed.

(** ** Refreshing a route *)

Lemma route_timer_handler lim w r x :
  Inv lim w → timers w !! T_rt r = Some x → t_handler x ≠ None.
Proof.
  intros HI Hx. pose proof (q_timer _ _ (I_queue _ _ HI) _ _ Hx) as [_ Hok]. naive_solver.
Qed.

Lemma rt_table_update_timeout_run w r e x lifetime :
  rts w !! r = Some e → rt_st e = VALID → timers w !! T_rt r = Some x →
  t_handler x ≠ None →
  let new := timeval_add_msec (e_clock (w_env w) (w_tick w)) lifetime in
  wpo (rt_table_update_timeout (Some r) lifetime)
    (λ p w', p = Some r ∧ rts w' = rts w ∧
       if timeval_diff (t_timeout x) new <? 0 then
         ∃ x', timers w' !! T_rt r = Some x' ∧ t_used x' = (0 <=? s32 lifetime) ∧
           t_timeout x' =
             (let now := e_clock (w_env w) (S (w_tick w)) in
              if s32 lifetime <? 0 then now else timeout_after now (s32 lifetime))
       else timers w' !! T_rt r = Some x) w.
Proof.
  intros He Hst Hx Hh new. unfold rt_table_update_timeout.
  apply (wp_get_rt _ _ e); [done|]. rewrite Hst. apply wp_bind, wp_bind.
  eapply wp_eq; [reflexivity|]. simpl. apply wp_bind.
  eapply wp_eq; [unfold get_timer; simpl; by rewrite Hx|]. fold new.
  destruct (timeval_diff (t_timeout x) new <? 0); [|by apply wp_ret]. cbn [when].
  eapply wp_wand; [apply wp_conj;
    [by apply (wpo_keeps rts _ (λ _ w', rts w' = rts w)); [apply keeps_timer_set_timeout|]
    |by apply (wpo_timer_set_timeout (T_rt r) x)]|].
  intros _ w' [Hr Ht]. apply wp_ret. split_and!; [done..|]. eexists. split; [exact Ht|done].
Qed.

(** [rt_table_update_timeout] never shortens the life of a route: the
    deadline of a valid route is at least the old one and at least [lifetime]
    milliseconds ahead (to the millisecond), and a route that is not valid is
    left alone.  The clock must not go back during the call, and the times
    must be within the range [timeval_diff] compares. *)
Theorem rt_table_update_timeout_extends w r e x lifetime :
  Inv None w → rts w !! r = Some e → timers w !! T_rt r = Some x →
  let now := e_clock (w_env w) (w_tick w) in
  let now' := e_clock (w_env w) (S (w_tick w)) in
  normalized now → normalized now' → us now ≤ us now' →
  0 ≤ tv_sec now → tv_sec now + 4295 < 2 ^ 31 → 0 ≤ tv_sec now' → tv_sec now' + 2148 < 2 ^ 31 →
  0 ≤ lifetime → 1000000 + lifetime * 1000 < 2 ^ 31 →
  - 2 ^ 31 ≤ us (t_timeout x) - (us now + lifetime * 1000) < 2 ^ 31 →
  match rt_table_update_timeout (Some r) lifetime w with
  | Ok p w' => p = Some r ∧ Inv None w' ∧ rts w' = rts w ∧
      match rt_st e with
      | INVALID => w' = w
      | VALID => ∃ x', timers w' !! T_rt r = Some x' ∧
          us (t_timeout x) ≤ us (t_timeout x') ∧
          us now + lifetime * 1000 - 1000 < us (t_timeout x')
      end
  | Err e' => benign e'
  end.
Proof.
  intros HI He Hx now now' Hn Hn' Hle H0 H1 H0' H1' Hl Hl2 Hr.
  destruct (rt_st e) eqn:Hst.
  { unfold rt_table_update_timeout, get_rt, deref, mbind, M_bind. by rewrite He, Hst. }
  pose proof (wp_total _ _ _ _ _
    (safe_rt_table_update_timeout None (Some r) lifetime w HI (live_of_lookup _ _ _ He))
    (rt_table_update_timeout_run w r e x lifetime He Hst Hx
       (route_timer_handler None w r x HI Hx))) as Hs.
  unfold wp in Hs. destruct (rt_table_update_timeout (Some r) lifetime w) as [p w'|]; [|done].
  destruct Hs as ((? & _) & -> & ? & Ht). split_and!; [done..|].
  fold now now' in Ht. unfold normalized in *.
  destruct (timeval_add_msec_us now lifetime) as [Hus _]; [done..|lia|lia|lia|].
  rewrite timeval_diff_in_range in Ht by lia.
  assert (s32 lifetime = lifetime) as Hs by (apply s32_small; lia). rewrite Hs in Ht.
  destruct (Z.ltb_spec (Z.quot (us (t_timeout x) - us (timeval_add_msec now lifetime)) 1000) 0)
    as [Hq|Hq].
  - apply quot_1000_neg in Hq. destruct Ht as (x' & Hx' & _ & Ht). exists x'. split; [done|]. rewrite Ht. destruct (Z.ltb_spec lifetime 0); [lia|].
    destruct (timeout_after_exact now' lifetime) as [-> _]; [done|lia..].
  - exists x. split; [done|]. pose proof (quot_1000_neg (us (t_timeout x) - us (timeval_add_msec now lifetime))).
    lia.
Qed.

(** ** Precursors, and the end of the table *)

Lemma existsb_elem addr l : existsb (Z.eqb addr) l = bool_decide (addr ∈ l).
Proof.
  apply eq_bool_prop_intro. rewrite bool_decide_spec, Is_true_true, existsb_exists. split.
  - intros (x & Hx & ->%Z.eqb_eq). by apply list_elem_of_In.
  - intros Hin%list_elem_of_In. exists addr. split; [done|apply Z.eqb_refl].
Qed.

Lemma precursor_remove_run w r e addr :
  rts w !! r = Some e →
  precursor_remove (Some r) addr w =
  Ok tt (if bool_decide (addr ∈ rt_precursors e)
         then w <| rts ::= <[r := e <| rt_precursors ::= remove_first addr |>
                                    <| rt_nprecursor ::= λ n, u32 (n - 1) |>]> |>
         else w).
Proof.
  intros He. unfold precursor_remove.
  rewrite (bind_run _ _ w e w) by (unfold get_rt, deref; by rewrite He). cbv beta.
  rewrite existsb_elem. destruct (bool_decide _); [|done]. cbn [when].
  erewrite bind_run by (by apply upd_rt_run).
  erewrite upd_rt_run by apply lookup_insert_eq.
  f_equal. world_simpl. by rewrite insert_insert_eq.
Qed.

(** The precursor list is a counted set, and [precursor_remove] undoes
    [precursor_add]: adding a node that is a precursor already changes nothing;
    a new one is linked first and counted (or the daemon exits for want of
    memory), and removing it again gives back the very table there was. *)
Theorem precursor_add_remove w r e addr :
  Inv None w → rts w !! r = Some e →
  match precursor_add (Some r) addr w with
  | Ok _ w' =>
      if bool_decide (addr ∈ rt_precursors e) then w' = w
      else rts w' = <[r := e <| rt_precursors := addr :: rt_precursors e |>
                            <| rt_nprecursor := u32 (rt_nprecursor e + 1) |>]> (rts w) ∧
        ∃ w'', precursor_remove (Some r) addr w' = Ok tt w'' ∧ rts w'' = rts w
  | Err e' => e' = Exit (-1)
  end.
Proof.
  intros HI He. assert (entry_ok e) as Hok by (by eapply rts_entry; [apply I_rts in HI|]).
  destruct (precursor_add_run w r e addr He Hok) as [[Hin ->]|[Hin [->|[n ->]]]];
    [by rewrite bool_decide_eq_true_2|done|].
  rewrite bool_decide_eq_false_2 by done. split; [done|].
  eexists. split; [by apply precursor_remove_run; simpl; apply lookup_insert_eq|].
  cbn [rt_precursors upd_field set_rt_precursors set_rt_nprecursor].
  rewrite bool_decide_eq_true_2 by left. simpl. rewrite insert_insert_eq.
  apply insert_id. rewrite He. f_equal. destruct Hok as [_ Hn]. destruct e.
  cbv [upd_field set_rt_precursors set_rt_nprecursor] in *. cbn in *.
  rewrite Z.eqb_refl. f_equal.
  rewrite Hn. unfold u32. rewrite Zminus_mod_idemp_l, Z.add_simpl_r, !Zmod_mod. done.
Qed.

(** Deleting the entries of a list. *)
Lemma wp_delete_all l w :
  Inv None w → NoDup l → (∀ r, r ∈ l → live w r) →
  wp benign (for_each l (λ pos, rt_table_delete (Some pos)))
    (λ _ w', Inv None w' ∧ ∀ r, rts w' !! r = if decide (r ∈ l) then None else rts w !! r) w.
Proof.
  revert w. induction l as [|r l IH]; intros w HI Hnd Hl; cbn [for_each].
  { apply wp_ret. split; [done|]. intros r. by rewrite decide_False by apply not_elem_of_nil. }
  apply NoDup_cons in Hnd as [Hr Hnd]. destruct (Hl r) as [e He]; [left|].
  pose proof (I_table _ _ HI) as HT.
  assert (entry_ok e) as [Hh _] by (by eapply rts_entry; [apply I_rts in HI|]).
  apply wp_bind. eapply wp_wand; [apply wp_total;
    [apply wp_rt_table_delete; [done|by eexists]
    |by apply (wpo_rt_table_delete r e); [..|apply (tbl_entries _ _ _ HT)|apply (tbl_size _ _ _ HT)]]|].
  intros _ w1 [[HI1 _] [= Hrts _]]. eapply wp_wand; [apply IH; [done..|]|].
  - intros r' Hr'. unfold live. rewrite Hrts, lookup_delete_ne by (intros ->; done).
    apply Hl. by right.
  - intros _ w2 [HI2 H2]. split; [done|]. intros r'. rewrite H2, Hrts.
    destruct (decide (r' ∈ l)); [by rewrite decide_True by (by right)|].
    destruct (decide (r = r')) as [->|]; [by rewrite lookup_delete_eq, decide_True by left|].
    rewrite lookup_delete_ne by done. rewrite decide_False; [done|].
    rewrite elem_of_cons. naive_solver.
Qed.

(** Emptying the buckets of a list of indices. *)
Lemma wp_destroy_buckets ks w :
  Inv None w → (∀ i, i ∈ ks → 0 ≤ i < 64) →
  wp benign (for_each ks (λ i, l ← bucket i; for_each l (λ pos, rt_table_delete (Some pos))))
    (λ _ w', Inv None w' ∧ ∀ r e, rts w' !! r = Some e →
       rts w !! r = Some e ∧ Z.of_nat (bucket_of e) ∉ ks) w.
Proof.
  revert w. induction ks as [|i ks IH]; intros w HI Hks; cbn [for_each].
  { apply wp_ret. split; [done|]. intros. split; [done|apply not_elem_of_nil]. }
  pose proof (I_table _ _ HI) as HT.
  destruct (lookup_bucket _ _ _ (Z.to_nat i) HT) as [l Hl]; [pose proof (Hks i ltac:(left)); lia|].
  apply wp_bind, wp_bind. eapply wp_eq; [unfold bucket; by rewrite Hl|].
  eapply wp_wand; [apply wp_delete_all; [done|by eapply tbl_nodup|]|].
  { intros r Hr. destruct (tbl_live _ _ _ HT _ _ _ Hl Hr) as (_ & e & ? & _). by exists e. }
  intros _ w1 [HI1 H1]. eapply wp_wand; [apply IH; [done|intros; apply Hks; by right]|].
  intros _ w2 [HI2 H2]. split; [done|]. intros r e He.
  destruct (H2 r e He) as [He1 Hnot]. rewrite H1 in He1.
  destruct (decide (r ∈ l)) as [|Hrl]; [done|]. split; [done|].
  intros [<-|Hin]%elem_of_cons; [|done]. apply Hrl.
  destruct (tbl_linked _ _ _ HT r e) as (l' & Hl' & Hin); [done..|].
  rewrite Nat2Z.id in Hl. congruence.
Qed.

Lemma wp_rt_table_destroy w :
  Inv None w → wp benign rt_table_destroy (λ _ w', Inv None w' ∧ rts w' = ∅) w.
Proof.
  intros HI. eapply wp_wand; [apply wp_destroy_buckets; [done|]|].
  { intros i Hi%elem_of_seqZ. unfold RT_TABLESIZE in *. lia. }
  intros _ w' [HI' H']. split; [done|].
  apply map_eq. intros r. rewrite lookup_empty. apply eq_None_ne_Some. intros e He.
  destruct (H' r e He) as [_ Hn]. apply Hn, elem_of_seqZ.
  pose proof (bucket_of_lt e). unfold RT_TABLESIZE. lia.
Qed.

(** [rt_table_destroy] frees every route: afterwards the table has no
    entry and counts none, every bucket is empty, and no timer of a route is
    left in the queue. *)
Theorem rt_table_destroy_empties w :
  Inv None w →
  match rt_table_destroy w with
  | Ok _ w' => Inv None w' ∧ rts w' = ∅ ∧ rt_num_entries (rt_tbl w') = 0 ∧
      (∀ i l, rt_buckets (rt_tbl w') !! i = Some l → l = []) ∧
      (∀ r, (T_rt r ∉ tq w') ∧ (T_ack r ∉ tq w') ∧ (T_hello r ∉ tq w'))
  | Err e => benign e
  end.
Proof.
  intros HI. pose proof (wp_rt_table_destroy w HI) as Hs. unfold wp in Hs.
  destruct (rt_table_destroy w) as [[] w'|]; [|done]. destruct Hs as [HI' Hem].
  pose proof (I_table _ _ HI') as HT. split_and!; [done|done|..].
  - by rewrite (tbl_entries _ _ _ HT), Hem, map_size_empty.
  - intros i l Hl. destruct l as [|r l]; [done|exfalso].
    destruct (tbl_live _ _ _ HT i (r :: l) r Hl) as (_ & e & He & _); [left|].
    rewrite Hem in He. by apply lookup_empty_Some in He.
  - assert (∀ t, ¬ owner_live w' t → t ∉ tq w') as Hq.
    { intros t Ho Hin. destruct (queued_timers _ _ _ HI' Hin) as [x Hx].
      apply Ho, (I_owner _ _ HI'). by rewrite Hx. }
    intros r. split_and!; apply Hq; simpl; rewrite Hem, lookup_empty; by intros [].
Qed.
