(* ===== verification/Neighbor.v ===== *)
(** * Link breaks and route updates (aodv_neighbor.c, rt_table_update)

    [neighbor_link_break] invalidates every route through a lost neighbor and
    reports them in a RERR; [rt_table_update] and [neighbor_add] call it or
    are called on every packet. *)

From S2P Require Export RouteTable Wire.

(** A unicast destination survives only if every precursor is that node. *)
Definition restrict_unicast (unicast : Z) (precursors : list Z) : Z :=
  if negb (unicast =? 0) && existsb (λ n, negb (n =? unicast)) precursors
  then 0 else unicast.

(** Report the route [rt_u] in the RERR being built: [rerr] is whether there
    is one already, [unicast] is [rerr_unicast_dest]. *)
Definition rerr_report (rerr : bool) (unicast : Z) (rt_u : ptr) (flags : Z)
    : M (bool * Z) :=
  e ← get_rt rt_u;
  if negb rerr then
    _ ← rerr_create flags (rt_dest_addr e) (rt_dest_seqno e);
    u ← (if rt_nprecursor e =? 1 then first_prec rt_u else mret unicast);
    mret (true, u)
  else
    rerr_add_udest send_buf (rt_dest_addr e) (rt_dest_seqno e);;
    mret (true, restrict_unicast unicast (rt_precursors e)).

(** The body of the loop over one bucket; [rt] is the lost neighbor. *)
Definition link_break_entry (rt : ptr) (acc : bool * Z) (u : nat) : M (bool * Z) :=
  let '(rerr, unicast) := acc in
  rt_u ← get_rt (Some u);
  e ← get_rt rt;
  if bool_decide (rt_st rt_u = VALID) && (rt_next_hop rt_u =? rt_dest_addr e)
     && negb (rt_dest_addr rt_u =? rt_dest_addr e)
  then
    if flag (rt_flags e) RT_REPAIR && (rt_hopcnt rt_u <=? MAX_REPAIR_TTL) then
      upd_rt (Some u) (λ r, r <| rt_flags ::= λ f, Z.lor f RT_REPAIR |>);;
      _ ← rt_table_invalidate (Some u);
      mret (rerr, unicast)
    else
      _ ← rt_table_invalidate (Some u);
      rt_u ← get_rt (Some u);
      acc ← (if negb (rt_nprecursor rt_u =? 0)
             then rerr_report rerr unicast (Some u) 0
             else mret (rerr, unicast));
      precursor_list_destroy (Some u);;
      mret acc
  else mret (rerr, unicast).

(** The final [if(rerr)]. As in the source, the route looked up for the
    unicast destination is not what the NULL test reads. *)
Definition link_break_send (rt : ptr) (rerr : bool) (unicast : Z) : M unit :=
  if negb rerr then mret tt
  else if negb (unicast =? 0) then
    _ ← rt_table_check unicast;
    match rt with
    | None => mret tt
    | Some _ => len ← RERR_CALC_SIZE send_buf; aodv_socket_send send_buf unicast (s32 len) 1
    end
  else
    len ← RERR_CALC_SIZE send_buf; aodv_socket_send send_buf AODV_BROADCAST (s32 len) 1.

Definition neighbor_link_break (rt : ptr) : M unit :=
  match rt with
  | None => mret tt
  | Some _ =>
      e ← get_rt rt;
      if negb (rt_hopcnt e =? 1) then mret tt
      else
        _ ← rt_table_invalidate rt;
        e ← get_rt rt;
        acc ← (if negb (rt_nprecursor e =? 0) && negb (flag (rt_flags e) RT_REPAIR)
               then rerr_report false 0 rt 0
               else mret (false, 0));
        when (negb (flag (rt_flags e) RT_REPAIR)) (precursor_list_destroy rt);;
        acc ← foldM (λ acc i,
                 l ← bucket i;
                 foldM (link_break_entry rt) acc l)
               acc (seqZ 0 RT_TABLESIZE);
        link_break_send rt acc.1 acc.2
  end.

(** ** rt_table_update (routing_table.c) *)

Definition rt_table_update (rt : ptr) (next hops seqno lifetime : Z)
    (state : rt_state) (flags : Z) : M ptr :=
  e ← get_rt rt;
  ifindex ← gets (λ w, dev_ifindex (h_dev (this_host w)));
  flags ←
    (if bool_decide (rt_st e = INVALID) && bool_decide (state = VALID) then
       upd_num_active (λ n, n + 1);;
       let flags := if flag (rt_flags e) RT_REPAIR then Z.ldiff flags RT_REPAIR else flags in
       _ ← nl_send_add_route_msg (rt_dest_addr e) next (s32 hops) lifetime flags (s32 ifindex);
       mret flags
     else if negb (rt_next_hop e =? 0) && negb (rt_next_hop e =? next) then
       _ ← nl_send_add_route_msg (rt_dest_addr e) next (s32 hops) lifetime flags (s32 ifindex);
       mret flags
     else mret flags);
  when ((1 <? hops) && (rt_hopcnt e =? 1))
    (upd_rt rt (λ e, e <| rt_last_hello_time := TV 0 0 |>);;
     upd_rt rt (λ e, e <| rt_hello_cnt := 0 |>);;
     _ ← timer_remove (T_hello <$> rt);
     neighbor_link_break rt);;
  upd_rt rt (λ e, e <| rt_flags := flags |>);;
  upd_rt rt (λ e, e <| rt_dest_seqno := seqno |>);;
  upd_rt rt (λ e, e <| rt_next_hop := next |>);;
  upd_rt rt (λ e, e <| rt_hopcnt := u8 hops |>);;
  set_handler (T_rt (addr rt)) route_expire_timeout_h;;
  when (negb (flag flags RT_INET_DEST))
    (_ ← rt_table_update_timeout rt lifetime; mret tt);;
  upd_rt rt (λ e, e <| rt_st := state |>);;
  e ← get_rt rt;
  when (bool_decide (rt_st e = VALID))
    (s ← seek_list_check (rt_dest_addr e); _ ← seek_list_remove s; mret tt);;
  mret rt.

(** ** aodv_hello.c: hello_update_timeout; aodv_neighbor.c: neighbor_add *)

Definition hello_update_timeout (rt : ptr) (now : timeval) (time : Z) : M unit :=
  _ ← get_rt rt;
  timer_set_timeout (T_hello (addr rt)) (s32 (time + HELLO_DELAY));;
  upd_rt rt (λ e, e <| rt_last_hello_time := now |>).

Definition neighbor_add (src : Z) : M unit :=
  now ← gettimeofday;
  rt ← rt_table_check src;
  art ← ACTIVE_ROUTE_TIMEOUT;
  let finish (rt : ptr) : M unit :=
    _ ← get_rt rt;
    h ← get_timer (T_hello (addr rt));
    when (t_used h) (hello_update_timeout rt now (ALLOWED_HELLO_LOSS * HELLO_INTERVAL)) in
  match rt with
  | None =>
      rt ← rt_table_insert src src 1 0 (u32 art) VALID 0;
      finish rt
  | Some _ =>
      e ← get_rt rt;
      if flag (rt_flags e) RT_UNIDIR then mret tt
      else
        let seqno := if negb (rt_dest_seqno e =? 0) then rt_dest_seqno e else 0 in
        _ ← rt_table_update rt src 1 seqno (u32 art) VALID (rt_flags e);
        finish rt
  end.

(** ** Link breaks keep the state well formed *)

Lemma safe_rerr_report lim rerr unicast r flags w :
  Inv lim w → live w r →
  safe lim (rerr_report rerr unicast (Some r) flags) (λ _ _, True) w.
Proof.
  intros HI Hr. unfold rerr_report. sstep. destruct rerr; simpl; [by repeat sstep|].
  eapply safe_bind.
  { eapply (safe_strengthen _ _ (λ _ w', rts w' = rts w)); [|by apply safe_rerr_create].
    apply keeps_rerr_create. reflexivity. }
  intros b w' HI' _ [_ Hrts].
  destruct (Z.eqb_spec (rt_nprecursor e) 1) as [H1|]; [|by repeat sstep].
  apply safe_first_prec with e; [done|congruence|done|]. intros. by apply safe_ret.
Qed.

#[export] Hint Resolve safe_rerr_report : safe.

Lemma safe_link_break_entry lim r acc u w :
  Inv lim w → live w r → live w u →
  safe lim (link_break_entry (Some r) acc u) (λ _ _, True) w.
Proof.
  intros HI Hr Hu. unfold link_break_entry. destruct acc as [rerr unicast].
  repeat rstep.
Qed.

Lemma safe_link_break_send lim p rerr unicast w :
  Inv lim w → safe lim (link_break_send p rerr unicast) (λ _ _, True) w.
Proof. intros HI. unfold link_break_send. repeat rstep. Qed.

#[export] Hint Resolve safe_link_break_send : safe.

Lemma safe_neighbor_link_break lim p w :
  Inv lim w → valid w p → safe lim (neighbor_link_break p) (λ _ _, True) w.
Proof.
  intros HI Hp. unfold neighbor_link_break. destruct p as [r|]; [|by sstep].
  do 4 sstep.
  eapply (safe_bind _ _ _ (λ _ _, True)); [repeat sstep|call_post].
  sstep.
  eapply (safe_bind _ _ _ (λ _ _, True)); [|call_post; by sstep].
  eapply safe_conseq; [apply (safe_foldM _ _ _ (λ _ w, live w r))|done]; [|done..].
  intros acc i w9 Hi%elem_of_seqZ HI9 Hr9.
  apply safe_bucket; [done|unfold RT_TABLESIZE in *; lia|]. intros l Hl.
  eapply safe_conseq; [apply (safe_foldM _ _ _ (λ _ w, live w r ∧ ∀ u, u ∈ l → live w u))|];
    [|done..|naive_solver].
  intros acc' u w10 Hu HI10 [Hr10 Hl10].
  eapply safe_wand; [by apply safe_link_break_entry; auto|].
  intros _ w11 _ HE11 _. split; [by eapply live_ext|]. intros u' Hu'.
  eapply live_ext; eauto.
Qed.

#[export] Hint Resolve safe_neighbor_link_break : safe.

Lemma safe_rt_table_update lim r next hops seqno lifetime state flags w :
  Inv lim w → live w r →
  safe lim (rt_table_update (Some r) next hops seqno lifetime state flags)
    (λ p _, p = Some r) w.
Proof.
  intros HI Hr. unfold rt_table_update.
  change (addr (Some r)) with r. change (T_hello <$> Some r) with (Some (T_hello r)).
  repeat rstep.
Qed.

#[export] Hint Resolve safe_rt_table_update : safe.

Lemma safe_hello_update_timeout lim r now time w :
  Inv lim w → live w r →
  safe lim (hello_update_timeout (Some r) now time) (λ _ _, True) w.
Proof.
  intros HI Hr. unfold hello_update_timeout. change (addr (Some r)) with r. repeat rstep.
Qed.

#[export] Hint Resolve safe_hello_update_timeout : safe.

Lemma safe_neighbor_add src w :
  Inv None w → safe None (neighbor_add src) (λ _ _, True) w.
Proof.
  intros HI. unfold neighbor_add, ACTIVE_ROUTE_TIMEOUT. do 3 rstep.
  assert (∀ r w, Inv None w → live w r →
    safe None (_ ← get_rt (Some r); h ← get_timer (T_hello (addr (Some r)));
               when (t_used h) (hello_update_timeout (Some r) b
                                  (ALLOWED_HELLO_LOSS * HELLO_INTERVAL)))
      (λ _ _, True) w) as Hfin.
  { intros r w1 HI1 Hr1. change (addr (Some r)) with r. repeat rstep. }
  destruct p as [r|].
  - repeat rstep.
  - eapply safe_bind; [apply safe_rt_table_insert_new; [done|by apply Ha]|].
    intros ? w1 HI1 _ (r & -> & Hr). by apply Hfin.
Qed.

#[export] Hint Resolve safe_neighbor_add : safe.

(** ** Link breaks only take routes away *)

(** What a link break may do to an entry. *)
Record fade (e e' : rt_table_t) : Prop := {
  fade_dest : rt_dest_addr e' = rt_dest_addr e;
  fade_next : rt_next_hop e' = rt_next_hop e;
  fade_hopcnt : rt_hopcnt e' = rt_hopcnt e;
  fade_valid : rt_st e' = VALID → rt_st e = VALID
}.

#[export] Instance fade_preorder : PreOrder fade.
Proof.
  split; [by intros e; split|]. intros e1 e2 e3 [????] [????]. split; [congruence..|auto].
Qed.

(** The same entries, in the same buckets, each faded. *)
Definition fades (w w' : world) : Prop :=
  rt_buckets (rt_tbl w') = rt_buckets (rt_tbl w) ∧
  ∀ r, option_Forall2 fade (rts w !! r) (rts w' !! r).

#[export] Instance fades_preorder : PreOrder fades.
Proof.
  split; [by intros w; split|]. intros w1 w2 w3 [B1 F1] [B2 F2]. split; [congruence|].
  intros r. etrans; [apply F1|apply F2].
Qed.

Lemma fades_lookup w w' r e' :
  fades w w' → rts w' !! r = Some e' → ∃ e, rts w !! r = Some e ∧ fade e e'.
Proof. intros [_ HF] He'. specialize (HF r). rewrite He' in HF. inversion HF; eauto. Qed.

Lemma fades_lookup_fwd w w' r e :
  fades w w' → rts w !! r = Some e → ∃ e', rts w' !! r = Some e' ∧ fade e e'.
Proof. intros [_ HF] He. specialize (HF r). rewrite He in HF. inversion HF; eauto. Qed.

Definition fade_view (w : world) := (rts w, rt_buckets (rt_tbl w)).

Lemma fades_view w w' : fade_view w' = fade_view w → fades w w'.
Proof. intros [= Hr Hb]. split; [done|]. by rewrite Hr. Qed.

Lemma evolves_fades_keeps {A} (m : M A) : keeps fade_view m → evolves fades m.
Proof. intros Hm. eapply evolves_keeps; [exact Hm|apply fades_view]. Qed.

Lemma evolves_fades_upd_rt p f : (∀ e, fade e (f e)) → evolves fades (upd_rt p f).
Proof.
  intros Hf w [] w' H. unfold upd_rt, get_rt, deref in H.
  destruct p as [r|]; [|done]. apply bind_Ok in H as (e & w1 & H & [= <-]).
  destruct (rts w !! r) as [e0|] eqn:He; [|done]. injection H as -> <-.
  split; [done|]. intros r'. simpl. destruct (decide (r = r')) as [<-|].
  - rewrite lookup_insert_eq, He. by constructor.
  - by rewrite lookup_insert_ne.
Qed.

Ltac fades_step :=
  first
    [ evolves_step
    | apply evolves_fades_upd_rt; intros ?; by split
    | apply evolves_fades_keeps; first
        [ by apply keeps_modify | by apply keeps_timer_remove | by apply keeps_timer_set_timeout
        | by apply keeps_upd_timer | by apply keeps_del_route | by apply keeps_aodv_socket_send
        | by apply keeps_rerr_create | by apply keeps_rerr_add_udest
        | by apply keeps_gettimeofday | apply keeps_rt_table_check | by keeps_auto ] ].

Lemma evolves_invalidate p : evolves fades (rt_table_invalidate p).
Proof.
  unfold rt_table_invalidate, upd_num_active, set_handler, ACTIVE_ROUTE_TIMEOUT, DELETE_PERIOD.
  repeat fades_step.
Qed.

Lemma evolves_destroy p : evolves fades (precursor_list_destroy p).
Proof. unfold precursor_list_destroy. repeat fades_step. Qed.

Lemma keeps_rerr_report {B} (f : world → B) rerr u p fl :
  (∀ l w, f (set_buf send_buf l w) = f w) → keeps f (rerr_report rerr u p fl).
Proof.
  intros Hf. unfold rerr_report, first_prec. keeps_auto;
    by first [apply keeps_rerr_create | apply keeps_rerr_add_udest].
Qed.

Lemma evolves_bucket i : evolves fades (bucket i).
Proof. apply (evolves_id _). intros w a w'. unfold bucket. cases; naive_solver. Qed.

Lemma evolves_link_break_entry p acc u : evolves fades (link_break_entry p acc u).
Proof.
  unfold link_break_entry. destruct acc as [rerr unicast].
  repeat first [apply evolves_invalidate | apply evolves_destroy
    | apply evolves_fades_keeps, keeps_rerr_report; done | fades_step].
Qed.

Lemma evolves_link_break_send p rerr u : evolves fades (link_break_send p rerr u).
Proof.
  unfold link_break_send, RERR_CALC_SIZE. repeat fades_step.
Qed.

Lemma evolves_neighbor_link_break p : evolves fades (neighbor_link_break p).
Proof.
  unfold neighbor_link_break.
  repeat first [apply evolves_invalidate | apply evolves_destroy | apply evolves_bucket
    | apply evolves_link_break_entry | apply evolves_link_break_send
    | apply evolves_fades_keeps, keeps_rerr_report; done | fades_step].
Qed.

(** [u] is not a valid route through the node [nbr]. *)
Definition not_through (nbr : Z) (u : nat) (w : world) : Prop :=
  ∀ e, rts w !! u = Some e → rt_st e = VALID → rt_next_hop e = nbr → rt_dest_addr e = nbr.

Lemma not_through_fades nbr u w w' : fades w w' → not_through nbr u w → not_through nbr u w'.
Proof.
  intros HF HQ e' He' Hv Hn. destruct (fades_lookup _ _ _ _ HF He') as (e & He & [Hd Hn' _ Hv']).
  rewrite Hd. apply HQ; [done|auto|congruence].
Qed.

Definition invalid (u : nat) (w : world) : Prop :=
  ∀ e, rts w !! u = Some e → rt_st e = INVALID.

Lemma invalid_fades u w w' : fades w w' → invalid u w → invalid u w'.
Proof.
  intros HF HQ e' He'. destruct (fades_lookup _ _ _ _ HF He') as (e & He & [_ _ _ Hv]).
  apply HQ in He. destruct (rt_st e'); [done|]. rewrite Hv in He; done.
Qed.

Lemma invalid_not_through nbr u w : invalid u w → not_through nbr u w.
Proof. intros H e He Hv. apply H in He. congruence. Qed.

(** An invalidated entry is invalid, and stays so. *)
Lemma wpo_invalidate_invalid u w : wpo (rt_table_invalidate (Some u)) (λ _, invalid u) w.
Proof.
  unfold rt_table_invalidate. apply wp_bind. eapply wp_eq; [reflexivity|].
  set (w0 := w <| w_tick ::= S |>). destruct (rts w0 !! u) as [e|] eqn:He; last first.
  { unfold wp, get_rt, deref, mbind, M_bind. by rewrite He. }
  apply (wp_get_rt _ _ e); [done|]. destruct (rt_st e) eqn:Hst.
  { apply wp_ret. intros e' He'. congruence. }
  do 3 (apply wpo_keeps_bind with (f := rts); [by apply keeps_timer_remove|intros _ ? ?]).
  apply wp_bind. eapply wp_eq; [apply (upd_rt_run _ u e); congruence|].
  match goal with |- wp _ ?m _ _ => assert (evolves fades m) as Hm end.
  { unfold upd_num_active, set_handler, ACTIVE_ROUTE_TIMEOUT, DELETE_PERIOD.
    repeat fades_step. }
  eapply wpo_evolves; [exact Hm|]. intros _ w9 HF. eapply invalid_fades; [exact HF|].
  intros e' He'. simpl in He'. rewrite lookup_insert_eq in He'. by injection He' as <-.
Qed.

(** A step that invalidates [u], followed by others that only fade. *)
Lemma wpo_invalidate_bind {A} u (k : Z → M A) w :
  (∀ c, evolves fades (k c)) → wpo (rt_table_invalidate (Some u) ≫= k) (λ _, invalid u) w.
Proof.
  intros Hk. apply wp_bind. eapply wp_wand; [apply wpo_invalidate_invalid|].
  intros c w' Hi. eapply wpo_evolves; [apply Hk|]. intros a w''. by eauto using invalid_fades.
Qed.

Lemma wpo_link_break_entry r nbr acc u w :
  (∀ e, rts w !! r = Some e → rt_dest_addr e = nbr) →
  wpo (link_break_entry (Some r) acc u) (λ _, not_through nbr u) w.
Proof.
  intros Hr. unfold link_break_entry. destruct acc as [rerr unicast].
  destruct (rts w !! u) as [eu|] eqn:Hu; last first.
  { unfold wp, get_rt, deref, mbind, M_bind. by rewrite Hu. }
  apply (wp_get_rt _ _ eu); [done|].
  destruct (rts w !! r) as [er|] eqn:He; last first.
  { unfold wp, get_rt, deref, mbind, M_bind. by rewrite He. }
  apply (wp_get_rt _ _ er); [done|]. rewrite (Hr er eq_refl).
  destruct (_ && _ && _) eqn:Hc.
  - eapply (wp_wand _ _ (λ _, invalid u)); [|intros ? ? ?; by apply invalid_not_through].
    destruct (flag _ _ && _).
    + apply wp_bind. apply wpo_Ok. intros [] w1 _. apply wpo_invalidate_bind.
      intros c. repeat fades_step.
    + apply wpo_invalidate_bind. intros c.
      repeat first [apply evolves_destroy | apply evolves_fades_keeps, keeps_rerr_report; done
                   | fades_step].
  - apply wp_ret. intros e' He' Hv Hn. assert (e' = eu) as -> by congruence.
    rewrite bool_decide_eq_true_2, Hn, Z.eqb_refl in Hc by done. simpl in Hc.
    by apply negb_false_iff, Z.eqb_eq in Hc.
Qed.

(** Every entry is in the bucket of its destination. *)
Definition linked (w : world) : Prop :=
  ∀ r e, rts w !! r = Some e → ∃ l, rt_buckets (rt_tbl w) !! bucket_of e = Some l ∧ r ∈ l.

Lemma Inv_linked w : Inv None w → linked w.
Proof. intros HI r e He. by apply (tbl_linked _ _ _ (I_table _ _ HI)). Qed.

Definition dest_is (r : nat) (nbr : Z) (w : world) : Prop :=
  ∀ e, rts w !! r = Some e → rt_dest_addr e = nbr.

Lemma dest_is_fades r nbr w w' : fades w w' → dest_is r nbr w → dest_is r nbr w'.
Proof.
  intros HF H e' He'. destruct (fades_lookup _ _ _ _ HF He') as (e & He & [Hd _ _ _]).
  rewrite Hd. by apply H.
Qed.

(** What is done for one bucket, and for all of them. *)
Definition bucket_not_through (nbr i : Z) (w : world) : Prop :=
  ∀ l u, rt_buckets (rt_tbl w) !! Z.to_nat i = Some l → u ∈ l → not_through nbr u w.

Lemma wpo_link_break_bucket r nbr acc i w :
  dest_is r nbr w →
  wpo (l ← bucket i; foldM (link_break_entry (Some r)) acc l)
    (λ _, bucket_not_through nbr i) w.
Proof.
  intros Hr. unfold bucket. apply wp_bind.
  destruct (rt_buckets (rt_tbl w) !! Z.to_nat i) as [l|] eqn:Hl; unfold wp at 1; rewrite Hl; [|done].
  eapply wp_wand; [apply (wpo_foldM_each fades (not_through nbr))|].
  - intros. apply evolves_link_break_entry.
  - intros. by eapply not_through_fades.
  - intros. apply wpo_link_break_entry. by eapply dest_is_fades.
  - intros acc' w' [HF HQ] l' u Hl' Hu. apply HQ. destruct HF as [Hb _]. congruence.
Qed.

Lemma wpo_link_break_loop r nbr acc w :
  dest_is r nbr w → linked w →
  wpo (foldM (λ acc i, l ← bucket i; foldM (link_break_entry (Some r)) acc l)
         acc (seqZ 0 RT_TABLESIZE))
    (λ _ w', fades w w' ∧ ∀ u, not_through nbr u w') w.
Proof.
  intros Hr Hlink.
  eapply wp_wand; [apply (wpo_foldM_each fades (bucket_not_through nbr))|].
  - intros. apply (evolves_bind _); [apply evolves_bucket|]. intros l.
    apply (evolves_foldM _). intros. apply evolves_link_break_entry.
  - intros i w1 w2 HF HQ l u Hl Hu. eapply not_through_fades; [exact HF|].
    apply (HQ l); [|done]. destruct HF as [Hb _]. congruence.
  - intros. apply wpo_link_break_bucket. by eapply dest_is_fades.
  - intros acc' w' [HF HQ]. split; [done|]. intros u e' He' Hv Hn.
    destruct (fades_lookup _ _ _ _ HF He') as (e & He & Hfd).
    destruct (Hlink u e He) as (l & Hl & Hu).
    eapply (HQ (Z.of_nat (bucket_of e))); [|by rewrite Nat2Z.id, (proj1 HF)|done..].
    apply elem_of_seqZ. pose proof (bucket_of_lt e). unfold RT_TABLESIZE. lia.
Qed.

(** The whole of [neighbor_link_break] on a neighbor. *)
Lemma wpo_neighbor_link_break r e w :
  linked w → rts w !! r = Some e → rt_hopcnt e = 1 →
  wpo (neighbor_link_break (Some r))
    (λ _ w', fades w w' ∧ invalid r w' ∧ ∀ u, not_through (rt_dest_addr e) u w') w.
Proof.
  intros HI He Hh. unfold neighbor_link_break. apply (wp_get_rt _ _ e); [done|].
  rewrite Hh. cbn [negb Z.eqb]. change (1 =? 1) with true. cbn [negb].
  apply wp_bind. eapply wp_wand; [apply wp_conj;
    [apply wpo_invalidate_invalid|apply (wpo_evolves fades _ (λ _ w', fades w w'));
      [apply evolves_invalidate|done]]|].
  intros _ w1 [Hi HF1].
  assert (∀ w', fades w1 w' → fades w w' ∧ invalid r w') as Hpost.
  { intros w' HF. split; [by etrans|by eapply invalid_fades]. }
  match goal with |- wp _ (?m ≫= ?k) _ _ =>
    apply wp_bind, (wpo_evolves fades m); [apply (evolves_deref _)|intros e1 w2 HF2]; cbv beta end.
  apply wp_bind. eapply (wpo_evolves fades); [|intros acc w3 HF3].
  { destruct (_ && _); [by apply evolves_fades_keeps, keeps_rerr_report|apply (evolves_ret _)]. }
  apply wp_bind. eapply (wpo_evolves fades);
    [apply (evolves_when _), evolves_destroy|intros _ w4 HF4].
  assert (fades w w4) as HF by (by repeat (etrans; [eassumption|])).
  apply wp_bind. eapply wp_wand; [apply (wpo_link_break_loop r (rt_dest_addr e))|].
  - eapply dest_is_fades; [exact HF|]. intros e' ?. congruence.
  - intros u eu Hu. destruct (fades_lookup _ _ _ _ HF Hu) as (eu0 & Hu0 & Hfd).
    unfold bucket_of. rewrite (fade_dest _ _ Hfd), (proj1 HF). by apply HI.
  - intros acc' w5 [HF5 HQ]. eapply (wpo_evolves fades); [apply evolves_link_break_send|].
    intros _ w6 HF6. destruct (Hpost w6) as [? ?]; [by repeat (etrans; [eassumption|])|].
    split_and!; [done..|]. intros u. by apply (not_through_fades _ _ w5).
Qed.

(** C13: [neighbor_link_break] on a neighbor (an entry at one hop) leaves no
    valid route through it: it and every route whose next hop it is become
    invalid. No route is created, freed, moved or redirected, and none becomes
    valid. *)
Theorem neighbor_link_break_unroutes w r e :
  Inv None w → rts w !! r = Some e → rt_hopcnt e = 1 →
  match neighbor_link_break (Some r) w with
  | Ok _ w' => Inv None w' ∧ fades w w' ∧
      (∀ u e', rts w' !! u = Some e' → rt_st e' = VALID →
         u ≠ r ∧ rt_next_hop e' ≠ rt_dest_addr e)
  | Err e' => benign e'
  end.
Proof.
  intros HI He Hh.
  pose proof (wp_total _ _ _ _ _
    (safe_neighbor_link_break None (Some r) w HI (live_of_lookup _ _ _ He))
    (wpo_neighbor_link_break r e w (Inv_linked w HI) He Hh)) as Hs.
  unfold wp in Hs. destruct (neighbor_link_break (Some r) w) as [[] w'|]; [|done].
  destruct Hs as ((HI' & _) & HF & Hi & HQ). split_and!; [done..|].
  intros u e' He' Hv.
  assert (u ≠ r) as Hne by (intros ->; apply Hi in He'; congruence).
  split; [done|]. intros Hn. apply Hne.
  destruct (fades_lookup_fwd _ _ _ _ HF He) as (e2 & He2 & Hfd).
  apply (entry_unique None w' u r e' e2); [done..|].
  rewrite (fade_dest _ _ Hfd). by apply (HQ u).
Qed.

(** ** Link breaks spare the other routes *)

(** Only the entry [u] may have changed. *)
Definition others (u : nat) (w w' : world) : Prop := ∀ v, v ≠ u → rts w' !! v = rts w !! v.

#[export] Instance others_preorder u : PreOrder (others u).
Proof. split; [by intros w v|]. intros w1 w2 w3 H1 H2 v Hv. by rewrite H2, H1. Qed.

Lemma evolves_others_keeps {A} u (m : M A) : keeps rts m → evolves (others u) m.
Proof. intros Hm. eapply evolves_keeps; [exact Hm|]. intros w w' H v _. by rewrite H. Qed.

Lemma evolves_others_upd_rt u f : evolves (others u) (upd_rt (Some u) f).
Proof.
  intros w [] w' H. unfold upd_rt, get_rt, deref in H.
  apply bind_Ok in H as (e & w1 & H & [= <-]).
  destruct (rts w !! u) as [e0|]; [|done]. injection H as -> <-.
  intros v Hv. simpl. by rewrite lookup_insert_ne.
Qed.

Ltac others_step :=
  first
    [ evolves_step
    | apply evolves_others_upd_rt
    | apply evolves_others_keeps; first
        [ by apply keeps_modify | by apply keeps_timer_remove | by apply keeps_timer_set_timeout
        | by apply keeps_upd_timer | by apply keeps_del_route | by apply keeps_rerr_report
        | by apply keeps_gettimeofday | by apply keeps_ld | by keeps_auto ] ].

Lemma others_invalidate u : evolves (others u) (rt_table_invalidate (Some u)).
Proof.
  unfold rt_table_invalidate, upd_num_active, set_handler, ACTIVE_ROUTE_TIMEOUT, DELETE_PERIOD.
  repeat others_step.
Qed.

Lemma others_destroy u : evolves (others u) (precursor_list_destroy (Some u)).
Proof. unfold precursor_list_destroy. repeat others_step. Qed.

Lemma others_link_break_entry p acc u : evolves (others u) (link_break_entry p acc u).
Proof.
  unfold link_break_entry. destruct acc as [rerr unicast].
  repeat first [apply others_invalidate | apply others_destroy | others_step].
Qed.

(** The entries other than [r] whose next hop is not [nbr] are as before. *)
Definition spares (nbr : Z) (r : nat) (w w' : world) : Prop :=
  ∀ u e, u ≠ r → rts w !! u = Some e → rt_next_hop e ≠ nbr → rts w' !! u = Some e.

#[export] Instance spares_preorder nbr r : PreOrder (spares nbr r).
Proof. split; [by intros w u e|]. intros w1 w2 w3 H1 H2 u e ???. apply H2; auto. Qed.

Lemma others_spares nbr r w w' : others r w w' → spares nbr r w w'.
Proof. intros H u e Hu He _. by rewrite H. Qed.

Lemma wpo_link_break_entry_spares r nbr acc u w :
  dest_is r nbr w → wpo (link_break_entry (Some r) acc u) (λ _, spares nbr r w) w.
Proof.
  intros Hr.
  destruct (rts w !! u) as [eu|] eqn:Hu; last first.
  { unfold link_break_entry, wp, get_rt, deref, mbind, M_bind. destruct acc. by rewrite Hu. }
  destruct (decide (rt_next_hop eu = nbr)) as [Hn|Hn].
  - eapply wpo_evolves; [apply others_link_break_entry|]. intros acc' w' Ho v e Hv He Hne.
    rewrite Ho; [done|]. intros ->. congruence.
  - unfold link_break_entry. destruct acc as [rerr unicast].
    apply (wp_get_rt _ _ eu); [done|].
    destruct (rts w !! r) as [er|] eqn:He; last first.
    { unfold wp, get_rt, deref, mbind, M_bind. by rewrite He. }
    apply (wp_get_rt _ _ er); [done|]. rewrite (Hr er He), (proj2 (Z.eqb_neq _ _) Hn).
    rewrite andb_false_r. cbn [andb]. by apply wp_ret.
Qed.

Lemma wpo_link_break_loop_spares r nbr acc w :
  dest_is r nbr w →
  wpo (foldM (λ acc i, l ← bucket i; foldM (link_break_entry (Some r)) acc l)
         acc (seqZ 0 RT_TABLESIZE))
    (λ _, spares nbr r w) w.
Proof.
  intros Hr. eapply wp_wand.
  - apply (wp_foldM _ _ _ _ (λ _ w', dest_is r nbr w' ∧ spares nbr r w w')); [|done].
    intros acc1 i w1 _ [Hd1 Hs1]. apply wp_bind. unfold bucket.
    destruct (rt_buckets (rt_tbl w1) !! Z.to_nat i) as [l|] eqn:Hl;
      unfold wp at 1; rewrite Hl; [|done].
    apply (wp_foldM _ _ _ _ (λ _ w', dest_is r nbr w' ∧ spares nbr r w w')); [|done].
    intros acc2 u w2 _ [Hd2 Hs2].
    eapply wp_wand; [apply wp_conj; [by apply (wpo_link_break_entry_spares r nbr)|
      eapply (wpo_evolves fades _ (λ _, fades w2)); [apply evolves_link_break_entry|done]]|].
    intros acc3 w3 [Hs3 HF3]. split; [by eapply dest_is_fades|by etrans].
  - by intros acc' w' [_ ?].
Qed.

(** A step on the neighbor itself, before the loop. *)
Lemma wpo_spares_step {A B} nbr r (m : M A) (k : A → M B) w w1 :
  evolves fades m → evolves (others r) m → fades w w1 → spares nbr r w w1 →
  (∀ a w2, fades w w2 → spares nbr r w w2 → wpo (k a) (λ _, spares nbr r w) w2) →
  wpo (m ≫= k) (λ _, spares nbr r w) w1.
Proof.
  intros Hm1 Hm2 HF1 Hs1 Hk. apply wp_bind, wpo_Ok. intros a w2 Hrun.
  apply Hk; etrans; [exact HF1|by eapply Hm1|exact Hs1|].
  by eapply others_spares, Hm2.
Qed.

Lemma wpo_neighbor_link_break_spares r e w :
  rts w !! r = Some e →
  wpo (neighbor_link_break (Some r)) (λ _, spares (rt_dest_addr e) r w) w.
Proof.
  intros He. unfold neighbor_link_break. apply (wp_get_rt _ _ e); [done|].
  destruct (negb (rt_hopcnt e =? 1)); [by apply wp_ret|].
  apply wpo_spares_step; [apply evolves_invalidate|apply others_invalidate|done..|].
  intros _ w1 HF1 Hs1.
  apply wpo_spares_step; [apply (evolves_deref _)|apply (evolves_deref _)|done..|].
  intros e1 w2 HF2 Hs2. apply wpo_spares_step; [| |done..|].
  { destruct (_ && _); [by apply evolves_fades_keeps, keeps_rerr_report|apply (evolves_ret _)]. }
  { destruct (_ && _); [by apply evolves_others_keeps, keeps_rerr_report|apply (evolves_ret _)]. }
  intros acc w3 HF3 Hs3.
  apply wpo_spares_step; [apply (evolves_when _), evolves_destroy
                         |apply (evolves_when _), others_destroy|done..|].
  intros _ w4 HF4 Hs4. apply wp_bind.
  eapply wp_wand; [apply (wpo_link_break_loop_spares r (rt_dest_addr e))|].
  { eapply dest_is_fades; [exact HF4|]. intros e' ?. congruence. }
  intros acc' w5 Hs5. apply (wpo_keeps rts).
  { unfold link_break_send, RERR_CALC_SIZE. keeps_auto;
      first [apply keeps_rt_table_check | by apply keeps_aodv_socket_send]. }
  intros _ w6 Hr u eu Hu Heu Hn. rewrite Hr. apply Hs5; auto.
Qed.

(** [neighbor_link_break] touches no route that does not depend on the
    neighbor: an entry other than the neighbor whose next hop is not the
    neighbor is the same afterwards, field by field. *)
Theorem neighbor_link_break_spares w r e :
  Inv None w → rts w !! r = Some e →
  match neighbor_link_break (Some r) w with
  | Ok _ w' => ∀ u eu, u ≠ r → rts w !! u = Some eu → rt_next_hop eu ≠ rt_dest_addr e →
      rts w' !! u = Some eu
  | Err e' => benign e'
  end.
Proof.
  intros HI He.
  pose proof (wp_total _ _ _ _ _
    (safe_neighbor_link_break None (Some r) w HI (live_of_lookup _ _ _ He))
    (wpo_neighbor_link_break_spares r e w He)) as Hs.
  unfold wp in Hs. destruct (neighbor_link_break (Some r) w) as [[] w'|]; [|done].
  by destruct Hs as [_ Hs].
Qed.

(** ** What [rt_table_update] does to the table *)

(** The entry with the fields [rt_table_update] assigns. *)
Definition updated (next hops seqno : Z) (state : rt_state) (flags : Z) (e : rt_table_t)
    : rt_table_t :=
  e <| rt_flags := flags |> <| rt_dest_seqno := seqno |> <| rt_next_hop := next |>
    <| rt_hopcnt := u8 hops |> <| rt_st := state |>.

(** The flags it stores: a route under repair that is found again is not
    under repair any more. *)
Definition update_flags (e : rt_table_t) (state : rt_state) (flags : Z) : Z :=
  if bool_decide (rt_st e = INVALID) && bool_decide (state = VALID) && flag (rt_flags e) RT_REPAIR
  then Z.ldiff flags RT_REPAIR else flags.

(** Whether it announces the loss of the neighbor [e]. *)
Definition update_breaks_link (e : rt_table_t) (hops : Z) : bool :=
  (1 <? hops) && (rt_hopcnt e =? 1).

Lemma wpo_upd_rt {A} r e f (k : unit → M A) Q w :
  rts w !! r = Some e →
  (∀ w', rts w' = <[r := f e]> (rts w) → rt_tbl w' = rt_tbl w → timers w' = timers w →
     wpo (k tt) Q w') →
  wpo (upd_rt (Some r) f ≫= k) Q w.
Proof.
  intros He Hk. apply wp_bind. eapply wp_eq; [by apply upd_rt_run|]. by apply Hk.
Qed.

Lemma keeps_update_timeout {B} (f : world → B) p ms :
  (∀ w, f (w <| w_tick ::= S |>) = f w) → (∀ g w, f (w <| timers ::= g |>) = f w) →
  (∀ g w, f (w <| tq ::= g |>) = f w) → (∀ g w, f (w <| exptq ::= g |>) = f w) →
  keeps f (rt_table_update_timeout p ms).
Proof.
  intros. unfold rt_table_update_timeout. keeps_auto.
  all: first [by apply keeps_gettimeofday | by apply keeps_timer_set_timeout].
Qed.

Lemma keeps_seek_forget {B} (f : world → B) dest :
  (∀ g w, f (w <| seeks ::= g |>) = f w) → (∀ g w, f (w <| sl ::= g |>) = f w) →
  (∀ g w, f (w <| timers ::= g |>) = f w) →
  (∀ g w, f (w <| tq ::= g |>) = f w) → (∀ g w, f (w <| exptq ::= g |>) = f w) →
  keeps f (s ← seek_list_check dest; _ ← seek_list_remove s; mret tt).
Proof.
  intros H1 H2 H3 H4 H5. unfold seek_list_check, seek_list_remove, free_seek. keeps_auto.
  all: first [apply keeps_seek_scan | by apply keeps_timer_remove
             | intros; by rewrite ?H1, ?H2, ?H3 | idtac].
Qed.

(** The table proper, with its counters. *)
Definition rt_view (w : world) := (rts w, rt_tbl w).

(** The assignments of [rt_table_update], from the flags on. *)
Definition rt_table_assign (r : nat) (next hops seqno lifetime : Z) (state : rt_state)
    (flags : Z) : M ptr :=
  upd_rt (Some r) (λ e, e <| rt_flags := flags |>);;
  upd_rt (Some r) (λ e, e <| rt_dest_seqno := seqno |>);;
  upd_rt (Some r) (λ e, e <| rt_next_hop := next |>);;
  upd_rt (Some r) (λ e, e <| rt_hopcnt := u8 hops |>);;
  set_handler (T_rt r) route_expire_timeout_h;;
  when (negb (flag flags RT_INET_DEST))
    (_ ← rt_table_update_timeout (Some r) lifetime; mret tt);;
  upd_rt (Some r) (λ e, e <| rt_st := state |>);;
  e ← get_rt (Some r);
  when (bool_decide (rt_st e = VALID))
    (s ← seek_list_check (rt_dest_addr e); _ ← seek_list_remove s; mret tt);;
  mret (Some r).

Lemma wpo_rt_table_assign r e next hops seqno lifetime state flags w :
  rts w !! r = Some e →
  wpo (rt_table_assign r next hops seqno lifetime state flags)
    (λ p w', p = Some r ∧
       rt_view w' = (<[r := updated next hops seqno state flags e]> (rts w), rt_tbl w)) w.
Proof.
  intros He. unfold rt_table_assign.
  apply (wpo_upd_rt r e); [done|]. intros w1 R1 T1 _.
  eapply wpo_upd_rt; [rewrite R1; apply lookup_insert_eq|]. intros w2 R2 T2 _.
  eapply wpo_upd_rt; [rewrite R2; apply lookup_insert_eq|]. intros w3 R3 T3 _.
  eapply wpo_upd_rt; [rewrite R3; apply lookup_insert_eq|]. intros w4 R4 T4 _.
  apply (wpo_keeps_bind rt_view); [by apply keeps_upd_timer|]. intros _ w5 [= R5 T5].
  apply (wpo_keeps_bind rt_view).
  { keeps_auto. by apply keeps_update_timeout. }
  intros _ w6 [= R6 T6].
  eapply wpo_upd_rt; [rewrite R6, R5, R4; apply lookup_insert_eq|]. intros w7 R7 T7 _.
  apply (wp_get_rt _ _ (updated next hops seqno state flags e)).
  { rewrite R7. apply lookup_insert_eq. }
  apply (wpo_keeps_bind rt_view).
  { apply keeps_when. by apply keeps_seek_forget. }
  intros _ w8 [= R8 T8]. apply wp_ret. split; [done|]. unfold rt_view.
  rewrite R8, R7, R6, R5, R4, R3, R2, R1, T8, T7, T6, T5, T4, T3, T2, T1.
  by rewrite !insert_insert_eq.
Qed.

(** The first statement of [rt_table_update]: the kernel is told about a new
    or moved route, and the route may become active. *)
Definition rt_table_announce (e : rt_table_t) (next hops lifetime : Z) (state : rt_state)
    (flags ifindex : Z) : M Z :=
  if bool_decide (rt_st e = INVALID) && bool_decide (state = VALID) then
    upd_num_active (λ n, n + 1);;
    let flags := if flag (rt_flags e) RT_REPAIR then Z.ldiff flags RT_REPAIR else flags in
    _ ← nl_send_add_route_msg (rt_dest_addr e) next (s32 hops) lifetime flags (s32 ifindex);
    mret flags
  else if negb (rt_next_hop e =? 0) && negb (rt_next_hop e =? next) then
    _ ← nl_send_add_route_msg (rt_dest_addr e) next (s32 hops) lifetime flags (s32 ifindex);
    mret flags
  else mret flags.

(** The number of active routes once it has been announced. *)
Definition announced (e : rt_table_t) (state : rt_state) (t : routing_table) : routing_table :=
  if bool_decide (rt_st e = INVALID) && bool_decide (state = VALID)
  then t <| rt_num_active ::= λ n, u32 (n + 1) |> else t.

Lemma wpo_rt_table_announce e next hops lifetime state flags ifindex w :
  wpo (rt_table_announce e next hops lifetime state flags ifindex)
    (λ fl w', fl = update_flags e state flags ∧ timers w' = timers w ∧
       rt_view w' = (rts w, announced e state (rt_tbl w))) w.
Proof.
  unfold rt_table_announce, update_flags, announced.
  destruct (bool_decide (rt_st e = INVALID) && bool_decide (state = VALID)); cbn [andb].
  - unfold upd_num_active. apply wp_modify_bind. cbv zeta.
    apply (wpo_keeps_bind (λ w, (rt_view w, timers w))); [by apply keeps_add_route|].
    intros _ w' [= R T TM]. apply wp_ret. unfold rt_view. by rewrite R, T, TM.
  - destruct (_ && _); [|by apply wp_ret].
    apply (wpo_keeps_bind (λ w, (rt_view w, timers w))); [by apply keeps_add_route|].
    intros _ w' [= R T TM]. apply wp_ret. unfold rt_view. by rewrite R, T, TM.
Qed.

(** [rt_table_update] in terms of its parts. *)
Lemma rt_table_update_eq r next hops seqno lifetime state flags w :
  rt_table_update (Some r) next hops seqno lifetime state flags w =
  (e ← get_rt (Some r);
   ifindex ← gets (λ w, dev_ifindex (h_dev (this_host w)));
   flags ← rt_table_announce e next hops lifetime state flags ifindex;
   when (update_breaks_link e hops)
     (upd_rt (Some r) (λ e, e <| rt_last_hello_time := TV 0 0 |>);;
      upd_rt (Some r) (λ e, e <| rt_hello_cnt := 0 |>);;
      _ ← timer_remove (Some (T_hello r));
      neighbor_link_break (Some r));;
   rt_table_assign r next hops seqno lifetime state flags) w.
Proof. done. Qed.

Lemma wpo_rt_table_update r e next hops seqno lifetime state flags w :
  linked w → rts w !! r = Some e →
  wpo (rt_table_update (Some r) next hops seqno lifetime state flags)
    (λ p w', p = Some r ∧
       (∃ e', rts w' !! r = Some e' ∧ rt_dest_addr e' = rt_dest_addr e ∧
          rt_dest_seqno e' = seqno ∧ rt_next_hop e' = next ∧ rt_hopcnt e' = u8 hops ∧
          rt_st e' = state ∧ rt_flags e' = update_flags e state flags) ∧
       if update_breaks_link e hops
       then ∀ u, u ≠ r → not_through (rt_dest_addr e) u w'
       else rts w' = <[r := updated next hops seqno state (update_flags e state flags) e]> (rts w) ∧
            rt_tbl w' = announced e state (rt_tbl w)) w.
Proof.
  intros HI He. apply (wp_ext _ _ _ _ _ (rt_table_update_eq r next hops seqno lifetime state flags w)).
  apply (wp_get_rt _ _ e); [done|]. apply wp_bind, wp_gets, wp_bind.
  eapply wp_wand; [apply wpo_rt_table_announce|]. intros ? w1 (-> & _ & [= R1 T1]).
  destruct (update_breaks_link e hops) eqn:Hlb; cbn [when]; last first.
  { eapply wp_wand; [apply (wpo_rt_table_assign r e); congruence|].
    intros p w2 [-> [= R2 T2]]. split; [done|]. rewrite R2, T2, R1, T1, lookup_insert_eq.
    split; [|done]. eexists. split; [done|]. done. }
  apply andb_true_iff in Hlb as [_ Hh%Z.eqb_eq].
  apply wp_bind.
  apply (wpo_upd_rt r e); [congruence|]. intros w2 R2 T2 _.
  eapply wpo_upd_rt; [rewrite R2; apply lookup_insert_eq|]. intros w3 R3 T3 _.
  rewrite R2, insert_insert_eq, R1 in R3. set (e3 := _ <| rt_hello_cnt := _ |>) in R3.
  apply (wpo_keeps_bind rt_view); [by apply keeps_timer_remove|]. intros _ w4 [= R4 T4].
  assert (rts w4 !! r = Some e3) as He4 by (by rewrite R4, R3, lookup_insert_eq).
  eapply wp_wand; [apply (wpo_neighbor_link_break r e3); [|done..]|].
  { intros u eu. rewrite R4, R3, T4, T3, T2, T1.
    assert (rt_buckets (announced e state (rt_tbl w)) = rt_buckets (rt_tbl w)) as ->
      by (unfold announced; by destruct (_ && _)).
    intros [[<- <-]|[_ Hu]]%lookup_insert_Some; [apply (HI r e He)|by apply HI]. }
  intros _ w5 (HF5 & _ & HQ5).
  destruct (fades_lookup_fwd _ _ _ _ HF5 He4) as (e5 & He5 & Hfd).
  eapply wp_wand; [by apply (wpo_rt_table_assign r e5)|].
  intros p w6 [-> [= R6 T6]]. split; [done|]. split.
  - rewrite R6, lookup_insert_eq. eexists. split; [done|]. split; [apply (fade_dest _ _ Hfd)|done].
  - intros u Hu e' He' Hv Hn. apply (HQ5 u); [|done..].
    by rewrite R6, lookup_insert_ne in He' by done.
Qed.


(** ** The deadline of a route that becomes valid again *)

Lemma keeps_route_timer_seek_forget r dest :
  keeps (λ w, timers w !! T_rt r)
    (s ← seek_list_check dest; _ ← seek_list_remove s; mret tt).
Proof.
  unfold seek_list_check, seek_list_remove, free_seek. keeps_auto.
  - apply keeps_seek_scan.
  - by apply keeps_other_timer_remove.
  - intros. simpl. by rewrite lookup_delete_ne.
Qed.

Lemma wpo_assign_deadline r e x next hops seqno lifetime state flags w :
  rts w !! r = Some e → rt_st e = INVALID → timers w !! T_rt r = Some x →
  wpo (rt_table_assign r next hops seqno lifetime state flags)
    (λ _ w', timers w' !! T_rt r = Some (x <| t_handler := Some route_expire_timeout_h |>)) w.
Proof.
  intros He Hst Hx. unfold rt_table_assign.
  apply (wpo_upd_rt r e); [done|]. intros w1 R1 _ M1.
  eapply wpo_upd_rt; [rewrite R1; apply lookup_insert_eq|]. intros w2 R2 _ M2.
  eapply wpo_upd_rt; [rewrite R2; apply lookup_insert_eq|]. intros w3 R3 _ M3.
  eapply wpo_upd_rt; [rewrite R3; apply lookup_insert_eq|]. intros w4 R4 _ M4.
  apply wp_bind. eapply wp_eq; [apply (upd_timer_run _ _ x); congruence|].
  match goal with |- wp _ _ _ ?v => set (w5 := v) end.
  assert (timers w5 !! T_rt r = Some (x <| t_handler := Some route_expire_timeout_h |>)) as H5
    by (subst w5; simpl; apply lookup_insert_eq).
  assert (rts w5 = rts w4) as R5 by done. clearbody w5. rewrite R4, R3 in R5.
  apply wp_bind, (wp_wand _ _ (λ _ w', w' = w5)).
  { destruct (negb (flag flags RT_INET_DEST)); [|by apply wp_ret]. cbn [when].
    apply wp_bind. unfold rt_table_update_timeout.
    eapply wp_get_rt; [rewrite R5; apply lookup_insert_eq|]. simpl. by rewrite Hst. }
  intros _ ? ->.
  eapply wpo_upd_rt; [rewrite R5; apply lookup_insert_eq|]. intros w6 R6 _ M6.
  eapply wp_get_rt; [rewrite R6; apply lookup_insert_eq|].
  apply (wpo_keeps_bind (λ w, timers w !! T_rt r)).
  { apply keeps_when, keeps_route_timer_seek_forget. }
  intros _ w7 M7. apply wp_ret. by rewrite M7, M6.
Qed.

(** A route that becomes valid again keeps the deadline it had for its
    deletion. [rt_table_update] asks for the new [lifetime] while the entry is
    still [INVALID], when [rt_table_update_timeout] does nothing, and only
    then makes it [VALID]: whatever the lifetime, the route timer only gets
    the function [route_expire_timeout]. *)
Theorem rt_table_update_stale_deadline w r e x next hops seqno lifetime flags :
  rts w !! r = Some e → rt_st e = INVALID → update_breaks_link e hops = false →
  timers w !! T_rt r = Some x →
  match rt_table_update (Some r) next hops seqno lifetime VALID flags w with
  | Ok _ w' => (∃ e', rts w' !! r = Some e' ∧ rt_st e' = VALID) ∧
      timers w' !! T_rt r = Some (x <| t_handler := Some route_expire_timeout_h |>)
  | Err _ => True
  end.
Proof.
  intros He Hst Hlb Hx.
  apply (wp_ext _ _ _ (λ _ w', _)
    _ (rt_table_update_eq r next hops seqno lifetime VALID flags w)).
  apply (wp_get_rt _ _ e); [done|]. apply wp_bind, wp_gets, wp_bind.
  eapply wp_wand; [apply wpo_rt_table_announce|]. intros fl w1 (-> & M1 & [= R1 T1]).
  rewrite Hlb. cbn [when]. apply wp_bind, wp_ret.
  eapply wp_wand; [apply wp_conj; [apply (wpo_rt_table_assign r e); congruence
                                  |apply (wpo_assign_deadline r e x); congruence]|].
  intros p w2 [[_ [= R2 _]] Hd]. split; [|done].
  rewrite R2, lookup_insert_eq. by eexists.
Qed.

(** ** Hearing from a neighbor *)

(** A usable route straight to the neighbor [src]. *)
Definition direct_route (src : Z) (e : rt_table_t) : Prop :=
  rt_dest_addr e = src ∧ rt_st e = VALID ∧ rt_next_hop e = src ∧ rt_hopcnt e = 1.

Lemma wpo_hello_update_timeout r e src now ms w :
  rts w !! r = Some e → direct_route src e →
  wpo (hello_update_timeout (Some r) now ms)
    (λ _ w', ∃ e', rts w' !! r = Some e' ∧ direct_route src e') w.
Proof.
  intros He Hd. unfold hello_update_timeout. apply (wp_get_rt _ _ e); [done|].
  apply (wpo_keeps_bind rts); [by apply keeps_timer_set_timeout|]. intros _ w1 R1.
  eapply wp_eq; [apply upd_rt_run; rewrite R1; exact He|]. simpl.
  rewrite lookup_insert_eq. by eexists.
Qed.

Lemma wpo_neighbor_add_finish r e src now w :
  rts w !! r = Some e → direct_route src e →
  wpo (_ ← get_rt (Some r); h ← get_timer (T_hello r);
       when (t_used h) (hello_update_timeout (Some r) now (ALLOWED_HELLO_LOSS * HELLO_INTERVAL)))
    (λ _ w', ∃ e', rts w' !! r = Some e' ∧ direct_route src e') w.
Proof.
  intros He Hd. apply (wp_get_rt _ _ e); [done|].
  apply (wpo_keeps_bind (λ w, w)); [apply keeps_get_timer|]. intros h _ ->.
  apply wp_when; [|by eexists]. intros _. by eapply wpo_hello_update_timeout.
Qed.

Lemma wpo_neighbor_add src w :
  Inv None w →
  wpo (neighbor_add src)
    (λ _ w', ∃ r e, rts w' !! r = Some e ∧
       (direct_route src e ∨
        rt_dest_addr e = src ∧ flag (rt_flags e) RT_UNIDIR = true ∧ rts w' = rts w)) w.
Proof.
  intros HI. unfold neighbor_add, ACTIVE_ROUTE_TIMEOUT. apply wp_bind.
  eapply wp_eq; [reflexivity|]. set (w0 := w <| w_tick ::= S |>).
  assert (Inv None w0) as HI0 by (by apply Inv_tick). change (rts w) with (rts w0).
  clearbody w0. destruct (rt_table_check_run None w0 src HI0) as (p & Hrun & Hp).
  apply wp_bind. eapply wp_eq; [exact Hrun|]. apply wp_bind, wp_gets.
  destruct p as [r|].
  - destruct Hp as (e & He & Hd & _). apply (wp_get_rt _ _ e); [done|].
    destruct (flag (rt_flags e) RT_UNIDIR) eqn:Hfl; [apply wp_ret; eauto 10|].
    apply wp_bind. eapply wp_wand;
      [apply (wpo_rt_table_update r e); [by apply Inv_linked|done]|].
    intros ? w1 (-> & (e' & He' & Hd' & _ & Hn & Hh & Hs & _) & _).
    eapply wp_wand; [apply (wpo_neighbor_add_finish r e' src); [done|]|].
    + split_and!; [congruence|done|done|by rewrite Hh].
    + intros _ w2 (e2 & ? & ?). eauto.
  - apply wp_bind. eapply wp_wand; [by apply wpo_rt_table_insert|].
    intros q w1 Hq. destruct q as [r|]; [|done]. destruct Hq as [_ [= R1 _]].
    eapply wp_wand; [eapply (wpo_neighbor_add_finish r _ src);
      [rewrite R1; apply lookup_insert_eq|done]|].
    intros _ w2 (e2 & ? & ?). eauto.
Qed.

(** Every message makes its sender a neighbor. After [neighbor_add] there
    is a valid route to the sender with the sender as next hop at one hop,
    unless there was an entry for it marked as a unidirectional link: then the
    table is as before. *)
Theorem neighbor_add_spec src w :
  Inv None w →
  match neighbor_add src w with
  | Ok _ w' => Inv None w' ∧ ∃ r e, rts w' !! r = Some e ∧
      (direct_route src e ∨
       rt_dest_addr e = src ∧ flag (rt_flags e) RT_UNIDIR = true ∧ rts w' = rts w)
  | Err e => benign e
  end.
Proof.
  intros HI.
  pose proof (wp_total _ _ _ _ _ (safe_neighbor_add src w HI) (wpo_neighbor_add src w HI)) as Hs.
  unfold wp in Hs. destruct (neighbor_add src w) as [[] w'|]; [|done].
  by destruct Hs as [(? & _) ?].
Qed.
