(* ===== verification/Rrep.v ===== *)
(** * Route replies (aodv_rrep.c) *)

From S2P Require Export Neighbor.

Definition rrep_ack_process (ip_src : Z) : M unit :=
  rt ← rt_table_check ip_src;
  match rt with
  | None => mret tt
  | Some r => _ ← timer_remove (Some (T_ack r)); mret tt
  end.

Definition rrep_send (rrep : bufid) (rev_rt fwd_rt : ptr) (len : Z) : M unit :=
  match rev_rt with
  | None => mret tt
  | Some _ =>
      rev ← get_rt rev_rt;
      when (bool_decide (rt_st rev = VALID) && flag (rt_flags rev) RT_UNIDIR)
        (neighbor ← rt_table_check (rt_next_hop rev);
         match neighbor with
         | None => mret tt
         | Some nb =>
             n ← get_rt neighbor;
             a ← get_timer (T_ack nb);
             when (bool_decide (rt_st n = VALID) && negb (t_used a))
               (upd_rt neighbor (λ e, e <| rt_flags ::= λ f, Z.lor f RT_UNIDIR |>);;
                _ ← timer_remove (Some (T_hello nb));
                neighbor_link_break neighbor;;
                timer_set_timeout (T_ack nb) NEXT_HOP_WAIT)
         end);;
      rev ← get_rt rev_rt;
      aodv_socket_send rrep (rt_next_hop rev) len MAXTTL;;
      match fwd_rt with
      | None => mret tt
      | Some _ =>
          rev ← get_rt rev_rt;
          precursor_add fwd_rt (rt_next_hop rev);;
          fwd ← get_rt fwd_rt;
          precursor_add rev_rt (rt_next_hop fwd)
      end
  end.

Definition rrep_forward (rrep : option bufid) (len : Z) (rev_rt fwd_rt : ptr) (ttl : Z)
    : M unit :=
  match fwd_rt, rev_rt, rrep with
  | Some _, Some _, Some rrep =>
      rev ← get_rt rev_rt;
      neighbor ← (if negb (rt_dest_addr rev =? rt_next_hop rev)
                  then rt_table_check (rt_next_hop rev)
                  else mret rev_rt);
      match neighbor with
      | None => mret tt
      | Some nb =>
          a ← get_timer (T_ack nb);
          when (negb (t_used a))
            (st_bits rrep RREP_OFF_FLAGS 1 1 1;;
             upd_rt neighbor (λ e, e <| rt_flags ::= λ f, Z.lor f RT_UNIDIR |>);;
             timer_set_timeout (T_ack nb) NEXT_HOP_WAIT)
      end;;
      rrep ← aodv_socket_queue_msg rrep len;
      fwd ← get_rt fwd_rt;
      st8 rrep RREP_OFF_HOPCNT (rt_hopcnt fwd);;
      rev ← get_rt rev_rt;
      aodv_socket_send rrep (rt_next_hop rev) len ttl;;
      precursor_add fwd_rt (rt_next_hop rev);;
      fwd ← get_rt fwd_rt;
      precursor_add rev_rt (rt_next_hop fwd);;
      art ← ACTIVE_ROUTE_TIMEOUT;
      _ ← rt_table_update_timeout rev_rt (u32 art);
      mret tt
  | _, _, _ => mret tt
  end.

(** Whether the RREP has newer or better information than the route. *)
Definition rrep_accept (seqno new_hcnt : Z) (fwd : rt_table_t) : bool :=
  (rt_dest_seqno fwd =? 0)
  || (s32 (rt_dest_seqno fwd) <? s32 seqno)
  || ((seqno =? rt_dest_seqno fwd)
      && (bool_decide (rt_st fwd = INVALID) || flag (rt_flags fwd) RT_UNIDIR
          || (new_hcnt <? rt_hopcnt fwd))).

(** What follows the route update: acknowledge, then consume or forward.
    [pre_hcnt] and [pre_flags] are [pre_repair_hcnt] and [pre_repair_flags]. *)
Definition rrep_continue (rrep : bufid) (len orig : Z) (fwd_rt rev_rt : ptr)
    (pre_hcnt pre_flags ip_ttl : Z) : M unit :=
  a ← ld_bits rrep RREP_OFF_FLAGS 1 1;
  when (negb (a =? 0))
    (rrep_ack ← rrep_ack_create;
     fwd ← get_rt fwd_rt;
     aodv_socket_send rrep_ack (rt_next_hop fwd) NEXT_HOP_WAIT MAXTTL;;
     st_bits rrep RREP_OFF_FLAGS 1 1 0);;
  ipaddr ← gets (λ w, dev_ipaddr (h_dev (this_host w)));
  if orig =? ipaddr then
    if flag pre_flags RT_REPAIR then
      fwd ← get_rt fwd_rt;
      when (pre_hcnt <? rt_hopcnt fwd)
        (rerr ← rerr_create RERR_NODELETE (rt_dest_addr fwd) (rt_dest_seqno fwd);
         when (negb (rt_nprecursor fwd =? 0))
           (len ← RERR_CALC_SIZE rerr; aodv_socket_send rerr AODV_BROADCAST (s32 len) 1))
    else mret tt
  else
    match rev_rt with
    | None => mret tt
    | Some _ =>
        rev ← get_rt rev_rt;
        when (bool_decide (rt_st rev = VALID))
          (rrep_forward (Some rrep) len rev_rt fwd_rt (s32 (ip_ttl - 1)))
    end.

Definition rrep_process (rrep : bufid) (len ip_src ip_ttl : Z) : M unit :=
  dest ← ld32 rrep RREP_OFF_DEST_ADDR;
  orig ← ld32 rrep RREP_OFF_ORIG_ADDR;
  n_seqno ← ld32 rrep RREP_OFF_DEST_SEQNO;
  n_lifetime ← ld32 rrep RREP_OFF_LIFETIME;
  hopcnt ← ld8 rrep RREP_OFF_HOPCNT;
  let seqno := ntohl n_seqno in
  let lifetime := ntohl n_lifetime in
  let new_hcnt := hopcnt + 1 in
  ipaddr ← gets (λ w, dev_ipaddr (h_dev (this_host w)));
  if len <? RREP_SIZE then mret tt
  else if dest =? ipaddr then mret tt
  else
    fwd_rt ← rt_table_check dest;
    rev_rt ← rt_table_check orig;
    match fwd_rt with
    | None =>
        fwd_rt ← rt_table_insert dest ip_src new_hcnt seqno lifetime VALID 0;
        rrep_continue rrep len orig fwd_rt rev_rt 0 0 ip_ttl
    | Some _ =>
        fwd ← get_rt fwd_rt;
        if rrep_accept seqno new_hcnt fwd then
          let pre_hcnt := rt_hopcnt fwd in
          let pre_flags := rt_flags fwd in
          fwd_rt ← rt_table_update fwd_rt ip_src new_hcnt seqno lifetime VALID (rt_flags fwd);
          rrep_continue rrep len orig fwd_rt rev_rt pre_hcnt pre_flags ip_ttl
        else mret tt
    end.

(** ** Replies keep the state well formed *)

Ltac addr_simpl :=
  repeat match goal with
  | |- context [addr (Some ?r)] => change (addr (Some r)) with r
  | |- context [T_hello <$> Some ?r] => change (T_hello <$> Some r) with (Some (T_hello r))
  end.

(** [rstep] with the loads of message fields. *)
Ltac mstep :=
  cbv beta; addr_simpl;
  lazymatch goal with
  | |- safe _ (ld8 _ _ ≫= _) _ _ =>
      let v := fresh "v" in let Hv := fresh "Hv" in
      apply safe_ld8; [side|done|intros v Hv _]
  | |- safe _ (ld32 _ _ ≫= _) _ _ =>
      let v := fresh "v" in apply safe_ld32; [side|done|intros v]
  | |- safe _ (ld_bits _ _ _ _ ≫= _) _ _ =>
      let v := fresh "v" in apply safe_ld_bits; [side|done|intros v]
  | _ => rstep
  end.

Lemma safe_rrep_ack_process lim src w :
  Inv lim w → safe lim (rrep_ack_process src) (λ _ _, True) w.
Proof. intros HI. unfold rrep_ack_process. repeat mstep. Qed.

Lemma safe_rrep_send lim rev fwd len w :
  Inv lim w → valid w rev → valid w fwd →
  safe lim (rrep_send send_buf rev fwd len) (λ _ _, True) w.
Proof. intros HI Hr Hf. unfold rrep_send. repeat mstep. Qed.

Lemma safe_rrep_forward lim b len rev fwd ttl w :
  Inv lim w → valid w rev → valid w fwd → 0 ≤ len ≤ 1024 →
  safe lim (rrep_forward (Some b) len rev fwd ttl) (λ _ _, True) w.
Proof.
  intros HI Hr Hf Hlen. unfold rrep_forward, ACTIVE_ROUTE_TIMEOUT.
  destruct fwd as [f|]; [|by sstep]. destruct rev as [r|]; [|by sstep].
  sstep.
  eapply (safe_bind _ _ _ (λ p w, valid w p)); [|call_post].
  { destruct (negb _); [by apply safe_rt_table_check_last|by sstep]. }
  sstep; [repeat mstep|].
  eapply safe_bind; [by apply safe_queue_msg|].
  intros ? w3 HI3 HE3 ->. lift_ext HE3. repeat mstep.
Qed.

Lemma safe_rrep_continue lim b len orig f rev h fl ttl w :
  Inv lim w → live w f → valid w rev → 0 ≤ len ≤ 1024 →
  safe lim (rrep_continue b len orig (Some f) rev h fl ttl) (λ _ _, True) w.
Proof.
  intros HI Hf Hr Hlen. unfold rrep_continue. repeat (mstep; try subst).
  all: by apply safe_rrep_forward.
Qed.

Lemma safe_rrep_process b len src ttl w :
  Inv None w → 0 ≤ len ≤ 1024 → safe None (rrep_process b len src ttl) (λ _ _, True) w.
Proof.
  intros HI Hlen. unfold rrep_process. repeat mstep.
  - subst. by apply safe_rrep_continue.
  - eapply safe_bind; [by apply safe_rt_table_insert_new; auto|].
    intros ? w1 HI1 HE1 (r & -> & Hr). lift_ext HE1. by apply safe_rrep_continue.
Qed.

#[export] Hint Resolve safe_rrep_ack_process safe_rrep_send : safe.
