(* ===== verification/Rreq.v ===== *)
(** * Route requests (aodv_rreq.c): sending, processing, duplicate records,
    blacklist, route discovery *)

From S2P Require Export Rrep.

(** ** RREQ records *)

Fixpoint record_scan (orig_addr rreq_id : Z) (l : list nat) : M ptr :=
  match l with
  | [] => mret None
  | pos :: l' =>
      curr ← get_rec (Some pos);
      if (rec_orig_addr curr =? orig_addr) && (rec_rreq_id curr =? rreq_id)
      then mret (Some pos) else record_scan orig_addr rreq_id l'
  end.

Definition rreq_record_check (orig_addr rreq_id : Z) : M ptr :=
  l ← gets rreq_records; record_scan orig_addr rreq_id l.

Definition rreq_record_insert (orig_addr rreq_id : Z) : M ptr :=
  rec ← rreq_record_check orig_addr rreq_id;
  match rec with
  | Some _ => mret rec
  | None =>
      live ← gets (λ w, size (recs w));
      rec ← malloc live;
      match rec with
      | None => exit_fail
      | Some r =>
          modify (λ w, w <| recs ::= <[r := Rec orig_addr rreq_id]> |>);;
          _ ← timer_init (Some (T_rec r)) (Some rreq_record_timeout_h) rec;
          modify (λ w, w <| rreq_records ::= cons r |>);;
          timer_set_timeout (T_rec r) PATH_DISCOVERY_TIME;;
          mret rec
      end
  end.

(** ** Blacklist *)

Fixpoint blacklist_scan (dest_addr : Z) (l : list nat) : M ptr :=
  match l with
  | [] => mret None
  | pos :: l' =>
      curr ← get_bl (Some pos);
      if bl_dest_addr curr =? dest_addr then mret (Some pos)
      else blacklist_scan dest_addr l'
  end.

Definition rreq_blacklist_check (dest_addr : Z) : M ptr :=
  l ← gets rreq_blacklists; blacklist_scan dest_addr l.

Definition rreq_blacklist_insert (dest_addr : Z) : M ptr :=
  bl ← rreq_blacklist_check dest_addr;
  match bl with
  | Some _ => mret bl
  | None =>
      live ← gets (λ w, size (bls w));
      bl ← malloc live;
      match bl with
      | None => exit_fail
      | Some b =>
          modify (λ w, w <| bls ::= <[b := Bl dest_addr]> |>);;
          _ ← timer_init (Some (T_bl b)) (Some rreq_blacklist_timeout_h) bl;
          modify (λ w, w <| rreq_blacklists ::= cons b |>);;
          t ← BLACKLIST_TIMEOUT;
          timer_set_timeout (T_bl b) t;;
          mret bl
      end
  end.

(** ** Sending and forwarding *)

Definition rreq_send (dest_addr dest_seqno ttl flags : Z) : M unit :=
  dev ← gets (λ w, h_dev (this_host w));
  if negb (dev_enabled dev =? 0) then
    rreq ← rreq_create flags dest_addr dest_seqno (dev_ipaddr dev);
    aodv_socket_send rreq AODV_BROADCAST RREQ_SIZE ttl
  else mret tt.

Definition rreq_forward (rreq : bufid) (len ttl : Z) : M unit :=
  rreq ← aodv_socket_queue_msg rreq len;
  h ← ld8 rreq RREQ_OFF_HOPCNT;
  st8 rreq RREQ_OFF_HOPCNT (h + 1);;
  aodv_socket_send rreq AODV_BROADCAST len ttl.

(** ** Processing *)

(** Whether the RREQ refreshes an existing reverse route. *)
Definition rreq_refreshes (orig_seqno new_hopcnt : Z) (rev : rt_table_t) : bool :=
  (rt_dest_seqno rev =? 0)
  || (s32 (rt_dest_seqno rev) <? s32 orig_seqno)
  || ((orig_seqno =? rt_dest_seqno rev)
      && (bool_decide (rt_st rev = INVALID) || (new_hopcnt <? rt_hopcnt rev))).

(** The reverse route: created, updated or left alone. *)
Definition rreq_reverse_route (orig ip_src new_hopcnt orig_seqno life : Z) : M ptr :=
  rev_rt ← rt_table_check orig;
  match rev_rt with
  | None => rt_table_insert orig ip_src new_hopcnt orig_seqno life VALID 0
  | Some _ =>
      rev ← get_rt rev_rt;
      if rreq_refreshes orig_seqno new_hopcnt rev
      then rt_table_update rev_rt ip_src new_hopcnt orig_seqno life VALID (rt_flags rev)
      else mret rev_rt
  end.

(** We are the destination: adjust our sequence number and reply. *)
Definition rreq_reply_dest (dest_seqno : Z) (rev_rt : ptr) : M unit :=
  when (negb (dest_seqno =? 0))
    (h ← gets this_host;
     if s32 (h_seqno h) <? s32 dest_seqno then
       modify (λ w, w <| this_host ::= λ h, h <| h_seqno := dest_seqno |> |>)
     else if h_seqno h =? dest_seqno then
       modify (λ w, w <| this_host ::= λ h, h <| h_seqno ::= seqno_incr |> |>)
     else mret tt);;
  h ← gets this_host;
  rev ← get_rt rev_rt;
  life ← MY_ROUTE_TIMEOUT;
  rrep ← rrep_create 0 0 0 (dev_ipaddr (h_dev h)) (h_seqno h) (rt_dest_addr rev) (u32 life);
  rrep_send rrep rev_rt None RREP_SIZE.

(** The label [forward]. *)
Definition rreq_do_forward (rreq : bufid) (len : Z) (fwd_rt : ptr) (dest_seqno ip_ttl : Z)
    : M unit :=
  if 1 <? ip_ttl then
    match fwd_rt with
    | None => mret tt
    | Some _ =>
        fwd ← get_rt fwd_rt;
        when (negb (flag (rt_flags fwd) RT_INET_DEST)
              && (s32 dest_seqno <? s32 (rt_dest_seqno fwd)))
          (st32 rreq RREQ_OFF_DEST_SEQNO (htonl (rt_dest_seqno fwd)))
    end;;
    rreq_forward rreq len (s32 (ip_ttl - 1))
  else mret tt.

(** An intermediate node with a fresh enough route answers for it. *)
Definition rreq_reply_intermediate (rreq : bufid) (rev_rt fwd_rt : ptr) (now : timeval)
    : M unit :=
  fwd ← get_rt fwd_rt;
  rev ← get_rt rev_rt;
  x ← get_timer (T_rt (addr fwd_rt));
  let lifetime := u32 (timeval_diff (t_timeout x) now) in
  rrep ← rrep_create 0 0 (rt_hopcnt fwd) (rt_dest_addr fwd) (rt_dest_seqno fwd)
           (rt_dest_addr rev) lifetime;
  rrep_send rrep rev_rt fwd_rt RREP_SIZE;;
  g ← ld_bits rreq RREQ_OFF_FLAGS 2 1;
  when (negb (g =? 0))
    (rev ← get_rt rev_rt;
     fwd ← get_rt fwd_rt;
     rrep ← rrep_create 0 0 (rt_hopcnt rev) (rt_dest_addr rev) (rt_dest_seqno rev)
              (rt_dest_addr fwd) lifetime;
     rrep_send rrep fwd_rt rev_rt RREP_SIZE).

Definition rreq_process (rreq : bufid) (len ip_src ip_ttl : Z) : M unit :=
  dest ← ld32 rreq RREQ_OFF_DEST_ADDR;
  orig ← ld32 rreq RREQ_OFF_ORIG_ADDR;
  n_id ← ld32 rreq RREQ_OFF_ID;
  n_dest_seqno ← ld32 rreq RREQ_OFF_DEST_SEQNO;
  n_orig_seqno ← ld32 rreq RREQ_OFF_ORIG_SEQNO;
  hopcnt ← ld8 rreq RREQ_OFF_HOPCNT;
  let rreq_id := ntohl n_id in
  let dest_seqno := ntohl n_dest_seqno in
  let orig_seqno := ntohl n_orig_seqno in
  let new_hopcnt := hopcnt + 1 in
  ipaddr ← gets (λ w, dev_ipaddr (h_dev (this_host w)));
  if orig =? ipaddr then mret tt
  else if len <? RREQ_SIZE then mret tt
  else
    bl ← rreq_blacklist_check ip_src;
    match bl with
    | Some _ => mret tt
    | None =>
        rec ← rreq_record_check orig rreq_id;
        match rec with
        | Some _ => mret tt
        | None =>
            _ ← rreq_record_insert orig rreq_id;
            let life := u32 (PATH_DISCOVERY_TIME - 2 * new_hopcnt * NODE_TRAVERSAL_TIME) in
            rev_rt ← rreq_reverse_route orig ip_src new_hopcnt orig_seqno life;
            if dest =? ipaddr then rreq_reply_dest dest_seqno rev_rt
            else
              fwd_rt ← rt_table_check dest;
              d ← ld_bits rreq RREQ_OFF_FLAGS 3 1;
              match fwd_rt with
              | None => rreq_do_forward rreq len fwd_rt dest_seqno ip_ttl
              | Some _ =>
                  fwd ← get_rt fwd_rt;
                  if bool_decide (rt_st fwd = VALID) && (d =? 0) then
                    now ← gettimeofday;
                    if negb (rt_dest_seqno fwd =? 0)
                       && (s32 dest_seqno <=? s32 (rt_dest_seqno fwd))
                    then rreq_reply_intermediate rreq rev_rt fwd_rt now
                    else rreq_do_forward rreq len fwd_rt dest_seqno ip_ttl
                  else rreq_do_forward rreq len fwd_rt dest_seqno ip_ttl
              end
        end
    end.

(** ** Route discovery and local repair *)

(** [if(timeval_diff(&rt->rt_timer.timeout, &now) < 2 * NET_TRAVERSAL_TIME)
    rt_table_update_timeout(rt, 2 * NET_TRAVERSAL_TIME);] *)
Definition extend_for_discovery (rt : ptr) (now : timeval) : M unit :=
  _ ← get_rt rt;
  x ← get_timer (T_rt (addr rt));
  when (timeval_diff (t_timeout x) now <? 2 * NET_TRAVERSAL_TIME)
    (_ ← rt_table_update_timeout rt (2 * NET_TRAVERSAL_TIME); mret tt).

Definition rreq_route_discovery (dest_addr flags : Z) : M unit :=
  now ← gettimeofday;
  s ← seek_list_check dest_addr;
  match s with
  | Some _ => mret tt
  | None =>
      rt ← rt_table_check dest_addr;
      ring ← gets (λ w, expanding_ring_search (cfg w));
      '(dest_seqno, ttl) ← match rt with
        | None =>
            ttl ← (if negb (ring =? 0) then TTL_START else mret NET_DIAMETER);
            mret (0, ttl)
        | Some _ =>
            e ← get_rt rt;
            let ttl := if negb (ring =? 0) then rt_hopcnt e + TTL_INCREMENT else NET_DIAMETER in
            extend_for_discovery rt now;;
            mret (rt_dest_seqno e, ttl)
        end;
      rreq_send dest_addr dest_seqno ttl flags;;
      entry ← seek_list_insert dest_addr dest_seqno ttl flags;
      timer_set_timeout (T_seek (addr entry))
        (if negb (ring =? 0) then s32 (RING_TRAVERSAL_TIME ttl) else NET_TRAVERSAL_TIME)
  end.

(** The TTL of a repair: [(s32_t)(max(hopcnt, 0.5 * h) + LOCAL_ADD_TTL)],
    a [double] expression truncated to an integer. *)
Definition repair_ttl (hopcnt h : Z) : Z :=
  Z.quot (Z.max (2 * hopcnt) h + 2 * LOCAL_ADD_TTL) 2.

Definition rreq_local_repair (rt : ptr) (src_addr : Z) : M unit :=
  match rt with
  | None => mret tt
  | Some r =>
      e ← get_rt rt;
      s ← seek_list_check (rt_dest_addr e);
      match s with
      | Some _ => mret tt
      | None =>
          if negb (flag (rt_flags e) RT_REPAIR) then mret tt
          else
            now ← gettimeofday;
            rt_entry ← rt_table_check src_addr;
            ttl ← match rt_entry with
              | None => mret (rt_hopcnt e + LOCAL_ADD_TTL)
              | Some _ => x ← get_rt rt_entry; mret (repair_ttl (rt_hopcnt e) (rt_hopcnt x))
              end;
            set_handler (T_rt r) route_expire_timeout_h;;
            extend_for_discovery rt now;;
            e ← get_rt rt;
            rreq_send (rt_dest_addr e) (rt_dest_seqno e) ttl 0;;
            entry ← seek_list_insert (rt_dest_addr e) (rt_dest_seqno e) ttl 0;
            ring ← gets (λ w, expanding_ring_search (cfg w));
            timer_set_timeout (T_seek (addr entry))
              (if negb (ring =? 0) then s32 (2 * ttl * NODE_TRAVERSAL_TIME) else NET_TRAVERSAL_TIME)
      end
  end.

(** ** RREQ records and the blacklist: lookup *)

Lemma record_scan_run w orig id l :
  (∀ r, r ∈ l → is_Some (recs w !! r)) →
  ∃ p, record_scan orig id l w = Ok p w ∧
    match p with
    | Some r => r ∈ l ∧ recs w !! r = Some (Rec orig id)
    | None => ∀ r, r ∈ l → recs w !! r ≠ Some (Rec orig id)
    end.
Proof.
  induction l as [|r l IH]; intros Hl; cbn [record_scan].
  { exists None. split; [done|]. by intros ? ?%elem_of_nil. }
  destruct (Hl r) as [[o i] He]; [left|].
  rewrite (bind_run _ _ w (Rec o i) w) by (unfold get_rec, deref; by rewrite He). cbn.
  destruct IH as (p & Hrun & Hp); [intros; apply Hl; by right|].
  destruct ((o =? orig) && (i =? id)) eqn:E; bool_prop; subst.
  - exists (Some r). split; [done|]. split; [left|done].
  - exists p. split; [done|]. destruct p as [r'|].
    + destruct Hp as [? ?]. split; [by right|done].
    + intros r' [->|Hin]%elem_of_cons; [naive_solver|eauto].
  - exists p. split; [done|]. destruct p as [r'|].
    + destruct Hp as [? ?]. split; [by right|done].
    + intros r' [->|Hin]%elem_of_cons; [naive_solver|eauto].
Qed.

(** [rreq_record_check] only reads, and finds exactly the records there are. *)
Lemma rreq_record_check_run lim w orig id :
  Inv lim w →
  ∃ p, rreq_record_check orig id w = Ok p w ∧
    match p with
    | Some r => recs w !! r = Some (Rec orig id)
    | None => ∀ r, recs w !! r ≠ Some (Rec orig id)
    end.
Proof.
  intros HI. pose proof (I_recs _ _ HI) as [_ Hl].
  destruct (record_scan_run w orig id (rreq_records w)) as (p & Hrun & Hp);
    [intros; by apply Hl|].
  exists p. split; [exact Hrun|]. destruct p as [r|]; [naive_solver|].
  intros r Hr. apply (Hp r); [|done]. apply Hl. by rewrite Hr.
Qed.

Lemma blacklist_scan_run w dest l :
  (∀ b, b ∈ l → is_Some (bls w !! b)) →
  ∃ p, blacklist_scan dest l w = Ok p w ∧
    match p with
    | Some b => b ∈ l ∧ bls w !! b = Some (Bl dest)
    | None => ∀ b, b ∈ l → bls w !! b ≠ Some (Bl dest)
    end.
Proof.
  induction l as [|b l IH]; intros Hl; cbn [blacklist_scan].
  { exists None. split; [done|]. by intros ? ?%elem_of_nil. }
  destruct (Hl b) as [[d] He]; [left|].
  rewrite (bind_run _ _ w (Bl d) w) by (unfold get_bl, deref; by rewrite He). cbn.
  destruct IH as (p & Hrun & Hp); [intros; apply Hl; by right|].
  destruct (Z.eqb_spec d dest) as [->|Hne].
  - exists (Some b). split; [done|]. split; [left|done].
  - exists p. split; [done|]. destruct p as [b'|].
    + destruct Hp as [? ?]. split; [by right|done].
    + intros b' [->|Hin]%elem_of_cons; [naive_solver|eauto].
Qed.

Lemma rreq_blacklist_check_run lim w dest :
  Inv lim w →
  ∃ p, rreq_blacklist_check dest w = Ok p w ∧
    match p with
    | Some b => bls w !! b = Some (Bl dest)
    | None => ∀ b, bls w !! b ≠ Some (Bl dest)
    end.
Proof.
  intros HI. pose proof (I_bls _ _ HI) as [_ Hl].
  destruct (blacklist_scan_run w dest (rreq_blacklists w)) as (p & Hrun & Hp);
    [intros; by apply Hl|].
  exists p. split; [exact Hrun|]. destruct p as [b|]; [naive_solver|].
  intros b Hb. apply (Hp b); [|done]. apply Hl. by rewrite Hb.
Qed.

(** ** RREQ records and the blacklist: insertion *)

Lemma safe_rreq_record_insert lim orig id w :
  Inv lim w → safe lim (rreq_record_insert orig id) (λ _ _, True) w.
Proof.
  intros HI. unfold rreq_record_insert.
  destruct (rreq_record_check_run lim w orig id HI) as (p & Hrun & _).
  eapply safe_read; [exact Hrun|]. destruct p; [by sstep|]. sstep.
  apply safe_malloc; [done|by intros; apply safe_raise|].
  intros w' r HI' -> -> _ Hlt.
  apply wp_modify_bind, wp_timer_init_bind, wp_modify_bind.
  eapply safe_resume; [|eapply safe_bind; [apply safe_timer_set_timeout|]];
    [auto|apply (Inv_new_rec _ _ HI'); try done| |intros; by apply safe_ret].
  - apply eq_None_not_Some. intros Hs%(fresh_recs _ (I_fresh _ _ HI)). lia.
  - simpl. rewrite lookup_insert_eq. eauto.
Qed.

Lemma safe_rreq_blacklist_insert lim dest w :
  Inv lim w → safe lim (rreq_blacklist_insert dest) (λ _ _, True) w.
Proof.
  intros HI. unfold rreq_blacklist_insert, BLACKLIST_TIMEOUT, TTL_START.
  destruct (rreq_blacklist_check_run lim w dest HI) as (p & Hrun & _).
  eapply safe_read; [exact Hrun|]. destruct p; [by sstep|]. sstep.
  apply safe_malloc; [done|by intros; apply safe_raise|].
  intros w' r HI' -> -> _ Hlt.
  apply wp_modify_bind, wp_timer_init_bind, wp_modify_bind.
  eapply safe_resume; [|do 3 sstep; eapply safe_bind; [apply safe_timer_set_timeout|]];
    [auto|apply (Inv_new_bl _ _ HI'); try done| |intros; by apply safe_ret].
  - apply eq_None_not_Some. intros Hs%(fresh_bls _ (I_fresh _ _ HI)). lia.
  - simpl. rewrite lookup_insert_eq. eauto.
Qed.

#[export] Hint Resolve safe_rreq_record_insert safe_rreq_blacklist_insert : safe.

(** ** Sending, forwarding and processing keep the state well formed *)

Lemma safe_rreq_send lim d s ttl f w : Inv lim w → safe lim (rreq_send d s ttl f) (λ _ _, True) w.
Proof.
  intros HI. unfold rreq_send. do 2 sstep; [|by sstep].
  sstep. subst. sstep.
Qed.

Lemma safe_rreq_forward lim b len ttl w :
  Inv lim w → 0 ≤ len ≤ 1024 → safe lim (rreq_forward b len ttl) (λ _ _, True) w.
Proof.
  intros HI Hlen. unfold rreq_forward. eapply safe_bind; [by apply safe_queue_msg|].
  intros ? w1 HI1 HE1 ->. repeat mstep.
Qed.

#[export] Hint Resolve safe_rreq_send safe_rreq_forward : safe.

Lemma safe_rreq_do_forward lim b len fwd s ttl w :
  Inv lim w → valid w fwd → 0 ≤ len ≤ 1024 →
  safe lim (rreq_do_forward b len fwd s ttl) (λ _ _, True) w.
Proof.
  intros HI Hf Hlen. unfold rreq_do_forward. sstep; [|by sstep].
  eapply (safe_bind _ _ _ (λ _ _, True)); [|call_post; by apply safe_rreq_forward].
  destruct fwd as [f|]; [|by sstep]. do 2 sstep.
  eapply safe_conseq; [apply safe_st32; [done|by right]|done].
Qed.

Lemma safe_rreq_reply_dest lim s r w :
  Inv lim w → live w r → safe lim (rreq_reply_dest s (Some r)) (λ _ _, True) w.
Proof.
  intros HI Hr. unfold rreq_reply_dest, MY_ROUTE_TIMEOUT, ACTIVE_ROUTE_TIMEOUT.
  sstep; [repeat sstep|]. repeat (mstep; try subst).
Qed.

Lemma safe_rreq_reply_intermediate lim b r f now w :
  Inv lim w → live w r → live w f → 
  safe lim (rreq_reply_intermediate b (Some r) (Some f) now) (λ _ _, True) w.
Proof.
  intros HI Hr Hf. unfold rreq_reply_intermediate. repeat (mstep; try subst).
Qed.

Lemma safe_rreq_reverse_route orig src h s life w :
  Inv None w →
  safe None (rreq_reverse_route orig src h s life) (λ p w', ∃ r, p = Some r ∧ live w' r) w.
Proof.
  intros HI. unfold rreq_reverse_route. mstep. destruct p as [r|].
  - mstep. sstep; [|sstep; eauto].
    eapply safe_wand; [by apply safe_rt_table_update|].
    intros p w' _ HE ->. lift_ext HE. eauto.
  - apply safe_rt_table_insert_new; auto.
Qed.

Lemma safe_rreq_process b len src ttl w :
  Inv None w → 0 ≤ len ≤ 1024 → safe None (rreq_process b len src ttl) (λ _ _, True) w.
Proof.
  intros HI Hlen. unfold rreq_process. repeat mstep.
  destruct (rreq_blacklist_check_run None w src HI) as (bl & Hbl & _).
  eapply safe_read; [exact Hbl|]. destruct bl; [by sstep|].
  destruct (rreq_record_check_run None w v0 (ntohl v1) HI) as (rec & Hrec & _).
  eapply safe_read; [exact Hrec|]. destruct rec; [by sstep|].
  sstep. eapply safe_bind; [by apply safe_rreq_reverse_route|].
  intros ? w2 HI2 HE2 (r & -> & Hr). sstep; [by apply safe_rreq_reply_dest|].
  mstep. repeat mstep.
  all: try by apply safe_rreq_do_forward.
  by apply safe_rreq_reply_intermediate.
Qed.

(** ** Route discovery and local repair *)

Lemma safe_extend_for_discovery lim r now w :
  Inv lim w → live w r → safe lim (extend_for_discovery (Some r) now) (λ _ _, True) w.
Proof. intros HI Hr. unfold extend_for_discovery. repeat mstep. Qed.

#[export] Hint Resolve safe_extend_for_discovery : safe.

Lemma safe_rreq_route_discovery lim d f w :
  Inv lim w → safe lim (rreq_route_discovery d f) (λ _ _, True) w.
Proof.
  intros HI. unfold rreq_route_discovery, TTL_START. do 2 mstep.
  destruct p; [by sstep|]. do 2 mstep.
  eapply (safe_bind _ _ _ (λ _ _, True)); [repeat mstep|call_post].
  destruct b0 as [dest_seqno ttl]. sstep.
  eapply safe_bind; [by apply safe_seek_list_insert|].
  intros ? w9 HI9 _ (e & -> & He). by apply safe_timer_set_timeout.
Qed.

Lemma safe_rreq_local_repair lim p src w :
  Inv lim w → valid w p → safe lim (rreq_local_repair p src) (λ _ _, True) w.
Proof.
  intros HI Hp. unfold rreq_local_repair. destruct p as [r|]; [|by sstep].
  do 2 mstep. destruct p; [by sstep|]. sstep; [by sstep|]. do 2 mstep.
  eapply (safe_bind _ _ _ (λ _ _, True)); [repeat mstep|call_post].
  do 4 mstep.
  eapply safe_bind; [by apply safe_seek_list_insert|].
  intros ? w9 HI9 _ (e' & -> & He'). sstep. by apply safe_timer_set_timeout.
Qed.

#[export] Hint Resolve safe_rreq_route_discovery safe_rreq_local_repair : safe.

(** ** What the parts of [rreq_process] leave alone *)

Section keeps_recs.
Let f (w : world) : gmap nat rreq_record * list nat := (recs w, rreq_records w).

Ltac kr :=
  keeps_auto;
  first
    [ by apply keeps_modify | by apply keeps_timer_remove | by apply keeps_timer_set_timeout
    | by apply keeps_upd_timer | by apply keeps_del_route | by apply keeps_add_route
    | by apply keeps_rerr_report | by apply keeps_aodv_socket_send | apply keeps_rt_table_check
    | by apply keeps_update_timeout | by apply keeps_seek_forget | by apply keeps_st_bits
    | by apply keeps_st | by apply keeps_new_msg | apply keeps_ld | apply keeps_raise | idtac ].

Lemma keeps_recs_upd_rt p g : keeps f (upd_rt p g).
Proof. unfold upd_rt. kr. Qed.

Lemma keeps_recs_invalidate p : keeps f (rt_table_invalidate p).
Proof.
  unfold rt_table_invalidate, upd_num_active, set_handler, ACTIVE_ROUTE_TIMEOUT, DELETE_PERIOD.
  kr; apply keeps_recs_upd_rt.
Qed.

Lemma keeps_recs_destroy p : keeps f (precursor_list_destroy p).
Proof. unfold precursor_list_destroy. kr; apply keeps_recs_upd_rt. Qed.

Lemma keeps_recs_bucket i : keeps f (bucket i).
Proof. intros w a w'. unfold bucket. cases; naive_solver. Qed.

Lemma keeps_recs_link_break p : keeps f (neighbor_link_break p).
Proof.
  unfold neighbor_link_break, link_break_entry, link_break_send, RERR_CALC_SIZE.
  kr; first [apply keeps_recs_invalidate | apply keeps_recs_destroy | apply keeps_recs_bucket
            | apply keeps_recs_upd_rt].
Qed.

Lemma keeps_recs_seek_check d : keeps f (seek_list_check d).
Proof. unfold seek_list_check. kr. apply keeps_seek_scan. Qed.

Lemma keeps_recs_seek_remove p : keeps f (seek_list_remove p).
Proof. unfold seek_list_remove, free_seek. kr. Qed.

Lemma keeps_recs_update p n h s l st fl : keeps f (rt_table_update p n h s l st fl).
Proof.
  unfold rt_table_update, set_handler, upd_num_active.
  kr; first [apply keeps_recs_link_break | apply keeps_recs_upd_rt
            | apply keeps_recs_seek_check | apply keeps_recs_seek_remove].
Qed.

Lemma keeps_recs_present d l : keeps f (rt_present d l).
Proof. induction l as [|r l IH]; cbn [rt_present]; kr; apply IH. Qed.

Lemma keeps_recs_malloc n : keeps f (malloc n).
Proof. unfold malloc. kr. Qed.

Lemma keeps_recs_timer_init t h d : keeps f (timer_init t h d).
Proof. unfold timer_init. kr. Qed.

Lemma keeps_recs_insert d n h s l st fl : keeps f (rt_table_insert d n h s l st fl).
Proof.
  unfold rt_table_insert, hashing, set_handler, upd_num_active, upd_num_entries, bucket_upd,
    ACTIVE_ROUTE_TIMEOUT, DELETE_PERIOD.
  kr; first [apply keeps_recs_bucket | apply keeps_recs_present | apply keeps_recs_malloc
            | apply keeps_recs_seek_check | apply keeps_recs_seek_remove
            | apply keeps_recs_timer_init].
Qed.

Lemma keeps_recs_precursor_add p a : keeps f (precursor_add p a).
Proof.
  unfold precursor_add. kr; first [apply keeps_recs_malloc | apply keeps_recs_upd_rt].
Qed.

Lemma keeps_recs_rrep_send b r fw l : keeps f (rrep_send b r fw l).
Proof.
  unfold rrep_send.
  kr; first [apply keeps_recs_precursor_add | apply keeps_recs_link_break
            | apply keeps_recs_upd_rt].
Qed.

Lemma keeps_recs_rrep_create a b c d e g h : keeps f (rrep_create a b c d e g h).
Proof. unfold rrep_create. apply keeps_new_msg; [done|]. kr. Qed.
End keeps_recs.

(** ** Duplicate suppression *)

(** What [rreq_process] checks before it acts on a RREQ. *)
Definition rreq_ignored (w : world) (len src orig id : Z) : Prop :=
  orig = dev_ipaddr (h_dev (this_host w)) ∨ len < RREQ_SIZE ∨
  (∃ k, bls w !! k = Some (Bl src)) ∨ (∃ k, recs w !! k = Some (Rec orig id)).

Lemma ld32_ok lim w b off :
  Inv lim w → 0 ≤ off ≤ 1020 → ∃ v, ld32 b off w = Ok v w.
Proof.
  intros HI Hoff. destruct (ld_run lim w b off 4 HI) as (bs & H & _); [lia..|]. by eexists.
Qed.

Lemma ld8_ok lim w b off :
  Inv lim w → 0 ≤ off < 1024 → ∃ v, ld8 b off w = Ok v w.
Proof.
  intros HI Hoff. destruct (ld_run lim w b off 1 HI) as (bs & H & _); [lia..|]. by eexists.
Qed.

Ltac load_ok :=
  lazymatch goal with
  | HI : Inv ?lim ?w |- context [(ld32 ?b ?off ≫= _) ?w] =>
      let v := fresh "v" in let H := fresh "Hv" in
      destruct (ld32_ok lim w b off HI ltac:(done)) as [v H]; rewrite (bind_run _ _ _ _ _ H)
  | HI : Inv ?lim ?w |- context [(ld8 ?b ?off ≫= _) ?w] =>
      let v := fresh "v" in let H := fresh "Hv" in
      destruct (ld8_ok lim w b off HI ltac:(done)) as [v H]; rewrite (bind_run _ _ _ _ _ H)
  end.

(** C22: a RREQ is ignored, without any effect, when it is our own, when it is
    too short, when its sender is blacklisted, and when one with the same
    originator and identifier is on record. *)
Theorem rreq_process_ignores b len src ttl w orig id :
  Inv None w →
  ld32 b RREQ_OFF_ORIG_ADDR w = Ok orig w → ld32 b RREQ_OFF_ID w = Ok id w →
  rreq_ignored w len src orig (ntohl id) →
  rreq_process b len src ttl w = Ok tt w.
Proof.
  intros HI Ho Hi Hign. unfold rreq_process.
  load_ok. rewrite (bind_run _ _ _ _ _ Ho), (bind_run _ _ _ _ _ Hi). do 3 load_ok.
  unfold gets at 1. unfold mbind at 1, M_bind at 1.
  destruct (Z.eqb_spec orig (dev_ipaddr (h_dev (this_host w)))) as [|Hown]; [done|].
  destruct (Z.ltb_spec len RREQ_SIZE) as [|Hlen]; [done|].
  destruct (rreq_blacklist_check_run None w src HI) as (bl & Hbl & Hblp).
  rewrite (bind_run _ _ _ _ _ Hbl). destruct bl as [k|]; [done|].
  destruct (rreq_record_check_run None w orig (ntohl id) HI) as (rec & Hrec & Hrecp).
  rewrite (bind_run _ _ _ _ _ Hrec). destruct rec as [k|]; [done|].
  destruct Hign as [?|[?|[[k Hk]|[k Hk]]]]; [done|lia|by apply Hblp in Hk|by apply Hrecp in Hk].
Qed.

Lemma wpo_rreq_record_insert orig id w :
  Inv None w →
  wpo (rreq_record_insert orig id)
    (λ p w', ∃ k, p = Some k ∧ recs w' !! k = Some (Rec orig id) ∧
       match recs w !! k with
       | Some _ => w' = w
       | None => recs w' = <[k := Rec orig id]> (recs w) ∧
                 armed w' (T_rec k) rreq_record_timeout_h true
       end) w.
Proof.
  intros HI. unfold rreq_record_insert.
  destruct (rreq_record_check_run None w orig id HI) as (p & Hrun & Hp).
  apply wp_bind. eapply wp_eq; [exact Hrun|]. destruct p as [k|].
  { apply wp_ret. exists k. by rewrite Hp. }
  apply wp_bind, wp_gets, wp_bind.
  destruct (malloc_cases (size (recs w)) w) as [Hm|[Hm _]];
    (eapply wp_eq; [exact Hm|]); [done|]. cbv beta iota.
  apply wp_modify_bind, wp_timer_init_bind, wp_modify_bind.
  match goal with |- wp _ _ _ ?w2 => set (w1 := w2) end.
  assert (recs w1 = <[w_next w := Rec orig id]> (recs w)) as R1 by done.
  assert (timers w1 !! T_rec (w_next w)
    = Some (Timer false (TV 0 0) (Some rreq_record_timeout_h) (Some (w_next w)))) as M1
    by apply lookup_insert_eq.
  clearbody w1. apply wp_bind. eapply wp_wand; [apply wp_conj;
    [by apply (wpo_timer_set_timeout (T_rec (w_next w)) _ PATH_DISCOVERY_TIME w1 M1)
    |apply (wpo_keeps recs _ (λ _ w', recs w' = recs w1)); [by apply keeps_timer_set_timeout|done]]|].
  intros _ w2 [M2 R2]. apply wp_ret. exists (w_next w). rewrite R2, R1, lookup_insert_eq.
  split_and!; [done..|].
  destruct (recs w !! w_next w) as [x|] eqn:E.
  { assert (w_next w < w_next w)%nat; [|lia]. apply (fresh_recs _ (I_fresh _ _ HI)). eauto. }
  split; [done|]. eexists. by split.
Qed.

(** [rreq_record_insert] records the pair of an originator and a RREQ
    identifier for [PATH_DISCOVERY_TIME]: the next [rreq_record_check] finds
    what it returns. A pair on record already is not recorded twice; otherwise
    the new record's timer is armed to forget it. *)
Theorem rreq_record_insert_spec orig id w :
  Inv None w →
  match rreq_record_insert orig id w with
  | Ok p w' => Inv None w' ∧ ∃ k, p = Some k ∧ recs w' !! k = Some (Rec orig id) ∧
      (∃ k', rreq_record_check orig id w' = Ok (Some k') w' ∧
             recs w' !! k' = Some (Rec orig id)) ∧
      match recs w !! k with
      | Some _ => w' = w
      | None => recs w' = <[k := Rec orig id]> (recs w) ∧
                armed w' (T_rec k) rreq_record_timeout_h true
      end
  | Err e => benign e
  end.
Proof.
  intros HI. pose proof (wp_total _ _ _ _ _ (safe_rreq_record_insert None orig id w HI)
    (wpo_rreq_record_insert orig id w HI)) as Hs.
  unfold wp in Hs. destruct (rreq_record_insert orig id w) as [p w'|]; [|done].
  destruct Hs as ((HI' & _) & k & -> & Hk & Hrest). split; [done|]. exists k.
  split_and!; [done|done| |done].
  destruct (rreq_record_check_run None w' orig id HI') as (q & Hrun & Hq).
  destruct q as [k'|]; [eauto|by apply Hq in Hk].
Qed.

(** What follows the recording of the RREQ keeps the records. *)
Definition recs_view (w : world) := (recs w, rreq_records w).

Lemma keeps_recs_reverse_route o s h q l : keeps recs_view (rreq_reverse_route o s h q l).
Proof.
  unfold rreq_reverse_route.
  apply keeps_bind; [apply keeps_rt_table_check|]. intros [r|]; [|apply keeps_recs_insert].
  apply keeps_bind; [apply keeps_deref|]. intros e.
  destruct (rreq_refreshes _ _ _); [apply keeps_recs_update|apply keeps_ret].
Qed.

Lemma keeps_recs_reply_dest s p : keeps recs_view (rreq_reply_dest s p).
Proof.
  unfold rreq_reply_dest, MY_ROUTE_TIMEOUT, ACTIVE_ROUTE_TIMEOUT.
  keeps_auto; first [apply keeps_recs_rrep_create | apply keeps_recs_rrep_send].
Qed.

Lemma keeps_recs_reply_intermediate b r f now :
  keeps recs_view (rreq_reply_intermediate b r f now).
Proof.
  unfold rreq_reply_intermediate, ld_bits.
  keeps_auto; first [apply keeps_recs_rrep_create | apply keeps_recs_rrep_send].
Qed.

Lemma keeps_recs_st b off bs : keeps recs_view (st b off bs).
Proof. intros w a w'. unfold st. destruct b; cases; naive_solver. Qed.

Lemma keeps_recs_queue_msg b len : keeps recs_view (aodv_socket_queue_msg b len).
Proof. unfold aodv_socket_queue_msg. keeps_auto. apply keeps_recs_st. Qed.

Lemma keeps_recs_do_forward b len p s ttl : keeps recs_view (rreq_do_forward b len p s ttl).
Proof.
  unfold rreq_do_forward, rreq_forward. keeps_auto;
    first [apply keeps_recs_st | apply keeps_recs_queue_msg | by apply keeps_aodv_socket_send].
Qed.

Ltac load_ok_wp :=
  lazymatch goal with
  | HI : Inv ?lim ?w |- wp _ (ld32 ?b ?off ≫= _) _ ?w =>
      let v := fresh "v" in let H := fresh "Hv" in
      destruct (ld32_ok lim w b off HI ltac:(done)) as [v H];
      apply wp_bind; eapply wp_eq; [exact H|]
  | HI : Inv ?lim ?w |- wp _ (ld8 ?b ?off ≫= _) _ ?w =>
      let v := fresh "v" in let H := fresh "Hv" in
      destruct (ld8_ok lim w b off HI ltac:(done)) as [v H];
      apply wp_bind; eapply wp_eq; [exact H|]
  end.

Lemma wpo_rreq_process b len src ttl w orig id :
  Inv None w →
  ld32 b RREQ_OFF_ORIG_ADDR w = Ok orig w → ld32 b RREQ_OFF_ID w = Ok id w →
  ¬ rreq_ignored w len src orig (ntohl id) →
  wpo (rreq_process b len src ttl) (λ _ w', ∃ k, recs w' !! k = Some (Rec orig (ntohl id))) w.
Proof.
  intros HI Ho Hi Hign. unfold rreq_process. load_ok_wp.
  apply wp_bind; eapply wp_eq; [exact Ho|]. apply wp_bind; eapply wp_eq; [exact Hi|].
  do 3 load_ok_wp. apply wp_bind, wp_gets.
  destruct (Z.eqb_spec orig (dev_ipaddr (h_dev (this_host w)))) as [|Hown];
    [by destruct Hign; left|].
  destruct (Z.ltb_spec len RREQ_SIZE) as [|Hlen]; [by destruct Hign; right; left|].
  destruct (rreq_blacklist_check_run None w src HI) as (bl & Hbl & Hblp).
  apply wp_bind; eapply wp_eq; [exact Hbl|].
  destruct bl as [k|]; [destruct Hign; right; right; left; eauto|].
  destruct (rreq_record_check_run None w orig (ntohl id) HI) as (rec & Hrec & Hrecp).
  apply wp_bind; eapply wp_eq; [exact Hrec|].
  destruct rec as [k|]; [destruct Hign; do 3 right; eauto|].
  apply wp_bind. eapply wp_wand; [by apply wpo_rreq_record_insert|].
  intros _ w1 (k & _ & Hk & _).
  match goal with |- wp _ ?m _ _ => assert (keeps recs_view m) as Hm end.
  { apply keeps_bind; [apply keeps_recs_reverse_route|]. intros rev.
    destruct (_ =? _); [apply keeps_recs_reply_dest|].
    apply keeps_bind; [apply keeps_rt_table_check|]. intros fwd. unfold ld_bits. keeps_auto;
      first [apply keeps_recs_do_forward | apply keeps_recs_reply_intermediate]. }
  eapply (wpo_keeps recs_view); [exact Hm|]. intros _ w2 [= R2 _]. exists k. by rewrite R2.
Qed.

(** A RREQ is acted on at most once. Whatever [rreq_process] does with a
    RREQ it does not ignore (reply, forward, drop), the RREQ is on record when
    it ends, so that every copy of it is ignored until the record expires. *)
Theorem rreq_process_records b len src ttl w orig id :
  Inv None w → 0 ≤ len ≤ 1024 →
  ld32 b RREQ_OFF_ORIG_ADDR w = Ok orig w → ld32 b RREQ_OFF_ID w = Ok id w →
  ¬ rreq_ignored w len src orig (ntohl id) →
  match rreq_process b len src ttl w with
  | Ok _ w' => Inv None w' ∧ ∀ len' src', rreq_ignored w' len' src' orig (ntohl id)
  | Err e => benign e
  end.
Proof.
  intros HI Hlen Ho Hi Hign.
  pose proof (wp_total _ _ _ _ _ (safe_rreq_process b len src ttl w HI Hlen)
    (wpo_rreq_process b len src ttl w orig id HI Ho Hi Hign)) as Hs.
  unfold wp in Hs. destruct (rreq_process b len src ttl w) as [[] w'|]; [|done].
  destruct Hs as ((? & _) & Hk). split; [done|]. intros. by do 3 right.
Qed.

(** ** Forwarding *)

Lemma length_take_le {A} k (l : list A) : (k <= length l)%nat → length (take k l) = k.
Proof. intros. rewrite length_take. lia. Qed.

(** [aodv_socket_queue_msg] copies the message to the front of the send
    buffer; the rest of the buffer stays. *)
Lemma queue_msg_run b len w :
  Inv None w → 0 ≤ len ≤ 1024 →
  let msg := take (Z.to_nat len) (buf_of b w) in
  aodv_socket_queue_msg b len w
  = Ok send_buf (sending (msg ++ drop (Z.to_nat len) (send_bytes (sock w))) w).
Proof.
  intros HI Hlen msg.
  pose proof (length_buf None w b HI) as Hlb.
  pose proof (sock_send _ (I_sock _ _ HI)) as Hls.
  assert (length msg = Z.to_nat len) as Hlm by (apply length_take_le; lia).
  unfold aodv_socket_queue_msg. rewrite (bind_run _ _ w w w) by done. cbv beta.
  rewrite u32_small by lia. rewrite load_bytes_run by lia. rewrite drop_0. fold msg.
  erewrite bind_run; [reflexivity|].
  unfold st, buf_of. rewrite store_bytes_run by lia. simpl. rewrite Hlm.
  unfold sending. rewrite length_app, length_drop, Hlm, Hls.
  replace (1024 - _)%nat with 0%nat by lia. by rewrite app_nil_r.
Qed.

Lemma lookup_load b off h w :
  ld8 b off w = Ok h w → 0 ≤ off → (Z.to_nat off < length (buf_of b w))%nat →
  buf_of b w !! Z.to_nat off = Some h.
Proof.
  intros Hh H0 Hl. destruct (lookup_lt_is_Some_2 _ _ Hl) as [h' Hh']. rewrite Hh'. f_equal.
  revert Hh. unfold ld8, ld. rewrite load_bytes_run by lia.
  rewrite (drop_S _ h' _ Hh'). cbn [take of_bytes]. intros [= <-]. lia.
Qed.

(** The buffer [rreq_forward] sends: the message with its hop count
    incremented. *)
Lemma wpo_rreq_forward b len ttl w h :
  Inv None w → 4 ≤ len ≤ 1024 → ld8 b RREQ_OFF_HOPCNT w = Ok h w →
  wpo (rreq_forward b len ttl)
    (λ _ w', out w' = out w ∨
       out w' = EvSend AODV_BROADCAST ttl
         (<[Z.to_nat RREQ_OFF_HOPCNT := u8 (h + 1)]> (take (Z.to_nat len) (buf_of b w))) :: out w) w.
Proof.
  intros HI Hlen Hh. unfold rreq_forward.
  pose proof (length_buf None w b HI) as Hlb.
  pose proof (sock_send _ (I_sock _ _ HI)) as Hls.
  apply wp_bind. eapply wp_eq; [apply queue_msg_run; [done|lia]|].
  set (msg := take (Z.to_nat len) (buf_of b w)).
  assert (length msg = Z.to_nat len) as Hlm by (apply length_take_le; lia).
  change (Z.to_nat RREQ_OFF_HOPCNT) with 3%nat.
  assert (msg !! 3%nat = Some h) as Hm3.
  { subst msg. rewrite lookup_take_lt by lia.
    apply (lookup_load b RREQ_OFF_HOPCNT); [done|done|]. rewrite Hlb. vm_compute. lia. }
  apply wp_bind. eapply wp_eq; [apply ld8_sending; [done|]|].
  { rewrite lookup_app_l by (vm_compute Z.to_nat; lia). exact Hm3. }
  apply wp_bind. eapply wp_eq; [apply st8_sending; [done|]|].
  { rewrite length_app, length_drop. vm_compute Z.to_nat. lia. }
  change (Z.to_nat RREQ_OFF_HOPCNT) with 3%nat.
  eapply wp_wand; [apply wpo_aodv_socket_send; lia|].
  intros _ w' [->| ->]; [by left|right].
  change (out (sending ?l w)) with (out w). do 2 f_equal.
  unfold sending. cbn [send_bytes sock set_buf]. simpl.
  rewrite insert_app_l by lia.
  rewrite take_app_le by (rewrite length_app, length_insert; lia).
  by rewrite take_app_length' by (by rewrite length_insert).
Qed.

(** [rreq_forward] rebroadcasts a RREQ byte for byte, with its hop count
    incremented (modulo 256), at most once and with the TTL it is given. *)
Theorem rreq_forward_spec b len ttl w h :
  Inv None w → 4 ≤ len ≤ 1024 → ld8 b RREQ_OFF_HOPCNT w = Ok h w →
  match rreq_forward b len ttl w with
  | Ok _ w' => Inv None w' ∧
      (out w' = out w ∨
       out w' = EvSend AODV_BROADCAST ttl
         (<[Z.to_nat RREQ_OFF_HOPCNT := u8 (h + 1)]> (take (Z.to_nat len) (buf_of b w))) :: out w)
  | Err e => benign e
  end.
Proof.
  intros HI Hlen Hh.
  pose proof (wp_total _ _ _ _ _ (safe_rreq_forward None b len ttl w HI ltac:(lia))
    (wpo_rreq_forward b len ttl w h HI Hlen Hh)) as Hs.
  unfold wp in Hs. destruct (rreq_forward b len ttl w) as [[] w'|]; [|done].
  by destruct Hs as [(? & _) ?].
Qed.

(** ** Freshness of the reverse route *)

(** Sequence numbers as the code compares them: as signed 32-bit integers. *)
Definition no_staler (e e' : rt_table_t) : Prop :=
  rt_dest_seqno e = 0 ∨ s32 (rt_dest_seqno e) ≤ s32 (rt_dest_seqno e').

Lemma wpo_reverse_route orig src h s life w :
  Inv None w →
  wpo (rreq_reverse_route orig src h s life)
    (λ p w', ∃ r e', p = Some r ∧ rts w' !! r = Some e' ∧ rt_dest_addr e' = orig ∧
       match rts w !! r with
       | None => rt_st e' = VALID ∧ rt_next_hop e' = src ∧ rt_hopcnt e' = u8 h ∧
                 rt_dest_seqno e' = s
       | Some e => no_staler e e' ∧
           if rreq_refreshes s h e
           then rt_st e' = VALID ∧ rt_next_hop e' = src ∧ rt_hopcnt e' = u8 h ∧
                rt_dest_seqno e' = s
           else w' = w
       end) w.
Proof.
  intros HI. unfold rreq_reverse_route.
  destruct (rt_table_check_run None w orig HI) as (p & Hrun & Hp).
  apply wp_bind. eapply wp_eq; [exact Hrun|]. destruct p as [r|].
  - destruct Hp as (e & He & Hd & _). apply (wp_get_rt _ _ e); [done|].
    destruct (rreq_refreshes s h e) eqn:Hf.
    + eapply wp_wand; [apply (wpo_rt_table_update r e); [by apply Inv_linked|done]|].
      intros ? w1 (-> & (e' & He' & Hd' & Hs & Hn & Hh & Hst & _) & _).
      exists r, e'. rewrite He, Hf. split_and!; [done|done|congruence| |done..].
      unfold no_staler. rewrite Hs.
      apply orb_true_iff in Hf as [[?%Z.eqb_eq|?%Z.ltb_lt]%orb_true_iff|[->%Z.eqb_eq _]%andb_true_iff];
        [by left|right; lia|by right].
    + apply wp_ret. exists r, e. rewrite He, Hf. split_and!; [done..| |done]. by right.
  - eapply wp_wand; [by apply wpo_rt_table_insert|]. intros q w1 Hq.
    destruct q as [r|].
    + destruct Hq as [Hr [= R1 _]]. eexists r, _. rewrite R1, lookup_insert_eq, Hr. by split_and!.
    + destruct Hq as [_ []]. intros r e He. by apply Hp with r.
Qed.

(** The reverse route of a RREQ. There is a route to the originator
    afterwards; an existing one is replaced only when the RREQ's sequence
    number is newer, or equal and the route invalid or longer, and is left
    alone otherwise, so the sequence number of a route never goes back; a
    replaced or new route is valid and goes through the sender. *)
Theorem rreq_reverse_route_spec orig src h s life w :
  Inv None w →
  match rreq_reverse_route orig src h s life w with
  | Ok p w' => Inv None w' ∧
      ∃ r e', p = Some r ∧ rts w' !! r = Some e' ∧ rt_dest_addr e' = orig ∧
      match rts w !! r with
      | None => rt_st e' = VALID ∧ rt_next_hop e' = src ∧ rt_hopcnt e' = u8 h ∧
                rt_dest_seqno e' = s
      | Some e => no_staler e e' ∧
          if rreq_refreshes s h e
          then rt_st e' = VALID ∧ rt_next_hop e' = src ∧ rt_hopcnt e' = u8 h ∧
               rt_dest_seqno e' = s
          else w' = w
      end
  | Err e => benign e
  end.
Proof.
  intros HI.
  pose proof (wp_total _ _ _ _ _ (safe_rreq_reverse_route orig src h s life w HI)
    (wpo_reverse_route orig src h s life w HI)) as Hs.
  unfold wp in Hs. destruct (rreq_reverse_route orig src h s life w) as [p w'|]; [|done].
  by destruct Hs as [(? & _) ?].
Qed.
