(* ===== verification/Rerr.v ===== *)
(** * Route errors received (aodv_rerr.c: rerr_process) *)

From S2P Require Export Rreq.

(** One unreachable destination of the received message [rerr]; [acc] is
    whether a RERR is being built in the send buffer, and
    [rerr_unicast_dest]. *)
Definition rerr_process_udest (rerr : bufid) (ip_src : Z) (acc : bool * Z)
    (udest_addr rerr_dest_seqno : Z) : M (bool * Z) :=
  rt ← rt_table_check udest_addr;
  match rt with
  | None => mret acc
  | Some _ =>
      e ← get_rt rt;
      if bool_decide (rt_st e = VALID) && (rt_next_hop e =? ip_src) then
        if s32 rerr_dest_seqno <? s32 (rt_dest_seqno e) then mret acc
        else
          n ← ld_bits rerr RERR_OFF_FLAGS 0 1;
          when (n =? 0) (_ ← rt_table_invalidate rt; mret tt);;
          upd_rt rt (λ e, e <| rt_dest_seqno := rerr_dest_seqno |>);;
          e ← get_rt rt;
          acc ← (if negb (rt_nprecursor e =? 0) && negb (flag (rt_flags e) RT_REPAIR)
                 then rerr_report acc.1 acc.2 rt (if n =? 0 then 0 else RERR_NODELETE)
                 else mret acc);
          e ← get_rt rt;
          when (bool_decide (rt_st e = INVALID)) (precursor_list_destroy rt);;
          mret acc
      else mret acc
  end.

(** The [while(rerr->dest_count)] loop: the counter is in the message, and
    [udest] is the offset of the pair it points to. *)
Fixpoint rerr_loop (fuel : nat) (rerr : bufid) (ip_src : Z) (acc : bool * Z) (udest : Z)
    : M (bool * Z) :=
  count ← ld8 rerr RERR_OFF_DEST_COUNT;
  if count =? 0 then mret acc
  else match fuel with
  | O => raise (Fault OutOfFuel)
  | S fuel =>
      addr ← ld32 rerr udest;
      n_seqno ← ld32 rerr (udest + 4);
      acc ← rerr_process_udest rerr ip_src acc addr (ntohl n_seqno);
      count ← ld8 rerr RERR_OFF_DEST_COUNT;
      st8 rerr RERR_OFF_DEST_COUNT (count - 1);;
      rerr_loop fuel rerr ip_src acc (udest + RERR_UDEST_SIZE)
  end.

Definition rerr_process (rerr : bufid) (len ip_src : Z) : M unit :=
  size ← RERR_CALC_SIZE rerr;
  if len <? s32 size then mret tt
  else
    acc ← rerr_loop 256 rerr ip_src (false, 0) RERR_OFF_DEST_ADDR;
    let '(new_rerr, unicast) := acc in
    if negb new_rerr then mret tt
    else if negb (unicast =? 0) then
      rt ← rt_table_check unicast;
      match rt with
      | None => mret tt
      | Some _ => len ← RERR_CALC_SIZE send_buf; aodv_socket_send send_buf unicast (s32 len) 1
      end
    else
      len ← RERR_CALC_SIZE send_buf; aodv_socket_send send_buf AODV_BROADCAST (s32 len) 1.

(** ** What processing one destination leaves alone

    The loop counter is in the receive buffer, so its termination needs that
    nothing below writes there. *)

Section keeps_recv.
Let f (w : world) : list Z := recv_bytes (sock w).

Lemma keeps_recv_upd_rt p g : keeps f (upd_rt p g).
Proof. unfold upd_rt. keeps_auto. Qed.

Lemma keeps_recv_invalidate p : keeps f (rt_table_invalidate p).
Proof.
  unfold rt_table_invalidate, upd_num_active, set_handler, ACTIVE_ROUTE_TIMEOUT,
    DELETE_PERIOD.
  keeps_auto.
  all: first [by apply keeps_timer_remove | by apply keeps_upd_timer
             | apply keeps_recv_upd_rt | by apply keeps_del_route
             | by apply keeps_timer_set_timeout].
Qed.

Lemma keeps_recv_report rerr u p fl : keeps f (rerr_report rerr u p fl).
Proof. unfold rerr_report, first_prec. keeps_auto. Qed.

Lemma keeps_recv_destroy p : keeps f (precursor_list_destroy p).
Proof. unfold precursor_list_destroy. keeps_auto; apply keeps_recv_upd_rt. Qed.

Lemma keeps_recv_process_udest b src acc u s : keeps f (rerr_process_udest b src acc u s).
Proof.
  unfold rerr_process_udest, ld_bits. keeps_auto.
  all: first [apply keeps_rt_table_check | apply keeps_recv_invalidate | apply keeps_recv_upd_rt
             | apply keeps_recv_report | apply keeps_recv_destroy].
Qed.
End keeps_recv.

(** ** The loop *)

Lemma safe_rerr_process_udest lim b src acc u s w :
  Inv lim w → safe lim (rerr_process_udest b src acc u s) (λ _ _, True) w.
Proof.
  intros HI. unfold rerr_process_udest. repeat mstep.
Qed.

(** [n] destinations take [n] iterations, all of them inside the message. *)
Lemma safe_rerr_loop lim fuel src n acc udest w :
  Inv lim w → ld8 recv_buf RERR_OFF_DEST_COUNT w = Ok n w →
  0 ≤ n < 256 → n ≤ Z.of_nat fuel → 0 ≤ udest → udest + 8 * n ≤ 1024 →
  safe lim (rerr_loop fuel recv_buf src acc udest) (λ _ _, True) w.
Proof.
  revert n acc udest w. induction fuel as [|fuel IH];
    intros n acc udest w HI Hld Hn Hf Hu Hb; cbn [rerr_loop];
    (eapply safe_read; [exact Hld|]); cbv beta;
    destruct (Z.eqb_spec n 0) as [|Hn0]; try (by apply safe_ret); [lia|].
  apply safe_ld32; [done|lia|]. intros addr. apply safe_ld32; [done|lia|]. intros seqno.
  eapply safe_bind.
  { eapply (safe_strengthen _ _ (λ _ w', recv_bytes (sock w') = recv_bytes (sock w)));
      [apply keeps_recv_process_udest|by apply safe_rerr_process_udest]. }
  intros acc' w1 HI1 _ [_ Hrecv].
  assert (ld8 recv_buf RERR_OFF_DEST_COUNT w1 = Ok n w1) as Hld1 by (by eapply ld8_same).
  eapply safe_read; [exact Hld1|].
  eapply safe_bind; [apply safe_st8; [done|by right]|].
  intros [] w2 HI2 _ (l & Hl & ->).
  eapply (IH (n - 1)); [done| |unfold RERR_UDEST_SIZE; lia..].
  rewrite <-(u8_small (n - 1)) by lia. by apply ld8_after_st8.
Qed.

Lemma rerr_size_small n : 1 ≤ n < 256 → s32 (rerr_size n) = 12 + (n - 1) * 8.
Proof.
  intros Hn. unfold rerr_size, RERR_SIZE, RERR_UDEST_SIZE.
  rewrite (u32_small (n - 1)) by lia. rewrite u32_small, s32_small; lia.
Qed.

Lemma safe_rerr_process len src w :
  Inv None w → 0 ≤ len ≤ 1024 →
  safe None (rerr_process recv_buf len src) (λ _ _, True) w.
Proof.
  intros HI Hlen. unfold rerr_process, RERR_CALC_SIZE at 1. apply safe_assoc.
  apply safe_ld8; [done|done|]. intros n Hn Hld. apply safe_mret_bind.
  sstep; [by sstep|]. bool_prop.
  assert (4 + 8 * n ≤ 1024 ∧ 0 ≤ n < 256) as [Hn1 Hn2].
  { unfold is_byte in Hn. destruct (Z_le_gt_dec n 0); [lia|].
    rewrite rerr_size_small in Hx by lia. lia. }
  eapply safe_bind; [eapply (safe_rerr_loop _ 256 _ n); unfold RERR_OFF_DEST_ADDR; done || lia|].
  intros [new_rerr unicast] w1 HI1 _ _. repeat mstep.
Qed.

#[export] Hint Resolve safe_rreq_process safe_rrep_process safe_rerr_process : safe.

(** ** What a RERR does to the table *)

(** The entries whose next hop is not [src] are as before. *)
Definition only_through (src : Z) (w w' : world) : Prop :=
  ∀ u e, rts w !! u = Some e → rt_next_hop e ≠ src → rts w' !! u = Some e.

#[export] Instance only_through_preorder src : PreOrder (only_through src).
Proof. split; [by intros w u e|]. intros w1 w2 w3 H1 H2 u e ??. apply H2; auto. Qed.

Lemma evolves_rerr_process_udest b src acc u s : evolves fades (rerr_process_udest b src acc u s).
Proof.
  unfold rerr_process_udest, ld_bits.
  repeat first [apply evolves_invalidate | apply evolves_destroy
    | apply evolves_fades_keeps, keeps_rerr_report; done
    | apply evolves_fades_keeps, keeps_ld | fades_step].
Qed.

Lemma wpo_rerr_process_udest_only b src acc u s w :
  Inv None w → wpo (rerr_process_udest b src acc u s) (λ _, only_through src w) w.
Proof.
  intros HI. unfold rerr_process_udest.
  destruct (rt_table_check_run None w u HI) as (p & Hrun & Hp).
  apply wp_bind. eapply wp_eq; [exact Hrun|]. destruct p as [r|]; [|by apply wp_ret].
  destruct Hp as (e & He & _ & _). apply (wp_get_rt _ _ e); [done|].
  destruct (bool_decide (rt_st e = VALID) && (rt_next_hop e =? src)) eqn:Hc; [|by apply wp_ret].
  apply andb_true_iff in Hc as [_ Hn%Z.eqb_eq].
  destruct (s32 s <? s32 (rt_dest_seqno e)); [by apply wp_ret|].
  eapply (wpo_evolves (others r)); [|intros acc' w' Ho v ev Hv Hne].
  - unfold ld_bits. repeat first [apply others_invalidate | apply others_destroy
      | apply evolves_others_keeps, keeps_rerr_report; done | others_step].
  - rewrite Ho; [done|]. intros ->. congruence.
Qed.

Lemma wpo_rerr_loop fuel b src acc udest w :
  Inv None w → b = recv_buf →
  wpo (rerr_loop fuel b src acc udest) (λ _ w', only_through src w w' ∧ fades w w') w.
Proof.
  intros HI ->. revert acc udest w HI.
  induction fuel as [|fuel IH]; intros acc udest w HI; cbn [rerr_loop].
  { apply (wpo_keeps_bind (λ w, w)); [apply keeps_ld|]. intros n ? ->.
    destruct (n =? 0); [by apply wp_ret|done]. }
  apply (wpo_keeps_bind (λ w, w)); [apply keeps_ld|]. intros n ? ->.
  destruct (n =? 0); [by apply wp_ret|].
  apply (wpo_keeps_bind (λ w, w)); [apply keeps_ld|]. intros addr ? ->.
  apply (wpo_keeps_bind (λ w, w)); [apply keeps_ld|]. intros seqno ? ->.
  apply wp_bind. eapply wp_wand; [apply wp_conj;
    [by apply wpo_rerr_process_udest_only|apply wp_conj;
      [apply (wpo_evolves fades _ (λ _ w', fades w w')); [apply evolves_rerr_process_udest|done]
      |apply (wp_mono_err benign); [done|by apply (safe_rerr_process_udest None)]]]|].
  intros acc' w1 (Ho1 & HF1 & HI1 & _ & _).
  apply (wpo_keeps_bind (λ w, w)); [apply keeps_ld|]. intros n1 ? ->.
  apply wp_bind. eapply wp_wand; [apply (wp_mono_err benign); [done|];
    apply safe_st8; [exact HI1|by right]|].
  intros [] w2 (HI2 & _ & l & _ & ->).
  eapply wp_wand; [by apply IH|]. intros acc2 w3 [Ho3 HF3]. split.
  - etrans; [exact Ho1|]. exact Ho3.
  - etrans; [exact HF1|]. exact HF3.
Qed.

Lemma wpo_rerr_process len src w :
  Inv None w → wpo (rerr_process recv_buf len src) (λ _ w', only_through src w w' ∧ fades w w') w.
Proof.
  intros HI. unfold rerr_process. apply (wpo_keeps_bind (λ w, w)).
  { unfold RERR_CALC_SIZE. apply keeps_bind; [apply keeps_ld|intros; apply keeps_ret]. }
  intros size ? ->. destruct (len <? s32 size); [by apply wp_ret|].
  apply wp_bind. eapply wp_wand; [by apply wpo_rerr_loop|].
  intros [new_rerr unicast] w1 [Ho HF].
  assert (∀ w', fade_view w' = fade_view w1 → only_through src w w' ∧ fades w w') as Hend.
  { intros w' Hv. split; [|by etrans; [|apply fades_view]].
    injection Hv as Hr _. intros u e He Hn. rewrite Hr. by apply Ho. }
  apply (wpo_keeps fade_view); [|intros _ w2 Hv; by apply Hend].
  unfold RERR_CALC_SIZE. keeps_auto;
    first [apply keeps_rt_table_check | by apply keeps_aodv_socket_send].
Qed.

(** C23: a RERR only harms routes through its sender. Processing any received
    RERR, whatever its bytes, leaves every entry whose next hop is not the
    sender exactly as it was; no route is created, freed or redirected, and
    none becomes valid. *)
Theorem rerr_process_only_sender len src w :
  Inv None w → 0 ≤ len ≤ 1024 →
  match rerr_process recv_buf len src w with
  | Ok _ w' => Inv None w' ∧ fades w w' ∧
      (∀ u e, rts w !! u = Some e → rt_next_hop e ≠ src → rts w' !! u = Some e)
  | Err e => benign e
  end.
Proof.
  intros HI Hlen.
  pose proof (wp_total _ _ _ _ _ (safe_rerr_process len src w HI Hlen)
    (wpo_rerr_process len src w HI)) as Hs.
  unfold wp in Hs. destruct (rerr_process recv_buf len src w) as [[] w'|]; [|done].
  by destruct Hs as [(? & _) [? ?]].
Qed.

(** ** One unreachable destination *)

(** Whether the report of [seqno] by [src] concerns the route [e]. *)
Definition rerr_applies (src seqno : Z) (e : rt_table_t) : bool :=
  bool_decide (rt_st e = VALID) && (rt_next_hop e =? src)
  && negb (s32 seqno <? s32 (rt_dest_seqno e)).

Lemma wpo_udest_tail r e (b : bool) seqno acc nflag w :
  rts w !! r = Some e → entry_ok e → (rt_st e = INVALID ↔ b = true) →
  wpo (upd_rt (Some r) (λ e, e <| rt_dest_seqno := seqno |>);;
       e ← get_rt (Some r);
       acc ← (if negb (rt_nprecursor e =? 0) && negb (flag (rt_flags e) RT_REPAIR)
              then rerr_report acc.1 acc.2 (Some r) nflag else mret acc);
       e ← get_rt (Some r);
       when (bool_decide (rt_st e = INVALID)) (precursor_list_destroy (Some r));;
       mret (acc : bool * Z))
    (λ _ w', rts w' = <[r := if b then e <| rt_dest_seqno := seqno |> <| rt_precursors := [] |>
                                         <| rt_nprecursor := 0 |>
                        else e <| rt_dest_seqno := seqno |>]> (rts w)) w.
Proof.
  intros He Hok Hb. apply (wpo_upd_rt r e); [done|]. intros w1 R1 _ _.
  set (e1 := e <| rt_dest_seqno := seqno |>) in *.
  assert (rts w1 !! r = Some e1) as He1 by (by rewrite R1, lookup_insert_eq).
  apply (wp_get_rt _ _ e1); [done|].
  apply (wpo_keeps_bind rts); [destruct (_ && _); [by apply keeps_rerr_report|apply keeps_ret]|].
  intros acc' w2 R2. apply (wp_get_rt _ _ e1); [congruence|].
  change (rt_st e1) with (rt_st e).
  destruct b.
  - rewrite bool_decide_eq_true_2 by (by apply Hb). apply wp_bind.
    eapply wp_eq; [apply precursor_list_destroy_run; [rewrite R2; exact He1|exact Hok]|].
    apply wp_ret. simpl. by rewrite R2, R1, insert_insert_eq.
  - rewrite bool_decide_eq_false_2 by (intros H; by apply Hb in H).
    apply wp_ret. by rewrite R2.
Qed.

(** What a received RERR does to the route to one listed destination.
    A valid route whose next hop is the sender, and that is not fresher than
    the report, gets the reported sequence number; it becomes invalid and
    loses its precursors unless the N flag says that the sender is repairing
    the route. Every other route, and a destination without one, is left
    alone. *)
Theorem rerr_process_udest_spec src acc udest seqno n w r e :
  Inv None w → rts w !! r = Some e → rt_dest_addr e = udest →
  ld_bits recv_buf RERR_OFF_FLAGS 0 1 w = Ok n w →
  match rerr_process_udest recv_buf src acc udest seqno w with
  | Ok _ w' =>
      if rerr_applies src seqno e then
        rts w' = <[r := if n =? 0
                        then (invalidated e) <| rt_dest_seqno := seqno |> <| rt_precursors := [] |>
                                           <| rt_nprecursor := 0 |>
                        else e <| rt_dest_seqno := seqno |>]> (rts w)
      else w' = w
  | Err e' => benign e'
  end.
Proof.
  intros HI He <- Hn.
  assert (wpo (rerr_process_udest recv_buf src acc (rt_dest_addr e) seqno) (λ _ w',
      if rerr_applies src seqno e then
        rts w' = <[r := if n =? 0
                        then (invalidated e) <| rt_dest_seqno := seqno |> <| rt_precursors := [] |>
                                           <| rt_nprecursor := 0 |>
                        else e <| rt_dest_seqno := seqno |>]> (rts w)
      else w' = w) w) as Ho; last first.
  { pose proof (wp_total _ _ _ _ _
      (safe_rerr_process_udest None recv_buf src acc (rt_dest_addr e) seqno w HI) Ho) as Hs.
    unfold wp in Hs. destruct (rerr_process_udest _ _ _ _ _ w) as [? w'|]; [|done].
    by destruct Hs as [_ Hs]. }
  assert (entry_ok e) as Hok by (by eapply rts_entry; [apply I_rts in HI|]).
  unfold rerr_process_udest, rerr_applies.
  apply wp_bind. eapply wp_eq; [by apply rt_table_check_unique|].
  apply (wp_get_rt _ _ e); [done|].
  destruct (bool_decide (rt_st e = VALID) && (rt_next_hop e =? src)) eqn:Hc; [|by apply wp_ret].
  destruct (s32 seqno <? s32 (rt_dest_seqno e)); cbn [negb andb]; [by apply wp_ret|].
  apply andb_true_iff in Hc as [Hv%bool_decide_eq_true _].
  apply wp_bind. eapply wp_eq; [exact Hn|]. destruct (n =? 0) eqn:H0; cbn [when].
  - assert (∀ t, owner_live w t → is_Some (timers w !! t)) as Ht
      by (intros t; by apply I_owner with None).
    apply wp_bind, wp_bind. eapply wp_wand; [apply (wpo_rt_table_invalidate r e);
      [done|apply (Ht (T_rt r))|apply (Ht (T_hello r))|apply (Ht (T_ack r))];
      by eapply live_of_lookup|].
    rewrite Hv. intros c w1 (_ & R1 & _). apply wp_ret.
    eapply wp_wand; [apply (wpo_udest_tail r (invalidated e) true);
      [by rewrite R1, lookup_insert_eq|done|done]|].
    intros ? w2 H2. cbv beta iota in H2. by rewrite H2, R1, insert_insert_eq.
  - apply wp_bind, wp_ret.
    eapply wp_wand; [apply (wpo_udest_tail r e false); [done|done|]|by intros ? w2 H2; cbv beta iota in H2].
    rewrite Hv. done.
Qed.
