(* ===== verification/Hello.v ===== *)
(** * HELLO messages (aodv_hello.c) *)

From S2P Require Export Rreq.

Definition hello_stop : M unit :=
  _ ← timer_remove (Some T_hello_send); mret tt.

Definition hello_send : M unit :=
  now ← gettimeofday;
  h ← gets this_host;
  art ← ACTIVE_ROUTE_TIMEOUT;
  if art <? timeval_diff now (h_last_forward_time h) then hello_stop
  else
    let time_diff := timeval_diff now (h_last_broadcast_time h) in
    if HELLO_INTERVAL <=? time_diff then
      rrep ← rrep_create 0 0 0 (dev_ipaddr (h_dev h)) (h_seqno h) (dev_ipaddr (h_dev h))
               (ALLOWED_HELLO_LOSS * HELLO_INTERVAL);
      aodv_socket_send rrep AODV_BROADCAST RREP_SIZE 1;;
      timer_set_timeout T_hello_send HELLO_INTERVAL
    else timer_set_timeout T_hello_send (s32 (HELLO_INTERVAL - time_diff)).

Definition hello_start : M unit :=
  x ← get_timer T_hello_send;
  if t_used x then mret tt
  else
    now ← gettimeofday;
    modify (λ w, w <| this_host ::= λ h, h <| h_last_forward_time := now |> |>);;
    _ ← timer_init (Some T_hello_send) (Some hello_send_h) None;
    hello_send.

Definition hello_process (hello : bufid) : M unit :=
  now ← gettimeofday;
  dest ← ld32 hello RREP_OFF_DEST_ADDR;
  n_seqno ← ld32 hello RREP_OFF_DEST_SEQNO;
  let seqno := ntohl n_seqno in
  rt ← rt_table_check dest;
  nh ← gets (λ w, receive_n_hellos (cfg w));
  let state := if negb (nh =? 0) then INVALID else VALID in
  let timeout := ALLOWED_HELLO_LOSS * HELLO_INTERVAL + ROUTE_TIMEOUT_SLACK in
  match rt with
  | None =>
      rt ← rt_table_insert dest dest 1 seqno timeout state 0;
      upd_rt rt (λ e, e <| rt_hello_cnt := 1 |>)
  | Some _ =>
      e ← get_rt rt;
      let flags := rt_flags e in
      if flag flags RT_UNIDIR && bool_decide (rt_st e = VALID) && (1 <? rt_hopcnt e) then
        hello_update_timeout rt now (ALLOWED_HELLO_LOSS * HELLO_INTERVAL)
      else if negb (nh =? 0) && (rt_hello_cnt e <? nh - 1) then
        (if timeval_diff now (rt_last_hello_time e)
              <? HELLO_INTERVAL + HELLO_INTERVAL / 2
         then upd_rt rt (λ e, e <| rt_hello_cnt ::= λ c, u8 (c + 1) |>)
         else upd_rt rt (λ e, e <| rt_hello_cnt := 1 |>));;
        upd_rt rt (λ e, e <| rt_last_hello_time := now |>)
      else
        rt ← (rt_table_update rt dest 1 seqno timeout VALID flags;; mret rt);
        hello_update_timeout rt now (ALLOWED_HELLO_LOSS * HELLO_INTERVAL)
  end.

(** ** HELLO processing keeps the state well formed *)

Lemma safe_hello_stop lim w : Inv lim w → safe lim hello_stop (λ _ _, True) w.
Proof. intros HI. unfold hello_stop. repeat mstep. Qed.

#[export] Hint Resolve safe_hello_stop : safe.

Lemma safe_hello_send lim w : Inv lim w → safe lim hello_send (λ _ _, True) w.
Proof. intros HI. unfold hello_send, ACTIVE_ROUTE_TIMEOUT. repeat (mstep; try subst). Qed.

Lemma safe_hello_process b w :
  Inv None w → safe None (hello_process b) (λ _ _, True) w.
Proof.
  intros HI. unfold hello_process. repeat mstep.
  eapply safe_bind; [by apply safe_rt_table_insert_new; auto|].
  intros ? w1 HI1 _ (r & -> & Hr). sstep.
Qed.

#[export] Hint Resolve safe_hello_send safe_hello_process : safe.
