(* ===== verification/Timeouts.v ===== *)
(** * Timeout handlers (aodv_timeout.c, print_rt_table of debug.c)

    The functions the timers call, and the dispatch that ties them to the
    handler names stored in the timers. *)

From S2P Require Export Rerr Hello.

Definition rreq_record_timeout (arg : ptr) : M unit :=
  _ ← get_rec arg;
  modify (λ w, w <| rreq_records ::= del (addr arg) |>);;
  modify (λ w, w <| recs ::= delete (addr arg) |> <| timers ::= delete (T_rec (addr arg)) |>).

Definition rreq_blacklist_timeout (arg : ptr) : M unit :=
  _ ← get_bl arg;
  modify (λ w, w <| rreq_blacklists ::= del (addr arg) |>);;
  modify (λ w, w <| bls ::= delete (addr arg) |> <| timers ::= delete (T_bl (addr arg)) |>).

Definition local_repair_timeout (arg : ptr) : M unit :=
  match arg with
  | None => mret tt
  | Some r =>
      upd_rt arg (λ e, e <| rt_flags ::= λ f, Z.ldiff f RT_REPAIR |>);;
      e ← get_rt arg;
      _ ← nl_send_del_route_msg (rt_dest_addr e) (rt_next_hop e) (rt_hopcnt e);
      when (negb (rt_nprecursor e =? 0))
        (rerr ← rerr_create 0 (rt_dest_addr e) (rt_dest_seqno e);
         dest ← (if rt_nprecursor e =? 1 then first_prec arg else mret AODV_BROADCAST);
         len ← RERR_CALC_SIZE rerr;
         aodv_socket_send rerr dest (s32 len) 1);;
      precursor_list_destroy arg;;
      set_handler (T_rt r) route_delete_timeout_h;;
      t ← DELETE_PERIOD;
      timer_set_timeout (T_rt r) t
  end.

Definition route_discovery_timeout (arg : ptr) : M unit :=
  match arg with
  | None => mret tt
  | Some s =>
      now ← gettimeofday;
      entry ← get_seek arg;
      if sk_rreq_cnt entry <? RREQ_RETRIES then
        ring ← gets (λ w, expanding_ring_search (cfg w));
        (if negb (ring =? 0) then
           (if sk_ttl entry <? TTL_THRESHOLD
            then upd_seek arg (λ e, e <| sk_ttl ::= λ t, s32 (t + TTL_INCREMENT) |>)
            else upd_seek arg (λ e, e <| sk_ttl := NET_DIAMETER |>));;
           e ← get_seek arg;
           timer_set_timeout (T_seek s) (s32 (RING_TRAVERSAL_TIME (sk_ttl e)))
         else
           timer_set_timeout (T_seek s) (s32 (sk_rreq_cnt entry * 2 * NET_TRAVERSAL_TIME)));;
        rt ← rt_table_check (sk_dest_addr entry);
        match rt with
        | None => mret tt
        | Some _ => extend_for_discovery rt now
        end;;
        e ← get_seek arg;
        rreq_send (sk_dest_addr e) (sk_dest_seqno e) (sk_ttl e) (sk_flags e);;
        upd_seek arg (λ e, e <| sk_rreq_cnt ::= λ c, s32 (c + 1) |>)
      else
        _ ← nl_send_no_route_found_msg (sk_dest_addr entry);
        repair_rt ← rt_table_check (sk_dest_addr entry);
        _ ← seek_list_remove arg;
        match repair_rt with
        | None => mret tt
        | Some _ =>
            e ← get_rt repair_rt;
            when (flag (rt_flags e) RT_REPAIR) (local_repair_timeout repair_rt)
        end
  end.

Definition route_expire_timeout (arg : ptr) : M unit :=
  match arg with
  | None => mret tt
  | Some _ =>
      e ← get_rt arg;
      if rt_hopcnt e =? 1 then neighbor_link_break arg
      else _ ← rt_table_invalidate arg; precursor_list_destroy arg
  end.

Definition route_delete_timeout (arg : ptr) : M unit :=
  match arg with
  | None => mret tt
  | Some _ => rt_table_delete arg
  end.

Definition hello_timeout (arg : ptr) : M unit :=
  match arg with
  | None => mret tt
  | Some _ =>
      _ ← gettimeofday;
      e ← get_rt arg;
      if bool_decide (rt_st e = VALID) && negb (flag (rt_flags e) RT_UNIDIR) then
        lr ← gets (λ w, local_repair (cfg w));
        when (negb (lr =? 0) && (rt_hopcnt e <=? MAX_REPAIR_TTL))
          (upd_rt arg (λ e, e <| rt_flags ::= λ f, Z.lor f RT_REPAIR |>));;
        neighbor_link_break arg
      else mret tt
  end.

Definition rrep_ack_timeout (arg : ptr) : M unit :=
  match arg with
  | None => mret tt
  | Some _ =>
      e ← get_rt arg;
      _ ← rreq_blacklist_insert (rt_dest_addr e);
      mret tt
  end.

Definition wait_on_reboot_timeout : M unit :=
  modify (λ w, w <| cfg ::= λ c, c <| wait_on_reboot := 0 |> |>).

(** [print_rt_table] writes the table to the log (not modelled) and re-arms
    its timer; the times it reads are those of the log lines. *)
Definition print_rt_table : M unit :=
  n ← gets (λ w, rt_num_entries (rt_tbl w));
  (if n =? 0 then mret tt else _ ← gettimeofday; mret tt);;
  interval ← gets (λ w, rt_log_interval (cfg w));
  timer_set_timeout T_rt_log interval.

(** The call [t->handler(t->data)]. *)
Definition run_handler (h : handler) (data : ptr) : M unit :=
  match h with
  | rreq_record_timeout_h => rreq_record_timeout data
  | rreq_blacklist_timeout_h => rreq_blacklist_timeout data
  | route_discovery_timeout_h => route_discovery_timeout data
  | local_repair_timeout_h => local_repair_timeout data
  | route_expire_timeout_h => route_expire_timeout data
  | route_delete_timeout_h => route_delete_timeout data
  | hello_timeout_h => hello_timeout data
  | rrep_ack_timeout_h => rrep_ack_timeout data
  | wait_on_reboot_timeout_h => wait_on_reboot_timeout
  | hello_send_h => hello_send
  | print_rt_table_h => print_rt_table
  end.

(** ** The handlers keep the state well formed

    A handler may free the object its timer is embedded in, so the entry
    table need not be preserved; the list of expired timers never grows. *)

Lemma safe_handler (m : M unit) w :
  safe None m (λ _ _, True) w → wp benign m (λ _, handler_post w) w.
Proof.
  intros H. eapply wp_wand; [exact H|]. intros _ w' (? & HE & _).
  split; [done|apply (ext_exptq _ _ HE)].
Qed.

Lemma handler_rreq_record_timeout r w :
  Inv None w → is_Some (recs w !! r) → T_rec r ∉ tq w ++ exptq w →
  wp benign (rreq_record_timeout (Some r)) (λ _, handler_post w) w.
Proof.
  intros HI [x Hx] Hq. unfold rreq_record_timeout, get_rec, deref, mbind, M_bind, wp.
  rewrite Hx. simpl. split; [by apply (Inv_free_rec None w HI r)|done].
Qed.

Lemma handler_rreq_blacklist_timeout b w :
  Inv None w → is_Some (bls w !! b) → T_bl b ∉ tq w ++ exptq w →
  wp benign (rreq_blacklist_timeout (Some b)) (λ _, handler_post w) w.
Proof.
  intros HI [x Hx] Hq. unfold rreq_blacklist_timeout, get_bl, deref, mbind, M_bind, wp.
  rewrite Hx. simpl. split; [by apply (Inv_free_bl None w HI b)|done].
Qed.

Lemma safe_local_repair_timeout lim p w :
  Inv lim w → valid w p → safe lim (local_repair_timeout p) (λ _ _, True) w.
Proof.
  intros HI Hp. unfold local_repair_timeout, DELETE_PERIOD. destruct p as [r|]; [|by sstep].
  sstep. sstep.
  eapply safe_bind.
  { eapply (safe_strengthen _ _ (λ _ w', rts w' = rts w0));
      [by apply keeps_del_route|by apply safe_nl_send_del_route_msg]. }
  intros b' w1 HI1 HE1 [_ Hrts1]. lift_ext HE1.
  eapply (safe_bind _ _ _ (λ _ _, True)); [|call_post; repeat mstep].
  sstep. eapply safe_bind.
  { eapply (safe_strengthen _ _ (λ _ w', rts w' = rts w1));
      [by apply keeps_rerr_create|by apply safe_rerr_create]. }
  intros b2 w2 HI2 HE2 [-> Hrts2]. lift_ext HE2.
  destruct (Z.eqb_spec (rt_nprecursor e) 1) as [H1|]; [|repeat mstep].
  apply safe_first_prec with e; [done|congruence|done|]. intros. repeat mstep.
Qed.

#[export] Hint Resolve safe_local_repair_timeout : safe.

(** Pending discoveries are not touched by what [route_discovery_timeout]
    does while it still uses its entry. *)
Lemma keeps_seeks_extend p now : keeps seeks (extend_for_discovery p now).
Proof.
  unfold extend_for_discovery, rt_table_update_timeout. keeps_auto.
  all: by apply keeps_timer_set_timeout.
Qed.

Lemma keeps_seeks_rreq_send d s ttl fl : keeps seeks (rreq_send d s ttl fl).
Proof.
  unfold rreq_send. keeps_auto; [by apply keeps_rreq_create|by apply keeps_aodv_socket_send].
Qed.

(** A step after which the entry [s] is still there. *)
Lemma safe_keep_seek {A B} lim (m : M A) (k : A → M B) mid post w s :
  keeps seeks m → is_Some (seeks w !! s) → safe lim m mid w →
  (∀ a w', Inv lim w' → ext w w' → mid a w' → is_Some (seeks w' !! s) →
     safe lim (k a) post w') →
  safe lim (m ≫= k) post w.
Proof.
  intros Hk Hs Hm Hcont. eapply safe_bind.
  { eapply (safe_strengthen _ _ (λ _ w', seeks w' = seeks w)); [apply Hk|exact Hm]. }
  intros a w' HI HE [? Heq]. apply Hcont; try done. by rewrite Heq.
Qed.

Lemma Inv_upd_seek lim w s x f :
  Inv lim w → seeks w !! s = Some x →
  Inv lim (w <| seeks ::= <[s := f x]> |>).
Proof.
  intros HI Hs. inv_split HI.
  - intros t. rewrite (I_owner _ _ HI t).
    destruct t; simpl; rewrite ?(is_Some_insert_old _ _ _ x) by done; done.
  - destruct I_sl0 as [? Hl]. split; [done|]. intros i.
    by rewrite (is_Some_insert_old _ _ _ x), Hl.
  - intros r. rewrite (is_Some_insert_old _ _ _ x) by done. auto.
Qed.

Lemma safe_upd_seek lim w s f :
  Inv lim w → is_Some (seeks w !! s) →
  safe lim (upd_seek (Some s) f) (λ _ w', is_Some (seeks w' !! s)) w.
Proof.
  intros HI [x Hs]. eapply safe_run.
  - unfold upd_seek, get_seek, deref, mbind, M_bind. by rewrite Hs.
  - by apply Inv_upd_seek.
  - auto.
  - simpl. rewrite lookup_insert_eq. eauto.
Qed.

Lemma safe_get_seek {A} lim w s (k : seek_list_t → M A) post :
  is_Some (seeks w !! s) → (∀ e, seeks w !! s = Some e → safe lim (k e) post w) →
  safe lim (get_seek (Some s) ≫= k) post w.
Proof.
  intros [e He] Hk. eapply safe_read; [unfold get_seek, deref; by rewrite He|auto].
Qed.

Lemma safe_set_timeout_seek lim w s ms :
  Inv lim w → is_Some (seeks w !! s) →
  safe lim (timer_set_timeout (T_seek s) ms) (λ _ w', is_Some (seeks w' !! s)) w.
Proof.
  intros HI Hs.
  eapply safe_conseq; [eapply (safe_strengthen _ _ (λ _ w', seeks w' = seeks w))|].
  - by apply keeps_timer_set_timeout.
  - by apply safe_timer_set_timeout.
  - by intros _ w' [_ ->].
Qed.

Lemma safe_route_discovery_timeout lim s w :
  Inv lim w → is_Some (seeks w !! s) →
  safe lim (route_discovery_timeout (Some s)) (λ _ _, True) w.
Proof.
  intros HI Hs. unfold route_discovery_timeout.
  eapply safe_keep_seek; [by apply keeps_gettimeofday|done|by apply safe_gettimeofday|].
  intros now w1 HI1 _ _ Hs1. apply safe_get_seek; [done|]. intros e He.
  sstep; last first.
  { eapply safe_keep_seek; [by apply keeps_nl_send|done|by apply safe_nl_send_no_route_found_msg|].
    intros _ w2 HI2 _ _ Hs2. mstep.
    eapply safe_bind; [by apply safe_seek_list_remove|call_post].
    destruct p as [r|]; [|by sstep]. repeat mstep. }
  sstep. eapply (safe_bind _ _ _ (λ _ w', is_Some (seeks w' !! s))).
  { sstep.
    - eapply (safe_bind _ _ _ (λ _ w', is_Some (seeks w' !! s))).
      { destruct (sk_ttl e <? TTL_THRESHOLD); by apply safe_upd_seek. }
      intros _ w2 HI2 _ Hs2. apply safe_get_seek; [done|]. intros e2 He2.
      apply safe_set_timeout_seek; done.
    - apply safe_set_timeout_seek; done. }
  intros _ w2 HI2 _ Hs2. mstep.
  eapply (safe_bind _ _ _ (λ _ w', is_Some (seeks w' !! s))).
  { destruct p as [r|]; [|by sstep].
    eapply safe_conseq; [apply safe_strengthen;
      [apply keeps_seeks_extend|by apply safe_extend_for_discovery]|].
    intros _ w3 [_ ->]. done. }
  intros _ w3 HI3 _ Hs3. apply safe_get_seek; [done|]. intros e3 He3.
  eapply safe_keep_seek; [apply keeps_seeks_rreq_send|done|by apply safe_rreq_send|].
  intros _ w4 HI4 _ _ Hs4. eapply safe_conseq; [by apply safe_upd_seek|done].
Qed.

Lemma safe_route_expire_timeout lim p w :
  Inv lim w → valid w p → safe lim (route_expire_timeout p) (λ _ _, True) w.
Proof.
  intros HI Hp. unfold route_expire_timeout. destruct p as [r|]; [|by sstep]. repeat mstep.
Qed.

Lemma handler_route_delete_timeout p w :
  Inv None w → valid w p → wp benign (route_delete_timeout p) (λ _, handler_post w) w.
Proof.
  intros HI Hp. unfold route_delete_timeout. destruct p as [r|]; [|by apply wp_ret].
  eapply wp_wand; [by apply wp_rt_table_delete|]. intros _ w' [? (_ & _ & ?)]. by split.
Qed.

Lemma safe_hello_timeout lim p w :
  Inv lim w → valid w p → safe lim (hello_timeout p) (λ _ _, True) w.
Proof.
  intros HI Hp. unfold hello_timeout. destruct p as [r|]; [|by sstep]. repeat mstep.
Qed.

Lemma safe_rrep_ack_timeout lim p w :
  Inv lim w → valid w p → safe lim (rrep_ack_timeout p) (λ _ _, True) w.
Proof.
  intros HI Hp. unfold rrep_ack_timeout. destruct p as [r|]; [|by sstep]. repeat mstep.
Qed.

Lemma safe_print_rt_table lim w : Inv lim w → safe lim print_rt_table (λ _ _, True) w.
Proof. intros HI. unfold print_rt_table. repeat mstep. Qed.

#[export] Hint Resolve safe_route_expire_timeout safe_hello_timeout safe_rrep_ack_timeout
  safe_print_rt_table safe_route_discovery_timeout : safe.

(** The handler a timer names is one its owner provides, and is called on a
    live object. *)
#[export] Instance run_handler_ok : HandlersOk run_handler.
Proof.
  intros w t x h HI Hx Hh Hq.
  assert (owner_live w t) as Hl by (apply (I_owner _ _ HI); by rewrite Hx).
  pose proof (q_timer _ _ (I_queue _ _ HI) t x Hx) as Hok.
  destruct t; simpl in Hl, Hok; rewrite ?Hh in Hok.
  - destruct Hok as [Hd [[= ->]|[[= ->]|[= ->]]]]; rewrite Hd.
    + by apply safe_handler, safe_route_expire_timeout.
    + by apply handler_route_delete_timeout.
    + by apply safe_handler, safe_local_repair_timeout.
  - destruct Hok as [Hd [= ->]]. rewrite Hd. by apply safe_handler, safe_rrep_ack_timeout.
  - destruct Hok as [Hd [= ->]]. rewrite Hd. by apply safe_handler, safe_hello_timeout.
  - destruct Hok as [Hd [= ->]]. rewrite Hd. by apply safe_handler, safe_route_discovery_timeout.
  - destruct Hok as [Hd [= ->]]. rewrite Hd. by apply handler_rreq_record_timeout.
  - destruct Hok as [Hd [= ->]]. rewrite Hd. by apply handler_rreq_blacklist_timeout.
  - done.
  - destruct Hok as [|[= ->]]; [done|]. by apply safe_handler, safe_hello_send.
  - destruct Hok as [|[= ->]]; [done|]. by apply safe_handler, safe_print_rt_table.
Qed.
