(* ===== verification/Discovery.v ===== *)
(** * Discoveries and replies: what they do to routes (aodv_rrep.c,
    aodv_timeout.c)

    A reply changes the route to its destination only when it is fresher or
    shorter, and a discovery is retried a bounded number of times. *)

From S2P Require Export Timeouts.

(** ** What leaves every path alone *)

(** The path of an entry: everything the routing decision depends on. *)
Definition path_of (e : rt_table_t) : Z * Z * Z * Z * rt_state :=
  (rt_dest_addr e, rt_dest_seqno e, rt_next_hop e, rt_hopcnt e, rt_st e).

Definition same_paths (w w' : world) : Prop :=
  ∀ r e, rts w !! r = Some e → ∃ e', rts w' !! r = Some e' ∧ path_of e' = path_of e.

#[export] Instance same_paths_preorder : PreOrder same_paths.
Proof.
  split; [by intros w r e He; exists e|]. intros w1 w2 w3 H1 H2 r e He.
  destruct (H1 r e He) as (e1 & He1 & E1). destruct (H2 r e1 He1) as (e2 & He2 & E2).
  exists e2. split; [done|congruence].
Qed.

Lemma evolves_paths_keeps {A} (m : M A) : keeps rts m → evolves same_paths m.
Proof. intros Hm. eapply evolves_keeps; [exact Hm|]. intros w w' Hr r e. rewrite Hr. eauto. Qed.

Lemma evolves_paths_upd_rt p f : (∀ e, path_of (f e) = path_of e) → evolves same_paths (upd_rt p f).
Proof.
  intros Hf w [] w' H. unfold upd_rt, get_rt, deref in H.
  destruct p as [r|]; [|done]. apply bind_Ok in H as (e & w1 & H & [= <-]).
  destruct (rts w !! r) as [e0|] eqn:He; [|done]. injection H as -> <-.
  intros r' e' He'. simpl. destruct (decide (r = r')) as [<-|].
  - rewrite lookup_insert_eq. eexists. split; [done|]. rewrite He in He'. injection He' as ->. done.
  - rewrite lookup_insert_ne by done. eauto.
Qed.

Lemma keeps_rts_st b off bs : keeps rts (st b off bs).
Proof. intros w a w'. unfold st. case_match; [|done]. intros [= _ <-]. by destruct b. Qed.

Lemma keeps_rts_queue_msg b len : keeps rts (aodv_socket_queue_msg b len).
Proof. unfold aodv_socket_queue_msg. keeps_auto; apply keeps_rts_st. Qed.

Lemma keeps_rts_st_bits b off lo n x : keeps rts (st_bits b off lo n x).
Proof. unfold st_bits, st8, ld8. keeps_auto; first [apply keeps_ld | apply keeps_rts_st]. Qed.

Lemma keeps_rts_rrep_ack_create : keeps rts rrep_ack_create.
Proof. unfold rrep_ack_create, st8. apply keeps_new_msg; [done|]. keeps_auto. apply keeps_rts_st. Qed.

Lemma keeps_rts_malloc n : keeps rts (malloc n).
Proof. unfold malloc. keeps_auto. Qed.

Lemma keeps_rts_ld_bits b off lo n : keeps rts (ld_bits b off lo n).
Proof. unfold ld_bits, ld8. keeps_auto. Qed.

Ltac paths_step :=
  lazymatch goal with
  | |- evolves _ (upd_rt _ _) => apply evolves_paths_upd_rt; done
  | |- evolves _ (timer_set_timeout _ _) => by apply evolves_paths_keeps, keeps_timer_set_timeout
  | |- evolves _ (aodv_socket_send _ _ _ _) => by apply evolves_paths_keeps, keeps_aodv_socket_send
  | |- evolves _ (rerr_create _ _ _) => by apply evolves_paths_keeps, keeps_rerr_create
  | |- evolves _ (rt_table_update_timeout _ _) => by apply evolves_paths_keeps, keeps_update_timeout
  | |- evolves _ (rt_table_check _) => apply evolves_paths_keeps, keeps_rt_table_check
  | |- evolves _ (aodv_socket_queue_msg _ _) => apply evolves_paths_keeps, keeps_rts_queue_msg
  | |- evolves _ (st_bits _ _ _ _ _) => apply evolves_paths_keeps, keeps_rts_st_bits
  | |- evolves _ (ld_bits _ _ _ _) => apply evolves_paths_keeps, keeps_rts_ld_bits
  | |- evolves _ (st _ _ _) => apply evolves_paths_keeps, keeps_rts_st
  | |- evolves _ (ld _ _ _) => apply evolves_paths_keeps, keeps_ld
  | |- evolves _ (malloc _) => apply evolves_paths_keeps, keeps_rts_malloc
  | |- evolves _ rrep_ack_create => apply evolves_paths_keeps, keeps_rts_rrep_ack_create
  | _ => evolves_step
  end.

Lemma paths_precursor_add p a : evolves same_paths (precursor_add p a).
Proof. unfold precursor_add, exit_fail. repeat paths_step. Qed.

Lemma paths_rrep_forward b len rev fwd ttl : evolves same_paths (rrep_forward b len rev fwd ttl).
Proof.
  unfold rrep_forward, ACTIVE_ROUTE_TIMEOUT, st8.
  repeat first [apply paths_precursor_add | paths_step].
Qed.

Lemma paths_rrep_continue b len orig fwd rev h fl ttl :
  evolves same_paths (rrep_continue b len orig fwd rev h fl ttl).
Proof.
  unfold rrep_continue, RERR_CALC_SIZE, rerr_size, ld8.
  repeat first [apply paths_rrep_forward | paths_step].
Qed.

(** ** Replies *)

(** The fields of a received RREP, before byte order conversion. *)
Definition rrep_reads (b : bufid) (w : world) (dest orig n_seqno hopcnt : Z) : Prop :=
  ld32 b RREP_OFF_DEST_ADDR w = Ok dest w ∧ ld32 b RREP_OFF_ORIG_ADDR w = Ok orig w ∧
  ld32 b RREP_OFF_DEST_SEQNO w = Ok n_seqno w ∧ ld8 b RREP_OFF_HOPCNT w = Ok hopcnt w.

(** The entry has the path the reply offers. *)
Definition offered (dest src seqno hcnt : Z) (e : rt_table_t) : Prop :=
  path_of e = (dest, seqno, src, u8 hcnt, VALID).

(** When a reply beats the route the table has (RFC 3561, section 6.7):
    the sequence number of the route is unknown or older; or it is the same,
    and the route is not usable or longer. *)
Definition reply_wins (seqno hcnt : Z) (e : rt_table_t) : Prop :=
  rt_dest_seqno e = 0 ∨ s32 (rt_dest_seqno e) < s32 seqno ∨
  (seqno = rt_dest_seqno e ∧
    (rt_st e = INVALID ∨ flag (rt_flags e) RT_UNIDIR = true ∨ hcnt < rt_hopcnt e)).

Lemma rrep_accept_wins seqno hcnt e : rrep_accept seqno hcnt e = true ↔ reply_wins seqno hcnt e.
Proof.
  unfold rrep_accept, reply_wins.
  rewrite !orb_true_iff, andb_true_iff, !orb_true_iff, !Z.eqb_eq, !Z.ltb_lt, bool_decide_eq_true.
  tauto.
Qed.

(** A reply that wins does not lower the sequence number of a route. *)
Lemma reply_wins_fresher seqno hcnt e :
  reply_wins seqno hcnt e → rt_dest_seqno e = 0 ∨ s32 (rt_dest_seqno e) ≤ s32 seqno.
Proof. intros [?|[?|[-> _]]]; [by left|right; lia|by right]. Qed.

(** What the reply makes of the route to its destination. *)
Definition reply_outcome (dest src seqno hcnt : Z) (w w' : world) : Prop :=
  ∃ r e', rts w' !! r = Some e' ∧
    match rts w !! r with
    | None => absent w dest ∧ offered dest src seqno hcnt e'
    | Some e => rt_dest_addr e = dest ∧
        ((reply_wins seqno hcnt e ∧ offered dest src seqno hcnt e' ∧
          (rt_dest_seqno e = 0 ∨ s32 (rt_dest_seqno e) ≤ s32 (rt_dest_seqno e'))) ∨
         (¬ reply_wins seqno hcnt e ∧ w' = w))
    end.

Lemma wpo_offered b len orig fwd rev h fl ttl dest src seqno hcnt r w1 :
  (∃ e1, rts w1 !! r = Some e1 ∧ offered dest src seqno hcnt e1) →
  wpo (rrep_continue b len orig fwd rev h fl ttl)
    (λ _ w', ∃ e', rts w' !! r = Some e' ∧ offered dest src seqno hcnt e') w1.
Proof.
  intros (e1 & He1 & Ho). eapply wpo_evolves; [apply paths_rrep_continue|].
  intros _ w2 H2. destruct (H2 r e1 He1) as (e' & He' & Hp). exists e'. split; [done|].
  unfold offered in *. by rewrite Hp.
Qed.

Lemma wpo_rrep_process b len src ttl dest orig n_seqno hopcnt w :
  Inv None w → rrep_reads b w dest orig n_seqno hopcnt → RREP_SIZE ≤ len →
  dest ≠ dev_ipaddr (h_dev (this_host w)) →
  wpo (rrep_process b len src ttl)
    (λ _ w', reply_outcome dest src (ntohl n_seqno) (hopcnt + 1) w w') w.
Proof.
  intros HI (Hd & Ho & Hs & Hh) Hlen Hown. unfold rrep_process.
  apply wp_bind; eapply wp_eq; [exact Hd|]. apply wp_bind; eapply wp_eq; [exact Ho|].
  apply wp_bind; eapply wp_eq; [exact Hs|].
  load_ok_wp. apply wp_bind; eapply wp_eq; [exact Hh|]. apply wp_bind, wp_gets.
  rewrite (proj2 (Z.ltb_ge _ _)) by done. rewrite (proj2 (Z.eqb_neq _ _)) by done.
  destruct (rt_table_check_run None w dest HI) as (p & Hrun & Hp).
  apply wp_bind. eapply wp_eq; [exact Hrun|].
  destruct (rt_table_check_run None w orig HI) as (rev & Hrev & _).
  apply wp_bind. eapply wp_eq; [exact Hrev|]. destruct p as [r|].
  - destruct Hp as (e & He & Hde & _). apply (wp_get_rt _ _ e); [done|].
    destruct (rrep_accept (ntohl n_seqno) (hopcnt + 1) e) eqn:Hacc.
    + apply wp_bind.
      eapply wp_wand; [apply (wpo_rt_table_update r e); [by apply Inv_linked|done]|].
      intros ? w1 (-> & (e1 & He1 & Hd1 & Hs1 & Hn1 & Hh1 & Hst1 & _) & _).
      eapply wp_wand; [apply (wpo_offered _ _ _ _ _ _ _ _ dest src (ntohl n_seqno) (hopcnt + 1) r)|].
      { exists e1. split; [done|]. unfold offered, path_of. congruence. }
      apply rrep_accept_wins in Hacc.
      intros _ w2 (e' & He' & Ho'). exists r, e'. rewrite He. split_and!; [done..|].
      left. split_and!; [done..|].
      replace (rt_dest_seqno e') with (ntohl n_seqno) by (unfold offered, path_of in Ho'; congruence).
      by eapply reply_wins_fresher.
    + apply wp_ret. exists r, e. rewrite He. split_and!; [done..|]. right.
      rewrite <-rrep_accept_wins, Hacc. by split.
  - apply wp_bind. eapply wp_wand; [by apply wpo_rt_table_insert|]. intros q w1 Hq.
    assert (absent w dest) as Habs by (intros r e He; by apply Hp with r).
    destruct q as [r|]; [|by destruct Hq as [_ []]].
    destruct Hq as [Hr [= R1 _]].
    eapply wp_wand; [apply (wpo_offered _ _ _ _ _ _ _ _ dest src (ntohl n_seqno) (hopcnt + 1) r)|].
    { eexists. rewrite R1, lookup_insert_eq. by split. }
    intros _ w2 (e' & He' & Ho'). exists r, e'. by rewrite Hr.
Qed.

(** C20: a reply. A RREP that is long enough and not about this host makes or
    changes the route to its destination exactly when there is none, when its
    sequence number is unknown or older, or when it is equal and the route is
    invalid, unidirectional or longer; the route then goes through the
    neighbor that sent the reply, and its sequence number has not become
    older. Otherwise nothing at all changes. What follows (the
    acknowledgement, forwarding the reply) does not touch that path. *)
Theorem rrep_process_spec b len src ttl dest orig n_seqno hopcnt w :
  Inv None w → RREP_SIZE ≤ len ≤ 1024 → rrep_reads b w dest orig n_seqno hopcnt →
  dest ≠ dev_ipaddr (h_dev (this_host w)) →
  match rrep_process b len src ttl w with
  | Ok _ w' => Inv None w' ∧ reply_outcome dest src (ntohl n_seqno) (hopcnt + 1) w w'
  | Err e => benign e
  end.
Proof.
  intros HI [Hl1 Hl2] Hr Hown. assert (0 ≤ RREP_SIZE) by done.
  pose proof (wp_total _ _ _ _ _ (safe_rrep_process b len src ttl w HI ltac:(lia))
    (wpo_rrep_process b len src ttl dest orig n_seqno hopcnt w HI Hr Hl1 Hown)) as Hs.
  unfold wp in Hs. destruct (rrep_process b len src ttl w) as [[] w'|]; [|done].
  destruct Hs as ((? & _) & Ho). by split.
Qed.

(** ** Discoveries *)

(** The pending discoveries and the timer of one of them. *)
Definition seek_view (s : nat) (w : world) := ((seeks w, sl w), timers w !! T_seek s).

Section keeps_seek_view.
Context (s : nat).

Lemma keeps_seek_other t ms : t ≠ T_seek s → keeps (seek_view s) (timer_set_timeout t ms).
Proof.
  intros Hne. apply (keeps_pair (λ w, (seeks w, sl w)) (λ w, timers w !! T_seek s)).
  - by apply keeps_timer_set_timeout.
  - by apply (keeps_other_set_timeout t (T_seek s)).
Qed.

Lemma keeps_seek_extend p now : keeps (seek_view s) (extend_for_discovery p now).
Proof.
  unfold extend_for_discovery, rt_table_update_timeout. keeps_auto; by apply keeps_seek_other.
Qed.

Lemma keeps_seek_rreq_send d q ttl fl : keeps (seek_view s) (rreq_send d q ttl fl).
Proof.
  unfold rreq_send. keeps_auto; [by apply keeps_rreq_create|by apply keeps_aodv_socket_send].
Qed.
End keeps_seek_view.

Lemma upd_seek_run s e f w :
  seeks w !! s = Some e → upd_seek (Some s) f w = Ok tt (w <| seeks ::= <[s := f e]> |>).
Proof. intros He. unfold upd_seek, get_seek, deref, mbind, M_bind. by rewrite He. Qed.

Lemma wp_get_seek {A} E s e (k : seek_list_t → M A) Q w :
  seeks w !! s = Some e → wp E (k e) Q w → wp E (get_seek (Some s) ≫= k) Q w.
Proof.
  intros He H. apply wp_bind. eapply wp_eq; [|exact H]. unfold get_seek, deref. by rewrite He.
Qed.

(** The next ring: the new TTL of the entry, and how long to wait. *)
Definition retried (ring : Z) (e : seek_list_t) : seek_list_t :=
  e <| sk_ttl ::= λ t, if ring =? 0 then t
                       else if t <? TTL_THRESHOLD then s32 (t + TTL_INCREMENT) else NET_DIAMETER |>.
Definition retry_wait (ring : Z) (e : seek_list_t) : Z :=
  s32 (if ring =? 0 then sk_rreq_cnt e * 2 * NET_TRAVERSAL_TIME
       else RING_TRAVERSAL_TIME (sk_ttl (retried ring e))).

(** The first part of the handler: the entry and its timer. *)
Definition rearm (s : nat) (entry : seek_list_t) : M unit :=
  ring ← gets (λ w, expanding_ring_search (cfg w));
  if negb (ring =? 0) then
    (if sk_ttl entry <? TTL_THRESHOLD
     then upd_seek (Some s) (λ e, e <| sk_ttl ::= λ t, s32 (t + TTL_INCREMENT) |>)
     else upd_seek (Some s) (λ e, e <| sk_ttl := NET_DIAMETER |>));;
    e ← get_seek (Some s);
    timer_set_timeout (T_seek s) (s32 (RING_TRAVERSAL_TIME (sk_ttl e)))
  else timer_set_timeout (T_seek s) (s32 (sk_rreq_cnt entry * 2 * NET_TRAVERSAL_TIME)).

Lemma wpo_set_seek_timer s x ms w :
  timers w !! T_seek s = Some x → t_handler x ≠ None →
  wpo (timer_set_timeout (T_seek s) ms) (λ _ w', seeks w' = seeks w ∧ sl w' = sl w ∧
    ∃ x', timers w' !! T_seek s = Some x' ∧ t_used x' = (0 <=? ms)) w.
Proof.
  intros Hx Hh.
  eapply wp_wand; [apply (wp_total _ _ (λ _ w', (seeks w', sl w') = (seeks w, sl w)));
    [|by apply (wpo_timer_set_timeout _ x)]|].
  - apply wpo_Ok. intros [] w' H. by eapply (keeps_timer_set_timeout (λ w, (seeks w, sl w))).
  - intros [] w' [[= -> ->] Hx']. split_and!; [done..|]. by eexists.
Qed.

Lemma wpo_rearm s entry x w :
  seeks w !! s = Some entry → timers w !! T_seek s = Some x → t_handler x ≠ None →
  let ring := expanding_ring_search (cfg w) in
  wpo (rearm s entry) (λ _ w',
    seeks w' = <[s := retried ring entry]> (seeks w) ∧ sl w' = sl w ∧
    ∃ x', timers w' !! T_seek s = Some x' ∧ t_used x' = (0 <=? retry_wait ring entry)) w.
Proof.
  intros He Hx Hh ring. unfold rearm. apply wp_bind, wp_gets. fold ring.
  unfold retry_wait, retried. destruct (ring =? 0); cbn [negb].
  - eapply wp_wand; [by apply (wpo_set_seek_timer s x)|]. intros _ w' (-> & -> & Hx').
    split_and!; [|done..]. rewrite insert_id; [done|]. rewrite He. by destruct entry.
  - destruct (sk_ttl entry <? TTL_THRESHOLD) eqn:Et; apply wp_bind;
      (eapply wp_eq; [by apply upd_seek_run|]);
      (eapply wp_get_seek; [apply lookup_insert_eq|]);
      (eapply wp_wand; [by apply (wpo_set_seek_timer s x)|]);
      intros _ w' (-> & -> & Hx'); cbn in Hx'; cbn; rewrite Et;
      (split; [f_equal; unfold upd_field, set_sk_ttl; by rewrite Et|by split]).
Qed.

(** The statements of the first part, and the same in two steps. *)
Lemma route_discovery_retry_run s entry (k : M unit) w :
  (ring ← gets (λ w, expanding_ring_search (cfg w));
   (if negb (ring =? 0) then
      (if sk_ttl entry <? TTL_THRESHOLD
       then upd_seek (Some s) (λ e, e <| sk_ttl ::= λ t, s32 (t + TTL_INCREMENT) |>)
       else upd_seek (Some s) (λ e, e <| sk_ttl := NET_DIAMETER |>));;
      e ← get_seek (Some s);
      timer_set_timeout (T_seek s) (s32 (RING_TRAVERSAL_TIME (sk_ttl e)))
    else timer_set_timeout (T_seek s) (s32 (sk_rreq_cnt entry * 2 * NET_TRAVERSAL_TIME)));;
   k) w = (rearm s entry;; k) w.
Proof. reflexivity. Qed.

(** A discovery counts its attempts from 1; its TTL is at most that of a
    repair ([repair_ttl] of eight-bit hop counts). *)
Definition seek_sane (e : seek_list_t) : Prop :=
  0 ≤ sk_rreq_cnt e ≤ RREQ_RETRIES ∧ 0 ≤ sk_ttl e ≤ 255 + TTL_INCREMENT.

Ltac unfold_seek := unfold seek_sane, retry_wait, retried, RREQ_RETRIES, NET_TRAVERSAL_TIME,
  RING_TRAVERSAL_TIME, TIMEOUT_BUFFER, NET_DIAMETER, NODE_TRAVERSAL_TIME, TTL_THRESHOLD,
  TTL_INCREMENT in *; cbn in *.

Lemma retry_wait_nonneg ring e : seek_sane e → 0 ≤ retry_wait ring e.
Proof.
  unfold_seek. intros [[? ?] [? ?]].
  destruct (ring =? 0); [rewrite s32_small by lia; lia|].
  destruct (Z.ltb_spec (sk_ttl e) 7); rewrite ?(s32_small (_ + 2)) by lia;
    rewrite s32_small by lia; lia.
Qed.

(** The entry after a retry. *)
Definition resent (ring : Z) (e : seek_list_t) : seek_list_t :=
  (retried ring e) <| sk_rreq_cnt ::= λ c, s32 (c + 1) |>.

Lemma resent_sane ring e :
  seek_sane e → sk_rreq_cnt e < RREQ_RETRIES →
  seek_sane (resent ring e) ∧ sk_rreq_cnt (resent ring e) = sk_rreq_cnt e + 1.
Proof.
  unfold resent. unfold_seek. intros [[? ?] [? ?]] ?. rewrite s32_small by lia.
  split_and!; try lia; destruct (ring =? 0); try lia;
    destruct (Z.ltb_spec (sk_ttl e) 7); rewrite ?s32_small by lia; lia.
Qed.

(** What the handler leaves of the discovery. *)
Definition discovery_outcome (s : nat) (entry : seek_list_t) (w w' : world) : Prop :=
  if sk_rreq_cnt entry <? RREQ_RETRIES
  then seeks w' = <[s := resent (expanding_ring_search (cfg w)) entry]> (seeks w) ∧
       sl w' = sl w ∧ ∃ x, timers w' !! T_seek s = Some x ∧ t_used x = true
  else seeks w' = delete s (seeks w) ∧ sl w' = del s (sl w).

Lemma keeps_seeks_sl_local_repair p : keeps (λ w, (seeks w, sl w)) (local_repair_timeout p).
Proof.
  unfold local_repair_timeout, precursor_list_destroy, first_prec, DELETE_PERIOD, RERR_CALC_SIZE,
    rerr_size, upd_rt, set_handler, upd_timer. keeps_auto.
  all: first [by apply keeps_del_route | by apply keeps_rerr_create
             | by apply keeps_aodv_socket_send | by apply keeps_timer_set_timeout].
Qed.

Lemma wpo_discovery_give_up s entry w :
  Inv None w → is_Some (seeks w !! s) →
  wpo (_ ← nl_send_no_route_found_msg (sk_dest_addr entry);
       repair_rt ← rt_table_check (sk_dest_addr entry);
       _ ← seek_list_remove (Some s);
       match repair_rt with
       | None => mret tt
       | Some _ =>
           e ← get_rt repair_rt;
           when (flag (rt_flags e) RT_REPAIR) (local_repair_timeout repair_rt)
       end)
    (λ _ w', (seeks w', sl w') = (delete s (seeks w), del s (sl w))) w.
Proof.
  intros HI Hs. apply wp_bind.
  eapply wp_wand; [eapply wp_mono_err; [done|];
    eapply (wp_strengthen _ _ _ (λ _ w', (seeks w', sl w') = (seeks w, sl w)));
    [by apply (keeps_nl_send (λ w, (seeks w, sl w)))|by apply safe_nl_send_no_route_found_msg]|].
  intros _ w1 [[HI1 _] [= E1 E2]]. rewrite <-E1, <-E2. rewrite <-E1 in Hs.
  destruct (rt_table_check_run None w1 (sk_dest_addr entry) HI1) as (p & Hrun & _).
  apply wp_bind. eapply wp_eq; [exact Hrun|].
  apply wp_bind. eapply wp_eq; [by eapply seek_list_remove_run|].
  eapply (wpo_keeps (λ w, (seeks w, sl w))); [|by intros _ w' ->].
  keeps_auto. apply keeps_seeks_sl_local_repair.
Qed.

Lemma wpo_discovery_retry s entry x (now : timeval) w :
  seeks w !! s = Some entry → timers w !! T_seek s = Some x → t_handler x ≠ None →
  wpo (rearm s entry;;
       rt ← rt_table_check (sk_dest_addr entry);
       match rt with
       | None => mret tt
       | Some _ => extend_for_discovery rt now
       end;;
       e ← get_seek (Some s);
       rreq_send (sk_dest_addr e) (sk_dest_seqno e) (sk_ttl e) (sk_flags e);;
       upd_seek (Some s) (λ e, e <| sk_rreq_cnt ::= λ c, s32 (c + 1) |>))
    (λ _ w', seeks w' = <[s := resent (expanding_ring_search (cfg w)) entry]> (seeks w) ∧
       sl w' = sl w ∧ ∃ x, timers w' !! T_seek s = Some x ∧
         t_used x = (0 <=? retry_wait (expanding_ring_search (cfg w)) entry)) w.
Proof.
  intros He Hx Hh. apply wp_bind. eapply wp_wand; [by apply (wpo_rearm s entry x)|].
  intros _ w1 (E1 & E2 & Hx1).
  apply (wpo_keeps_bind (seek_view s)); [apply keeps_rt_table_check|]. intros p w2 V2.
  apply (wpo_keeps_bind (seek_view s)).
  { destruct p; [apply keeps_seek_extend|apply keeps_ret]. }
  intros _ w3 V3. rewrite V2 in V3. injection V3 as S3 L3 T3.
  assert (seeks w3 !! s = Some (retried (expanding_ring_search (cfg w)) entry)) as Hs3
    by (rewrite S3, E1; apply lookup_insert_eq).
  eapply wp_get_seek; [exact Hs3|].
  apply (wpo_keeps_bind (seek_view s)); [apply keeps_seek_rreq_send|].
  intros _ w4 V4. injection V4 as S4 L4 T4. rewrite <-S4 in Hs3.
  eapply wp_eq; [by apply upd_seek_run|]. cbn.
  rewrite S4, S3, E1, L4, L3, E2, T4, T3. rewrite insert_insert_eq. done.
Qed.

Lemma wpo_route_discovery_timeout s entry x w :
  Inv None w → seeks w !! s = Some entry → timers w !! T_seek s = Some x → t_handler x ≠ None →
  seek_sane entry → wpo (route_discovery_timeout (Some s)) (λ _, discovery_outcome s entry w) w.
Proof.
  intros HI He Hx Hh Hsane. unfold route_discovery_timeout, discovery_outcome.
  apply wp_bind. eapply wp_eq; [reflexivity|]. set (w0 := w <| w_tick ::= S |>).
  assert (Inv None w0) as HI0 by (by apply Inv_tick).
  apply (wp_get_seek _ s entry); [done|].
  destruct (sk_rreq_cnt entry <? RREQ_RETRIES).
  - eapply wp_ext; [apply (route_discovery_retry_run s entry)|].
    eapply wp_wand; [by apply (wpo_discovery_retry s entry x)|].
    intros _ w' (-> & -> & x' & Hx' & Hu). split_and!; [done..|]. exists x'. split; [done|].
    rewrite Hu. by apply Z.leb_le, retry_wait_nonneg.
  - eapply wp_wand; [apply wpo_discovery_give_up; [done|by eexists]|]. by intros _ w' [= -> ->].
Qed.

(** C21: a discovery ends. When the timer of a pending discovery fires, either
    the discovery is one attempt older, its ring is the next one, and its
    timer is armed again; or, after [RREQ_RETRIES] attempts, its entry is
    gone. No other discovery is touched. The attempts only grow, so a
    discovery that no reply ends is given up after [RREQ_RETRIES] timeouts. *)
Theorem route_discovery_timeout_spec s entry w :
  Inv None w → seeks w !! s = Some entry → seek_sane entry →
  match route_discovery_timeout (Some s) w with
  | Ok _ w' => Inv None w' ∧ discovery_outcome s entry w w' ∧
      (sk_rreq_cnt entry < RREQ_RETRIES → ∃ e', seeks w' !! s = Some e' ∧ seek_sane e' ∧
         sk_rreq_cnt e' = sk_rreq_cnt entry + 1)
  | Err e => benign e
  end.
Proof.
  intros HI He Hsane.
  assert (is_Some (timers w !! T_seek s)) as [x Hx] by (apply (I_owner _ _ HI); simpl; eauto).
  pose proof (q_timer _ _ (I_queue _ _ HI) _ _ Hx) as [_ Hh].
  pose proof (wpo_route_discovery_timeout s entry x w HI He Hx ltac:(congruence) Hsane) as Ho.
  pose proof (wp_total _ _ _ _ _
    (safe_route_discovery_timeout None s w HI (ex_intro _ _ He)) Ho) as Hs.
  unfold wp in Hs. destruct (route_discovery_timeout (Some s) w) as [[] w'|]; [|done].
  destruct Hs as ((? & _) & Hout). split_and!; [done..|]. intros Hlt.
  unfold discovery_outcome in Hout. rewrite (proj2 (Z.ltb_lt _ _) Hlt) in Hout.
  destruct Hout as (-> & _). eexists. rewrite lookup_insert_eq. split; [done|].
  by apply resent_sane.
Qed.
