(* ===== verification/Daemon.v ===== *)
(** * The daemon: packet dispatch, kernel messages, start-up and main loop
    (aodv_socket.c, the receiving half of nl.c, main.c) *)

From S2P Require Export Timeouts.

(** ** Packets (aodv_socket.c) *)

Definition aodv_socket_package_process (msg : bufid) (len src dest ttl : Z) : M unit :=
  type ← ld8 msg 0;
  when ((type =? AODV_RREP) && (ttl =? 1) && (dest =? AODV_BROADCAST))
    (st8 msg 0 AODV_HELLO);;
  neighbor_add src;;
  type ← ld8 msg 0;
  if type =? AODV_HELLO then hello_process msg
  else if type =? AODV_RREQ then rreq_process msg len src ttl
  else if type =? AODV_RREP then rrep_process msg len src ttl
  else if type =? AODV_RERR then rerr_process msg len src
  else if type =? AODV_RREP_ACK then rrep_ack_process src
  else mret tt.

(** What [recvmsg] delivers: the datagram, its source, and from the control
    messages its destination and TTL (-1 when there is none). *)
Record packet := Packet {
  pk_data : list Z; pk_src : Z; pk_dest : Z; pk_ttl : Z
}.

(** [recvmsg] into [recv_buf]: the bytes beyond the datagram stay. *)
Definition recvmsg (data : list Z) : M Z :=
  let bs := take (Z.to_nat RECE_BUF_SIZE) (u8 <$> data) in
  st recv_buf 0 bs;;
  mret (Z.of_nat (length bs)).

(** [None]: [recvmsg] failed. *)
Definition aodv_socket_read (pk : option packet) : M unit :=
  match pk with
  | None => mret tt
  | Some pk =>
      len ← recvmsg (pk_data pk);
      if pk_ttl pk <? 0 then mret tt
      else
        dev ← gets (λ w, h_dev (this_host w));
        if negb (dev_enabled dev =? 0) && (pk_src pk =? dev_ipaddr dev) then mret tt
        else aodv_socket_package_process recv_buf len (pk_src pk) (pk_dest pk) (pk_ttl pk)
  end.

(** ** Messages of the kernel module (nl.c) *)

Record kmsg := KMsg { nlm_type : Z; nlm_src : Z; nlm_dest : Z }.

Definition nl_is_broadcast (dest : Z) : M bool :=
  dev ← gets (λ w, h_dev (this_host w));
  mret ((dest =? AODV_BROADCAST) || (dest =? dev_broadcast dev)).

Definition nl_kaodv_callback (m : option kmsg) : M unit :=
  match m with
  | None => mret tt
  | Some m =>
      let type := nlm_type m in
      if type =? KAODVM_TIMEOUT then
        rt ← rt_table_check (nlm_dest m);
        match rt with
        | None => mret tt
        | Some _ =>
            e ← get_rt rt;
            when (bool_decide (rt_st e = VALID)) (route_expire_timeout rt)
        end
      else if type =? KAODVM_ROUTE_REQ then rreq_route_discovery (nlm_dest m) 0
      else if type =? KAODVM_REPAIR then
        fwd_rt ← rt_table_check (nlm_dest m);
        match fwd_rt with
        | None => mret tt
        | Some _ => rreq_local_repair fwd_rt (nlm_src m)
        end
      else if type =? KAODVM_ROUTE_UPDATE then
        b ← nl_is_broadcast (nlm_dest m);
        if b : bool then mret tt
        else
          fwd_rt ← rt_table_check (nlm_dest m);
          rev_rt ← rt_table_check (nlm_src m);
          rt_table_update_route_timeouts fwd_rt rev_rt
      else if type =? KAODVM_SEND_RERR then
        b ← nl_is_broadcast (nlm_dest m);
        if b : bool then mret tt
        else
          fwd_rt ← rt_table_check (nlm_dest m);
          rev_rt ← rt_table_check (nlm_src m);
          rerr ← match fwd_rt with
            | Some _ =>
                e ← get_rt fwd_rt;
                rerr ← rerr_create 0 (rt_dest_addr e) (rt_dest_seqno e);
                dp ← DELETE_PERIOD;
                _ ← rt_table_update_timeout fwd_rt (u32 dp);
                mret rerr
            | None => rerr_create 0 (nlm_dest m) 0
            end;
          dest ← match rev_rt with
            | Some _ =>
                e ← get_rt rev_rt;
                mret (if bool_decide (rt_st e = VALID) then rt_next_hop e else AODV_BROADCAST)
            | None => mret AODV_BROADCAST
            end;
          len ← RERR_CALC_SIZE rerr;
          aodv_socket_send rerr dest (s32 len) 1;;
          wait ← gets (λ w, wait_on_reboot (cfg w));
          when (negb (wait =? 0)) (dp ← DELETE_PERIOD; timer_set_timeout T_worb dp)
      else mret tt
  end.

(** ** Start-up (main.c, aodv_socket_init, log_rt_table_init) *)

Definition log_rt_table_init : M unit :=
  _ ← timer_init (Some T_rt_log) (Some print_rt_table_h) None;
  interval ← gets (λ w, rt_log_interval (cfg w));
  timer_set_timeout T_rt_log interval.

(** What [host_init] does to [this_host] for an interface whose addresses and
    index are in [dev]; [Startup.v] has the calls that find them. *)
Definition host_fields_init (dev : dev_info) : M unit :=
  modify (λ w, w <| this_host := Host 0 0 (TV 0 0) (TV 0 0) (Dev 0 0 0 0 0) |>);;
  now ← gettimeofday;
  modify (λ w, w <| this_host ::= λ h, h <| h_last_broadcast_time := now |>
                                         <| h_dev := dev <| dev_enabled := 1 |> |> |>).

Definition aodv_socket_init_counters : M unit :=
  modify (λ w, w <| sock ::= λ s, s <| num_rreq := 0 |> <| num_rerr := 0 |> |>).

Definition daemon_init (dev : dev_info) : M unit :=
  log_rt_table_init;;
  rt_table_init;;
  host_fields_init dev;;
  _ ← nl_send_conf_msg;
  aodv_socket_init_counters.

(** The statics of the program before [main] runs. *)
Definition zero_timer : timer := Timer false (TV 0 0) None None.

Definition initial_world (e : env) : world :=
  World e 0 1
    (Host 0 0 (TV 0 0) (TV 0 0) (Dev 0 0 0 0 0))
    (Cfg 1 1 1 0 0 10000 ACTIVE_ROUTE_TIMEOUT_HELLO TTL_START_HELLO DELETE_PERIOD_HELLO)
    (RTbl 0 0 (replicate (Z.to_nat RT_TABLESIZE) []))
    ∅ ∅ ∅ ∅ [] [] []
    {[ T_worb := zero_timer; T_hello_send := zero_timer; T_rt_log := zero_timer ]} [] []
    (Sock (replicate (Z.to_nat RECE_BUF_SIZE) 0) (replicate (Z.to_nat SEND_BUF_SIZE) 0)
          0 0 (replicate (Z.to_nat RREQ_RATELIMIT) (TV 0 0))
          (replicate (Z.to_nat RERR_RATELIMIT) (TV 0 0)))
    0 0 [].

(** ** Main loop *)

(** What [select] reports ready in one iteration: the callbacks were attached
    in the order kernel module, routing socket (which only logs), AODV
    socket. *)
Record ready := Ready { rd_kernel : option (option kmsg); rd_packet : option (option packet) }.

Definition main_iteration (io : ready) : M unit :=
  _ ← timer_age_queue run_handler;
  match rd_kernel io with Some m => nl_kaodv_callback m | None => mret tt end;;
  match rd_packet io with Some p => aodv_socket_read p | None => mret tt end.

Definition daemon (dev : dev_info) (ios : list ready) : M unit :=
  daemon_init dev;; for_each ios main_iteration.

(** The states between two iterations of the main loop. *)
Inductive reachable (e : env) (dev : dev_info) : world → Prop :=
| reachable_init w :
    daemon_init dev (initial_world e) = Ok tt w → reachable e dev w
| reachable_step w io w' :
    reachable e dev w → main_iteration io w = Ok tt w' → reachable e dev w'.

(** ** The main loop keeps the state well formed *)

Lemma safe_package_process len src dest ttl w :
  Inv None w → 0 ≤ len ≤ 1024 →
  safe None (aodv_socket_package_process recv_buf len src dest ttl) (λ _ _, True) w.
Proof.
  intros HI Hlen. unfold aodv_socket_package_process. mstep.
  eapply (safe_bind _ _ _ (λ _ _, True)).
  { sstep. eapply safe_conseq; [apply safe_st8; [done|by right]|done]. }
  call_post. repeat mstep.
Qed.

Lemma recvmsg_range data : 0 ≤ Z.of_nat (length (take (Z.to_nat RECE_BUF_SIZE) (u8 <$> data))) ≤ 1024.
Proof. rewrite length_take. unfold RECE_BUF_SIZE. lia. Qed.

Lemma safe_aodv_socket_read pk w :
  Inv None w → safe None (aodv_socket_read pk) (λ _ _, True) w.
Proof.
  intros HI. unfold aodv_socket_read, recvmsg. destruct pk as [pk|]; [|by sstep].
  pose proof (recvmsg_range (pk_data pk)) as Hlen.
  apply safe_assoc. eapply safe_bind.
  { apply safe_st; [done| |right; lia].
    apply Forall_take, Forall_fmap, Forall_true. intros. apply u8_range. }
  intros _ w1 HI1 _ _. apply safe_mret_bind.
  sstep; [by sstep|]. sstep. sstep; [by sstep|]. by apply safe_package_process.
Qed.

Lemma safe_nl_kaodv_callback m w :
  Inv None w → safe None (nl_kaodv_callback m) (λ _ _, True) w.
Proof.
  intros HI. unfold nl_kaodv_callback, nl_is_broadcast, DELETE_PERIOD.
  destruct m as [m|]; [|by sstep]. repeat (mstep; try subst).
Qed.

#[export] Hint Resolve safe_nl_kaodv_callback safe_aodv_socket_read : safe.

(** What holds between two iterations of the main loop. *)
Definition loop_inv (w : world) : Prop := Inv None w ∧ exptq w = [].

Lemma loop_inv_ext w w' : Inv None w' → ext w w' → exptq w = [] → loop_inv w'.
Proof.
  intros HI HE He. split; [done|]. pose proof (ext_exptq _ _ HE) as Hl.
  rewrite He in Hl. apply nil_length_inv. simpl in Hl. lia.
Qed.

Lemma wp_main_iteration io w :
  loop_inv w → wp benign (main_iteration io) (λ _, loop_inv) w.
Proof.
  intros [HI He]. unfold main_iteration. apply wp_bind.
  eapply wp_wand; [by apply wp_timer_age_queue; [apply _| |]|].
  intros _ w1 [HI1 He1].
  assert (safe None (match rd_kernel io with Some m => nl_kaodv_callback m | None => mret tt end;;
                     match rd_packet io with Some p => aodv_socket_read p | None => mret tt end)
            (λ _ _, True) w1) as Hs by repeat mstep.
  eapply wp_wand; [exact Hs|]. intros _ w2 (HI2 & HE2 & _). by eapply loop_inv_ext.
Qed.

(** ** Start-up establishes it *)

Lemma table_ok_empty m n :
  m = ∅ → table_ok None m (RTbl 0 n (replicate (Z.to_nat RT_TABLESIZE) [])).
Proof.
  intros ->.
  assert (∀ i l, replicate (Z.to_nat RT_TABLESIZE) ([] : list nat) !! i = Some l → l = []) as Hr.
  { intros i l Hl%list_elem_of_lookup_2. by apply elem_of_replicate in Hl as [-> _]. }
  split; try done; cbn [rt_buckets].
  - intros i l ->%Hr. constructor.
  - intros i l r ->%Hr Hin. by apply elem_of_nil in Hin.
Qed.

Lemma Inv_initial e : Inv None (initial_world e).
Proof.
  assert (∀ A (i : nat), is_Some ((∅ : gmap nat A) !! i) ↔ False) as Hem.
  { intros A i. rewrite lookup_empty. split; [by intros [? ?]|done]. }
  assert (∀ A, list_ok (∅ : gmap nat A) []) as Hlist.
  { intros A. split; [constructor|]. intros i. rewrite Hem. apply elem_of_nil. }
  assert (∀ t x, timers (initial_world e) !! t = Some x → x = zero_timer) as Hz.
  { intros t x. simpl. rewrite !lookup_insert_Some, lookup_singleton_Some. naive_solver. }
  split; try done.
  - by apply table_ok_empty.
  - split; [constructor| | |].
    + by intros t x ->%Hz.
    + intros t Ht. by apply elem_of_nil in Ht.
    + intros t x Hx. pose proof Hx as ->%Hz. revert Hx. cbn [timers initial_world].
      rewrite !lookup_insert_Some, lookup_singleton_Some.
      intros [[<- _]|[_ [[<- _]|[_ [<- _]]]]]; simpl; auto.
  - intros t. cbn [timers initial_world].
    rewrite !lookup_insert_is_Some', lookup_singleton_is_Some.
    destruct t; cbn [owner_live rts seeks recs bls initial_world]; rewrite ?Hem; naive_solver.
  - split; cbn [rts seeks recs bls initial_world]; intros r; by rewrite Hem.
  - split; cbn [sock initial_world recv_bytes send_bytes num_rreq num_rerr rreq_rl rerr_rl];
      try done; apply Forall_replicate; done.
Qed.

(** The timer of the routing table's log, initialised. *)
Definition rt_log_timer : timer := Timer false (TV 0 0) (Some print_rt_table_h) None.

Lemma Inv_rt_log_timer lim w :
  Inv lim w → T_rt_log ∉ tq w ++ exptq w → is_Some (timers w !! T_rt_log) →
  Inv lim (w <| timers ::= <[T_rt_log := rt_log_timer]> |>).
Proof.
  intros HI Hq [x Hx].
  apply (Inv_timer lim w T_rt_log x _ (tq w) (exptq w) HI Hx);
    [apply (I_queue _ _ HI)|done| |done|by right].
  symmetry. by apply bool_decide_eq_false.
Qed.

Lemma safe_log_rt_table_init lim w :
  Inv lim w → T_rt_log ∉ tq w ++ exptq w → is_Some (timers w !! T_rt_log) →
  safe lim log_rt_table_init (λ _ w', rts w' = rts w) w.
Proof.
  intros HI Hq Hx. unfold log_rt_table_init.
  apply wp_timer_init_bind. pose proof (Inv_rt_log_timer lim w HI Hq Hx) as HI1.
  set (w1 := w <| timers ::= _ |>) in *.
  apply (safe_resume _ _ _ _ w1); [auto|]. sstep.
  eapply safe_conseq; [eapply (safe_strengthen _ _ (λ _ w', rts w' = rts w1))|].
  - by apply keeps_timer_set_timeout.
  - by apply safe_timer_set_timeout.
  - by intros _ w' [_ ->].
Qed.

Lemma wp_daemon_init dev e :
  wp benign (daemon_init dev) (λ _, loop_inv) (initial_world e).
Proof.
  assert (safe None (daemon_init dev) (λ _ _, True) (initial_world e)) as Hs.
  { unfold daemon_init. eapply safe_bind.
    - apply safe_log_rt_table_init; [apply Inv_initial|simpl; apply not_elem_of_nil|].
      simpl. eauto.
    - intros [] w1 HI1 _ Hrts. simpl in Hrts.
      eapply (safe_bind _ _ _ (λ _ _, True)).
      { eapply safe_run; [reflexivity| |auto|done]. inv_split HI1.
        by apply table_ok_empty. }
      call_post. eapply (safe_bind _ _ _ (λ _ _, True)); [|call_post].
      + unfold host_fields_init. eapply safe_bind; [by apply (safe_upd_host _ (λ _, _))|call_post].
        repeat sstep.
      + sstep. eapply safe_run; [reflexivity| |auto|done]. inv_split HI2.
        destruct I_sock0. by split. }
  eapply wp_wand; [exact Hs|]. intros _ w' (HI & HE & _). by eapply loop_inv_ext.
Qed.

Lemma reachable_loop_inv e dev w : reachable e dev w → loop_inv w.
Proof.
  induction 1 as [w Hrun|w io w' _ IH Hrun].
  - exact (wp_ok _ _ _ _ _ _ Hrun (wp_daemon_init dev e)).
  - exact (wp_ok _ _ _ _ _ _ Hrun (wp_main_iteration io w IH)).
Qed.

(** Every run of the daemon is one of the reachable states. *)
Lemma daemon_reachable e dev ios w :
  daemon dev ios (initial_world e) = Ok tt w → reachable e dev w.
Proof.
  unfold daemon. intros ([] & w0 & H0 & Hrun)%bind_Ok.
  assert (reachable e dev w0) as Hr by (by constructor). clear H0. revert w0 Hr Hrun.
  induction ios as [|io ios IH]; intros w0 Hr Hrun; [by injection Hrun as <-|].
  apply bind_Ok in Hrun as ([] & w1 & H1 & Hrun).
  apply (IH w1); [|done]. by eapply reachable_step.
Qed.

Lemma wp_daemon e dev ios :
  wp benign (daemon dev ios) (λ _, loop_inv) (initial_world e).
Proof.
  unfold daemon. apply wp_bind. eapply wp_wand; [apply wp_daemon_init|].
  intros [] w Hw. apply wp_for_each; [|done].
  intros io w' _ Hw'. by apply wp_main_iteration.
Qed.

(** ** Properties of the whole daemon *)


(** C2: the invariant of the main loop. In every reachable state the routing
    table is a hash table with at most one entry per destination, a linked
    timer belongs to a live object and has the function of its kind, each
    pending discovery, RREQ record and blacklist entry is linked exactly once,
    and one more iteration with any input keeps it so or stops benignly. *)
Theorem main_iteration_safe e dev w io :
  reachable e dev w →
  Inv None w ∧
  match main_iteration io w with
  | Ok _ w' => Inv None w' ∧ exptq w' = []
  | Err e' => benign e'
  end.
Proof.
  intros Hr%reachable_loop_inv. split; [apply Hr|].
  pose proof (wp_main_iteration io w Hr) as Hs. unfold wp, loop_inv in Hs.
  by destruct (main_iteration io w).
Qed.

(** C19: no route reply and no HELLO is ever sent. [wait_on_reboot] starts as 1,
    [aodv_socket_send] drops every RREP (a HELLO is one) while it is set, and
    it is only cleared by [wait_on_reboot_timeout], which no timer is ever
    initialised with: in every reachable state it is still set, its timer is
    not queued, and nothing of type RREP has left the process. *)
Theorem no_rrep_ever_sent e dev w :
  reachable e dev w →
  wait_on_reboot (cfg w) ≠ 0 ∧ (T_worb ∉ tq w) ∧
  ∀ dest ttl payload, EvSend dest ttl payload ∈ out w → head payload ≠ Some AODV_RREP.
Proof.
  intros [HI _]%reachable_loop_inv. split; [apply (I_wait _ _ HI)|]. split.
  - intros Hin. destruct (q_armed _ _ (I_queue _ _ HI) T_worb) as (x & Hx & Hh);
      [apply elem_of_app; by left|].
    by apply Hh, (q_timer _ _ (I_queue _ _ HI) _ _ Hx).
  - intros dest ttl payload Hin.
    by apply (proj1 (Forall_forall _ _) (I_out _ _ HI) _ Hin).
Qed.

(** The routing table of every reachable state is a finite map from
    destinations: [rt_table_check] finds an entry exactly for the
    destinations that have one, [rt_num_entries] is their number, and the
    precursors of each are counted. *)
Theorem reachable_table e dev w :
  reachable e dev w →
  (∀ dest, ∃ p, rt_table_check dest w = Ok p w ∧
     (is_Some p ↔ ∃ r x, rts w !! r = Some x ∧ rt_dest_addr x = dest)) ∧
  (∀ r r' x x', rts w !! r = Some x → rts w !! r' = Some x' →
     rt_dest_addr x = rt_dest_addr x' → r = r') ∧
  rt_num_entries (rt_tbl w) = Z.of_nat (size (rts w)) ∧
  (∀ r x, rts w !! r = Some x →
     rt_nprecursor x = u32 (Z.of_nat (length (rt_precursors x)))).
Proof.
  intros [HI _]%reachable_loop_inv. split_and!.
  - intros dest. destruct (rt_table_check_run None w dest HI) as (p & Hrun & Hp).
    exists p. split; [done|]. destruct p as [r|].
    + destruct Hp as (x & ? & ? & _). split; eauto.
    + split; [by intros []|]. intros (r & x & Hx & Hd). by destruct (Hp r x).
  - intros. by apply (entry_unique None w r r' x x').
  - apply (tbl_entries _ _ _ (I_table _ _ HI)).
  - intros r x Hx. by destruct (rts_entry _ (I_rts _ _ HI) r x Hx).
Qed.
