(* ===== verification/Typed.v ===== *)
(** * The C types of the daemon's state

    Every number the state holds is in the range of the type that the source
    declares for it. [ty m P]: when [m] ends from a state of these types, the
    state is again one, and the result satisfies [P]. *)

From S2P Require Export Daemon.

(** ** The types *)

Definition is_u8 (z : Z) : Prop := 0 ≤ z < 2 ^ 8.
Definition is_u32 (z : Z) : Prop := 0 ≤ z < 2 ^ 32.
Definition is_s32 (z : Z) : Prop := - 2 ^ 31 ≤ z < 2 ^ 31.

Definition timeval_typed (t : timeval) : Prop := is_s32 (tv_sec t) ∧ is_s32 (tv_usec t).

Record rt_typed (e : rt_table_t) : Prop := {
  rt_typed_dest : is_u32 (rt_dest_addr e);
  rt_typed_seqno : is_u32 (rt_dest_seqno e);
  rt_typed_next : is_u32 (rt_next_hop e);
  rt_typed_hopcnt : is_u8 (rt_hopcnt e);
  rt_typed_flags : is_u8 (rt_flags e);
  rt_typed_time : timeval_typed (rt_last_hello_time e);
  rt_typed_cnt : is_u8 (rt_hello_cnt e);
  rt_typed_hash : is_u32 (rt_hash e);
  rt_typed_nprec : is_u32 (rt_nprecursor e);
  rt_typed_precs : Forall is_u32 (rt_precursors e)
}.

Record seek_typed (s : seek_list_t) : Prop := {
  seek_typed_dest : is_u32 (sk_dest_addr s);
  seek_typed_seqno : is_u32 (sk_dest_seqno s);
  seek_typed_flags : is_u8 (sk_flags s);
  seek_typed_cnt : is_s32 (sk_rreq_cnt s);
  seek_typed_ttl : is_s32 (sk_ttl s)
}.

Definition rec_typed (r : rreq_record) : Prop := is_u32 (rec_orig_addr r) ∧ is_u32 (rec_rreq_id r).
Definition bl_typed (b : rreq_blacklist) : Prop := is_u32 (bl_dest_addr b).

Record dev_typed (d : dev_info) : Prop := {
  dev_typed_enabled : is_u8 (dev_enabled d);
  dev_typed_ifindex : is_u32 (dev_ifindex d);
  dev_typed_ipaddr : is_u32 (dev_ipaddr d);
  dev_typed_netmask : is_u32 (dev_netmask d);
  dev_typed_broadcast : is_u32 (dev_broadcast d)
}.

Record host_typed (h : host_info) : Prop := {
  host_typed_seqno : is_u32 (h_seqno h);
  host_typed_id : is_u32 (h_rreq_id h);
  host_typed_forward : timeval_typed (h_last_forward_time h);
  host_typed_broadcast : timeval_typed (h_last_broadcast_time h);
  host_typed_dev : dev_typed (h_dev h)
}.

Record sock_typed (s : sock_state) : Prop := {
  sock_typed_recv : Forall is_u8 (recv_bytes s);
  sock_typed_send : Forall is_u8 (send_bytes s);
  sock_typed_rreq : is_u32 (num_rreq s);
  sock_typed_rerr : is_u32 (num_rerr s);
  sock_typed_rreq_rl : Forall timeval_typed (rreq_rl s);
  sock_typed_rerr_rl : Forall timeval_typed (rerr_rl s)
}.

Record cfg_typed (c : config) : Prop := {
  cfg_typed_wait : is_s32 (wait_on_reboot c);
  cfg_typed_ratelimit : is_s32 (ratelimit c);
  cfg_typed_ring : is_s32 (expanding_ring_search c);
  cfg_typed_hellos : is_s32 (receive_n_hellos c);
  cfg_typed_repair : is_s32 (local_repair c);
  cfg_typed_interval : is_s32 (rt_log_interval c);
  cfg_typed_active : is_s32 (active_route_timeout c);
  cfg_typed_ttl : is_s32 (ttl_start c);
  cfg_typed_delete : is_s32 (delete_period c)
}.

(** What the system gives: the time of day is a [struct timeval]. *)
Definition env_typed (e : env) : Prop := ∀ n, timeval_typed (e_clock e n).

Record typed (w : world) : Prop := {
  typed_env : env_typed (w_env w);
  typed_host : host_typed (this_host w);
  typed_cfg : cfg_typed (cfg w);
  typed_entries : is_u32 (rt_num_entries (rt_tbl w));
  typed_active : is_u32 (rt_num_active (rt_tbl w));
  typed_rts : map_Forall (λ _, rt_typed) (rts w);
  typed_seeks : map_Forall (λ _, seek_typed) (seeks w);
  typed_recs : map_Forall (λ _, rec_typed) (recs w);
  typed_bls : map_Forall (λ _, bl_typed) (bls w);
  typed_timers : map_Forall (λ _ x, timeval_typed (t_timeout x)) (timers w);
  typed_sock : sock_typed (sock w);
  typed_aodvnl : is_s32 (aodvnl_seqno w);
  typed_rtnl : is_s32 (rtnl_seqno w)
}.

(** ** Numbers *)

Create HintDb ty.
Lemma is_u8_u8 z : is_u8 (u8 z).
Proof. apply u8_range. Qed.
Lemma is_u32_u32 z : is_u32 (u32 z).
Proof. apply u32_range. Qed.
Lemma is_s32_s32 z : is_s32 (s32 z).
Proof. apply s32_range. Qed.
Lemma is_u32_ntohl z : is_u32 (ntohl z).
Proof. apply htonl_range. Qed.

Lemma is_u8_land z : is_u8 z ↔ Z.land z 255 = z.
Proof.
  unfold is_u8. change 255 with (Z.ones 8). rewrite Z.land_ones by done.
  split; [apply Z.mod_small|intros <-; apply Z.mod_pos_bound; lia].
Qed.

Lemma is_u8_lor a b : is_u8 a → is_u8 b → is_u8 (Z.lor a b).
Proof. rewrite !is_u8_land. intros Ha Hb. by rewrite Z.land_lor_distr_l, Ha, Hb. Qed.

Lemma is_u8_ldiff a b : is_u8 a → is_u8 (Z.ldiff a b).
Proof.
  rewrite !is_u8_land. intros <-. apply Z.bits_inj'. intros n Hn.
  rewrite !Z.land_spec, !Z.ldiff_spec, Z.land_spec.
  by destruct (Z.testbit a n), (Z.testbit 255 n), (Z.testbit b n).
Qed.

Lemma is_u32_seqno_incr s : is_u32 s → is_u32 (seqno_incr s).
Proof.
  unfold is_u32, seqno_incr. intros. destruct (Z.eqb_spec s 0); [lia|].
  destruct (Z.eqb_spec s 0xffffffff); lia.
Qed.

Lemma is_s32_u8 z : is_u8 z → is_s32 z.
Proof. unfold is_u8, is_s32. lia. Qed.

Lemma timeval_typed_zero : timeval_typed (TV 0 0).
Proof. split; unfold is_s32; cbn; lia. Qed.

Lemma timeval_typed_after now msec : timeval_typed (timeout_after now msec).
Proof.
  unfold timeout_after. cbv zeta. split; cbn [tv_sec tv_usec]; [apply is_s32_s32|].
  set (usec := s32 _). unfold is_s32. pose proof (Z.rem_bound_abs usec 1000000 ltac:(lia)). lia.
Qed.

#[export] Hint Resolve is_u8_u8 is_u32_u32 is_s32_s32 is_u32_ntohl is_u8_lor is_u8_ldiff
  is_u32_seqno_incr is_s32_u8 timeval_typed_zero timeval_typed_after : ty.

Lemma is_u8_lit z : bool_decide (is_u8 z) = true → is_u8 z.
Proof. by intros ?%bool_decide_eq_true. Qed.

Lemma Forall_bytes32 z : Forall is_u8 (bytes32 z).
Proof. apply bytes32_range. Qed.

Lemma of_bytes_typed l :
  Forall is_u8 l → 0 ≤ of_bytes l < 256 ^ Z.of_nat (length l).
Proof.
  induction 1 as [|b l Hb _ IH]; [done|]. unfold is_u8 in Hb. cbn [of_bytes length].
  rewrite Nat2Z.inj_succ, Z.pow_succ_r by lia. lia.
Qed.

(** ** The judgement *)

Definition ty {A} (m : M A) (P : A → Prop) : Prop :=
  ∀ w a w', typed w → m w = Ok a w' → typed w' ∧ P a.

(** Results about which nothing is said. *)
Abbreviation any := (λ _, True).

Section ty.
Context {A B : Type}.

Lemma ty_bind (m : M B) (k : B → M A) P Q :
  ty m P → (∀ b, P b → ty (k b) Q) → ty (m ≫= k) Q.
Proof. intros Hm Hk w a w' Hw (b & w1 & [Hw1 Hb]%Hm & H)%bind_Ok; [|done]. by eapply Hk. Qed.

Lemma ty_mono (m : M A) (P Q : A → Prop) : ty m P → (∀ a, P a → Q a) → ty m Q.
Proof. intros Hm HPQ w a w' Hw [Hw' Ha]%Hm; [|done]. eauto. Qed.

Lemma ty_ret (P : A → Prop) a : P a → ty (mret a) P.
Proof. by intros H w ? ? Hw [= <- <-]. Qed.

Lemma ty_raise (P : A → Prop) e : ty (raise e) P.
Proof. done. Qed.

Lemma ty_gets (f : world → A) (P : A → Prop) : (∀ w, typed w → P (f w)) → ty (gets f) P.
Proof. intros H w ? ? Hw [= <- <-]. auto. Qed.

(** A statement that only reads. *)
Lemma ty_read (m : M A) (P : A → Prop) :
  (∀ w a w', typed w → m w = Ok a w' → w' = w ∧ P a) → ty m P.
Proof. intros H w a w' Hw E. destruct (H w a w' Hw E) as [-> ?]. done. Qed.

End ty.

Lemma ty_foldM {A B} (l : list B) (body : A → B → M A) s (P : A → Prop) :
  (∀ s x, P s → ty (body s x) P) → P s → ty (foldM body s l) P.
Proof.
  intros Hb. revert s. induction l as [|x l IH]; intros s Hs; cbn [foldM]; [by apply ty_ret|].
  eapply ty_bind; [by apply Hb|]. auto.
Qed.

Lemma ty_for_each {B} (l : list B) (body : B → M unit) :
  (∀ x, ty (body x) any) → ty (for_each l body) any.
Proof.
  intros Hb. induction l as [|x l IH]; cbn [for_each]; [by apply ty_ret|].
  eapply ty_bind; [apply Hb|auto].
Qed.
Lemma ty_modify (f : world → world) : (∀ w, typed w → typed (f w)) → ty (modify f) any.
Proof. intros H w ? ? Hw [= _ <-]. split; [auto|done]. Qed.

Lemma ty_get : ty get typed.
Proof. by intros w ? ? Hw [= <- <-]. Qed.

Lemma ty_when b (m : M unit) : ty m any → ty (when b m) any.
Proof. destruct b; [done|]. intros _. by apply ty_ret. Qed.

(** ** The calls of the system and the objects *)

(** Prove that a new state is typed: the fields that are the same, then the
    others. *)
Ltac typed_state :=
  intros ? []; split; cbn; try done.

Lemma ty_tick : ty tick any.
Proof. intros w a w' Hw [= _ <-]. split; [|done]. by destruct Hw. Qed.

Lemma ty_syscall : ty syscall any.
Proof. eapply ty_bind; [apply ty_tick|]. intros n _. by apply ty_gets. Qed.

Lemma ty_gettimeofday : ty gettimeofday timeval_typed.
Proof. eapply ty_bind; [apply ty_tick|]. intros n _. apply ty_gets. intros w Hw. apply Hw. Qed.

Lemma ty_emit e : ty (emit e) any.
Proof. apply ty_modify. by typed_state. Qed.

Lemma ty_malloc n : ty (malloc n) any.
Proof.
  eapply ty_bind; [apply ty_tick|]. intros t _. eapply ty_bind; [apply ty_get|]. intros w _.
  destruct (_ && _); [|by apply ty_ret].
  eapply ty_bind; [apply ty_modify; by typed_state|]. intros. by apply ty_ret.
Qed.

Lemma ty_deref {A} (store : world → gmap nat A) p (P : A → Prop) :
  (∀ w, typed w → map_Forall (λ _, P) (store w)) → ty (deref store p) P.
Proof.
  intros H. apply ty_read. intros w a w' Hw. unfold deref. repeat case_match; try done.
  intros [= <- <-]. split; [done|]. by eapply H.
Qed.

Lemma ty_get_rt p : ty (get_rt p) rt_typed.
Proof. apply ty_deref. apply typed_rts. Qed.
Lemma ty_get_seek p : ty (get_seek p) seek_typed.
Proof. apply ty_deref. apply typed_seeks. Qed.
Lemma ty_get_rec p : ty (get_rec p) rec_typed.
Proof. apply ty_deref. apply typed_recs. Qed.
Lemma ty_get_bl p : ty (get_bl p) bl_typed.
Proof. apply ty_deref. apply typed_bls. Qed.

Lemma ty_get_timer t : ty (get_timer t) (λ x, timeval_typed (t_timeout x)).
Proof.
  apply ty_read. intros w a w' Hw. unfold get_timer. case_match eqn:E; [|done].
  intros [= <- <-]. split; [done|]. by eapply (typed_timers w Hw).
Qed.

Lemma ty_upd_rt p f : (∀ e, rt_typed e → rt_typed (f e)) → ty (upd_rt p f) any.
Proof.
  intros Hf. eapply ty_bind; [apply ty_get_rt|]. intros e He. apply ty_modify. typed_state.
  apply map_Forall_insert_2; auto.
Qed.

Lemma ty_upd_seek p f : (∀ e, seek_typed e → seek_typed (f e)) → ty (upd_seek p f) any.
Proof.
  intros Hf. eapply ty_bind; [apply ty_get_seek|]. intros e He. apply ty_modify. typed_state.
  apply map_Forall_insert_2; auto.
Qed.

Lemma ty_upd_timer t f :
  (∀ x, timeval_typed (t_timeout x) → timeval_typed (t_timeout (f x))) → ty (upd_timer t f) any.
Proof.
  intros Hf. eapply ty_bind; [apply ty_get_timer|]. intros x Hx. apply ty_modify. typed_state.
  apply map_Forall_insert_2; auto.
Qed.

#[export] Hint Resolve ty_tick ty_syscall ty_gettimeofday ty_emit ty_malloc ty_get ty_get_rt
  ty_get_seek ty_get_rec ty_get_bl ty_get_timer ty_upd_rt ty_upd_seek ty_upd_timer : ty.
#[export] Hint Resolve rt_typed_dest rt_typed_seqno rt_typed_next rt_typed_hopcnt rt_typed_flags
  rt_typed_time rt_typed_cnt rt_typed_hash rt_typed_nprec rt_typed_precs seek_typed_dest
  seek_typed_seqno seek_typed_flags seek_typed_cnt seek_typed_ttl dev_typed_ipaddr dev_typed_ifindex
  dev_typed_broadcast host_typed_seqno host_typed_id host_typed_forward host_typed_broadcast
  host_typed_dev typed_host typed_cfg typed_sock : ty.

(** A number in the range of a type. *)
Ltac ty_num :=
  first [ done | solve [eauto 6 with ty] | apply is_u8_lit; reflexivity
        | unfold is_u8, is_u32, is_s32 in *; cbn; lia ].

#[export] Hint Extern 2 (is_u8 (if ?b then _ else _)) => destruct b : ty.
#[export] Hint Extern 2 (is_u32 (if ?b then _ else _)) => destruct b : ty.
#[export] Hint Extern 2 (is_s32 (if ?b then _ else _)) => destruct b : ty.
#[export] Hint Extern 3 (is_u8 _) => solve [apply is_u8_lit; reflexivity] : ty.
#[export] Hint Extern 3 (is_u32 _) => solve [unfold is_u32; lia] : ty.

(** An object with one field changed. *)
Ltac typed_object :=
  let H := fresh in intros ? H; destruct H; split; cbn; first [done | ty_num].

#[export] Hint Extern 2 (∀ e, rt_typed e → rt_typed _) => typed_object : ty.
#[export] Hint Extern 2 (∀ e, seek_typed e → seek_typed _) => typed_object : ty.
#[export] Hint Extern 2 (∀ x, timeval_typed (t_timeout x) → timeval_typed (t_timeout _)) =>
  intros; cbn; ty_num : ty.

(** One step through a statement. *)
Ltac ty_step :=
  cbv beta zeta;
  lazymatch goal with
  | |- ty (_ ≫= _) _ =>
      first [ eapply ty_bind; [solve [eauto 6 with ty]|intros ? ?]
            | eapply (ty_bind _ _ any); [|intros ? _] ]
  | |- ty (mret _) _ => apply ty_ret; try exact I; try ty_num
  | |- ty (raise _) _ => apply ty_raise
  | |- ty exit_fail _ => apply ty_raise
  | |- ty (gets _) _ => apply ty_gets; intros; try exact I; try ty_num
  | |- ty (when _ _) _ => apply ty_when
  | |- ty (match ?x with _ => _ end) _ => destruct x
  | |- ty (for_each _ _) _ => apply ty_for_each; intros ?
  | |- ty (modify _) _ => apply ty_modify; typed_state
  | |- ty _ _ => eapply ty_mono; [solve [eauto 6 with ty]|done]
  end.
Ltac ty_auto := repeat (first [solve [eauto 5 with ty] | ty_step]).

(** ** Timers *)

Lemma ty_timer_init t f d : ty (timer_init t f d) any.
Proof.
  unfold timer_init. ty_auto. apply map_Forall_insert_2; [apply timeval_typed_zero|done].
Qed.

Lemma ty_timer_remove t : ty (timer_remove t) any.
Proof. unfold timer_remove, timer_unlink. ty_auto. Qed.

Lemma ty_tq_insert t tv l : ty (tq_insert t tv l) any.
Proof. induction l; cbn [tq_insert]; ty_auto. Qed.
#[export] Hint Resolve ty_timer_init ty_timer_remove ty_tq_insert : ty.

Lemma ty_timer_add t : ty (timer_add t) any.
Proof. unfold timer_add. ty_auto. Qed.
#[export] Hint Resolve ty_timer_add : ty.

Lemma ty_timer_set_timeout t msec : ty (timer_set_timeout t msec) any.
Proof. unfold timer_set_timeout. ty_auto. Qed.
#[export] Hint Resolve ty_timer_set_timeout : ty.

Lemma ty_set_handler t h : ty (set_handler t h) any.
Proof. unfold set_handler. ty_auto. Qed.
#[export] Hint Resolve ty_set_handler : ty.

(** ** Messages to the kernel *)

Lemma ty_nl_send nl n : ty (nl_send nl n) any.
Proof. unfold nl_send, bump_seqno. ty_auto; apply is_s32_s32. Qed.
#[export] Hint Resolve ty_nl_send : ty.

Lemma ty_nl_kernel_route a f fam i d g nm m : ty (nl_kernel_route a f fam i d g nm m) any.
Proof. unfold nl_kernel_route, Netlink.prefix_length. ty_auto. Qed.
#[export] Hint Resolve ty_nl_kernel_route : ty.

Lemma ty_nl_send_add_route_msg d n m l f i : ty (nl_send_add_route_msg d n m l f i) any.
Proof. unfold nl_send_add_route_msg. ty_auto. Qed.
Lemma ty_nl_send_del_route_msg d n m : ty (nl_send_del_route_msg d n m) any.
Proof. unfold nl_send_del_route_msg. ty_auto. Qed.
Lemma ty_nl_send_no_route_found_msg d : ty (nl_send_no_route_found_msg d) any.
Proof. unfold nl_send_no_route_found_msg. ty_auto. Qed.
Lemma ty_nl_send_conf_msg : ty nl_send_conf_msg any.
Proof. unfold nl_send_conf_msg, ACTIVE_ROUTE_TIMEOUT. ty_auto. Qed.
#[export] Hint Resolve ty_nl_send_add_route_msg ty_nl_send_del_route_msg
  ty_nl_send_no_route_found_msg ty_nl_send_conf_msg : ty.

(** ** The buffers *)

Lemma buf_typed w b : typed w → Forall is_u8 (buf_of b w).
Proof. intros Hw%typed_sock. destruct b, Hw; done. Qed.

Lemma typed_set_buf b l w : typed w → Forall is_u8 l → typed (set_buf b l w).
Proof.
  intros Hw Hl. pose proof (typed_sock w Hw) as []. destruct Hw, b; split; cbn; try done; by split.
Qed.

Lemma ty_ld b off n : ty (ld b off n) (λ v, 0 ≤ v < 256 ^ Z.of_nat n).
Proof.
  apply ty_read. intros w a w' Hw. unfold ld. case_match eqn:E; [|done].
  intros [= <- <-]. split; [done|]. destruct (load_bytes_Some _ _ _ _ E) as (_ & _ & <-).
  apply of_bytes_typed. unfold load_bytes in E. case_match; [|done]. injection E as <-.
  apply Forall_take, Forall_drop, (buf_typed _ _ Hw).
Qed.

Lemma ty_ld8 b off : ty (ld8 b off) is_u8.
Proof. apply ty_ld. Qed.
Lemma ty_ld32 b off : ty (ld32 b off) is_u32.
Proof. apply ty_ld. Qed.

Lemma ty_st b off bs : Forall is_u8 bs → ty (st b off bs) any.
Proof.
  intros Hbs w a w' Hw. unfold st. destruct (store_bytes _ _ _) as [l|] eqn:E; [|done].
  intros [= _ <-]. split; [|done]. apply typed_set_buf; [done|].
  pose proof (buf_typed w b Hw) as Hl. unfold store_bytes in E. case_match; [|done].
  injection E as <-. rewrite !Forall_app. split_and!; [by apply Forall_take|done|by apply Forall_drop].
Qed.

Lemma ty_st8 b off v : ty (st8 b off v) any.
Proof. apply ty_st. constructor; [apply is_u8_u8|constructor]. Qed.
Lemma ty_st32 b off v : ty (st32 b off v) any.
Proof. apply ty_st, Forall_bytes32. Qed.
#[export] Hint Resolve ty_ld8 ty_ld32 ty_st8 ty_st32 : ty.

Lemma ty_ld_bits b off lo n : ty (ld_bits b off lo n) any.
Proof. unfold ld_bits. ty_auto. Qed.
Lemma ty_st_bits b off lo n x : ty (st_bits b off lo n x) any.
Proof. unfold st_bits. ty_auto. Qed.
#[export] Hint Resolve ty_ld_bits ty_st_bits : ty.

Lemma ty_aodv_socket_new_msg : ty aodv_socket_new_msg any.
Proof.
  unfold aodv_socket_new_msg. ty_step; [|by ty_auto]. apply ty_modify. intros w Hw.
  apply typed_set_buf; [done|]. by apply Forall_replicate.
Qed.

Lemma ty_aodv_socket_queue_msg b len : ty (aodv_socket_queue_msg b len) any.
Proof.
  unfold aodv_socket_queue_msg. eapply ty_bind; [apply ty_get|]. intros w Hw.
  destruct (load_bytes _ _ _) as [bs|] eqn:E; [|apply ty_raise].
  eapply ty_bind; [|intros; by apply ty_ret]. apply ty_st.
  unfold load_bytes in E. case_match; [|done]. injection E as <-.
  apply Forall_take, Forall_drop, (buf_typed _ _ Hw).
Qed.
#[export] Hint Resolve ty_aodv_socket_new_msg ty_aodv_socket_queue_msg : ty.

Lemma ratelimit_typed limit num times now n l :
  is_u32 num → Forall timeval_typed times → timeval_typed now →
  ratelimit_step limit num times now = RL_pass n l → is_u32 n ∧ Forall timeval_typed l.
Proof.
  intros Hnum Ht Hnow. unfold ratelimit_step. destruct (num =? limit).
  - destruct times as [|t0 rest]; [done|]. destruct (_ <? _); [done|]. intros [= <- <-].
    split; [done|]. apply Forall_insert; [|done]. apply Forall_app.
    split; [apply Forall_take; by inversion Ht|by apply Forall_drop].
  - destruct (_ <? _); [|done]. intros [= <- <-]. split; [apply is_u32_u32|].
    by apply Forall_insert.
Qed.

Lemma ty_ratelimit_check type now : timeval_typed now → ty (ratelimit_check type now) any.
Proof.
  intros Hnow. unfold ratelimit_check. eapply (ty_bind _ _ sock_typed).
  { apply ty_gets. intros w Hw. apply Hw. }
  intros s Hs. repeat case_match; try apply ty_raise; try (by apply ty_ret).
  all: match goal with H : ratelimit_step _ _ _ _ = RL_pass _ _ |- _ =>
    apply ratelimit_typed in H as [? ?]; [|by destruct Hs..|done] end.
  all: eapply ty_bind; [|intros; by apply ty_ret]; apply ty_modify; intros ? [];
    split; cbn; try done; match goal with H : sock_typed (sock _) |- _ => destruct H end; by split.
Qed.
#[export] Hint Resolve ty_ratelimit_check : ty.

Lemma ty_sendto d t l : ty (sendto d t l) any.
Proof. unfold sendto. ty_auto. Qed.
#[export] Hint Resolve ty_sendto : ty.

Lemma ty_aodv_socket_send b d l t : ty (aodv_socket_send b d l t) any.
Proof.
  unfold aodv_socket_send. ty_auto.
  match goal with H : host_typed _ |- _ => destruct H end. by split.
Qed.
#[export] Hint Resolve ty_aodv_socket_send : ty.

(** ** Messages *)

Lemma ty_upd_host f : (∀ h, host_typed h → host_typed (f h)) →
  ty (modify (λ w, w <| this_host ::= f |>)) any.
Proof. intros Hf. apply ty_modify. intros w []. split; cbn; try done. auto. Qed.

#[export] Hint Extern 2 (∀ h, host_typed h → host_typed _) => typed_object : ty.
#[export] Hint Resolve ty_upd_host : ty.

Lemma ty_rreq_create f d s o : ty (rreq_create f d s o) any.
Proof. unfold rreq_create. ty_auto. Qed.
Lemma ty_rrep_create f p h d s o l : ty (rrep_create f p h d s o l) any.
Proof. unfold rrep_create. ty_auto. Qed.
Lemma ty_rrep_ack_create : ty rrep_ack_create any.
Proof. unfold rrep_ack_create. ty_auto. Qed.
Lemma ty_RERR_CALC_SIZE b : ty (RERR_CALC_SIZE b) any.
Proof. unfold RERR_CALC_SIZE. ty_auto. Qed.
#[export] Hint Resolve ty_rreq_create ty_rrep_create ty_rrep_ack_create ty_RERR_CALC_SIZE : ty.
Lemma ty_rerr_create f d s : ty (rerr_create f d s) any.
Proof. unfold rerr_create. ty_auto. Qed.
Lemma ty_rerr_add_udest b u s : ty (rerr_add_udest b u s) any.
Proof. unfold rerr_add_udest. ty_auto. Qed.
#[export] Hint Resolve ty_rerr_create ty_rerr_add_udest : ty.

(** ** Pending discoveries *)

Lemma ty_seek_list_insert d s ttl f :
  is_u32 d → is_u32 s → is_s32 ttl → is_u8 f → ty (seek_list_insert d s ttl f) any.
Proof.
  intros. unfold seek_list_insert. ty_auto. apply map_Forall_insert_2; [|done].
  by split.
Qed.

Lemma ty_seek_scan d l : ty (seek_scan d l) any.
Proof. induction l; cbn [seek_scan]; ty_auto. Qed.
#[export] Hint Resolve ty_seek_list_insert ty_seek_scan : ty.
Lemma ty_seek_list_check d : ty (seek_list_check d) any.
Proof. unfold seek_list_check. ty_auto. Qed.

Lemma ty_seek_list_remove p : ty (seek_list_remove p) any.
Proof. unfold seek_list_remove, free_seek. ty_auto; by apply map_Forall_delete. Qed.
#[export] Hint Resolve ty_seek_list_check ty_seek_list_remove : ty.

(** ** The routing table *)

Lemma ty_bucket i : ty (bucket i) any.
Proof. apply ty_read. intros w a w' _. unfold bucket. case_match; [|done]. by intros [= <- <-]. Qed.
Lemma ty_bucket_upd i f : ty (bucket_upd i f) any.
Proof. unfold bucket_upd. ty_auto. Qed.
Lemma ty_upd_num_entries f : ty (upd_num_entries f) any.
Proof. unfold upd_num_entries. ty_auto. Qed.
Lemma ty_upd_num_active f : ty (upd_num_active f) any.
Proof. unfold upd_num_active. ty_auto. Qed.
Lemma ty_rt_scan d h l : ty (rt_scan d h l) any.
Proof. induction l; cbn [rt_scan]; ty_auto. Qed.
Lemma ty_rt_present d l : ty (rt_present d l) any.
Proof. induction l; cbn [rt_present]; ty_auto. Qed.
#[export] Hint Resolve ty_bucket ty_bucket_upd ty_upd_num_entries ty_upd_num_active ty_rt_scan
  ty_rt_present : ty.
Lemma ty_rt_table_check d : ty (rt_table_check d) any.
Proof. unfold rt_table_check, hashing. ty_auto. Qed.
#[export] Hint Resolve ty_rt_table_check : ty.

Lemma Forall_tail l : Forall is_u32 l → Forall is_u32 (tail l).
Proof. by intros []. Qed.
#[export] Hint Resolve Forall_tail Forall_cons_2 : ty.

Lemma ty_rt_table_insert d n h s l st f :
  is_u32 d → is_u32 n → is_u32 s → is_u8 f → ty (rt_table_insert d n h s l st f) any.
Proof.
  intros. unfold rt_table_insert, hashing, ACTIVE_ROUTE_TIMEOUT, DELETE_PERIOD. ty_auto.
  apply map_Forall_insert_2; [|done]. split; cbn; try done; ty_num.
Qed.
#[export] Hint Resolve ty_rt_table_insert : ty.

Lemma ty_rt_table_update_timeout p l : ty (rt_table_update_timeout p l) any.
Proof. unfold rt_table_update_timeout. ty_auto. Qed.
#[export] Hint Resolve ty_rt_table_update_timeout : ty.

Lemma ty_refresh_route r f : ty (refresh_route r f) any.
Proof. unfold refresh_route, ACTIVE_ROUTE_TIMEOUT. ty_auto. Qed.
#[export] Hint Resolve ty_refresh_route : ty.
Lemma ty_rt_table_update_route_timeouts f r : ty (rt_table_update_route_timeouts f r) any.
Proof. unfold rt_table_update_route_timeouts. ty_auto. Qed.

Lemma ty_rt_table_invalidate p : ty (rt_table_invalidate p) any.
Proof. unfold rt_table_invalidate, ACTIVE_ROUTE_TIMEOUT, DELETE_PERIOD. ty_auto. Qed.

Lemma ty_precursor_add p a : is_u32 a → ty (precursor_add p a) any.
Proof. intros. unfold precursor_add. ty_auto. Qed.

Lemma ty_precursor_list_destroy p : ty (precursor_list_destroy p) any.
Proof. unfold precursor_list_destroy. ty_auto. Qed.

Lemma ty_first_prec p : ty (first_prec p) is_u32.
Proof.
  unfold first_prec. eapply ty_bind; [apply ty_get_rt|]. intros e He%rt_typed_precs.
  destruct (rt_precursors e); [apply ty_raise|]. apply ty_ret. by inversion He.
Qed.
#[export] Hint Resolve ty_rt_table_update_route_timeouts ty_rt_table_invalidate ty_precursor_add
  ty_precursor_list_destroy ty_first_prec : ty.

Lemma ty_rt_table_delete p : ty (rt_table_delete p) any.
Proof.
  unfold rt_table_delete, free_rt. ty_auto; repeat apply map_Forall_delete; done.
Qed.
#[export] Hint Resolve ty_rt_table_delete : ty.

(** ** Neighbors and link breaks *)

Lemma ty_rerr_report r u p f : ty (rerr_report r u p f) any.
Proof. unfold rerr_report. ty_auto. Qed.
#[export] Hint Resolve ty_rerr_report : ty.

Lemma ty_link_break_entry p acc u : ty (link_break_entry p acc u) any.
Proof. unfold link_break_entry. ty_auto. Qed.
Lemma ty_link_break_send p r u : ty (link_break_send p r u) any.
Proof. unfold link_break_send. ty_auto. Qed.
#[export] Hint Resolve ty_link_break_entry ty_link_break_send : ty.

Lemma ty_neighbor_link_break p : ty (neighbor_link_break p) any.
Proof.
  unfold neighbor_link_break. ty_auto. apply ty_foldM; [|done]. intros. ty_auto.
  apply ty_foldM; [|done]. intros. ty_auto.
Qed.
#[export] Hint Resolve ty_neighbor_link_break : ty.

Lemma ty_rt_table_update p n h s l st f :
  is_u32 n → is_u32 s → is_u8 f → ty (rt_table_update p n h s l st f) any.
Proof.
  intros. unfold rt_table_update. ty_step. eapply (ty_bind _ _ any); [ty_auto|intros ifindex _].
  eapply (ty_bind _ _ is_u8); [ty_auto|]. intros. ty_auto.
Qed.
#[export] Hint Resolve ty_rt_table_update : ty.

Lemma ty_hello_update_timeout p now t : timeval_typed now → ty (hello_update_timeout p now t) any.
Proof. intros. unfold hello_update_timeout. ty_auto. Qed.
#[export] Hint Resolve ty_hello_update_timeout : ty.

Lemma ty_neighbor_add src : is_u32 src → ty (neighbor_add src) any.
Proof.
  intros. unfold neighbor_add, ACTIVE_ROUTE_TIMEOUT. ty_auto.
Qed.
#[export] Hint Resolve ty_neighbor_add : ty.

(** ** Handlers *)

Lemma ty_rrep_ack_process src : ty (rrep_ack_process src) any.
Proof. unfold rrep_ack_process. ty_auto. Qed.
Lemma ty_rrep_send b r f l : ty (rrep_send b r f l) any.
Proof. unfold rrep_send. ty_auto. Qed.
Lemma ty_rrep_forward b l r f t : ty (rrep_forward b l r f t) any.
Proof. unfold rrep_forward, ACTIVE_ROUTE_TIMEOUT. ty_auto. Qed.
#[export] Hint Resolve ty_rrep_ack_process ty_rrep_send ty_rrep_forward : ty.
Lemma ty_rrep_continue b l o f r h fl t : ty (rrep_continue b l o f r h fl t) any.
Proof. unfold rrep_continue. ty_auto. Qed.
#[export] Hint Resolve ty_rrep_continue : ty.
Lemma ty_rrep_process b l src t : is_u32 src → ty (rrep_process b l src t) any.
Proof. intros. unfold rrep_process. ty_auto. Qed.

Lemma ty_record_scan o i l : ty (record_scan o i l) any.
Proof. induction l; cbn [record_scan]; ty_auto. Qed.
#[export] Hint Resolve ty_record_scan : ty.
Lemma ty_rreq_record_check o i : ty (rreq_record_check o i) any.
Proof. unfold rreq_record_check. ty_auto. Qed.
#[export] Hint Resolve ty_rreq_record_check : ty.
Lemma ty_rreq_record_insert o i : is_u32 o → is_u32 i → ty (rreq_record_insert o i) any.
Proof. intros. unfold rreq_record_insert. ty_auto. by apply map_Forall_insert_2. Qed.

Lemma ty_blacklist_scan d l : ty (blacklist_scan d l) any.
Proof. induction l; cbn [blacklist_scan]; ty_auto. Qed.
#[export] Hint Resolve ty_blacklist_scan : ty.
Lemma ty_rreq_blacklist_check d : ty (rreq_blacklist_check d) any.
Proof. unfold rreq_blacklist_check. ty_auto. Qed.
#[export] Hint Resolve ty_rreq_blacklist_check : ty.
Lemma ty_rreq_blacklist_insert d : is_u32 d → ty (rreq_blacklist_insert d) any.
Proof.
  intros. unfold rreq_blacklist_insert, BLACKLIST_TIMEOUT, TTL_START. ty_auto. by apply map_Forall_insert_2.
Qed.
#[export] Hint Resolve ty_rrep_process ty_rreq_record_insert ty_rreq_blacklist_insert : ty.

Lemma ty_rreq_send d s t f : ty (rreq_send d s t f) any.
Proof. unfold rreq_send. ty_auto. Qed.
Lemma ty_rreq_forward b l t : ty (rreq_forward b l t) any.
Proof. unfold rreq_forward. ty_auto. Qed.
#[export] Hint Resolve ty_rreq_send ty_rreq_forward : ty.
Lemma ty_rreq_reverse_route o src h s l :
  is_u32 o → is_u32 src → is_u32 s → ty (rreq_reverse_route o src h s l) any.
Proof. intros. unfold rreq_reverse_route. ty_auto. Qed.
Lemma ty_rreq_reply_dest s p : is_u32 s → ty (rreq_reply_dest s p) any.
Proof. intros. unfold rreq_reply_dest, MY_ROUTE_TIMEOUT, ACTIVE_ROUTE_TIMEOUT. ty_auto. Qed.
Lemma ty_rreq_do_forward b l p s t : ty (rreq_do_forward b l p s t) any.
Proof. unfold rreq_do_forward. ty_auto. Qed.
Lemma ty_rreq_reply_intermediate b r f now : ty (rreq_reply_intermediate b r f now) any.
Proof. unfold rreq_reply_intermediate. ty_auto. Qed.
#[export] Hint Resolve ty_rreq_reverse_route ty_rreq_reply_dest ty_rreq_do_forward
  ty_rreq_reply_intermediate : ty.
Lemma ty_rreq_process b l src t : is_u32 src → ty (rreq_process b l src t) any.
Proof. intros. unfold rreq_process. ty_auto. Qed.
#[export] Hint Resolve ty_rreq_process : ty.

(** ** Discovery and repair *)

Lemma ty_extend_for_discovery p now : ty (extend_for_discovery p now) any.
Proof. unfold extend_for_discovery. ty_auto. Qed.
#[export] Hint Resolve ty_extend_for_discovery : ty.

Lemma ty_TTL_START : ty TTL_START is_s32.
Proof. apply ty_gets. intros w Hw. apply (typed_cfg w Hw). Qed.
#[export] Hint Resolve ty_TTL_START : ty.

(** The TTL of a repair, from two hop counts. *)
Lemma repair_ttl_typed a b : is_u8 a → is_u8 b → is_s32 (repair_ttl a b).
Proof.
  unfold is_u8, is_s32, repair_ttl, LOCAL_ADD_TTL. intros.
  rewrite Z.quot_div_nonneg by lia.
  pose proof (Z.div_pos (Z.max (2 * a) b + 2 * 2) 2).
  pose proof (Z.div_le_upper_bound (Z.max (2 * a) b + 2 * 2) 2 1000). lia.
Qed.

Lemma hopcnt_plus_typed h n : is_u8 h → 0 ≤ n < 2 ^ 16 → is_s32 (h + n).
Proof. unfold is_u8, is_s32. lia. Qed.

Lemma ty_rreq_route_discovery d f : is_u32 d → is_u8 f → ty (rreq_route_discovery d f) any.
Proof.
  intros Hd Hf. unfold rreq_route_discovery. eapply ty_bind; [apply ty_gettimeofday|intros now Hnow].
  eapply ty_bind; [apply ty_seek_list_check|intros [s|] _]; [by apply ty_ret|].
  eapply ty_bind; [apply ty_rt_table_check|intros rt _].
  eapply (ty_bind _ _ any); [by apply ty_gets|intros ring _].
  eapply (ty_bind _ _ (λ p, is_u32 p.1 ∧ is_s32 p.2)).
  - destruct rt as [r|].
    + eapply ty_bind; [apply ty_get_rt|intros e He].
      eapply ty_bind; [apply ty_extend_for_discovery|intros _ _].
      apply ty_ret. split; cbn; [by apply rt_typed_seqno|].
      case_match; [by apply hopcnt_plus_typed; [apply rt_typed_hopcnt|]|done].
    + eapply (ty_bind _ _ is_s32); [ty_auto|intros ttl Httl]. apply ty_ret. by split.
  - intros [seqno ttl] [Hs Ht]. cbn in Hs, Ht. ty_auto.
Qed.

Lemma ty_rreq_local_repair p src : ty (rreq_local_repair p src) any.
Proof.
  unfold rreq_local_repair. destruct p as [r|]; [|by apply ty_ret].
  eapply ty_bind; [apply ty_get_rt|intros e He].
  eapply ty_bind; [apply ty_seek_list_check|intros [s|] _]; [by apply ty_ret|].
  destruct (negb _); [by apply ty_ret|].
  eapply ty_bind; [apply ty_gettimeofday|intros now Hnow].
  eapply ty_bind; [apply ty_rt_table_check|intros rt _].
  pose proof (rt_typed_hopcnt e He) as Hh.
  eapply (ty_bind _ _ is_s32).
  - destruct rt; [|apply ty_ret; by apply hopcnt_plus_typed].
    eapply ty_bind; [apply ty_get_rt|intros x Hx]. apply ty_ret, repair_ttl_typed; [done|].
    by apply rt_typed_hopcnt.
  - intros ttl Httl. ty_auto.
Qed.
#[export] Hint Resolve ty_rreq_route_discovery ty_rreq_local_repair : ty.

(** ** Errors and HELLOs *)

Lemma ty_rerr_process_udest b src acc u s : is_u32 s → ty (rerr_process_udest b src acc u s) any.
Proof. intros. unfold rerr_process_udest. ty_auto. Qed.
#[export] Hint Resolve ty_rerr_process_udest : ty.

Lemma ty_rerr_loop fuel b src acc u : ty (rerr_loop fuel b src acc u) any.
Proof. revert acc u. induction fuel; intros acc u; cbn [rerr_loop]; ty_auto. Qed.
#[export] Hint Resolve ty_rerr_loop : ty.

Lemma ty_rerr_process b l src : ty (rerr_process b l src) any.
Proof. unfold rerr_process. ty_auto. Qed.
#[export] Hint Resolve ty_rerr_process : ty.

Lemma ty_hello_stop : ty hello_stop any.
Proof. unfold hello_stop. ty_auto. Qed.
#[export] Hint Resolve ty_hello_stop : ty.
Lemma ty_hello_send : ty hello_send any.
Proof. unfold hello_send, ACTIVE_ROUTE_TIMEOUT. ty_auto. Qed.
Lemma ty_hello_process b : ty (hello_process b) any.
Proof. unfold hello_process. ty_auto. Qed.
#[export] Hint Resolve ty_hello_send ty_hello_process : ty.

(** ** Timeouts *)

Lemma ty_rreq_record_timeout p : ty (rreq_record_timeout p) any.
Proof. unfold rreq_record_timeout. ty_auto; by apply map_Forall_delete. Qed.
Lemma ty_rreq_blacklist_timeout p : ty (rreq_blacklist_timeout p) any.
Proof. unfold rreq_blacklist_timeout. ty_auto; by apply map_Forall_delete. Qed.
Lemma ty_local_repair_timeout p : ty (local_repair_timeout p) any.
Proof. unfold local_repair_timeout, DELETE_PERIOD. ty_auto. Qed.
#[export] Hint Resolve ty_rreq_record_timeout ty_rreq_blacklist_timeout ty_local_repair_timeout : ty.
Lemma ty_route_discovery_timeout p : ty (route_discovery_timeout p) any.
Proof. unfold route_discovery_timeout. ty_auto. Qed.
Lemma ty_route_expire_timeout p : ty (route_expire_timeout p) any.
Proof. unfold route_expire_timeout. ty_auto. Qed.
Lemma ty_route_delete_timeout p : ty (route_delete_timeout p) any.
Proof. unfold route_delete_timeout. ty_auto. Qed.
Lemma ty_hello_timeout p : ty (hello_timeout p) any.
Proof. unfold hello_timeout. ty_auto. Qed.
Lemma ty_rrep_ack_timeout p : ty (rrep_ack_timeout p) any.
Proof. unfold rrep_ack_timeout. ty_auto. Qed.
Lemma ty_wait_on_reboot_timeout : ty wait_on_reboot_timeout any.
Proof. apply ty_modify. intros w []. split; cbn; try done. by destruct typed_cfg0; split. Qed.
Lemma ty_print_rt_table : ty print_rt_table any.
Proof. unfold print_rt_table. ty_auto. Qed.
#[export] Hint Resolve ty_route_discovery_timeout ty_route_expire_timeout ty_route_delete_timeout
  ty_hello_timeout ty_rrep_ack_timeout ty_wait_on_reboot_timeout ty_print_rt_table : ty.

Lemma ty_run_handler h d : ty (run_handler h d) any.
Proof. destruct h; cbn [run_handler]; ty_auto. Qed.
#[export] Hint Resolve ty_run_handler : ty.

Lemma ty_timer_collect now l : ty (timer_collect now l) any.
Proof. induction l; cbn [timer_collect]; unfold timer_unlink; ty_auto. Qed.
Lemma ty_timer_fire fuel : ty (timer_fire run_handler fuel) any.
Proof. induction fuel; cbn [timer_fire]; unfold timer_unlink; ty_auto. Qed.
#[export] Hint Resolve ty_timer_collect ty_timer_fire : ty.
Lemma ty_timer_age_queue : ty (timer_age_queue run_handler) any.
Proof. unfold timer_age_queue, timer_timeout. ty_auto. Qed.
#[export] Hint Resolve ty_timer_age_queue : ty.

(** ** The loop *)

(** What the system delivers: addresses of 32 bits. *)
Definition packet_typed (pk : packet) : Prop := is_u32 (pk_src pk).
Definition kmsg_typed (m : kmsg) : Prop := is_u32 (nlm_src m) ∧ is_u32 (nlm_dest m).
Definition ready_typed (io : ready) : Prop :=
  (∀ m, rd_kernel io = Some (Some m) → kmsg_typed m) ∧
  (∀ p, rd_packet io = Some (Some p) → packet_typed p).

Lemma ty_aodv_socket_package_process b l src d t :
  is_u32 src → ty (aodv_socket_package_process b l src d t) any.
Proof. intros. unfold aodv_socket_package_process. ty_auto. Qed.
#[export] Hint Resolve ty_aodv_socket_package_process : ty.

Lemma ty_recvmsg data : ty (recvmsg data) any.
Proof.
  unfold recvmsg. eapply ty_bind; [apply ty_st, Forall_take|intros; by apply ty_ret].
  apply Forall_fmap, Forall_true. intros. apply is_u8_u8.
Qed.
#[export] Hint Resolve ty_recvmsg : ty.

Lemma ty_aodv_socket_read pk :
  (∀ p, pk = Some p → packet_typed p) → ty (aodv_socket_read pk) any.
Proof.
  intros H. destruct pk as [pk|]; [|by apply ty_ret]. specialize (H pk eq_refl).
  unfold packet_typed in H. unfold aodv_socket_read. ty_auto.
Qed.

Lemma ty_nl_kaodv_callback m :
  (∀ k, m = Some k → kmsg_typed k) → ty (nl_kaodv_callback m) any.
Proof.
  intros H. destruct m as [m|]; [|by apply ty_ret]. destruct (H m eq_refl) as [Hs Hd].
  unfold nl_kaodv_callback, nl_is_broadcast, DELETE_PERIOD. ty_auto.
Qed.

Lemma ty_main_iteration io : ready_typed io → ty (main_iteration io) any.
Proof.
  intros [Hk Hp]. unfold main_iteration. ty_step.
  eapply (ty_bind _ _ any); [destruct (rd_kernel io); [|by apply ty_ret]|intros _ _].
  - apply ty_nl_kaodv_callback. intros k ->. by apply Hk.
  - destruct (rd_packet io); [|by apply ty_ret]. apply ty_aodv_socket_read. intros p ->. by apply Hp.
Qed.

Lemma ty_log_rt_table_init : ty log_rt_table_init any.
Proof. unfold log_rt_table_init. ty_auto. Qed.
Lemma ty_rt_table_init : ty rt_table_init any.
Proof. unfold rt_table_init. ty_auto. Qed.

Lemma ty_host_fields_init dev : dev_typed dev → ty (host_fields_init dev) any.
Proof.
  intros Hd. unfold host_fields_init. eapply (ty_bind _ _ any).
  { apply ty_modify. intros w []. split; cbn; try done. }
  intros _ _. eapply ty_bind; [apply ty_gettimeofday|]. intros now Hnow. apply ty_upd_host.
  intros h []. split; cbn; try done. by destruct Hd; split.
Qed.

Lemma ty_aodv_socket_init_counters : ty aodv_socket_init_counters any.
Proof.
  apply ty_modify. intros w Hw. pose proof (typed_sock w Hw) as []. destruct Hw.
  split; cbn; try done.
Qed.

Lemma ty_daemon_init dev : dev_typed dev → ty (daemon_init dev) any.
Proof.
  intros Hd. unfold daemon_init.
  eapply ty_bind; [apply ty_log_rt_table_init|intros _ _].
  eapply ty_bind; [apply ty_rt_table_init|intros _ _].
  eapply ty_bind; [by apply ty_host_fields_init|intros _ _].
  eapply ty_bind; [apply ty_nl_send_conf_msg|intros _ _]. apply ty_aodv_socket_init_counters.
Qed.

Lemma typed_initial e : env_typed e → typed (initial_world e).
Proof.
  intros He. split; cbn; try done; try (by repeat split); try apply map_Forall_empty.
  repeat apply map_Forall_insert_2; first [apply map_Forall_empty|apply timeval_typed_zero|idtac].
  split; cbn [recv_bytes send_bytes num_rreq num_rerr rreq_rl rerr_rl]; try done;
    apply Forall_replicate; first [apply timeval_typed_zero|by apply is_u8_lit].
Qed.

(** The states between two turns of the loop, of a daemon that the system
    gives values of the right types. *)
Inductive typed_reachable (e : env) (dev : dev_info) : world → Prop :=
| typed_reachable_init w :
    daemon_init dev (initial_world e) = Ok tt w → typed_reachable e dev w
| typed_reachable_step w io w' :
    typed_reachable e dev w → ready_typed io → main_iteration io w = Ok tt w' →
    typed_reachable e dev w'.

(** Every run of the daemon on such inputs is one of these states. *)
Lemma daemon_typed_reachable e dev ios w :
  Forall ready_typed ios → daemon dev ios (initial_world e) = Ok tt w → typed_reachable e dev w.
Proof.
  intros Hios. unfold daemon. intros ([] & w0 & H0 & Hrun)%bind_Ok.
  assert (typed_reachable e dev w0) as Hr by (by constructor). clear H0. revert w0 Hr Hrun.
  induction Hios as [|io ios Hio _ IH]; intros w0 Hr Hrun; [by injection Hrun as <-|].
  apply bind_Ok in Hrun as ([] & w1 & H1 & Hrun).
  apply (IH w1); [|done]. by eapply typed_reachable_step.
Qed.

(** C5: type safety. When the system gives times, addresses of the interface
    and senders' addresses that fit their C types, whatever the bytes of the
    messages, then between any two turns of the loop every number in the state
    fits the type that the source declares for it: 8-bit hop counts, flags
    and buffers, 32-bit addresses, sequence numbers, counters and times. *)
Theorem state_well_typed e dev w :
  env_typed e → dev_typed dev → typed_reachable e dev w → typed w.
Proof.
  intros He Hd. induction 1 as [w Hw|w io w' _ IH Hio Hw].
  - by apply (ty_daemon_init dev Hd _ _ _ (typed_initial e He) Hw).
  - by apply (ty_main_iteration io Hio _ _ _ IH Hw).
Qed.
