(* ===== verification/Sys.v ===== *)
(** * The system under the daemon

    Start-up and shutdown are sequences of system calls. A [call] is a request
    to the system with its arguments; the environment answers each with a
    result that may depend on everything that happened before, and the trace
    of the calls and their results, latest first, is part of the state. What a
    descriptor names and what a file holds are read off the trace. *)

From S2P Require Export Daemon Text.

(** ** System calls *)

Inductive oflags := O_WRONLY | O_RDWR_CREAT_TRUNC.
Inductive domain := PF_NETLINK | PF_INET.
Inductive socktype := SOCK_RAW | SOCK_DGRAM.
Inductive protocol := NETLINK_AODV | NETLINK_ROUTE | IPPROTO_UDP | IPPROTO_IP.

Inductive sockaddr :=
| SockaddrNl (nl_pid nl_groups : Z)
| SockaddrIn (sin_port sin_addr : Z).

(** Options of a socket, with the values they are set to. *)
Inductive sockopt :=
| SO_BROADCAST (on : Z) | SO_BINDTODEVICE (ifr_name : string) | SO_PRIORITY (tos : Z)
| SO_RCVBUF (bufsize : Z) | IP_RECVTTL (on : Z) | IP_PKTINFO (on : Z).

Inductive ioctl_req :=
| SIOCGIFCONF | SIOCGIWNAME | SIOCGIFINDEX | SIOCGIFADDR | SIOCGIFNETMASK | SIOCGIFBRDADDR.

Inductive call :=
| CGeteuid | CGetpid | CSignal (sign_no : Z)
| COpen (path : string) (flags : oflags) | CWrite (fd : Z) (data : string)
| CClose (fd : Z) | CRemove (path : string)
| CSocket (d : domain) (t : socktype) (p : protocol)
| CBind (fd : Z) (a : sockaddr) | CGetsockname (fd : Z) | CSetsockopt (fd : Z) (o : sockopt)
| CIoctl (fd : Z) (req : ioctl_req) (ifr_name : string)
| CStat (path : string) | CSystem (cmd : string).

Definition trace := list (call * Z).

(** The answers of the system: the result of a call, the number an [ioctl]
    stores (an index or an address), the names of the interfaces, and the bytes
    a buffer holds before it is written, read as a name. *)
Record senv := SEnv {
  se_ret : trace → call → Z;
  se_val : trace → Z;
  se_names : list string;
  se_garbage : nat → string
}.

(** ** What a trace means *)

(** Calls that return a new descriptor. *)
Definition opens (c : call) : bool :=
  match c with COpen _ _ | CSocket _ _ _ => true | _ => false end.

(** The descriptors the program has open. *)
Fixpoint open_fds (tr : trace) : gset Z :=
  match tr with
  | [] => ∅
  | (CClose fd, _) :: tr => open_fds tr ∖ {[ fd ]}
  | (c, r) :: tr => if opens c && (0 <=? r) then {[ r ]} ∪ open_fds tr else open_fds tr
  end.

(** The file a descriptor names. *)
Fixpoint path_at (fd : Z) (tr : trace) : option string :=
  match tr with
  | [] => None
  | (c, r) :: tr =>
      if opens c && (r =? fd)
      then match c with COpen path _ => Some path | _ => None end
      else path_at fd tr
  end.

(** The last successful write to each file. *)
Fixpoint contents (tr : trace) : gmap string string :=
  match tr with
  | [] => ∅
  | (CWrite fd data, r) :: tr =>
      match path_at fd tr with
      | Some path => if 0 <=? r then <[path := data]> (contents tr) else contents tr
      | None => contents tr
      end
  | _ :: tr => contents tr
  end.

(** A new descriptor is one that is not in use. *)
Definition fresh_fds (e : senv) : Prop :=
  ∀ tr c, opens c = true → 0 ≤ se_ret e tr c → se_ret e tr c ∉ open_fds tr.

(** ** The program's state *)

(** The functions in the callback table. *)
Inductive callback_func := cb_nl_kaodv_callback | cb_nl_rt_callback | cb_aodv_socket_read.

(** The variables of the process that the daemon's [world] leaves out: the log
    files, the name and the socket of the interface ([this_host.dev]), the
    netlink sockets and the callback table. *)
Record sys := Sys {
  y_env : senv;
  y_trace : trace;
  y_log_to_file : Z;
  y_log_file_fd : Z;
  y_log_rt_fd : Z;
  y_ifname : string;
  y_sock : Z;
  y_aodvnl : Z;
  y_rtnl : Z;
  y_callbacks : list (Z * option callback_func);
  y_nr_callbacks : Z;
  y_world : world
}.

#[export] Instance set_y_trace : Setter y_trace := λ g r,
  Sys (y_env r) (g (y_trace r)) (y_log_to_file r) (y_log_file_fd r) (y_log_rt_fd
    r) (y_ifname r) (y_sock r) (y_aodvnl r) (y_rtnl r) (y_callbacks r)
    (y_nr_callbacks r) (y_world r).
#[export] Instance set_y_log_to_file : Setter y_log_to_file := λ g r,
  Sys (y_env r) (y_trace r) (g (y_log_to_file r)) (y_log_file_fd r) (y_log_rt_fd
    r) (y_ifname r) (y_sock r) (y_aodvnl r) (y_rtnl r) (y_callbacks r)
    (y_nr_callbacks r) (y_world r).
#[export] Instance set_y_log_file_fd : Setter y_log_file_fd := λ g r,
  Sys (y_env r) (y_trace r) (y_log_to_file r) (g (y_log_file_fd r)) (y_log_rt_fd
    r) (y_ifname r) (y_sock r) (y_aodvnl r) (y_rtnl r) (y_callbacks r)
    (y_nr_callbacks r) (y_world r).
#[export] Instance set_y_log_rt_fd : Setter y_log_rt_fd := λ g r,
  Sys (y_env r) (y_trace r) (y_log_to_file r) (y_log_file_fd r) (g (y_log_rt_fd
    r)) (y_ifname r) (y_sock r) (y_aodvnl r) (y_rtnl r) (y_callbacks r)
    (y_nr_callbacks r) (y_world r).
#[export] Instance set_y_ifname : Setter y_ifname := λ g r,
  Sys (y_env r) (y_trace r) (y_log_to_file r) (y_log_file_fd r) (y_log_rt_fd r)
    (g (y_ifname r)) (y_sock r) (y_aodvnl r) (y_rtnl r) (y_callbacks r)
    (y_nr_callbacks r) (y_world r).
#[export] Instance set_y_sock : Setter y_sock := λ g r,
  Sys (y_env r) (y_trace r) (y_log_to_file r) (y_log_file_fd r) (y_log_rt_fd r)
    (y_ifname r) (g (y_sock r)) (y_aodvnl r) (y_rtnl r) (y_callbacks r)
    (y_nr_callbacks r) (y_world r).
#[export] Instance set_y_aodvnl : Setter y_aodvnl := λ g r,
  Sys (y_env r) (y_trace r) (y_log_to_file r) (y_log_file_fd r) (y_log_rt_fd r)
    (y_ifname r) (y_sock r) (g (y_aodvnl r)) (y_rtnl r) (y_callbacks r)
    (y_nr_callbacks r) (y_world r).
#[export] Instance set_y_rtnl : Setter y_rtnl := λ g r,
  Sys (y_env r) (y_trace r) (y_log_to_file r) (y_log_file_fd r) (y_log_rt_fd r)
    (y_ifname r) (y_sock r) (y_aodvnl r) (g (y_rtnl r)) (y_callbacks r)
    (y_nr_callbacks r) (y_world r).
#[export] Instance set_y_callbacks : Setter y_callbacks := λ g r,
  Sys (y_env r) (y_trace r) (y_log_to_file r) (y_log_file_fd r) (y_log_rt_fd r)
    (y_ifname r) (y_sock r) (y_aodvnl r) (y_rtnl r) (g (y_callbacks r))
    (y_nr_callbacks r) (y_world r).
#[export] Instance set_y_nr_callbacks : Setter y_nr_callbacks := λ g r,
  Sys (y_env r) (y_trace r) (y_log_to_file r) (y_log_file_fd r) (y_log_rt_fd r)
    (y_ifname r) (y_sock r) (y_aodvnl r) (y_rtnl r) (y_callbacks r) (g
    (y_nr_callbacks r)) (y_world r).
#[export] Instance set_y_world : Setter y_world := λ g r,
  Sys (y_env r) (y_trace r) (y_log_to_file r) (y_log_file_fd r) (y_log_rt_fd r)
    (y_ifname r) (y_sock r) (y_aodvnl r) (y_rtnl r) (y_callbacks r)
    (y_nr_callbacks r) (g (y_world r)).

(** ** The monad: state, [exit] and faults *)

Inductive yres (A : Type) := YOk (a : A) (y : sys) | YExit (code : Z) (y : sys) | YFault (f : fault).
Arguments YOk {A} a y.
Arguments YExit {A} code y.
Arguments YFault {A} f.

Definition Y (A : Type) : Type := sys → yres A.

#[export] Instance Y_ret : MRet Y := λ A a y, YOk a y.
#[export] Instance Y_bind : MBind Y := λ A B f m y,
  match m y with
  | YOk a y' => f a y'
  | YExit c y' => YExit c y'
  | YFault f => YFault f
  end.

Definition yexit {A} (code : Z) : Y A := λ y, YExit code y.
Definition yfault {A} (f : fault) : Y A := λ y, YFault f.
Definition ygets {A} (f : sys → A) : Y A := λ y, YOk (f y) y.
Definition ymodify (f : sys → sys) : Y unit := λ y, YOk tt (f y).
Definition ywhen (b : bool) (m : Y unit) : Y unit := if b then m else mret tt.

(** A system call: its result, recorded in the trace. *)
Definition sys_call (c : call) : Y Z := λ y,
  let r := se_ret (y_env y) (y_trace y) c in
  YOk r (y <| y_trace ::= cons (c, r) |>).

(** The number the last [ioctl] stored. *)
Definition ioctl_val : Y Z := ygets (λ y, se_val (y_env y) (y_trace y)).

(** A function of the daemon. *)
Definition lift {A} (m : M A) : Y A := λ y,
  match m (y_world y) with
  | Ok a w => YOk a (y <| y_world := w |>)
  | Err (Exit code) => YExit code y
  | Err (Fault f) => YFault f
  end.

(** A name in an array of [size] characters, with its terminator. *)
Definition in_array (size : Z) (s : string) : Y string :=
  if slen s <? size then mret s else yfault OutOfBounds.

(** ** Weakest preconditions

    [ywp m Q X y]: from [y] the statement ends in a state with [Q], or exits
    with a code and a state that satisfy [X]; there is no fault. *)

Definition ywp {A} (m : Y A) (Q : A → sys → Prop) (X : Z → sys → Prop) (y : sys) : Prop :=
  match m y with
  | YOk a y' => Q a y'
  | YExit c y' => X c y'
  | YFault _ => False
  end.

Section ywp.
Context {A : Type}.
Implicit Types (m : Y A) (Q : A → sys → Prop) (X : Z → sys → Prop) (y : sys).

Lemma ywp_ret Q X a y : Q a y → ywp (mret a) Q X y.
Proof. done. Qed.

Lemma ywp_bind {B} (m : Y B) (k : B → Y A) Q X y :
  ywp m (λ b y', ywp (k b) Q X y') X y → ywp (m ≫= k) Q X y.
Proof. unfold ywp, mbind, Y_bind. by destruct (m y). Qed.

Lemma ywp_exit Q X code y : X code y → ywp (yexit code) Q X y.
Proof. done. Qed.

Lemma ywp_gets Q X (f : sys → A) y : Q (f y) y → ywp (ygets f) Q X y.
Proof. done. Qed.

Lemma ywp_wand m Q Q' X X' y :
  ywp m Q X y → (∀ a y', Q a y' → Q' a y') → (∀ c y', X c y' → X' c y') → ywp m Q' X' y.
Proof. unfold ywp. destruct (m y); eauto. Qed.

Lemma ywp_run m Q X y a y' : m y = YOk a y' → Q a y' → ywp m Q X y.
Proof. unfold ywp. by intros ->. Qed.

Lemma ywp_ok m Q X y a y' : m y = YOk a y' → ywp m Q X y → Q a y'.
Proof. unfold ywp. by intros ->. Qed.

Lemma ywp_lift (m : M A) Q X y a w :
  m (y_world y) = Ok a w → Q a (y <| y_world := w |>) → ywp (lift m) Q X y.
Proof. unfold ywp, lift. by intros ->. Qed.
End ywp.

Lemma ywp_modify Q X f y : Q tt (f y) → ywp (ymodify f) Q X y.
Proof. done. Qed.

Lemma ywp_call Q X c y :
  (∀ r, r = se_ret (y_env y) (y_trace y) c → Q r (y <| y_trace ::= cons (c, r) |>)) →
  ywp (sys_call c) Q X y.
Proof. intros H. by apply H. Qed.

Lemma ywp_in_array Q X size s y :
  slen s < size → Q s y → ywp (in_array size s) Q X y.
Proof. intros Hs HQ. unfold in_array. by rewrite (proj2 (Z.ltb_lt _ _)). Qed.

(** Compute the fields of a state that is given by its fields. *)
Ltac ynorm :=
  cbn [upd_field set_y_trace set_y_log_to_file set_y_log_file_fd set_y_log_rt_fd set_y_ifname
    set_y_sock set_y_aodvnl set_y_rtnl set_y_callbacks set_y_nr_callbacks set_y_world
    y_env y_trace y_log_to_file y_log_file_fd y_log_rt_fd y_ifname y_sock y_aodvnl y_rtnl
    y_callbacks y_nr_callbacks y_world].

(** One step of a walk through the calls of a statement. *)
Ltac ystep :=
  cbv beta;
  lazymatch goal with
  | |- ywp (_ ≫= _) _ _ _ => apply ywp_bind
  | |- ywp (mret _) _ _ _ => apply ywp_ret
  | |- ywp (yexit _) _ _ _ => apply ywp_exit
  | |- ywp (ygets _) _ _ _ => apply ywp_gets
  | |- ywp (ymodify _) _ _ _ => apply ywp_modify
  | |- ywp ioctl_val _ _ _ => apply ywp_gets
  | |- ywp (sys_call _) _ _ _ =>
      let r := fresh "r" in let Hr := fresh "Hr" in apply ywp_call; intros r Hr
  | |- ywp (if ?b then _ else _) _ _ _ => let E := fresh "E" in destruct b eqn:E
  end.

(** Walk through the calls up to the next branch. *)
Ltac ywalk :=
  repeat (cbv beta;
    lazymatch goal with
    | |- ywp (_ ≫= _) _ _ _ => ystep
    | |- ywp (mret _) _ _ _ => ystep
    | |- ywp (ygets _) _ _ _ => ystep
    | |- ywp ioctl_val _ _ _ => ystep
    | |- ywp (ymodify _) _ _ _ => ystep
    | |- ywp (sys_call _) _ _ _ => ystep
    end); ynorm.

(** ** Descriptors *)

Lemma open_fds_nonneg tr fd : fd ∈ open_fds tr → 0 ≤ fd.
Proof.
  induction tr as [|[c r] tr IH]; [done|]. destruct c; cbn [open_fds opens andb];
    try case_match; set_solver by lia.
Qed.

(** A call that neither opens nor closes. *)
Definition keeps_fds (c : call) : bool :=
  match c with COpen _ _ | CSocket _ _ _ | CClose _ => false | _ => true end.

Lemma open_fds_other c r tr : keeps_fds c = true → open_fds ((c, r) :: tr) = open_fds tr.
Proof. by destruct c. Qed.

(** Opening a descriptor and closing it again. *)
Lemma open_fds_close e tr c r tr' x :
  fresh_fds e → opens c = true → r = se_ret e tr c →
  open_fds tr' = open_fds ((c, r) :: tr) →
  open_fds ((CClose r, x) :: tr') = open_fds tr.
Proof.
  intros Hf Hc Hr Htr. cbn [open_fds]. rewrite Htr. clear Htr.
  assert (r ∉ open_fds tr) as Hn.
  { destruct (decide (0 ≤ r)) as [H0|H0]; [subst r; by apply Hf|].
    intros Hin%open_fds_nonneg. lia. }
  destruct c; try done; cbn [open_fds opens andb]; destruct (0 <=? r); set_solver.
Qed.

Lemma open_fds_open c r tr :
  opens c = true → 0 ≤ r → open_fds ((c, r) :: tr) = {[ r ]} ∪ open_fds tr.
Proof. intros Hc Hr. destruct c; try done; cbn; by rewrite (proj2 (Z.leb_le _ _)). Qed.

(** ** The trace only grows *)

Definition grows {A} (m : Y A) : Prop := ∀ y a y',
  m y = YOk a y' → suffix (y_trace y) (y_trace y').

Lemma grows_bind {A B} (m : Y A) (k : A → Y B) :
  grows m → (∀ a, grows (k a)) → grows (m ≫= k).
Proof.
  intros Hm Hk y b y''. unfold mbind, Y_bind. destruct (m y) as [a y'| |] eqn:E; [|done|done].
  intros H. etrans; [by eapply Hm|by eapply Hk].
Qed.

Lemma grows_same {A} (m : Y A) : (∀ y a y', m y = YOk a y' → y_trace y' = y_trace y) → grows m.
Proof. intros H y a y' E. by rewrite (H _ _ _ E). Qed.

Lemma grows_call c : grows (sys_call c).
Proof. intros y a y' [= _ <-]. by eexists [_]. Qed.

Lemma grows_in_array n s : grows (in_array n s).
Proof. intros y a y'. unfold in_array. case_match; [|done]. by intros [= _ <-]. Qed.

Ltac grows_step :=
  lazymatch goal with
  | |- grows (_ ≫= _) => apply grows_bind; [|intros ?]
  | |- grows (sys_call _) => apply grows_call
  | |- grows (in_array _ _) => apply grows_in_array
  | |- grows (match ?x with _ => _ end) => destruct x
  | |- grows _ => apply grows_same; by intros ? ? ? [= _ <-]
  end.

Lemma ywp_grows {A} (m : Y A) Q X y :
  grows m → ywp m Q X y →
  ywp m (λ a y', Q a y' ∧ suffix (y_trace y) (y_trace y')) X y.
Proof. intros Hm. unfold ywp. destruct (m y) eqn:E; [|done|done]. intros H. split; [done|by eapply Hm]. Qed.
