(* ===== verification/Startup.v ===== *)
(** * Start-up and shutdown (main.c; the socket set-up of nl.c, aodv_socket.c
    and debug.c)

    The calls [main] makes before its loop, and those of the [SIGINT] handler.
    Messages to the log and to standard error are left out. *)

From S2P Require Export Sys.

(** ** The callback table *)

Definition CALLBACK_FUNCS : Z := 3.

Definition attach_callback_func (fd : Z) (func : callback_func) : Y Z :=
  nr_callbacks ← ygets y_nr_callbacks;
  if CALLBACK_FUNCS <=? nr_callbacks then mret (-1)
  else
    ymodify (λ y, y <| y_callbacks ::= <[Z.to_nat nr_callbacks := (fd, Some func)]> |>);;
    ymodify (λ y, y <| y_nr_callbacks ::= λ n, n + 1 |>);;
    mret 0.

(** ** Options of the kernel *)

(** One block of the two functions below: open the file, write one character,
    close it. *)
Definition write_option (path c : string) : Y Z :=
  fd ← sys_call (COpen path O_WRONLY);
  if fd <? 0 then mret (-1)
  else
    r ← sys_call (CWrite fd c);
    if r <? 0 then mret (-1)
    else
      _ ← sys_call (CClose fd);
      mret 0.

Definition ip_forward : string := "/proc/sys/net/ipv4/ip_forward".
Definition conf_path (dev option : string) : string :=
  "/proc/sys/net/ipv4/conf/" +:+ dev +:+ "/" +:+ option.

(** [sprintf(path, ...)] into the 64 characters of [path]. *)
Definition sprintf_path (s : string) : Y string := in_array 64 s.

Definition set_kernel_options : Y Z :=
  r ← write_option ip_forward "1";
  if r <? 0 then mret (-1)
  else
    enabled ← ygets (λ y, dev_enabled (h_dev (this_host (y_world y))));
    ifname ← ygets y_ifname;
    if enabled =? 0 then mret (-1)
    else
      path ← sprintf_path (conf_path ifname "send_redirects");
      r ← write_option path "0";
      if r <? 0 then mret (-1)
      else
        path ← sprintf_path (conf_path ifname "accept_redirects");
        r ← write_option path "0";
        if r <? 0 then mret (-1)
        else
          path ← sprintf_path (conf_path "all" "send_redirects");
          r ← write_option path "0";
          if r <? 0 then mret (-1)
          else
            path ← sprintf_path (conf_path "all" "accept_redirects");
            write_option path "0".

Definition reset_kernel_options : Y Z :=
  r ← write_option ip_forward "1";
  if r <? 0 then mret (-1)
  else
    enabled ← ygets (λ y, dev_enabled (h_dev (this_host (y_world y))));
    ifname ← ygets y_ifname;
    if enabled =? 0 then mret (-1)
    else
      path ← sprintf_path (conf_path ifname "send_redirects");
      r ← write_option path "1";
      if r <? 0 then mret (-1)
      else
        path ← sprintf_path (conf_path ifname "accept_redirects");
        r ← write_option path "1";
        if r <? 0 then mret (-1)
        else
          path ← sprintf_path (conf_path "all" "send_redirects");
          r ← write_option path "1";
          if r <? 0 then mret (-1)
          else
            path ← sprintf_path (conf_path "all" "accept_redirects");
            write_option path "0".

(** ** The kernel module *)

Definition load_modules : Y unit :=
  st ← sys_call (CStat "./kaodv.ko");
  let buf := if st =? 0 then "/usr/sbin/insmod kaodv.ko" else EmptyString in
  r ← sys_call (CSystem buf);
  if r =? -1 then yexit (-1) else mret tt.

Definition remove_modules : Y unit :=
  _ ← sys_call (CSystem "/usr/sbin/rmmod kaodv.ko"); mret tt.

(** ** The interface *)

Definition IFNAMSIZ : Z := 16.

Definition get_if_info (ifname : string) (type : ioctl_req) : Y (option Z) :=
  skfd ← sys_call (CSocket PF_INET SOCK_DGRAM IPPROTO_IP);
  ifr_name ← in_array IFNAMSIZ ifname;
  r ← sys_call (CIoctl skfd type ifr_name);
  if r <? 0 then _ ← sys_call (CClose skfd); mret None
  else
    ina ← ioctl_val;
    _ ← sys_call (CClose skfd);
    mret (Some ina).

Definition upd_dev (f : dev_info → dev_info) : Y unit :=
  lift (modify (λ w, w <| this_host ::= λ h, h <| h_dev ::= f |> |>)).

(** The entries of the [struct ifconf] that the loop of [host_init] reads: one
    more than the system wrote. The buffer has room for 32 of them. *)
Definition ifconf_entry (i : nat) : Y string :=
  names ← ygets (λ y, take 32 (se_names (y_env y)));
  garbage ← ygets (λ y, se_garbage (y_env y) i);
  if decide (i < 32)%nat then mret (default garbage (names !! i)) else yfault OutOfBounds.

(** The loop over the interfaces: the first wireless one, in [tmp_ifname]. *)
Fixpoint find_wireless (iw_sock : Z) (i rest : nat) (tmp_ifname : string) : Y string :=
  name ← ifconf_entry i;
  name ← in_array IFNAMSIZ name;
  r ← sys_call (CIoctl iw_sock SIOCGIWNAME name);
  if 0 <=? r then mret name
  else match rest with
  | O => mret tmp_ifname
  | S rest => find_wireless iw_sock (S i) rest tmp_ifname
  end.

(** [host_init] without a name: look for a wireless interface. *)
Definition host_find_ifname : Y string :=
  iw_sock ← sys_call (CSocket PF_INET SOCK_DGRAM IPPROTO_IP);
  r ← sys_call (CIoctl iw_sock SIOCGIFCONF EmptyString);
  if r <? 0 then yexit (-1)
  else
    n ← ygets (λ y, length (take 32 (se_names (y_env y))));
    garbage ← ygets (λ y, se_garbage (y_env y) 64);
    tmp_ifname ← find_wireless iw_sock 0 n garbage;
    tmp_ifname ← in_array IFNAMSIZ tmp_ifname;
    if bool_decide (tmp_ifname = EmptyString) then yexit (-1)
    else
      r ← sys_call (CIoctl iw_sock SIOCGIFINDEX tmp_ifname);
      if r <? 0 then _ ← sys_call (CClose 0); yexit (-1)
      else _ ← sys_call (CClose iw_sock); mret tmp_ifname.

Definition host_init (ifname : option string) : Y unit :=
  lift (modify (λ w, w <| this_host := Host 0 0 (TV 0 0) (TV 0 0) (Dev 0 0 0 0 0) |>));;
  ymodify (λ y, y <| y_ifname := EmptyString |> <| y_sock := 0 |>);;
  ifname ← match ifname with Some ifname => mret ifname | None => host_find_ifname end;
  lift (modify (λ w, w <| this_host ::= λ h, h <| h_seqno := 0 |> <| h_rreq_id := 0 |> |>));;
  now ← lift gettimeofday;
  lift (modify (λ w, w <| this_host ::= λ h, h <| h_last_broadcast_time := now |> |>));;
  if_sock ← sys_call (CSocket PF_INET SOCK_DGRAM IPPROTO_IP);
  ifr_name ← in_array IFNAMSIZ ifname;
  r ← sys_call (CIoctl if_sock SIOCGIFINDEX ifr_name);
  if r <? 0 then _ ← sys_call (CClose if_sock); yexit (-1)
  else
    ifindex ← ioctl_val;
    upd_dev (λ d, d <| dev_ifindex := ifindex |>);;
    name ← in_array IFNAMSIZ ifname;
    ymodify (λ y, y <| y_ifname := name |>);;
    ina ← get_if_info ifname SIOCGIFADDR;
    match ina with None => yexit (-1) | Some a => upd_dev (λ d, d <| dev_ipaddr := a |>) end;;
    ina ← get_if_info ifname SIOCGIFNETMASK;
    match ina with None => yexit (-1) | Some a => upd_dev (λ d, d <| dev_netmask := a |>) end;;
    ina ← get_if_info ifname SIOCGIFBRDADDR;
    match ina with None => yexit (-1) | Some a => upd_dev (λ d, d <| dev_broadcast := a |>) end;;
    upd_dev (λ d, d <| dev_enabled := 1 |>);;
    load_modules;;
    r ← set_kernel_options;
    if r <? 0 then yexit (-1) else mret tt.

(** ** The netlink sockets (nl.c) *)

Definition AODVGRP_NOTIFY : Z := 1.
Definition RTMGRP_NOTIFY : Z := 1.
Definition RTMGRP_IPV4_IFADDR : Z := 0x10.
Definition RTMGRP_IPV4_ROUTE : Z := 0x40.

(** The two halves of [nl_init] do the same to [aodvnl] and to [rtnl]. *)
Definition nl_open (p : protocol) (groups : Z) (set : Z → sys → sys) (func : callback_func) : Y unit :=
  pid ← sys_call CGetpid;
  sock ← sys_call (CSocket PF_NETLINK SOCK_RAW p);
  ymodify (set sock);;
  if sock <? 0 then yexit (-1)
  else
    status ← sys_call (CBind sock (SockaddrNl pid groups));
    if status <? 0 then yexit (-1)
    else
      r ← sys_call (CGetsockname sock);
      if r <? 0 then yexit (-1)
      else _ ← attach_callback_func sock func; mret tt.

Definition nl_init : Y unit :=
  lift (modify (λ w, w <| aodvnl_seqno := 0 |>));;
  nl_open NETLINK_AODV AODVGRP_NOTIFY (λ s y, y <| y_aodvnl := s |>) cb_nl_kaodv_callback;;
  lift (modify (λ w, w <| rtnl_seqno := 0 |>));;
  nl_open NETLINK_ROUTE (Z.lor RTMGRP_NOTIFY (Z.lor RTMGRP_IPV4_IFADDR RTMGRP_IPV4_ROUTE))
    (λ s y, y <| y_rtnl := s |>) cb_nl_rt_callback.

Definition nl_cleanup : Y unit :=
  aodvnl ← ygets y_aodvnl;
  _ ← sys_call (CClose aodvnl);
  rtnl ← ygets y_rtnl;
  _ ← sys_call (CClose rtnl);
  mret tt.

(** ** The AODV socket (aodv_socket.c) *)

Definition INADDR_ANY : Z := 0.
Definition IPTOS_LOWDELAY : Z := 0x10.
Definition SOCK_RECVBUF_SIZE : Z := 256 * 1024.

(** [setsockopt], or [exit]. *)
Definition setsockopt_or_exit (fd : Z) (o : sockopt) : Y unit :=
  r ← sys_call (CSetsockopt fd o);
  if r <? 0 then yexit (-1) else mret tt.

(** The loop that asks for a smaller and smaller receive buffer. *)
Fixpoint rcvbuf_loop (fuel : nat) (fd bufsize : Z) : Y unit :=
  r ← sys_call (CSetsockopt fd (SO_RCVBUF bufsize));
  if r =? 0 then mret tt
  else if bufsize <? RECE_BUF_SIZE then yexit (-1)
  else match fuel with
  | O => yfault OutOfFuel
  | S fuel => rcvbuf_loop fuel fd (bufsize - 1024)
  end.

Definition aodv_socket_init : Y unit :=
  enabled ← ygets (λ y, dev_enabled (h_dev (this_host (y_world y))));
  if enabled =? 0 then yexit (-1)
  else
    fd ← sys_call (CSocket PF_INET SOCK_DGRAM IPPROTO_UDP);
    ymodify (λ y, y <| y_sock := fd |>);;
    if fd <? 0 then yexit (-1)
    else
      r ← sys_call (CBind fd (SockaddrIn (swap16 AODV_PORT) (htonl INADDR_ANY)));
      if r <? 0 then yexit (-1)
      else
        setsockopt_or_exit fd (SO_BROADCAST 1);;
        ifname ← ygets y_ifname;
        ifr_name ← in_array IFNAMSIZ ifname;
        setsockopt_or_exit fd (SO_BINDTODEVICE ifr_name);;
        setsockopt_or_exit fd (SO_PRIORITY IPTOS_LOWDELAY);;
        setsockopt_or_exit fd (IP_RECVTTL 1);;
        setsockopt_or_exit fd (IP_PKTINFO 1);;
        rcvbuf_loop 256 fd SOCK_RECVBUF_SIZE;;
        r ← attach_callback_func fd cb_aodv_socket_read;
        if r <? 0 then yexit (-1)
        else lift aodv_socket_init_counters.

Definition aodv_socket_cleanup : Y unit :=
  fd ← ygets y_sock;
  _ ← sys_call (CClose fd);
  mret tt.

(** ** The log files (debug.c) *)

Definition AODV_LOG_PATH : string := "/var/log/aodv.log".
Definition AODV_RT_LOG_PATH : string := "/var/log/aodv.rtlog".

Definition log_init : Y unit :=
  log_to_file ← ygets y_log_to_file;
  ywhen (negb (log_to_file =? 0))
    (fd ← sys_call (COpen AODV_LOG_PATH O_RDWR_CREAT_TRUNC);
     ymodify (λ y, y <| y_log_file_fd := fd |>);;
     if fd <? 0 then yexit (-1) else mret tt);;
  interval ← ygets (λ y, rt_log_interval (cfg (y_world y)));
  ywhen (negb (interval =? 0))
    (fd ← sys_call (COpen AODV_RT_LOG_PATH O_RDWR_CREAT_TRUNC);
     ymodify (λ y, y <| y_log_rt_fd := fd |>);;
     if fd <? 0 then yexit (-1) else mret tt).

Definition log_cleanup : Y unit :=
  log_to_file ← ygets y_log_to_file;
  fd ← ygets y_log_file_fd;
  ywhen (negb (log_to_file =? 0) && negb (fd =? 0))
    (_ ← sys_call (CClose fd);
     _ ← sys_call (CRemove AODV_LOG_PATH);
     mret tt);;
  interval ← ygets (λ y, rt_log_interval (cfg (y_world y)));
  fd ← ygets y_log_rt_fd;
  ywhen (negb (interval =? 0) && negb (fd =? 0))
    (_ ← sys_call (CClose fd);
     _ ← sys_call (CRemove AODV_RT_LOG_PATH);
     mret tt).

(** ** main, up to the loop, and the end of the program *)

Definition SIGINT : Z := 2.

Definition main_start : Y unit :=
  uid ← sys_call CGeteuid;
  if negb (uid =? 0) then yexit (-1)
  else
    _ ← sys_call (CSignal SIGINT);
    log_init;;
    lift log_rt_table_init;;
    lift rt_table_init;;
    host_init (Some "br-lan");;
    nl_init;;
    _ ← lift nl_send_conf_msg;
    aodv_socket_init.

Definition cleanup : Y unit :=
  lift rt_table_destroy;;
  aodv_socket_cleanup;;
  nl_cleanup;;
  remove_modules;;
  _ ← reset_kernel_options;
  log_cleanup.

(** The case of [SIGINT] falls through to [exit(0)]. *)
Definition signal_handler {A} (sign_no : Z) : Y A :=
  ywhen (sign_no =? SIGINT) cleanup;; yexit 0.

(** The statics before [main] runs. *)
Definition initial_sys (se : senv) (e : env) : sys :=
  Sys se [] 1 (-1) (-1) EmptyString 0 0 0 [(0, None); (0, None); (0, None)] 0 (initial_world e).

(** ** The options files *)

(** What a successful call of the two functions writes: [c] for the
    interface and for [all/send_redirects]. *)
Definition kernel_options (ifname c : string) : gmap string string :=
  <[conf_path "all" "accept_redirects" := "0"%string]> (
  <[conf_path "all" "send_redirects" := c]> (
  <[conf_path ifname "accept_redirects" := c]> (
  <[conf_path ifname "send_redirects" := c]> {[ ip_forward := "1"%string ]}))).

(** The common text of [set_kernel_options] and [reset_kernel_options]. *)
Definition options_prog (c : string) : Y Z :=
  r ← write_option ip_forward "1";
  if r <? 0 then mret (-1)
  else
    enabled ← ygets (λ y, dev_enabled (h_dev (this_host (y_world y))));
    ifname ← ygets y_ifname;
    if enabled =? 0 then mret (-1)
    else
      path ← sprintf_path (conf_path ifname "send_redirects");
      r ← write_option path c;
      if r <? 0 then mret (-1)
      else
        path ← sprintf_path (conf_path ifname "accept_redirects");
        r ← write_option path c;
        if r <? 0 then mret (-1)
        else
          path ← sprintf_path (conf_path "all" "send_redirects");
          r ← write_option path c;
          if r <? 0 then mret (-1)
          else
            path ← sprintf_path (conf_path "all" "accept_redirects");
            write_option path "0".

Lemma set_kernel_options_prog : set_kernel_options = options_prog "0".
Proof. reflexivity. Qed.

Lemma reset_kernel_options_prog : reset_kernel_options = options_prog "1".
Proof. reflexivity. Qed.

(** The state after further calls. *)
Definition traced (tr : trace) (y : sys) : sys := y <| y_trace := tr |>.

Lemma ywp_traced {A} (m : Y A) Q X y : ywp m Q X (traced (y_trace y) y) → ywp m Q X y.
Proof. by destruct y. Qed.

(** At most [n] descriptors more are open. *)
Definition leaks (n : nat) (tr tr' : trace) : Prop :=
  ∃ L, (size L ≤ n)%nat ∧ open_fds tr' = L ∪ open_fds tr.

Lemma leaks_0 tr tr' : open_fds tr' = open_fds tr → leaks 0 tr tr'.
Proof. intros E. exists ∅. split; [done|]. rewrite E. set_solver. Qed.

Lemma leaks_mono n m tr tr1 tr' :
  open_fds tr1 = open_fds tr → (n ≤ m)%nat → leaks n tr1 tr' → leaks m tr tr'.
Proof. intros E Hnm (L & HL & HE). exists L. split; [lia|]. by rewrite HE, E. Qed.

Lemma slen_conf_path dev o : slen dev < IFNAMSIZ → slen o ≤ 16 → slen (conf_path dev o) < 64.
Proof.
  unfold IFNAMSIZ, conf_path. rewrite !slen_app.
  change (slen "/proc/sys/net/ipv4/conf/") with 24. change (slen "/") with 1. lia.
Qed.

(** Some call fails. *)
Definition fails (e : senv) : Prop := ∃ tr c, se_ret e tr c < 0.

Section options.
Context (X : Z → sys → Prop).

Lemma write_option_wp path c y :
  fresh_fds (y_env y) →
  ywp (write_option path c) (λ r y', ∃ tr, y' = traced tr y ∧
    ((r = 0 ∧ open_fds tr = open_fds (y_trace y) ∧
      contents tr = <[path := c]> (contents (y_trace y))) ∨
     (r = -1 ∧ leaks 1 (y_trace y) tr ∧ fails (y_env y)))) X y.
Proof.
  intros Hf. unfold write_option. do 4 ystep.
  { apply Z.ltb_lt in E. eexists. split; [reflexivity|]. right.
    split_and!; [done| |rewrite Hr in E; do 2 eexists; exact E].
    apply (leaks_mono 0 1 _ (y_trace y)); [done|lia|]. apply leaks_0. cbn.
    by rewrite (proj2 (Z.leb_gt _ _)). }
  apply Z.ltb_ge in E. do 3 ystep.
  { apply Z.ltb_lt in E0. eexists. split; [reflexivity|]. right.
    split_and!; [done| |rewrite Hr0 in E0; do 2 eexists; exact E0].
    exists {[ r ]}. split; [by rewrite size_singleton|].
    cbn [y_trace upd_field set_y_trace]. rewrite open_fds_other by done.
    by apply open_fds_open. }
  apply Z.ltb_ge in E0. do 2 ystep. eexists. split; [reflexivity|]. left. split_and!; [done| |].
  - by apply (open_fds_close (y_env y) (y_trace y) (COpen path O_WRONLY) r
      ((CWrite r c, r0) :: (COpen path O_WRONLY, r) :: y_trace y) r1).
  - cbn. rewrite Z.eqb_refl, (proj2 (Z.leb_le _ _)) by lia. done.
Qed.

(** One block after others: [tr0] is the trace when the function started. *)
Lemma write_option_then path c (k : Y Z) (Q : Z → sys → Prop) y tr0 tr :
  fresh_fds (y_env y) → open_fds tr = open_fds tr0 →
  (∀ tr', open_fds tr' = open_fds tr0 → contents tr' = <[path := c]> (contents tr) →
     ywp k Q X (traced tr' y)) →
  (∀ tr', leaks 1 tr0 tr' → fails (y_env y) → Q (-1) (traced tr' y)) →
  ywp (r ← write_option path c; if r <? 0 then mret (-1) else k) Q X (traced tr y).
Proof.
  intros Hf Htr Hk HQ. apply ywp_bind.
  eapply ywp_wand; [by apply write_option_wp| |done].
  intros r y1 (tr1 & -> & [(-> & Ho & Hc)|(-> & Hl & Hfail)]).
  - cbn [Z.ltb Z.compare]. apply Hk; [by rewrite Ho|done].
  - apply ywp_ret, HQ; [by eapply leaks_mono|done].
Qed.

Lemma options_prog_wp c y :
  fresh_fds (y_env y) → slen (y_ifname y) < IFNAMSIZ →
  dev_enabled (h_dev (this_host (y_world y))) ≠ 0 →
  ywp (options_prog c) (λ r y', ∃ tr, y' = traced tr y ∧
    ((r = 0 ∧ open_fds tr = open_fds (y_trace y) ∧
      contents tr = kernel_options (y_ifname y) c ∪ contents (y_trace y)) ∨
     (r = -1 ∧ leaks 1 (y_trace y) tr ∧ fails (y_env y)))) X y.
Proof.
  intros Hf Hn He. unfold options_prog.
  apply ywp_traced, (write_option_then _ _ _ _ _ (y_trace y)); [done..| |eauto 12].
  intros tr1 Ho1 Hc1. do 4 ystep. rewrite (proj2 (Z.eqb_neq _ _)) by done.
  apply ywp_bind, ywp_in_array; [by apply slen_conf_path|].
  apply (write_option_then _ _ _ _ _ (y_trace y)); [done..| |eauto 12].
  intros tr2 Ho2 Hc2. apply ywp_bind, ywp_in_array; [by apply slen_conf_path|].
  apply (write_option_then _ _ _ _ _ (y_trace y)); [done..| |eauto 12].
  intros tr3 Ho3 Hc3. apply ywp_bind, ywp_in_array; [by apply slen_conf_path|].
  apply (write_option_then _ _ _ _ _ (y_trace y)); [done..| |eauto 12].
  intros tr4 Ho4 Hc4. apply ywp_bind, ywp_in_array; [by apply slen_conf_path|].
  eapply ywp_wand; [by apply write_option_wp| |done].
  intros r y5 (tr5 & -> & [(-> & Ho5 & Hc5)|(-> & Hl5 & Hfail)]);
    (eexists; split; [reflexivity|]).
  - left. split_and!; [done|by rewrite Ho5|].
    rewrite Hc5. cbn [y_trace traced upd_field set_y_trace].
    rewrite Hc4, Hc3, Hc2, Hc1. unfold kernel_options.
    by rewrite <-!insert_union_l, <-insert_union_singleton_l.
  - right. split_and!; [done|by eapply leaks_mono|done].
Qed.
End options.

(** ** The interface *)

(** Calls that leave descriptors and files alone. *)
Definition quiet (tr tr' : trace) : Prop :=
  open_fds tr' = open_fds tr ∧ contents tr' = contents tr.

#[export] Instance quiet_preorder : PreOrder quiet.
Proof. split; [by intros tr|]. intros tr1 tr2 tr3 [? ?] [? ?]. split; congruence. Qed.

Definition writes (c : call) : bool := match c with CWrite _ _ => true | _ => false end.

Lemma quiet_call c r tr tr' :
  keeps_fds c = true → writes c = false → quiet tr tr' → quiet tr ((c, r) :: tr').
Proof. intros Hc Hw [Ho Hn]. by destruct c. Qed.

Lemma contents_open c r tr : writes c = false → contents ((c, r) :: tr) = contents tr.
Proof. by destruct c. Qed.

Section interface.
Context (X : Z → sys → Prop) (HX : ∀ y, X (-1) y).

Lemma get_if_info_wp ifname type y :
  fresh_fds (y_env y) → slen ifname < IFNAMSIZ →
  ywp (get_if_info ifname type)
    (λ _ y', ∃ tr, y' = traced tr y ∧ quiet (y_trace y) tr) X y.
Proof.
  intros Hf Hn. unfold get_if_info. do 2 ystep.
  apply ywp_bind, ywp_in_array; [done|]. do 5 ystep; [|do 2 ystep];
    (eexists; split; [reflexivity|split; [|done]]);
    by apply (open_fds_close (y_env y) (y_trace y) (CSocket PF_INET SOCK_DGRAM IPPROTO_IP) r
         ((CIoctl r type ifname, r0) :: (CSocket PF_INET SOCK_DGRAM IPPROTO_IP, r) :: y_trace y)).
Qed.

Lemma load_modules_wp y :
  ywp load_modules (λ _ y', ∃ tr, y' = traced tr y ∧ quiet (y_trace y) tr) X y.
Proof.
  unfold load_modules. do 5 ystep; [apply HX|]. ystep.
  eexists. split; [reflexivity|]. by repeat apply quiet_call.
Qed.

(** One of the three addresses. *)
Lemma address_wp {A} ifname type (set : Z → dev_info → dev_info) (k : Y A) Q y :
  fresh_fds (y_env y) → slen ifname < IFNAMSIZ →
  (∀ a tr, quiet (y_trace y) tr →
     ywp k Q X (traced tr (y <| y_world ::= λ w,
       w <| this_host ::= λ h, h <| h_dev ::= set a |> |> |>))) →
  ywp (ina ← get_if_info ifname type;
       match ina with None => yexit (-1) | Some a => upd_dev (set a) end;; k) Q X y.
Proof.
  intros Hf Hn Hk. apply ywp_bind. eapply ywp_wand; [by apply get_if_info_wp| |done].
  intros [a|] y1 (tr & -> & Htr); [|apply HX]. apply ywp_bind.
  eapply ywp_lift; [reflexivity|]. by apply Hk.
Qed.
End interface.

Section host_init.
Context (X : Z → sys → Prop) (HX : ∀ y, X (-1) y).

(** [host_init] with a name, from the state [y]: what the daemon sees is
    [host_fields_init] for some interface; the options files are written; the
    descriptor of the socket that finds the index stays open. *)
Lemma host_init_wp ifname y :
  fresh_fds (y_env y) → slen ifname < IFNAMSIZ →
  ywp (host_init (Some ifname)) (λ _ y', ∃ dev w tr,
    host_fields_init dev (y_world y) = Ok tt w ∧ dev_enabled (h_dev (this_host w)) = 1 ∧
    y' = traced tr (y <| y_ifname := ifname |> <| y_sock := 0 |> <| y_world := w |>) ∧
    leaks 1 (y_trace y) tr ∧
    contents tr = kernel_options ifname "0" ∪ contents (y_trace y)) X y.
Proof.
  destruct y as [e tr0 lf lfd lrt name sk an rn cbs ncb w]. intros Hf Hn. unfold host_init.
  apply ywp_bind; eapply ywp_lift; [reflexivity|]. ynorm. do 3 ystep. ynorm.
  apply ywp_bind; eapply ywp_lift; [reflexivity|]. ynorm.
  apply ywp_bind; eapply ywp_lift; [reflexivity|]. ynorm.
  apply ywp_bind; eapply ywp_lift; [reflexivity|]. ynorm.
  set (w0 := upd_field this_host _ _).
  do 2 ystep. ynorm. apply ywp_bind, ywp_in_array; [done|]. do 2 ystep. ynorm. ystep.
  { do 3 ystep. apply HX. }
  do 2 ystep. ynorm. apply ywp_bind; eapply ywp_lift; [reflexivity|]. ynorm.
  apply ywp_bind, ywp_in_array; [done|]. do 2 ystep. ynorm.
  apply (address_wp X HX _ _ (λ a d, d <| dev_ipaddr := a |>)); [done..|]. intros a1 tr1 Q1.
  apply (address_wp X HX _ _ (λ a d, d <| dev_netmask := a |>)); [done..|]. intros a2 tr2 Q2.
  apply (address_wp X HX _ _ (λ a d, d <| dev_broadcast := a |>)); [done..|]. intros a3 tr3 Q3.
  apply ywp_bind; eapply ywp_lift; [reflexivity|].
  apply ywp_bind. eapply ywp_wand; [by apply load_modules_wp| |done].
  intros _ y1 (tr4 & -> & Q4). apply ywp_bind. rewrite set_kernel_options_prog.
  eapply ywp_wand; [by apply options_prog_wp| |done].
  intros r1 y2 (tr & -> & [(-> & Ho & Hc)|(-> & _)]); [|apply HX]. apply ywp_ret.
  eexists (Dev 0 _ a1 a2 a3), _, tr. split_and!; [reflexivity..| |].
  - unfold leaks. assert (open_fds tr = open_fds ((CSocket PF_INET SOCK_DGRAM IPPROTO_IP, r) :: tr0)) as ->.
    { rewrite Ho. etrans; [apply Q4|]. etrans; [apply Q3|]. etrans; [apply Q2|].
      etrans; [apply Q1|]. done. }
    cbn. destruct (0 <=? r); [exists {[r]}|exists ∅].
    + by rewrite size_singleton.
    + rewrite size_empty. split; [lia|]. set_solver.
  - rewrite Hc. f_equal. etrans; [apply Q4|]. etrans; [apply Q3|]. etrans; [apply Q2|].
    etrans; [apply Q1|]. done.
Qed.
End host_init.

(** ** Sockets and log files *)

(** One descriptor more is open. *)
Definition opened (fd : Z) (tr tr' : trace) : Prop :=
  0 ≤ fd ∧ open_fds tr' = {[ fd ]} ∪ open_fds tr ∧ contents tr' = contents tr.

Lemma opened_call c r tr : opens c = true → 0 ≤ r → opened r tr ((c, r) :: tr).
Proof. intros Hc Hr. split_and!; [done|by apply open_fds_open|by destruct c]. Qed.

Lemma opened_quiet fd tr tr1 tr' : opened fd tr tr1 → quiet tr1 tr' → opened fd tr tr'.
Proof. intros (H0 & Ho & Hc) [Ho' Hc']. split_and!; congruence. Qed.

Ltac quiet_calls := repeat (apply quiet_call; [done|done|]); done.

(** A callback attached to the first free slot. *)
Definition attached_callback (fd : Z) (func : callback_func) (y : sys) : sys :=
  y <| y_callbacks ::= <[Z.to_nat (y_nr_callbacks y) := (fd, Some func)]> |>
    <| y_nr_callbacks ::= λ n, n + 1 |>.

Lemma attach_callback_func_run fd func y :
  attach_callback_func fd func y
  = if CALLBACK_FUNCS <=? y_nr_callbacks y then YOk (-1) y
    else YOk 0 (attached_callback fd func y).
Proof.
  unfold attach_callback_func, mbind, Y_bind, ygets.
  by destruct (CALLBACK_FUNCS <=? y_nr_callbacks y).
Qed.

Section sockets.
Context (X : Z → sys → Prop) (HX : ∀ y, X (-1) y).

Lemma nl_open_wp p groups set func y :
  y_nr_callbacks y < CALLBACK_FUNCS →
  (∀ s tr y, set s (traced tr y) = traced tr (set s y)) →
  (∀ s y, y_trace (set s y) = y_trace y ∧ y_nr_callbacks (set s y) = y_nr_callbacks y) →
  ywp (nl_open p groups set func) (λ _ y', ∃ fd tr,
    y' = traced tr (attached_callback fd func (set fd y)) ∧ opened fd (y_trace y) tr) X y.
Proof.
  intros Hnr Hset Hfr. unfold nl_open. do 6 ystep.
  set (tr1 := (CSocket PF_NETLINK SOCK_RAW p, r0) :: (CGetpid, r) :: y_trace y).
  change (ywp (if r0 <? 0 then yexit (-1) else _) ?Q ?X (set r0 _)) with
    (ywp (if r0 <? 0 then yexit (-1) else
      sys_call (CBind r0 (SockaddrNl r groups)) ≫= λ status, if status <? 0 then yexit (-1) else
      sys_call (CGetsockname r0) ≫= λ r1, if r1 <? 0 then yexit (-1) else
      attach_callback_func r0 func ≫= λ _, mret ()) Q X (set r0 (traced tr1 y))).
  rewrite Hset. destruct (Hfr r0 y) as [Htr Hn].
  ystep; [apply HX|]. apply Z.ltb_ge in E. do 3 ystep; [apply HX|]. do 3 ystep; [apply HX|].
  apply ywp_bind. unfold ywp. rewrite attach_callback_func_run.
  cbn [y_nr_callbacks traced upd_field set_y_trace]. rewrite Hn.
  rewrite (proj2 (Z.leb_gt _ _)) by done.
  exists r0. eexists. split; [reflexivity|].
  apply (opened_quiet _ _ tr1); [|quiet_calls].
  exact (opened_call (CSocket PF_NETLINK SOCK_RAW p) r0 ((CGetpid, r) :: y_trace y) eq_refl E).
Qed.

Lemma rcvbuf_loop_wp fuel fd bufsize y :
  0 ≤ bufsize < Z.of_nat (S fuel) * 1024 →
  ywp (rcvbuf_loop fuel fd bufsize) (λ _ y', ∃ tr, y' = traced tr y ∧ quiet (y_trace y) tr) X y.
Proof.
  revert bufsize y. induction fuel as [|fuel IH]; intros bufsize y Hb; cbn [rcvbuf_loop];
    (do 3 ystep; [ystep; eexists; split; [reflexivity|quiet_calls]|]);
    (destruct (Z.ltb_spec bufsize RECE_BUF_SIZE) as [Hlt|Hge]; [apply HX|]);
    unfold RECE_BUF_SIZE in *; [lia|].
  eapply ywp_wand; [apply IH; lia| |done].
  intros _ y' (tr & -> & Hq). eexists. split; [reflexivity|].
  etrans; [|exact Hq]. quiet_calls.
Qed.

End sockets.

(** [n] calls that ask for less and less than [bufsize], all refused. *)
Definition refused (fd bufsize : Z) (n : nat) (l : trace) : Prop :=
  l.*1 = reverse ((λ k, CSetsockopt fd (SO_RCVBUF (bufsize - 1024 * Z.of_nat k))) <$> seq 0 n) ∧
  Forall (λ x, x.2 ≠ 0) l.

Lemma refused_cons fd bufsize n l r :
  r ≠ 0 → refused fd (bufsize - 1024) n l →
  refused fd bufsize (S n) (l ++ [(CSetsockopt fd (SO_RCVBUF bufsize), r)]).
Proof.
  intros Hr [Hl Hf]. split; [|by apply Forall_app_2, Forall_singleton].
  rewrite fmap_app, Hl. cbn [seq fmap list_fmap fst]. rewrite reverse_cons, <-fmap_S_seq.
  rewrite <-list_fmap_compose.
  f_equal; [|by rewrite Z.mul_0_r, Z.sub_0_r]. f_equal. apply list_fmap_ext.
  intros i k _. cbn. do 2 f_equal. lia.
Qed.

Lemma rcvbuf_loop_run fuel fd y :
  let bufsize := 1024 * Z.of_nat fuel in
  match rcvbuf_loop fuel fd bufsize y with
  | YOk _ y' => ∃ n l, (n ≤ fuel)%nat ∧ refused fd bufsize n l ∧
      y' = traced ((CSetsockopt fd (SO_RCVBUF (bufsize - 1024 * Z.of_nat n)), 0) :: l ++ y_trace y) y
  | YExit c y' => c = -1 ∧ ∃ l, refused fd bufsize (S fuel) l ∧ y' = traced (l ++ y_trace y) y
  | YFault _ => False
  end.
Proof.
  revert y. induction fuel as [|fuel IH]; intros y bufsize; cbn [rcvbuf_loop];
    unfold mbind, Y_bind, sys_call at 1; set (r := se_ret _ _ _);
    destruct (Z.eqb_spec r 0) as [->|Hr];
    try (exists 0%nat, []; rewrite Z.sub_0_r; split_and!; [lia|by split|reflexivity]).
  - split; [done|]. exists [(CSetsockopt fd (SO_RCVBUF bufsize), r)]. split; [|reflexivity].
    apply (refused_cons fd bufsize 0 []); [done|by split].
  - rewrite (proj2 (Z.ltb_ge _ _)) by (unfold RECE_BUF_SIZE; lia).
    set (y1 := y <| y_trace ::= _ |>). specialize (IH y1). cbv zeta in IH.
    replace (bufsize - 1024) with (1024 * Z.of_nat fuel) by lia.
    destruct (rcvbuf_loop fuel fd _ y1) as [a y'|c y'|f]; [| |done].
    + destruct IH as (n & l & Hn & Hl & ->). exists (S n). eexists. split; [lia|]. split.
      * apply (refused_cons fd bufsize n l r); [done|].
        by replace (bufsize - 1024) with (1024 * Z.of_nat fuel) by lia.
      * rewrite <-app_assoc.
        by replace (bufsize - 1024 * Z.of_nat (S n))
          with (1024 * Z.of_nat fuel - 1024 * Z.of_nat n) by lia.
    + destruct IH as (-> & l & Hl & ->). split; [done|]. eexists. split.
      * apply (refused_cons fd bufsize (S fuel) l r); [done|].
        by replace (bufsize - 1024) with (1024 * Z.of_nat fuel) by lia.
      * by rewrite <-app_assoc.
Qed.

(** C36: the size of the receive buffer. The loop makes at most 257 calls, and
    its counter never runs out: it settles on the largest of the sizes 256 KiB,
    255 KiB, ..., 0 that the system accepts, having asked for all larger ones in
    order, and exits only when all were refused. *)
Theorem rcvbuf_loop_spec fd y :
  match rcvbuf_loop 256 fd SOCK_RECVBUF_SIZE y with
  | YOk _ y' => ∃ n l, (n ≤ 256)%nat ∧ refused fd SOCK_RECVBUF_SIZE n l ∧
      y' = traced ((CSetsockopt fd (SO_RCVBUF (SOCK_RECVBUF_SIZE - 1024 * Z.of_nat n)), 0)
                   :: l ++ y_trace y) y
  | YExit c y' => c = -1 ∧ ∃ l, refused fd SOCK_RECVBUF_SIZE 257 l ∧
      y' = traced (l ++ y_trace y) y
  | YFault _ => False
  end.
Proof. exact (rcvbuf_loop_run 256 fd y). Qed.

Section aodv_socket.
Context (X : Z → sys → Prop) (HX : ∀ y, X (-1) y).

Lemma setsockopt_or_exit_wp {A} fd o (k : Y A) Q y :
  (∀ tr, quiet (y_trace y) tr → ywp k Q X (traced tr y)) →
  ywp (setsockopt_or_exit fd o;; k) Q X y.
Proof.
  intros Hk. apply ywp_bind. unfold setsockopt_or_exit. do 3 ystep; [apply HX|].
  ystep. apply Hk. quiet_calls.
Qed.

(** The AODV socket is the next callback; the message counters start at 0. *)
Lemma aodv_socket_init_wp y :
  dev_enabled (h_dev (this_host (y_world y))) ≠ 0 → slen (y_ifname y) < IFNAMSIZ →
  y_nr_callbacks y < CALLBACK_FUNCS →
  ywp aodv_socket_init (λ _ y', ∃ fd w tr,
    aodv_socket_init_counters (y_world y) = Ok tt w ∧
    y' = traced tr (attached_callback fd cb_aodv_socket_read
                      (y <| y_sock := fd |> <| y_world := w |>)) ∧
    opened fd (y_trace y) tr) X y.
Proof.
  intros He Hn Hnr. unfold aodv_socket_init. do 2 ystep. rewrite (proj2 (Z.eqb_neq _ _)) by done.
  do 4 ystep. ystep; [apply HX|]. apply Z.ltb_ge in E. do 3 ystep; [apply HX|].
  apply setsockopt_or_exit_wp. intros tr1 Q1. do 2 ystep. apply ywp_bind, ywp_in_array; [done|].
  apply setsockopt_or_exit_wp. intros tr2 Q2.
  apply setsockopt_or_exit_wp. intros tr3 Q3.
  apply setsockopt_or_exit_wp. intros tr4 Q4.
  apply setsockopt_or_exit_wp. intros tr5 Q5.
  apply ywp_bind. eapply ywp_wand; [by apply rcvbuf_loop_wp| |done].
  intros _ y1 (tr & -> & Q6). apply ywp_bind. unfold ywp. rewrite attach_callback_func_run.
  cbn [y_nr_callbacks traced upd_field set_y_trace set_y_sock].
  rewrite (proj2 (Z.leb_gt _ _)) by done. cbn [Z.ltb Z.compare].
  eexists r, _, tr. split_and!; [reflexivity..|].
  apply (opened_quiet _ _ ((CSocket PF_INET SOCK_DGRAM IPPROTO_UDP, r) :: y_trace y));
    [by apply opened_call|].
  etrans; [|exact Q6]. etrans; [|exact Q5]. etrans; [|exact Q4]. etrans; [|exact Q3].
  etrans; [|exact Q2]. etrans; [|exact Q1]. quiet_calls.
Qed.

(** With both logs on, their files are the first two descriptors. *)
Lemma log_init_wp y :
  y_log_to_file y ≠ 0 → rt_log_interval (cfg (y_world y)) ≠ 0 →
  ywp log_init (λ _ y', ∃ fd1 fd2 tr1 tr,
    y' = traced tr (y <| y_log_file_fd := fd1 |> <| y_log_rt_fd := fd2 |>) ∧
    opened fd1 (y_trace y) tr1 ∧ opened fd2 tr1 tr) X y.
Proof.
  intros Hl Hi. unfold log_init, ywhen. do 2 ystep. rewrite (proj2 (Z.eqb_neq _ _)) by done.
  cbn [negb]. do 6 ystep; [apply HX|]. ystep. apply Z.ltb_ge in E. do 2 ystep.
  rewrite (proj2 (Z.eqb_neq _ _)) by done. cbn [negb].
  do 5 ystep; [apply HX|]. ystep. apply Z.ltb_ge in E0.
  eexists r, r0, _, _. split; [reflexivity|]. split; by apply opened_call.
Qed.
End aodv_socket.

(** ** main, up to the loop *)

(** What the loop of [main] starts from: the daemon has been initialised for
    some interface, the three callbacks are attached, the options are set, and
    besides the sockets and the log files at most one descriptor is open. *)
Definition started (e : env) (y : sys) : Prop :=
  ∃ dev, daemon_init dev (initial_world e) = Ok tt (y_world y) ∧
  y_callbacks y = [(y_aodvnl y, Some cb_nl_kaodv_callback); (y_rtnl y, Some cb_nl_rt_callback);
                   (y_sock y, Some cb_aodv_socket_read)] ∧
  y_nr_callbacks y = 3 ∧ y_ifname y = "br-lan"%string ∧ y_log_to_file y = 1 ∧
  contents (y_trace y) = kernel_options "br-lan" "0" ∧
  ∃ L, (size L ≤ 1)%nat ∧ open_fds (y_trace y) =
    {[ y_sock y ]} ∪ {[ y_rtnl y ]} ∪ {[ y_aodvnl y ]} ∪ L
    ∪ {[ y_log_rt_fd y ]} ∪ {[ y_log_file_fd y ]}.

(** The fields that start-up relies on. *)
Definition start_view (w : world) := (cfg w, aodvnl_seqno w, rtnl_seqno w).

Lemma log_rt_table_init_run e :
  ∃ w, log_rt_table_init (initial_world e) = Ok tt w ∧
    start_view w = start_view (initial_world e).
Proof.
  pose proof (Inv_rt_log_timer None (initial_world e) (Inv_initial e)
    ltac:(apply not_elem_of_nil) ltac:(eexists; reflexivity)) as HI.
  set (w1 := (initial_world e) <| timers ::= _ |>) in HI.
  destruct (timer_set_timeout_run None w1 T_rt_log rt_log_timer 10000)
    as (w & Hrun & _); [done|apply lookup_insert_eq|done|].
  exists w. split; [exact Hrun|].
  by eapply (keeps_timer_set_timeout start_view) in Hrun.
Qed.

Lemma host_fields_init_run dev w :
  ∃ w', host_fields_init dev w = Ok tt w' ∧ start_view w' = start_view w.
Proof. eexists. split; reflexivity. Qed.

Lemma nl_send_conf_msg_run w : ∃ r w', nl_send_conf_msg w = Ok r w'.
Proof.
  unfold nl_send_conf_msg, ACTIVE_ROUTE_TIMEOUT, nl_send, bump_seqno, syscall, tick, emit,
    mbind, M_bind, gets, modify. simpl. case_match; eauto.
Qed.

Section main.
Context (X : Z → sys → Prop) (HX : ∀ y, X (-1) y).

(** [nl_init] attaches the two netlink sockets, whose sequence numbers were 0
    already. *)
Lemma nl_init_wp y :
  y_nr_callbacks y = 0 → aodvnl_seqno (y_world y) = 0 → rtnl_seqno (y_world y) = 0 →
  ywp nl_init (λ _ y', ∃ fd1 fd2 tr1 tr,
    y' = traced tr (attached_callback fd2 cb_nl_rt_callback
           (attached_callback fd1 cb_nl_kaodv_callback
             (y <| y_aodvnl := fd1 |> <| y_rtnl := fd2 |>))) ∧
    opened fd1 (y_trace y) tr1 ∧ opened fd2 tr1 tr) X y.
Proof.
  destruct y as [e tr0 lf lfd lrt name sk an rn cbs ncb w]. ynorm. intros Hn Ha Hr.
  assert (w <| aodvnl_seqno := 0 |> = w ∧ w <| rtnl_seqno := 0 |> = w) as [Ea Er].
  { destruct w. simpl in *. by subst. }
  unfold nl_init. apply ywp_bind; eapply ywp_lift; [reflexivity|]. ynorm. rewrite Ea.
  apply ywp_bind. eapply ywp_wand; [apply nl_open_wp; [done|ynorm; subst; done|done..]| |done].
  intros _ y1 (fd1 & tr1 & -> & H1).
  apply ywp_bind; eapply ywp_lift; [reflexivity|]. ynorm. unfold attached_callback, traced. ynorm.
  rewrite Er.
  eapply ywp_wand; [apply nl_open_wp; [done|ynorm; subst; done|done..]| |done].
  intros _ y2 (fd2 & tr2 & -> & H2).
  exists fd1, fd2, tr1, tr2. split; [reflexivity|by split].
Qed.

Lemma main_start_wp e se :
  fresh_fds se → ywp main_start (λ _, started e) X (initial_sys se e).
Proof.
  intros Hf. unfold main_start, initial_sys. do 3 ystep; [apply HX|]. do 2 ystep. ynorm.
  apply ywp_bind. eapply ywp_wand; [by apply log_init_wp| |done].
  intros _ y1 (fd1 & fd2 & tr1 & tr2 & -> & O1 & O2). unfold traced. ynorm.
  destruct (log_rt_table_init_run e) as (w1 & R1 & V1).
  apply ywp_bind; eapply ywp_lift; [exact R1|]. apply ywp_bind; eapply ywp_lift; [reflexivity|].
  ynorm. set (w2 := upd_field rt_tbl _ _).
  apply ywp_bind. eapply ywp_wand; [by apply host_init_wp| |done].
  intros _ y2 (dev & w3 & tr3 & R3 & He & -> & (L & HL & O3) & C3). unfold traced. ynorm.
  revert R3 He O3 C3. ynorm. intros R3 He O3 C3.
  assert (start_view w3 = start_view (initial_world e)) as V3.
  { destruct (host_fields_init_run dev w2) as (w3' & R3' & V3'). rewrite R3 in R3'.
    injection R3' as <-. rewrite V3'. exact V1. }
  injection V3 as Hcfg Ha Hr'.
  apply ywp_bind. eapply ywp_wand; [by apply nl_init_wp| |done].
  intros _ y3 (fd3 & fd4 & tr4 & tr5 & -> & O4 & O5). unfold traced, attached_callback. ynorm.
  destruct (nl_send_conf_msg_run w3) as (r3 & w4 & R4).
  apply ywp_bind. eapply ywp_lift; [exact R4|]. ynorm.
  assert (this_host w4 = this_host w3) as Hh.
  { eapply (keeps_nl_send this_host); [| | | |exact R4]; done. }
  eapply ywp_wand; [apply aodv_socket_init_wp; [exact HX|ynorm; rewrite Hh, He; done|done..]| |done].
  intros _ y4 (fd5 & w5 & tr6 & R5 & -> & O6). unfold traced, attached_callback, started. ynorm.
  destruct O1 as (_ & O1 & C1), O2 as (_ & O2 & C2), O4 as (_ & O4 & C4), O5 as (_ & O5 & C5),
    O6 as (_ & O6 & C6).
  exists dev. split_and!; [|done..| |].
  - unfold daemon_init. rewrite (bind_run _ _ _ _ _ R1), (bind_run _ _ w1 tt w2) by done.
    rewrite (bind_run _ _ _ _ _ R3), (bind_run _ _ _ _ _ R4). exact R5.
  - rewrite C6. ynorm. rewrite C5, C4. ynorm. rewrite C3, C2, C1. apply (right_id_L ∅ (∪)).
  - exists L. split; [exact HL|]. rewrite O6. ynorm. rewrite O5, O4. ynorm. rewrite O3, O2, O1.
    cbn. set_solver.
Qed.
End main.

(** C24: start-up. When new descriptors are unused ones, [main] comes to its loop
    with the daemon initialised for some interface, the three callbacks
    attached in order, the options of the kernel set and the sockets and log
    files open, at most one descriptor besides; or it exits with -1, whichever
    call fails. No path or name overruns its array. *)
Theorem main_start_spec se e :
  fresh_fds se →
  match main_start (initial_sys se e) with
  | YOk _ y => started e y
  | YExit c _ => c = -1
  | YFault _ => False
  end.
Proof. exact (main_start_wp (λ c _, c = -1) (λ _, eq_refl) e se). Qed.
