(* ===== verification/Shutdown.v ===== *)
(** * Shutdown: the SIGINT handler (main.c)

    What [cleanup] leaves when the signal arrives between two iterations of
    the main loop. *)

From S2P Require Export Startup.

(** ** Statements that neither exit nor overflow the send buffer *)

Definition steadfast {A} (m : M A) : Prop := ∀ w e, m w = Err e → ¬ benign e.

Lemma steadfast_bind {A B} (m : M A) (k : A → M B) :
  steadfast m → (∀ a, steadfast (k a)) → steadfast (m ≫= k).
Proof.
  intros Hm Hk w e. unfold mbind, M_bind. destruct (m w) as [a w'|e'] eqn:E; [by apply Hk|].
  intros [= ->]. by eapply Hm.
Qed.

Lemma steadfast_Ok {A} (m : M A) : (∀ w, ∃ a w', m w = Ok a w') → steadfast m.
Proof. intros H w e He. destruct (H w) as (a & w' & Hw). congruence. Qed.

Lemma steadfast_fault {A} f : f ≠ SendBufOverflow → steadfast (@raise A (Fault f)).
Proof. intros Hf w e [= <-]. destruct f; naive_solver. Qed.

Lemma steadfast_deref {A} (store : world → gmap nat A) p : steadfast (deref store p).
Proof. intros w e. unfold deref. repeat case_match; intros [= <-]; naive_solver. Qed.

Lemma steadfast_get_timer t : steadfast (get_timer t).
Proof. intros w e. unfold get_timer. case_match; intros [= <-]; naive_solver. Qed.

Lemma steadfast_for_each {A} (l : list A) body :
  (∀ x, steadfast (body x)) → steadfast (for_each l body).
Proof.
  intros. induction l; simpl; [apply steadfast_Ok; by eexists _, _|]. by apply steadfast_bind.
Qed.

Ltac steadfast_step :=
  lazymatch goal with
  | |- steadfast (_ ≫= _) => apply steadfast_bind; [|intros ?]
  | |- steadfast (mret _) => apply steadfast_Ok; intros; by eexists _, _
  | |- steadfast (gets _) => apply steadfast_Ok; intros; by eexists _, _
  | |- steadfast (modify _) => apply steadfast_Ok; intros; by eexists _, _
  | |- steadfast tick => apply steadfast_Ok; intros; by eexists _, _
  | |- steadfast (raise (Fault _)) => by apply steadfast_fault
  | |- steadfast (get_rt _) => apply steadfast_deref
  | |- steadfast (get_timer _) => apply steadfast_get_timer
  | |- steadfast (for_each _ _) => apply steadfast_for_each; intros ?
  | |- steadfast (match ?x with _ => _ end) => destruct x
  | |- steadfast (let _ := _ in _) => cbv zeta
  end.

Lemma steadfast_rt_table_destroy : steadfast rt_table_destroy.
Proof.
  unfold rt_table_destroy, rt_table_delete, bucket, bucket_upd, precursor_list_destroy, upd_rt,
    nl_send_del_route_msg, nl_kernel_route, nl_send, bump_seqno, syscall, emit, timer_remove,
    timer_unlink, upd_timer, upd_num_active, upd_num_entries, free_rt, Netlink.prefix_length, when.
  repeat steadfast_step. intros w e. case_match; intros [= <-]; naive_solver.
Qed.

(** ** The handler *)

(** The process between two iterations of the main loop. *)
Record running (y : sys) : Prop := {
  run_env : fresh_fds (y_env y);
  run_loop : Inv None (y_world y);
  run_enabled : dev_enabled (h_dev (this_host (y_world y))) ≠ 0;
  run_interval : rt_log_interval (cfg (y_world y)) ≠ 0;
  run_ifname : slen (y_ifname y) < IFNAMSIZ;
  run_log : y_log_to_file y ≠ 0;
  run_log_fd : y_log_file_fd y ≠ 0;
  run_rt_fd : y_log_rt_fd y ≠ 0
}.

Lemma rt_table_destroy_run w :
  Inv None w → ∃ w', rt_table_destroy w = Ok tt w' ∧ Inv None w' ∧ rts w' = ∅.
Proof.
  intros HI. pose proof (wp_rt_table_destroy w HI) as H. unfold wp in H.
  destruct (rt_table_destroy w) as [[] w'|e] eqn:E; [naive_solver|].
  by destruct (steadfast_rt_table_destroy w e E).
Qed.

Lemma keeps_rt_table_destroy : keeps (λ w, (cfg w, this_host w)) rt_table_destroy.
Proof.
  unfold rt_table_destroy, rt_table_delete, bucket, bucket_upd, precursor_list_destroy, upd_rt,
    timer_remove, timer_unlink, upd_timer, upd_num_active, upd_num_entries, free_rt.
  keeps_auto.
  - intros w l w'. case_match; [|done]. by intros [= _ <-].
  - by apply keeps_del_route.
Qed.

(** The descriptors [cleanup] closes. *)
Definition closed_fds (y : sys) : gset Z :=
  {[ y_sock y ]} ∪ {[ y_rtnl y ]} ∪ {[ y_aodvnl y ]} ∪ {[ y_log_rt_fd y ]} ∪ {[ y_log_file_fd y ]}.

Lemma log_cleanup_wp X y :
  y_log_to_file y ≠ 0 → rt_log_interval (cfg (y_world y)) ≠ 0 →
  y_log_file_fd y ≠ 0 → y_log_rt_fd y ≠ 0 →
  ywp log_cleanup (λ _ y', ∃ tr, y' = traced tr y ∧
    open_fds tr = open_fds (y_trace y) ∖ {[ y_log_file_fd y ]} ∖ {[ y_log_rt_fd y ]} ∧
    contents tr = contents (y_trace y)) X y.
Proof.
  destruct y as [e tr0 lf lfd lrt name sk an rn cbs ncb w]. ynorm. intros Hl Hi Hf1 Hf2.
  unfold log_cleanup, ywhen. ywalk. rewrite !(proj2 (Z.eqb_neq _ _)) by done. cbn [negb andb].
  ywalk. rewrite !(proj2 (Z.eqb_neq _ _)) by done. cbn [negb andb]. ywalk.
  by eexists.
Qed.

(** What is left of [y] in [y'], after [cleanup]. *)
Record shut_down (y y' : sys) : Prop := {
  shut_routes : rts (y_world y') = ∅;
  shut_fds : ∃ L, (size L ≤ 1)%nat ∧
    open_fds (y_trace y') ⊆ L ∪ (open_fds (y_trace y) ∖ closed_fds y);
  shut_module : ∃ r, (CSystem "/usr/sbin/rmmod kaodv.ko", r) ∈ y_trace y';
  shut_options : ¬ fails (y_env y) →
    open_fds (y_trace y') ⊆ open_fds (y_trace y) ∖ closed_fds y ∧
    contents (y_trace y') = kernel_options (y_ifname y) "1" ∪ contents (y_trace y)
}.

Lemma grows_options_prog c : grows (options_prog c).
Proof. unfold options_prog, write_option, sprintf_path. repeat grows_step. Qed.

Lemma grows_log_cleanup : grows log_cleanup.
Proof. unfold log_cleanup, ywhen. repeat grows_step. Qed.

Lemma cleanup_wp X y :
  running y → ywp cleanup (λ _, shut_down y) X y.
Proof.
  intros [Hf HI He Hi Hn Hl Hlf Hlr]. unfold cleanup.
  destruct (rt_table_destroy_run (y_world y) HI) as (w & Hrun & _ & Hrts).
  pose proof (keeps_rt_table_destroy _ _ _ Hrun) as [= Hcfg Hhost].
  apply ywp_bind; eapply ywp_lift; [exact Hrun|].
  unfold aodv_socket_cleanup, nl_cleanup, remove_modules. ywalk.
  rewrite reset_kernel_options_prog. eapply ywp_wand; [apply ywp_grows; [apply grows_options_prog|];
    apply options_prog_wp; [done|done|ynorm; by rewrite Hhost]| |done].
  intros r' y1 [(tr & -> & Hres) Hsuf].
  eapply ywp_wand; [apply ywp_grows; [apply grows_log_cleanup|];
    apply log_cleanup_wp; [done|change (rt_log_interval (cfg w) ≠ 0); by rewrite Hcfg|done..]| |done].
  unfold traced in *. revert Hres Hsuf. ynorm. intros Hres Hsuf1 _ y2 [(tr2 & -> & Ho & Hc) Hsuf2].
  revert Ho Hsuf2 Hc. ynorm. intros Ho Hsuf2 Hc. split.
  - exact Hrts.
  - change (∃ L, (size L ≤ 1)%nat ∧ open_fds tr2 ⊆ L ∪ (open_fds (y_trace y) ∖ closed_fds y)).
    rewrite Ho. unfold closed_fds. destruct Hres as [(_ & -> & _)|(_ & (L & HL & ->) & _)].
    + exists ∅. rewrite size_empty. split; [lia|]. cbn. set_solver.
    + exists L. split; [done|]. cbn. set_solver.
  - exists r2. change ((CSystem "/usr/sbin/rmmod kaodv.ko", r2) ∈ tr2).
    destruct Hsuf1 as [l1 ->], Hsuf2 as [l2 ->]. set_solver.
  - intros Hnf. destruct Hres as [(_ & Hot & Hct)|(_ & _ & Hfail)]; [|by destruct Hnf].
    change (open_fds tr2 ⊆ open_fds (y_trace y) ∖ closed_fds y ∧
      contents tr2 = kernel_options (y_ifname y) "1" ∪ contents (y_trace y)).
    rewrite Ho, Hot, Hc, Hct. unfold closed_fds. cbn. split; [set_solver|done].
Qed.

