(* ===== verification/MainLoop.v ===== *)
(** * The loop of main (main.c) and the rtnetlink callback (nl.c)

    One turn of the loop, callback by callback, and its relation to
    [main_iteration]. *)

From S2P Require Export Startup.

(** ** Messages of the kernel's routing (nl_rt_callback) *)

Definition BUFLEN : Z := 256.
Definition NLMSG_ERROR : Z := 2.
Definition RTM_NEWLINK : Z := 16.
Definition RTM_NEWADDR : Z := 20.
Definition IFA_ADDRESS : Z := 1.
Definition NLMSG_HDRLEN : Z := 16.
Definition sizeof_ifaddrmsg : Z := 8.
Definition sizeof_rtattr : Z := 4.

(** [sizeof(ifm)]: the size of the pointer. *)
Definition sizeof_ifm : Z := 4.

(** A field of [n] bytes of the buffer. *)
Definition rt_ld (buf : list Z) (off : Z) (n : nat) : M Z :=
  match load_bytes buf off n with
  | Some l => mret (of_bytes l)
  | None => raise (Fault OutOfBounds)
  end.

(** [RTA_OK] reads the length only when there is room for a header. *)
Definition RTA_OK (buf : list Z) (rta attrlen : Z) : M bool :=
  if attrlen <? sizeof_rtattr then mret false
  else
    rta_len ← rt_ld buf rta 2;
    mret ((sizeof_rtattr <=? rta_len) && (rta_len <=? attrlen)).

(** The loop over the attributes: [rta] and [attrlen] are its variables. The
    address is copied into a [struct in_addr] of 4 bytes. *)
Fixpoint rt_attrs (fuel : nat) (buf : list Z) (rta attrlen : Z) : M unit :=
  ok ← RTA_OK buf rta attrlen;
  if negb ok then mret tt
  else match fuel with
  | O => raise (Fault OutOfFuel)
  | S fuel =>
      rta_len ← rt_ld buf rta 2;
      rta_type ← rt_ld buf (rta + 2) 2;
      when (rta_type =? IFA_ADDRESS)
        (let payload := rta_len - sizeof_rtattr in
         _ ← rt_ld buf (rta + sizeof_rtattr) (Z.to_nat payload);
         if sizeof_in_addr <? payload then raise (Fault OutOfBounds) else mret tt);;
      rt_attrs fuel buf (rta + NLMSG_ALIGN rta_len) (attrlen - NLMSG_ALIGN rta_len)
  end.

(** [recvfrom] into the buffer on the stack, which held [stack]. [None]: it
    failed. All cases but [RTM_NEWADDR] only write to the log. *)
Definition nl_rt_callback (stack : list Z) (data : option (list Z)) : M unit :=
  match data with
  | None => mret tt
  | Some data =>
      let received := take (Z.to_nat BUFLEN) (u8 <$> data) in
      let buf := received ++ drop (length received) stack in
      nlmsg_type ← rt_ld buf 4 2;
      if nlmsg_type =? RTM_NEWADDR then
        let ifm := NLMSG_HDRLEN in
        let rta := ifm + sizeof_ifm in
        nlmsg_len ← rt_ld buf 0 4;
        let attrlen := s32 (nlmsg_len - NLMSG_HDRLEN - sizeof_ifaddrmsg) in
        rt_attrs 64 buf rta attrlen
      else mret tt
  end.

(** ** One turn of the loop *)

(** What the system has for the process in one turn: the descriptors [select]
    reports ([None]: it failed, and its argument is as it was), and what the
    three sockets deliver. *)
Record inputs := Inputs {
  in_select : option (list Z);
  in_kernel : option kmsg;
  in_rt : option (list Z);
  in_stack : list Z;
  in_packet : option packet
}.

(** The descriptors the loop waits for. *)
Definition readers (y : sys) : list Z := (take (Z.to_nat (y_nr_callbacks y)) (y_callbacks y)).*1.

Definition run_callback (io : inputs) (func : option callback_func) : Y unit :=
  match func with
  | Some cb_nl_kaodv_callback => lift (nl_kaodv_callback (in_kernel io))
  | Some cb_nl_rt_callback => lift (nl_rt_callback (in_stack io) (in_rt io))
  | Some cb_aodv_socket_read => lift (aodv_socket_read (in_packet io))
  | None => yfault NullDeref
  end.

Definition is_ready (io : inputs) (y : sys) (fd : Z) : bool :=
  bool_decide (fd ∈ default (readers y) (in_select io)).

(** The loop over the callbacks, from slot [i]. *)
Fixpoint dispatch (io : inputs) (ready : Z → bool) (n : nat) (i : nat) : Y unit :=
  match n with
  | O => mret tt
  | S n =>
      cbs ← ygets y_callbacks;
      match cbs !! i with
      | None => yfault OutOfBounds
      | Some (fd, func) => ywhen (ready fd) (run_callback io func)
      end;;
      dispatch io ready n (S i)
  end.

Definition main_loop_body (io : inputs) : Y unit :=
  _ ← lift (timer_age_queue run_handler);
  ready ← ygets (is_ready io);
  n ← ygets (λ y, Z.to_nat (y_nr_callbacks y));
  dispatch io ready n 0.

(** The states of the process between two turns. *)
Inductive process (se : senv) (e : env) : sys → Prop :=
| process_start y : main_start (initial_sys se e) = YOk tt y → process se e y
| process_turn y io y' : process se e y → main_loop_body io y = YOk tt y' → process se e y'.

(** ** The rtnetlink callback ends *)

Lemma rt_ld_run buf off n w :
  (∃ v, rt_ld buf off n w = Ok v w ∧ 0 ≤ off ∧ off + Z.of_nat n ≤ Z.of_nat (length buf)) ∨
  rt_ld buf off n w = Err (Fault OutOfBounds).
Proof.
  unfold rt_ld, load_bytes. destruct (_ && _) eqn:E; [left|by right].
  apply andb_true_iff in E as [?%Z.leb_le ?%Z.leb_le]. by eexists.
Qed.

Lemma NLMSG_ALIGN_ge x : 4 ≤ x → 4 ≤ NLMSG_ALIGN x.
Proof.
  intros Hx. unfold NLMSG_ALIGN. rewrite <-Z.ldiff_land.
  change 3 with (Z.ones 2) at 2. rewrite Z.ldiff_ones_r by done.
  rewrite Z.shiftl_mul_pow2, Z.shiftr_div_pow2 by done. change (2 ^ 2) with 4.
  change (Z.ones 2) with 3. pose proof (Z.div_le_lower_bound (x + 3) 4 1). lia.
Qed.

(** A statement that leaves the state alone or stops at an access outside a
    buffer. *)
Definition reads_or_oob {A} (m : M A) (w : world) : Prop :=
  (∃ a, m w = Ok a w) ∨ m w = Err (Fault OutOfBounds).

Lemma reads_bind {A B} (m : M A) (k : A → M B) w :
  reads_or_oob m w → (∀ a, m w = Ok a w → reads_or_oob (k a) w) → reads_or_oob (m ≫= k) w.
Proof.
  unfold reads_or_oob, mbind, M_bind. intros [[a H]|H] Hk; rewrite H; [by apply Hk|by right].
Qed.

Lemma reads_rt_ld buf off n w : reads_or_oob (rt_ld buf off n) w.
Proof. destruct (rt_ld_run buf off n w) as [(v & H & _)|H]; [left; eauto|by right]. Qed.

Lemma reads_RTA_OK buf rta attrlen w : reads_or_oob (RTA_OK buf rta attrlen) w.
Proof.
  unfold RTA_OK. destruct (_ <? _); [left; eauto|].
  apply reads_bind; [apply reads_rt_ld|]. intros. left. eauto.
Qed.

(** An attribute the loop looks at is long enough, and inside the buffer. *)
Lemma RTA_OK_true buf rta attrlen w :
  RTA_OK buf rta attrlen w = Ok true w →
  rta + 2 ≤ Z.of_nat (length buf) ∧ ∃ v, rt_ld buf rta 2 w = Ok v w ∧ 4 ≤ v.
Proof.
  unfold RTA_OK. destruct (_ <? _); [done|]. unfold mbind, M_bind.
  destruct (rt_ld_run buf rta 2 w) as [(v & H & _ & Hle)|H]; rewrite H; [|done].
  intros [= [Hv%Z.leb_le _]%andb_true_iff]. split; [lia|]. by exists v.
Qed.

Lemma reads_rt_attrs fuel buf rta attrlen w :
  Z.of_nat (length buf) - rta ≤ 4 * Z.of_nat fuel + 1 → reads_or_oob (rt_attrs fuel buf rta attrlen) w.
Proof.
  revert rta attrlen. induction fuel as [|fuel IH]; intros rta attrlen Hf; cbn [rt_attrs];
    (apply reads_bind; [apply reads_RTA_OK|]); intros [] Hok; cbn [negb]; try (left; by eexists);
    apply RTA_OK_true in Hok as (Hlt & v & Hv & Hge); [lia|].
  apply reads_bind; [apply reads_rt_ld|]. rewrite Hv. intros ? [= <-].
  apply reads_bind; [apply reads_rt_ld|]. intros type _.
  apply reads_bind.
  - destruct (type =? IFA_ADDRESS); [|left; by eexists]. cbn [when].
    apply reads_bind; [apply reads_rt_ld|]. intros. case_match; [by right|left; by eexists].
  - intros _ _. apply IH. pose proof (NLMSG_ALIGN_ge v Hge). lia.
Qed.

Lemma reads_nl_rt_callback stack data w :
  length stack = Z.to_nat BUFLEN → reads_or_oob (nl_rt_callback stack data) w.
Proof.
  intros Hs. unfold nl_rt_callback. destruct data as [data|]; [|left; by eexists].
  set (received := take _ _).
  assert (length received ≤ Z.to_nat BUFLEN)%nat by (unfold received; rewrite length_take; lia).
  apply reads_bind; [apply reads_rt_ld|]. intros type _.
  destruct (type =? RTM_NEWADDR); [|left; by eexists].
  apply reads_bind; [apply reads_rt_ld|]. intros len _. apply reads_rt_attrs.
  rewrite length_app, length_drop, Hs. unfold BUFLEN, NLMSG_HDRLEN, sizeof_ifm in *. lia.
Qed.

(** The callback neither reads nor changes the state of the daemon. *)
Definition stateless {A} (m : M A) : Prop :=
  (∃ a, ∀ w, m w = Ok a w) ∨ (∃ f, ∀ w, m w = Err (Fault f)).

Lemma stateless_bind {A B} (m : M A) (k : A → M B) :
  stateless m → (∀ a, stateless (k a)) → stateless (m ≫= k).
Proof.
  intros [[a Hm]|[e Hm]] Hk.
  - destruct (Hk a) as [[b Hb]|[e Hb]]; [left; exists b|right; exists e];
      intros w; unfold mbind, M_bind; by rewrite Hm, Hb.
  - right. exists e. intros w. unfold mbind, M_bind. by rewrite Hm.
Qed.

Lemma stateless_ret {A} (a : A) : stateless (mret a).
Proof. left. by exists a. Qed.

Lemma stateless_fault {A} f : stateless (@raise A (Fault f)).
Proof. right. by exists f. Qed.

Lemma stateless_rt_ld buf off n : stateless (rt_ld buf off n).
Proof. unfold rt_ld. case_match; [apply stateless_ret|apply stateless_fault]. Qed.

Ltac stateless_step :=
  lazymatch goal with
  | |- stateless (_ ≫= _) => apply stateless_bind; [|intros ?]
  | |- stateless (mret _) => apply stateless_ret
  | |- stateless (raise _) => apply stateless_fault
  | |- stateless (rt_ld _ _ _) => apply stateless_rt_ld
  | |- stateless (match ?x with _ => _ end) => destruct x
  | |- stateless (let _ := _ in _) => cbv zeta
  end.

Lemma stateless_rt_attrs fuel buf rta attrlen : stateless (rt_attrs fuel buf rta attrlen).
Proof.
  revert rta attrlen. induction fuel as [|fuel IH]; intros rta attrlen; cbn [rt_attrs];
    unfold RTA_OK, when; repeat stateless_step. apply IH.
Qed.

Lemma stateless_nl_rt_callback stack data : stateless (nl_rt_callback stack data).
Proof. unfold nl_rt_callback. repeat stateless_step. apply stateless_rt_attrs. Qed.

(** ** A turn of the loop is [main_iteration] *)

Lemma ybind_Ok {A B} (m : Y A) (k : A → Y B) y b y'' :
  (m ≫= k) y = YOk b y'' → ∃ a y', m y = YOk a y' ∧ k a y' = YOk b y''.
Proof. unfold mbind, Y_bind. destruct (m y) eqn:E; [eauto|done|done]. Qed.

Lemma lift_Ok {A} (m : M A) y a y' :
  lift m y = YOk a y' → ∃ w, m (y_world y) = Ok a w ∧ y' = y <| y_world := w |>.
Proof.
  unfold lift. destruct (m (y_world y)) as [b w|[f|c]]; [|done..]. intros [= -> <-]. by exists w.
Qed.

(** The statement [p] of the process does what [m] does to the daemon. *)
Definition follows {A} (m : M A) (p : Y A) (y : sys) : Prop :=
  match m (y_world y) with
  | Ok a w' => p y = YOk a (y <| y_world := w' |>)
  | Err (Exit c) => ∃ w', p y = YExit c (y <| y_world := w' |>)
  | Err (Fault f) => p y = YFault f
  end.

Lemma follows_lift {A} (m : M A) y : follows m (lift m) y.
Proof.
  unfold follows, lift. destruct (m (y_world y)) as [a w|[f|c]]; [done..|].
  exists (y_world y). by destruct y.
Qed.

Lemma follows_bind {A B} (m : M A) (p : Y A) (k : A → M B) (h : A → Y B) y :
  follows m p y → (∀ a w, follows (k a) (h a) (y <| y_world := w |>)) →
  follows (m ≫= k) (p ≫= h) y.
Proof.
  unfold follows, mbind, M_bind, Y_bind. intros Hm Hk.
  destruct (m (y_world y)) as [a w|[f|c]].
  - rewrite Hm. exact (Hk a w).
  - by rewrite Hm.
  - destruct Hm as [w' ->]. by exists w'.
Qed.

(** Steps of the process that the daemon does not see. *)
Lemma follows_gets {A B} (f : sys → A) (m : M B) (h : A → Y B) y :
  follows m (h (f y)) y → follows m (ygets f ≫= h) y.
Proof. exact id. Qed.

Lemma follows_skip {A} (m : M A) (p : Y unit) (h : Y A) y :
  p y = YOk tt y → follows m h y → follows m (p;; h) y.
Proof. unfold follows, mbind, Y_bind. by intros ->. Qed.

Lemma follows_when {X} (b : bool) (x : X) (f : X → M unit) p y :
  (b = true → follows (f x) p y) →
  follows (match (if b then Some x else None) with Some x => f x | None => mret tt end)
    (ywhen b p) y.
Proof.
  destruct b; [by auto|intros _]. unfold follows. cbn. by destruct y.
Qed.

Lemma follows_last (m : M unit) p y : follows m p y → follows m (p;; mret tt) y.
Proof.
  unfold follows, mbind, Y_bind. destruct (m (y_world y)) as [[] w|[f|c]].
  - by intros ->.
  - by intros ->.
  - intros [w' ->]. by exists w'.
Qed.

Lemma ywhen_lift_Ok b (m : M unit) y a y' :
  ywhen b (lift m) y = YOk a y' → ∃ w, y' = y <| y_world := w |>.
Proof.
  destruct b; [by intros (w & _ & ->)%lift_Ok; exists w|].
  intros [= _ <-]. exists (y_world y). by destruct y.
Qed.

(** What the turn is to the daemon. *)
Definition ready_of (io : inputs) (y : sys) : ready :=
  Ready (if is_ready io y (y_aodvnl y) then Some (in_kernel io) else None)
        (if is_ready io y (y_sock y) then Some (in_packet io) else None).

Definition attached_all (y : sys) : Prop :=
  y_callbacks y = [(y_aodvnl y, Some cb_nl_kaodv_callback); (y_rtnl y, Some cb_nl_rt_callback);
                   (y_sock y, Some cb_aodv_socket_read)] ∧ y_nr_callbacks y = 3.

Lemma main_loop_follows io y :
  attached_all y →
  (is_ready io y (y_rtnl y) = true →
     ∀ w, nl_rt_callback (in_stack io) (in_rt io) w = Ok tt w) →
  follows (main_iteration (ready_of io y)) (main_loop_body io) y.
Proof.
  intros [Hcb Hn] Hrt. unfold main_iteration, main_loop_body.
  apply follows_bind; [apply follows_lift|intros ts w1].
  apply follows_gets, follows_gets. set (y1 := y <| y_world := w1 |>).
  change (is_ready io y1) with (is_ready io y). change (y_nr_callbacks y1) with (y_nr_callbacks y).
  rewrite Hn. change (Z.to_nat 3) with 3%nat. cbn [dispatch ready_of rd_kernel rd_packet].
  apply follows_gets. change (y_callbacks y1) with (y_callbacks y). rewrite Hcb.
  cbn [lookup list_lookup].
  apply follows_bind; [apply follows_when; intros _; apply follows_lift|intros _ w2].
  apply follows_gets. set (y2 := y1 <| y_world := w2 |>).
  change (y_callbacks y2) with (y_callbacks y). rewrite Hcb. cbn [lookup list_lookup].
  apply follows_skip.
  { destruct (is_ready io y (y_rtnl y)); [|done]. cbn [ywhen run_callback].
    unfold lift. rewrite Hrt by done. subst y2 y1. by destruct y. }
  apply follows_gets. change (y_callbacks y2) with (y_callbacks y). rewrite Hcb.
  cbn [lookup list_lookup]. apply follows_last, follows_when. intros _. apply follows_lift.
Qed.

(** C4: the loop of [main]. With the three callbacks attached and a kernel
    message, if any, that the rtnetlink callback survives, one turn of the loop
    does to the daemon what [main_iteration] does, given what is ready on the
    netlink socket of the module and on the AODV socket: the same state, the
    same exit code, the same fault. Nothing else of the process changes. When
    [select] fails, all three callbacks run. *)
Theorem main_loop_equiv io y :
  attached_all y →
  (is_ready io y (y_rtnl y) = true →
     ∀ w, nl_rt_callback (in_stack io) (in_rt io) w = Ok tt w) →
  match main_iteration (ready_of io y) (y_world y) with
  | Ok _ w' => main_loop_body io y = YOk tt (y <| y_world := w' |>)
  | Err (Exit c) => ∃ w', main_loop_body io y = YExit c (y <| y_world := w' |>)
  | Err (Fault f) => main_loop_body io y = YFault f
  end.
Proof.
  intros Ha Hrt. pose proof (main_loop_follows io y Ha Hrt) as H. unfold follows in H.
  by destruct (main_iteration _ _) as [[] w|[f|c]].
Qed.

(** A turn that comes to its end has survived the message. *)
Lemma turn_survives io y y' :
  attached_all y → main_loop_body io y = YOk tt y' → is_ready io y (y_rtnl y) = true →
  ∀ w, nl_rt_callback (in_stack io) (in_rt io) w = Ok tt w.
Proof.
  intros [Hcb Hn] Hturn Hready.
  destruct (stateless_nl_rt_callback (in_stack io) (in_rt io)) as [[[] Hok]|[f Hf]]; [exact Hok|].
  exfalso. unfold main_loop_body in Hturn.
  apply ybind_Ok in Hturn as (ts & y1 & (w1 & _ & ->)%lift_Ok & Hturn).
  apply ybind_Ok in Hturn as (ready & ? & [= <- <-] & Hturn).
  apply ybind_Ok in Hturn as (n & ? & [= <- <-] & Hturn).
  change (y_nr_callbacks (y <| y_world := w1 |>)) with (y_nr_callbacks y) in Hturn.
  rewrite Hn in Hturn. change (Z.to_nat 3) with 3%nat in Hturn. cbn [dispatch] in Hturn.
  apply ybind_Ok in Hturn as (cbs & ? & [= <- <-] & Hturn).
  change (y_callbacks (y <| y_world := w1 |>)) with (y_callbacks y) in Hturn.
  rewrite Hcb in Hturn. cbn [lookup list_lookup] in Hturn.
  apply ybind_Ok in Hturn as (? & y2 & (w2 & ->)%ywhen_lift_Ok & Hturn).
  apply ybind_Ok in Hturn as (cbs & ? & [= <- <-] & Hturn).
  change (y_callbacks _) with (y_callbacks y) in Hturn.
  rewrite Hcb in Hturn. cbn [lookup list_lookup] in Hturn.
  apply ybind_Ok in Hturn as (? & y3 & Hrt & _).
  change (is_ready io _) with (is_ready io y) in Hrt. rewrite Hready in Hrt.
  cbn [ywhen run_callback] in Hrt. unfold lift in Hrt. by rewrite Hf in Hrt.
Qed.

(** C3: the whole process. Whatever the system answers (new descriptors being
    unused ones), the process is, between two turns of its loop, in a state
    that the daemon reaches from its initialisation for some interface by a
    sequence of [main_iteration]s; in particular it satisfies the invariant of
    the daemon. Its callbacks stay attached. *)
Theorem process_refines_daemon se e y :
  fresh_fds se → process se e y →
  attached_all y ∧ ∃ dev, reachable e dev (y_world y) ∧ Inv None (y_world y).
Proof.
  intros Hf Hp. assert (attached_all y ∧ ∃ dev, reachable e dev (y_world y)) as (Ha & dev & Hr).
  { induction Hp as [y Hstart|y io y' _ IH Hturn].
    - pose proof (main_start_wp (λ _ _, True) (λ _, I) e se Hf) as Hs. unfold ywp in Hs.
      rewrite Hstart in Hs. destruct Hs as (dev & Hd & Hcb & Hn & _).
      split; [by split|]. exists dev. by constructor.
    - destruct IH as (Ha & dev & Hr). pose proof (main_loop_follows io y Ha) as Hfol.
      assert (is_ready io y (y_rtnl y) = true →
        ∀ w, nl_rt_callback (in_stack io) (in_rt io) w = Ok tt w) as Hrt
        by by eapply turn_survives.
      specialize (Hfol Hrt). unfold follows in Hfol.
      destruct (main_iteration (ready_of io y) (y_world y)) as [[] w'|[f|c]] eqn:E;
        [|congruence|destruct Hfol; congruence].
      rewrite Hturn in Hfol. injection Hfol as ->. split; [exact Ha|].
      exists dev. by eapply reachable_step. }
  split; [done|]. exists dev. split; [done|]. by apply reachable_loop_inv in Hr as [? _].
Qed.

(** ** What the kernel says about addresses *)

(** The message for an IPv4 address on an interface: the header, a
    [struct ifaddrmsg], the attributes IFA_ADDRESS, IFA_LOCAL, IFA_BROADCAST. *)
Definition newaddr_msg (ifa_index : Z) (addr broadcast : list Z) : list Z :=
  bytes32 48 ++ [RTM_NEWADDR; 0; 0; 0] ++ bytes32 0 ++ bytes32 0 ++
  [AF_INET; 16; 0; 0] ++ bytes32 ifa_index ++
  [8; 0; IFA_ADDRESS; 0] ++ addr ++ [8; 0; 2; 0] ++ addr ++ [8; 0; 4; 0] ++ broadcast.

(** The rtnetlink callback ends on every message, whatever its bytes, within
    the 64 turns its loop is given; it leaves the state of the daemon alone, or
    stops at an access outside the buffer or the address it fills. *)
Theorem nl_rt_callback_ends stack data w :
  length stack = Z.to_nat BUFLEN →
  nl_rt_callback stack data w = Ok tt w ∨
  nl_rt_callback stack data w = Err (Fault OutOfBounds).
Proof. intros Hs. destruct (reads_nl_rt_callback stack data w Hs) as [[[] H]|H]; auto. Qed.

