(* ===== verification/RingBuf.v ===== *)
(** * Addresses as text: the ring of four buffers (ip_to_str of debug.c,
    print_ip of kaodv.h)

    Both functions write the dotted form of an address into one of four
    16-character slots of a static buffer, in turn, and return a pointer to
    it. *)

From S2P Require Export Text.
From Stdlib Require Import Ascii.

(** The two statics: the characters, and the offset of the next slot. *)
Record ip_statics := IpStatics { ip_buf : list ascii; ip_index : Z }.

(** [strcpy] or [sprintf] of [s] at an offset: the characters and the
    terminator. [None] is a write outside the buffer. *)
Definition put_string (buf : list ascii) (off : Z) (s : string) : option (list ascii) :=
  let cs := chars s ++ ["000"%char] in
  if (0 <=? off) && (off + Z.of_nat (length cs) <=? Z.of_nat (length buf))
  then Some (take (Z.to_nat off) buf ++ cs ++ drop (Z.to_nat off + length cs) buf)
  else None.

(** The string a pointer designates: up to the first terminator. *)
Fixpoint c_string (l : list ascii) : option string :=
  match l with
  | [] => None
  | c :: l => if decide (c = "000"%char) then Some EmptyString else String c <$> c_string l
  end.
Definition string_at (buf : list ascii) (off : Z) : option string :=
  c_string (drop (Z.to_nat off) buf).

(** [ip_to_str]: the offset of [str], and the statics afterwards. *)
Definition ip_to_str (addr : Z) (st : ip_statics) : option (Z * ip_statics) :=
  let index := ip_index st in
  buf ← put_string (ip_buf st) index (dotted addr);
  let str := index in
  Some (str, IpStatics buf (Z.rem (index + 16) 64)).

(** [print_ip] of the kernel module is the same code. *)
Definition print_ip (addr : Z) (st : ip_statics) : option (Z * ip_statics) := ip_to_str addr st.

(** ** Strings in a buffer *)

Lemma c_string_app s l : no_nul s → c_string (chars s ++ "000"%char :: l) = Some s.
Proof.
  unfold no_nul. induction s as [|c s IH]; intros Hn; [done|].
  cbn [chars app c_string] in *. apply not_elem_of_cons in Hn as [Hc Hn].
  rewrite decide_False by congruence. by rewrite IH.
Qed.

Lemma c_string_prefix l1 l2 s : c_string l1 = Some s → c_string (l1 ++ l2) = Some s.
Proof.
  revert s. induction l1 as [|c l1 IH]; intros s; [done|]. cbn [c_string app].
  case_decide; [done|]. intros (t & Ht & ->)%fmap_Some. by rewrite (IH t).
Qed.

Lemma put_string_Some buf off s :
  0 ≤ off → off + slen s + 1 ≤ Z.of_nat (length buf) →
  ∃ buf', put_string buf off s = Some buf' ∧ length buf' = length buf ∧
    ∀ i, buf' !! i = if decide (Z.to_nat off ≤ i < Z.to_nat off + length (chars s) + 1)%nat
                     then (chars s ++ ["000"%char]) !! (i - Z.to_nat off)%nat else buf !! i.
Proof.
  intros H0 Hlen. unfold put_string. cbv zeta. rewrite length_app. cbn [length].
  pose proof (length_chars s) as Hs.
  rewrite (proj2 (andb_true_iff _ _)) by (split; apply Z.leb_le; lia).
  eexists. split; [reflexivity|]. split.
  { rewrite !length_app, length_take, length_drop. cbn [length]. lia. }
  intros i. set (cs := chars s ++ _). assert (length cs = length (chars s) + 1)%nat as Hcs
    by (unfold cs; rewrite length_app; done).
  assert (length (take (Z.to_nat off) buf) = Z.to_nat off) as Ht by (rewrite length_take; lia).
  case_decide as Hi.
  - rewrite lookup_app_r, Ht by lia. apply lookup_app_l. lia.
  - destruct (decide (i < Z.to_nat off)%nat).
    + rewrite lookup_app_l by lia. apply lookup_take_lt. lia.
    + rewrite !lookup_app_r by lia. rewrite lookup_drop. f_equal. lia.
Qed.

(** ** The ring *)

Definition ring_ok (st : ip_statics) : Prop :=
  length (ip_buf st) = 64%nat ∧ ∃ k, 0 ≤ k < 4 ∧ ip_index st = 16 * k.

(** The 16 characters of a slot. *)
Definition slot (k : Z) (st : ip_statics) : list ascii :=
  take 16 (drop (Z.to_nat (16 * k)) (ip_buf st)).

(** A slot that holds the text of an address. *)
Definition holds (k addr : Z) (st : ip_statics) : Prop := c_string (slot k st) = Some (dotted addr).

Lemma holds_string k addr st :
  holds k addr st → string_at (ip_buf st) (16 * k) = Some (dotted addr).
Proof.
  intros H. unfold string_at. rewrite <-(take_drop 16 (drop _ _)). by apply c_string_prefix.
Qed.

(** One call: the next slot holds the address, the three others are as they
    were. *)
Lemma ip_to_str_step addr st k :
  ring_ok st → ip_index st = 16 * k →
  ∃ st', ip_to_str addr st = Some (16 * k, st') ∧ ring_ok st' ∧
    ip_index st' = 16 * ((k + 1) mod 4) ∧ holds k addr st' ∧
    ∀ k', 0 ≤ k' → k' ≠ k → slot k' st' = slot k' st.
Proof.
  intros [Hlen (k0 & Hk & Hi)] Hix. assert (k0 = k) as -> by lia.
  pose proof (slen_dotted addr). pose proof (slen_nonneg (dotted addr)).
  pose proof (length_chars (dotted addr)) as Hcs.
  destruct (put_string_Some (ip_buf st) (16 * k) (dotted addr)) as (buf & Hput & Hl & Hlook);
    [lia|rewrite Hlen; lia|].
  unfold ip_to_str. rewrite Hi, Hput. cbv zeta.
  assert (Z.rem (16 * k + 16) 64 = 16 * ((k + 1) mod 4)) as ->.
  { assert (k = 0 ∨ k = 1 ∨ k = 2 ∨ k = 3) as [->|[->|[->| ->]]] by lia; reflexivity. }
  eexists. split; [reflexivity|]. split_and!.
  - split; [cbn [ip_buf]; congruence|].
    exists ((k + 1) mod 4). split; [apply Z.mod_pos_bound; lia|done].
  - done.
  - unfold holds, slot. cbn [ip_buf].
    replace (take 16 (drop (Z.to_nat (16 * k)) buf)) with
      (chars (dotted addr) ++ "000"%char ::
        drop (length (chars (dotted addr)) + 1) (take 16 (drop (Z.to_nat (16 * k)) (ip_buf st)))).
    { apply c_string_app, no_nul_dotted. }
    apply list_eq. intros i. destruct (decide (i < 16)%nat) as [Hi16|Hi16].
    + rewrite lookup_take_lt, lookup_drop, Hlook by lia.
      rewrite (cons_middle "000"%char), app_assoc. case_decide as Hd.
      * rewrite lookup_app_l by (rewrite length_app; cbn; lia). f_equal. lia.
      * rewrite lookup_app_r by (rewrite length_app; cbn; lia).
        rewrite length_app, lookup_drop. cbn [length].
        replace (length (chars (dotted addr)) + 1 + (i - (length (chars (dotted addr)) + 1)))%nat
          with i by lia.
        by rewrite lookup_take_lt, lookup_drop by lia.
    + rewrite !lookup_ge_None_2; [done|rewrite length_take; lia|].
      rewrite length_app. cbn [length]. rewrite length_drop, length_take, length_drop, Hlen. lia.
  - intros k' Hk' Hne. unfold slot. cbn [ip_buf]. apply list_eq. intros i.
    destruct (decide (i < 16)%nat) as [Hi16|Hi16].
    + rewrite !lookup_take_lt, !lookup_drop, Hlook by lia. by rewrite decide_False by lia.
    + rewrite !lookup_ge_None_2; [done|rewrite length_take; lia..].
Qed.

(** A call keeps what the other slots hold. *)
Lemma holds_slot k addr st st' : slot k st' = slot k st → holds k addr st → holds k addr st'.
Proof. unfold holds. by intros ->. Qed.

(** C39: four addresses in one message. However often [ip_to_str] was called
    before, the four strings that four calls in a row return are the dotted
    forms of the four addresses when all calls have been made, as in the
    arguments of one [DEBUG]; nothing outside the buffer is written. The string
    of a fifth call takes the place of the first. *)
Theorem ip_to_str_four st a1 a2 a3 a4 a5 :
  ring_ok st →
  ∃ p1 p2 p3 p4 st1 st2 st3 st4 st5,
    ip_to_str a1 st = Some (p1, st1) ∧ ip_to_str a2 st1 = Some (p2, st2) ∧
    ip_to_str a3 st2 = Some (p3, st3) ∧ ip_to_str a4 st3 = Some (p4, st4) ∧
    string_at (ip_buf st4) p1 = Some (dotted a1) ∧ string_at (ip_buf st4) p2 = Some (dotted a2) ∧
    string_at (ip_buf st4) p3 = Some (dotted a3) ∧ string_at (ip_buf st4) p4 = Some (dotted a4) ∧
    ip_to_str a5 st4 = Some (p1, st5) ∧ string_at (ip_buf st5) p1 = Some (dotted a5) ∧ ring_ok st5.
Proof.
  intros Hok. pose proof Hok as [_ (k & Hk & Hi)].
  destruct (ip_to_str_step a1 st k Hok Hi) as (st1 & E1 & Hok1 & Hi1 & H1 & F1).
  destruct (ip_to_str_step a2 st1 _ Hok1 Hi1) as (st2 & E2 & Hok2 & Hi2 & H2 & F2).
  destruct (ip_to_str_step a3 st2 _ Hok2 Hi2) as (st3 & E3 & Hok3 & Hi3 & H3 & F3).
  destruct (ip_to_str_step a4 st3 _ Hok3 Hi3) as (st4 & E4 & Hok4 & Hi4 & H4 & F4).
  destruct (ip_to_str_step a5 st4 _ Hok4 Hi4) as (st5 & E5 & Hok5 & _ & H5 & _).
  assert ((((k + 1) mod 4 + 1) mod 4 + 1) mod 4 ≠ k ∧ ((k + 1) mod 4 + 1) mod 4 ≠ k ∧
    (k + 1) mod 4 ≠ k ∧ ((((k + 1) mod 4 + 1) mod 4 + 1) mod 4 + 1) mod 4 = k ∧
    ((k + 1) mod 4 + 1) mod 4 ≠ (k + 1) mod 4 ∧
    (((k + 1) mod 4 + 1) mod 4 + 1) mod 4 ≠ (k + 1) mod 4 ∧
    (((k + 1) mod 4 + 1) mod 4 + 1) mod 4 ≠ ((k + 1) mod 4 + 1) mod 4) as (?&?&?&Hk5&?&?&?).
  { assert (k = 0 ∨ k = 1 ∨ k = 2 ∨ k = 3) as [->|[->|[->| ->]]] by lia; by vm_compute. }
  rewrite Hk5 in *.
  eexists _, _, _, _, st1, st2, st3, st4, st5.
  split_and!; [exact E1|exact E2|exact E3|exact E4|apply holds_string..|exact E5|
    by apply holds_string|done].
  all: repeat first [eassumption | eapply holds_slot; [first [apply F4|apply F3|apply F2]|]].
  all: first [apply Hk | by apply Z.mod_pos_bound | congruence].
Qed.
