(* ===== verification/Log.v ===== *)
(** * The log (debug.c)

    The text of the log: messages, the names of flags, states and handlers,
    and the table of routes that [print_rt_table] writes. [sprintf] and
    [strcpy] into an array of the source are checked against its size. *)

From S2P Require Export RingBuf Daemon.
From Stdlib Require Import Ascii.

(** ** Names *)

Definition packet_type (type : Z) : string :=
  if type =? AODV_RREQ then "AODV_RREQ"
  else if type =? AODV_RREP then "AODV_RREP"
  else if type =? AODV_RERR then "AODV_RERR"
  else "Unknown packet type " +:+ fmt_d (s32 type).

(** The letters of the flags that are set. *)
Fixpoint flag_letters (l : list (bool * ascii)) : string :=
  match l with
  | [] => EmptyString
  | (b, c) :: l => if b : bool then String c (flag_letters l) else flag_letters l
  end.

(** The four and two flag bits of a RREQ and a RREP, and the flags of a route. *)
Definition rreq_flags_to_str (j r g d : Z) : string :=
  flag_letters [(negb (j =? 0), "J"%char); (negb (r =? 0), "R"%char);
                (negb (g =? 0), "G"%char); (negb (d =? 0), "D"%char)].

Definition rrep_flags_to_str (r a : Z) : string :=
  flag_letters [(negb (r =? 0), "R"%char); (negb (a =? 0), "A"%char)].

Definition rt_flags_to_str (flags : Z) : string :=
  flag_letters [(flag flags RT_UNIDIR, "U"%char); (flag flags RT_REPAIR, "R"%char);
                (flag flags RT_INET_DEST, "I"%char)].

Definition state_to_str (state : rt_state) : string :=
  match state with VALID => "VAL" | INVALID => "INV" end.

Definition devs_ip_to_str (w : world) : string := dotted (dev_ipaddr (h_dev (this_host w))).

(** [timeout_func]; [hello_send] is not in it. *)
Definition timeout_func : list (string * handler) :=
  [("rreq_record_timeout"%string, rreq_record_timeout_h);
   ("rreq_blacklist_timeout"%string, rreq_blacklist_timeout_h);
   ("route_discovery_timeout"%string, route_discovery_timeout_h);
   ("local_repair_timeout"%string, local_repair_timeout_h);
   ("route_expire_timeout"%string, route_expire_timeout_h);
   ("route_delete_timeout"%string, route_delete_timeout_h);
   ("hello_timeout"%string, hello_timeout_h);
   ("rrep_ack_timeout"%string, rrep_ack_timeout_h);
   ("wait_on_reboot_timeout"%string, wait_on_reboot_timeout_h);
   ("print_rt_table"%string, print_rt_table_h)].

Definition ptr_to_func_name (action : handler) : string :=
  match list_find (λ f, f.2 = action) timeout_func with
  | Some (_, (func_name, _)) => func_name
  | None => "Unkown function"
  end.

(** ** Messages *)

Definition LOG_ERR : Z := 3.
Definition LOG_WARNING : Z := 4.
Definition LOG_NOTICE : Z := 5.
Definition LOG_DEBUG : Z := 7.

(** [struct tm], as far as it is used. *)
Record tm := Tm { tm_hour : Z; tm_min : Z; tm_sec : Z }.

Definition nl : string := String "010"%char EmptyString.

(** [%02d:%02d:%02d.%03ld] *)
Definition clock_text (t : tm) (usec : Z) : string :=
  fmt_0d 2 (tm_hour t) +:+ ":" +:+ fmt_0d 2 (tm_min t) +:+ ":" +:+ fmt_0d 2 (tm_sec t)
  +:+ "." +:+ fmt_0d 3 (Z.quot usec 1000).

(** [write_to_log_file]: what is written to the log file. *)
Definition write_to_log_file (log_file_fd : Z) (msg : string) (len : Z) : option string :=
  if log_file_fd =? 0 then None else if len <=? 0 then None else Some msg.

(** What one message does: the line in the log file, the line sent to
    [syslog] (with [%m] for an error number), and whether the program ends. *)
Record logged := Logged { to_file : option string; to_syslog : option string; exits : bool }.

(** What the two [sprintf]s put into [log_buf]. *)
Definition log_line (errnum : Z) (function msg : string) (now : timeval)
    (localtime : Z → tm) (strerror : Z → string) : string :=
  "[" +:+ clock_text (localtime (tv_sec now)) (tv_usec now) +:+ "] " +:+ function +:+ ": " +:+ msg
  +:+ (if errnum =? 0 then nl else ": " +:+ strerror errnum +:+ nl).

(** [alog] for the formatted message [msg]. [None]: a write outside [buffer] or
    [log_buf]. *)
Definition alog (debug log_to_file log_file_fd type errnum : Z) (function msg : string)
    (now : timeval) (localtime : Z → tm) (strerror : Z → string) : option logged :=
  let offset := if type =? LOG_WARNING then 9 else 0 in
  if 256 <=? offset + slen msg then None
  else
    let text := log_line errnum function msg now localtime strerror in
    file ← (if (debug =? 0) && (log_to_file =? 0) then Some None
            else if 1024 <=? slen text then None
            else if 1024 <? slen text then Some None
            else Some (if negb (log_to_file =? 0)
                       then write_to_log_file log_file_fd text (slen text) else None));
    let sys := if type <=? LOG_NOTICE
               then Some (function +:+ ": " +:+ msg +:+ (if errnum =? 0 then EmptyString else ": %m"))
               else None in
    Some (Logged file sys (type <=? LOG_ERR)).

(** ** The fields of a message *)

Definition log_pkt_fields (msg : bufid) : M (list string) :=
  type ← ld8 msg 0;
  if type =? AODV_RREQ then
    j ← ld_bits msg RREQ_OFF_FLAGS 0 1;
    r ← ld_bits msg RREQ_OFF_FLAGS 1 1;
    g ← ld_bits msg RREQ_OFF_FLAGS 2 1;
    d ← ld_bits msg RREQ_OFF_FLAGS 3 1;
    hopcnt ← ld8 msg RREQ_OFF_HOPCNT;
    id ← ld32 msg RREQ_OFF_ID;
    dest ← ld32 msg RREQ_OFF_DEST_ADDR;
    dest_seqno ← ld32 msg RREQ_OFF_DEST_SEQNO;
    orig ← ld32 msg RREQ_OFF_ORIG_ADDR;
    orig_seqno ← ld32 msg RREQ_OFF_ORIG_SEQNO;
    mret ["rreq->flags:" +:+ rreq_flags_to_str j r g d +:+ " rreq->hopcount=" +:+ fmt_d hopcnt
            +:+ " rreq->rreq_id=" +:+ fmt_d (s32 (ntohl id));
          "rreq->dest_addr:" +:+ dotted dest +:+ " rreq->dest_seqno=" +:+ fmt_d (s32 (ntohl dest_seqno));
          "rreq->orig_addr:" +:+ dotted orig +:+ " rreq->orig_seqno=" +:+ fmt_d (s32 (ntohl orig_seqno))]
  else if type =? AODV_RREP then
    r ← ld_bits msg RREP_OFF_FLAGS 0 1;
    a ← ld_bits msg RREP_OFF_FLAGS 1 1;
    hopcnt ← ld8 msg RREP_OFF_HOPCNT;
    dest ← ld32 msg RREP_OFF_DEST_ADDR;
    dest_seqno ← ld32 msg RREP_OFF_DEST_SEQNO;
    orig ← ld32 msg RREP_OFF_ORIG_ADDR;
    lifetime ← ld32 msg RREP_OFF_LIFETIME;
    mret ["rrep->flags:" +:+ rrep_flags_to_str r a +:+ " rrep->hopcount=" +:+ fmt_d hopcnt;
          "rrep->dest_addr:" +:+ dotted dest +:+ " rrep->dest_seqno=" +:+ fmt_d (s32 (ntohl dest_seqno));
          "rrep->orig_addr:" +:+ dotted orig +:+ " rrep->lifetime=" +:+ fmt_d (s32 (ntohl lifetime))]
  else if type =? AODV_RERR then
    n ← ld_bits msg RERR_OFF_FLAGS 0 1;
    count ← ld8 msg RERR_OFF_DEST_COUNT;
    mret ["rerr->dest_count:" +:+ fmt_d count +:+ " rerr->flags=" +:+ (if n =? 0 then "-" else "N")]
  else mret [].

(** ** The routing table as text

    [put] is a [sprintf] behind the text that an array of [size] characters
    already holds; [write] ends such a text, and the texts written are
    collected. *)

Definition put (size : Z) (buf s : string) : M string :=
  if size <=? slen buf + slen s then raise (Fault OutOfBounds) else mret (buf +:+ s).

Section table.
Context (localtime : Z → tm) (ifname : string).

(** The two lines above the routes. *)
Definition table_header (now : timeval) (w : world) : string * string :=
  ("# Time: " +:+ clock_text (localtime (tv_sec now)) (tv_usec now)
   +:+ " IP: " +:+ devs_ip_to_str w +:+ " seqno " +:+ fmt_d (u32 (h_seqno (this_host w)))
   +:+ " entries/active: " +:+ fmt_d (u32 (rt_num_entries (rt_tbl w))) +:+ "/"
   +:+ fmt_d (u32 (rt_num_active (rt_tbl w))) +:+ nl,
   pad_right 15 "Destination" +:+ " " +:+ pad_right 15 "Next hop" +:+ " " +:+ pad_right 3 "HC"
   +:+ " " +:+ pad_right 3 "St." +:+ " " +:+ pad_right 5 "Seqno" +:+ " " +:+ pad_right 6 "Expire"
   +:+ " " +:+ pad_right 5 "Flags" +:+ " " +:+ pad_right 5 "Iface" +:+ " "
   +:+ pad_right 15 "Precursors" +:+ nl).

(** The columns of a route up to the interface; [timeval_diff] is a [long]
    printed with [%lu]. *)
Definition route_columns (e : rt_table_t) (x : timer) (now : timeval) (seqno_str : string) : string :=
  pad_right 15 (dotted (rt_dest_addr e)) +:+ " " +:+ pad_right 15 (dotted (rt_next_hop e)) +:+ " "
  +:+ pad_right 3 (fmt_d (u8 (rt_hopcnt e))) +:+ " " +:+ pad_right 3 (state_to_str (rt_st e)) +:+ " "
  +:+ pad_right 5 seqno_str +:+ " "
  +:+ pad_right 6 (fmt_d (if rt_hopcnt e =? 255 then 0 else u32 (timeval_diff (t_timeout x) now)))
  +:+ " " +:+ pad_right 5 (rt_flags_to_str (rt_flags e)) +:+ " " +:+ pad_right 5 ifname.

(** The text of [dest_seqno]. *)
Definition seqno_text (e : rt_table_t) : string :=
  if rt_dest_seqno e =? 0 then "-" else fmt_d (u32 (rt_dest_seqno e)).

(** A precursor after the first, on a line of its own. *)
Definition precursor_line (neighbor : Z) : string :=
  pad_left 64 " " +:+ " " +:+ pad_right 15 (dotted neighbor) +:+ nl.

(** The body of the loop over the routes, on [rt_buf] and the texts written.
    The first precursor, whose [prev] is the list head, is on the line of the
    route. *)
Definition log_route (now : timeval) (st : string * list string) (r : nat)
    : M (string * list string) :=
  let '(rt_buf, out) := st in
  e ← get_rt (Some r);
  x ← get_timer (T_rt r);
  seqno_str ← put 11 EmptyString (seqno_text e);
  let columns := route_columns e x now seqno_str in
  st ← match rt_precursors e with
       | [] => rt_buf ← put 2048 rt_buf (columns +:+ nl); mret (rt_buf, out)
       | neighbor :: rest =>
           rt_buf ← put 2048 rt_buf (columns +:+ " " +:+ pad_right 15 (dotted neighbor) +:+ nl);
           foldM (λ st neighbor,
             let '(rt_buf, out) := st in
             rt_buf ← put 2048 rt_buf (precursor_line neighbor);
             mret (EmptyString, out ++ [rt_buf])) (rt_buf, out) rest
       end;
  let '(rt_buf, out) := (st : string * list string) in
  mret (if 0 <? slen rt_buf then (EmptyString, out ++ [rt_buf]) else (rt_buf, out)).

(** The texts written, of a table that is not empty. *)
Definition write_table : M (list string) :=
  now ← gettimeofday;
  w ← get;
  rt_buf ← put 2048 EmptyString (table_header now w).1;
  rt_buf ← put 2048 rt_buf (table_header now w).2;
  st ← foldM (foldM (log_route now)) (EmptyString, [rt_buf]) (rt_buckets (rt_tbl w));
  mret (st : string * list string).2.

(** [print_rt_table] with the texts that it writes. *)
Definition print_rt_table_log : M (list string) :=
  n ← gets (λ w, rt_num_entries (rt_tbl w));
  out ← (if n =? 0 then mret [] else write_table);
  interval ← gets (λ w, rt_log_interval (cfg w));
  timer_set_timeout T_rt_log interval;;
  mret out.

(** ** What is written *)

Definition joined (l : list string) : string := foldr String.app EmptyString l.

(** The text of one route: its line, and a line for each further precursor. *)
Definition route_block (now : timeval) (e : rt_table_t) (x : timer) : string :=
  let columns := route_columns e x now (seqno_text e) in
  match rt_precursors e with
  | [] => columns +:+ nl
  | neighbor :: rest =>
      columns +:+ " " +:+ pad_right 15 (dotted neighbor) +:+ nl
      +:+ joined (map precursor_line rest)
  end.

Definition route_text (now : timeval) (w : world) (r : nat) : string :=
  match rts w !! r, timers w !! T_rt r with
  | Some e, Some x => route_block now e x
  | _, _ => EmptyString
  end.
End table.

(** ** Lengths *)

Lemma slen_flag_letters l : slen (flag_letters l) ≤ Z.of_nat (length l).
Proof.
  induction l as [|[[] c] l IH]; cbn [flag_letters length]; [done|rewrite slen_cons|]; lia.
Qed.

Lemma slen_rt_flags flags : slen (rt_flags_to_str flags) ≤ 3.
Proof. apply (slen_flag_letters (_ :: _ :: [_])). Qed.

Lemma slen_state st : slen (state_to_str st) = 3.
Proof. by destruct st. Qed.

Lemma slen_u32 z : slen (fmt_d (u32 z)) ≤ 10.
Proof. apply (slen_fmt_d 9). pose proof (u32_range z). lia. Qed.

Lemma slen_seqno_text e : slen (seqno_text e) ≤ 10.
Proof. unfold seqno_text. case_match; [done|apply slen_u32]. Qed.

(** The fields of a time of day, as [localtime] and [gettimeofday] give them. *)
Definition time_ok (localtime : Z → tm) (now : timeval) : Prop :=
  let t := localtime (tv_sec now) in
  0 ≤ tm_hour t < 24 ∧ 0 ≤ tm_min t < 60 ∧ 0 ≤ tm_sec t ≤ 60 ∧ 0 ≤ tv_usec now < 1000000.

Lemma slen_clock_text localtime now :
  time_ok localtime now → slen (clock_text (localtime (tv_sec now)) (tv_usec now)) = 12.
Proof.
  intros (Hh & Hm & Hs & Hu). unfold clock_text. rewrite !slen_app, !slen_fmt_0d by lia.
  change (slen ":") with 1. change (slen ".") with 1.
  assert (0 ≤ Z.quot (tv_usec now) 1000 < 1000) as Hq.
  { rewrite Z.quot_div_nonneg by lia. split; [apply Z.div_pos; lia|].
    apply Z.div_lt_upper_bound; lia. }
  pose proof (slen_fmt_d 1 (tm_hour (localtime (tv_sec now))) ltac:(lia)).
  pose proof (slen_fmt_d 1 (tm_min (localtime (tv_sec now))) ltac:(lia)).
  pose proof (slen_fmt_d 1 (tm_sec (localtime (tv_sec now))) ltac:(lia)).
  pose proof (slen_fmt_d 2 _ Hq). lia.
Qed.

Lemma slen_log_line errnum function msg now localtime strerror :
  time_ok localtime now → (errnum ≠ 0 → slen (strerror errnum) ≤ 512) →
  0 < slen (log_line errnum function msg now localtime strerror)
    ≤ slen function + slen msg + 532.
Proof.
  intros Ht He. unfold log_line. rewrite !slen_app, slen_clock_text by done.
  pose proof (slen_nonneg function). pose proof (slen_nonneg msg).
  change (slen "[") with 1. change (slen "] ") with 2. change (slen ": ") with 2.
  assert (0 < slen (if errnum =? 0 then nl else ": " +:+ strerror errnum +:+ nl) ≤ 515); [|lia].
  destruct (Z.eqb_spec errnum 0) as [|Hne]; [done|].
  rewrite !slen_app. change (slen ": ") with 2. change (slen nl) with 1.
  pose proof (slen_nonneg (strerror errnum)). specialize (He Hne). lia.
Qed.

Lemma slen_precursor_line a : slen (precursor_line a) ≤ 81.
Proof.
  unfold precursor_line. rewrite !slen_app, slen_pad_left, slen_pad_right by done.
  pose proof (slen_dotted a). change (slen " ") with 1. change (slen nl) with 1. lia.
Qed.

Lemma slen_route_columns ifname e x now s :
  slen ifname ≤ 15 → slen s ≤ 10 → slen (route_columns ifname e x now s) ≤ 100.
Proof.
  intros Hif Hs. unfold route_columns. rewrite !slen_app, !slen_pad_right, slen_state by done.
  change (slen " ") with 1.
  pose proof (slen_dotted (rt_dest_addr e)). pose proof (slen_dotted (rt_next_hop e)).
  pose proof (slen_rt_flags (rt_flags e)).
  pose proof (slen_fmt_d 2 (u8 (rt_hopcnt e)) ltac:(pose proof (u8_range (rt_hopcnt e)); lia)).
  assert (slen (fmt_d (if rt_hopcnt e =? 255 then 0 else u32 (timeval_diff (t_timeout x) now))) ≤ 10)
    by (case_match; [done|apply slen_u32]).
  lia.
Qed.

(** ** Texts *)

Lemma joined_cons s l : joined (s :: l) = s +:+ joined l.
Proof. done. Qed.

Lemma joined_app l1 l2 : joined (l1 ++ l2) = joined l1 +:+ joined l2.
Proof. induction l1 as [|s l1 IH]; [done|]. cbn [app]. by rewrite !joined_cons, IH, str_app_assoc. Qed.

Lemma put_run size buf s w : slen buf + slen s < size → put size buf s w = Ok (buf +:+ s) w.
Proof. intros H. unfold put. by rewrite (proj2 (Z.leb_gt _ _) H). Qed.

(** The further precursors: each ends the text begun before it. *)
Lemma log_precursors_run l buf out w :
  slen buf ≤ 200 →
  ∃ buf' out', slen buf' ≤ 200 ∧
    foldM (λ st neighbor, let '(rt_buf, out) := st in
             rt_buf ← put 2048 rt_buf (precursor_line neighbor);
             mret (EmptyString, out ++ [rt_buf])) (buf, out) l w = Ok (buf', out ++ out') w ∧
    joined out' +:+ buf' = buf +:+ joined (map precursor_line l).
Proof.
  revert buf out. induction l as [|a l IH]; intros buf out Hbuf; cbn [foldM map].
  { exists buf, []. split_and!; [done|by rewrite app_nil_r|by rewrite str_app_nil_r]. }
  destruct (IH EmptyString (out ++ [buf +:+ precursor_line a])) as (buf' & out' & Hs & Hr & Hj);
    [done|].
  exists buf', ((buf +:+ precursor_line a) :: out'). split_and!; [done| |].
  - erewrite bind_run; [|erewrite bind_run; [done|]].
    + rewrite Hr. by rewrite <-app_assoc.
    + apply put_run. pose proof (slen_precursor_line a). lia.
  - by rewrite !joined_cons, str_app_assoc, Hj, str_app_assoc.
Qed.

(** One route: its text is written, and the array is empty again. *)
Lemma log_route_run ifname now r e x out w :
  slen ifname ≤ 15 → rts w !! r = Some e → timers w !! T_rt r = Some x →
  ∃ out', log_route ifname now (EmptyString, out) r w = Ok (EmptyString, out ++ out') w ∧
          joined out' = route_block ifname now e x.
Proof.
  intros Hif He Hx. unfold log_route.
  rewrite (bind_run _ _ w e w) by (unfold get_rt, deref; by rewrite He).
  rewrite (bind_run _ _ w x w) by (unfold get_timer; by rewrite Hx).
  pose proof (slen_seqno_text e) as Hsq.
  rewrite (bind_run _ _ w (seqno_text e) w) by (apply put_run; change (slen EmptyString) with 0; lia).
  cbv zeta. pose proof (slen_route_columns ifname e x now (seqno_text e) Hif Hsq) as Hcol.
  assert (∀ buf out' T, joined out' +:+ buf = T → ∃ out1,
    (mret (if 0 <? slen buf then (EmptyString, (out ++ out') ++ [buf]) else (buf, out ++ out'))
      : M (string * list string)) w = Ok (EmptyString, out ++ out1) w ∧ joined out1 = T) as Hend.
  { intros buf out' T HT. destruct (Z.ltb_spec 0 (slen buf)) as [Hb|Hb].
    - exists (out' ++ [buf]). rewrite <-app_assoc. split; [done|].
      rewrite joined_app, joined_cons. by rewrite str_app_nil_r.
    - destruct buf as [|c buf]; [|rewrite slen_cons in Hb; pose proof (slen_nonneg buf); lia].
      exists out'. split; [done|]. by rewrite str_app_nil_r in HT. }
  unfold route_block. cbv zeta. destruct (rt_precursors e) as [|a l].
  - erewrite bind_run; [|erewrite bind_run; [done|apply put_run]].
    + destruct (Hend (EmptyString +:+ (route_columns ifname e x now (seqno_text e) +:+ nl)) []
                  _ eq_refl) as (out1 & Hr & Hj).
      rewrite app_nil_r in Hr. exists out1. by rewrite Hr.
    + rewrite slen_app. change (slen EmptyString) with 0. change (slen nl) with 1. lia.
  - assert (slen (route_columns ifname e x now (seqno_text e) +:+ " "
                  +:+ pad_right 15 (dotted a) +:+ nl) ≤ 200) as Hrow.
    { rewrite !slen_app, slen_pad_right by done. pose proof (slen_dotted a).
      change (slen " ") with 1. change (slen nl) with 1. lia. }
    destruct (log_precursors_run l _ out w Hrow) as (buf' & out' & _ & Hr & Hj).
    destruct (Hend buf' out' _ Hj) as (out1 & Hr' & Hj').
    exists out1. split.
    + erewrite bind_run; [|erewrite bind_run; [exact Hr|]].
      * exact Hr'.
      * refine (put_run 2048 EmptyString _ w _). change (slen EmptyString) with 0. lia.
    + by rewrite Hj', !str_app_assoc.
Qed.

(** All the routes of some buckets. *)
Lemma log_bucket_run ifname now rs out w :
  slen ifname ≤ 15 → Forall (λ r, is_Some (rts w !! r) ∧ is_Some (timers w !! T_rt r)) rs →
  ∃ out', foldM (log_route ifname now) (EmptyString, out) rs w = Ok (EmptyString, out ++ out') w ∧
          joined out' = joined (map (route_text ifname now w) rs).
Proof.
  intros Hif. revert out. induction rs as [|r rs IH]; intros out Hrs; cbn [foldM map].
  { exists []. by rewrite app_nil_r. }
  apply Forall_cons in Hrs as [[[e He] [x Hx]] Hrs].
  destruct (log_route_run ifname now r e x out w Hif He Hx) as (o1 & R1 & J1).
  destruct (IH (out ++ o1) Hrs) as (o2 & R2 & J2).
  exists (o1 ++ o2). rewrite (bind_run _ _ _ _ _ R1), R2, app_assoc. split; [done|].
  rewrite joined_app, joined_cons, J1, J2. f_equal. unfold route_text. by rewrite He, Hx.
Qed.

Lemma log_buckets_run ifname now bs out w :
  slen ifname ≤ 15 → Forall (λ r, is_Some (rts w !! r) ∧ is_Some (timers w !! T_rt r)) (mjoin bs) →
  ∃ out', foldM (foldM (log_route ifname now)) (EmptyString, out) bs w
            = Ok (EmptyString, out ++ out') w ∧
          joined out' = joined (map (route_text ifname now w) (mjoin bs)).
Proof.
  intros Hif. revert out. induction bs as [|b bs IH]; intros out; cbn [foldM mjoin list_join].
  { exists []. by rewrite app_nil_r. }
  intros [Hb Hbs]%Forall_app.
  destruct (log_bucket_run ifname now b out w Hif Hb) as (o1 & R1 & J1).
  destruct (IH (out ++ o1) Hbs) as (o2 & R2 & J2).
  exists (o1 ++ o2). rewrite (bind_run _ _ _ _ _ R1), R2, app_assoc. split; [done|].
  by rewrite joined_app, J1, J2, map_app, joined_app.
Qed.

(** ** The routes in the order of the buckets *)

Lemma elem_of_mjoin {A} (x : A) (ls : list (list A)) : x ∈ mjoin ls ↔ ∃ i l, ls !! i = Some l ∧ x ∈ l.
Proof.
  rewrite list_elem_of_join. split.
  - intros (l & Hx & [i Hi]%list_elem_of_lookup). eauto.
  - intros (i & l & Hi & Hx). exists l. split; [done|]. by eapply list_elem_of_lookup_2.
Qed.

(** Lists that have no element in common, and none twice. *)
Lemma NoDup_mjoin {A} (f : A → nat) k (ls : list (list A)) :
  (∀ i l, ls !! i = Some l → NoDup l) →
  (∀ i l x, ls !! i = Some l → x ∈ l → f x = (k + i)%nat) → NoDup (mjoin ls).
Proof.
  revert k. induction ls as [|l ls IH]; intros k Hnd Hf; cbn [mjoin list_join]; [constructor|].
  apply NoDup_app. split_and!.
  - by apply (Hnd 0%nat).
  - intros x Hx (i & l' & Hi & Hx')%elem_of_mjoin.
    pose proof (Hf 0%nat l x eq_refl Hx). pose proof (Hf (S i) l' x Hi Hx'). lia.
  - apply (IH (S k)).
    + intros i l'. apply (Hnd (S i)).
    + intros i l' x Hi Hx. rewrite (Hf (S i) l' x Hi Hx). lia.
Qed.

Lemma table_routes m t : table_ok None m t → mjoin (rt_buckets t) ≡ₚ elements (dom m).
Proof.
  intros Ht. apply NoDup_Permutation; [|apply NoDup_elements|].
  - apply (NoDup_mjoin (λ r, default 0%nat (bucket_of <$> m !! r)) 0).
    + apply (tbl_nodup _ _ _ Ht).
    + intros i l r Hl Hr. destruct (tbl_live _ _ _ Ht i l r Hl Hr) as (_ & e & -> & He). done.
  - intros r. rewrite elem_of_elements, elem_of_dom, elem_of_mjoin. split.
    + intros (i & l & Hl & Hr). destruct (tbl_live _ _ _ Ht i l r Hl Hr) as (_ & e & He & _). eauto.
    + intros [e He]. destruct (tbl_linked _ _ _ Ht r e He) as (l & Hl & Hr); [done|]. eauto.
Qed.

(** The live routes have their timers. *)
Lemma routes_readable w rs :
  Inv None w → rs ≡ₚ elements (dom (rts w)) →
  Forall (λ r, is_Some (rts w !! r) ∧ is_Some (timers w !! T_rt r)) rs.
Proof.
  intros HI Hrs. rewrite Hrs. apply Forall_forall. intros r Hr%elem_of_elements%elem_of_dom.
  split; [done|]. by apply (I_owner _ _ HI (T_rt r)).
Qed.

Lemma slen_header localtime now w :
  time_ok localtime now →
  slen (table_header localtime now w).1 ≤ 110 ∧ slen (table_header localtime now w).2 = 81.
Proof.
  intros Ht. split; [|done]. unfold table_header, devs_ip_to_str. cbn [fst].
  rewrite !slen_app, slen_clock_text by done. pose proof (slen_dotted (dev_ipaddr (h_dev (this_host w)))).
  pose proof (slen_u32 (h_seqno (this_host w))). pose proof (slen_u32 (rt_num_entries (rt_tbl w))).
  pose proof (slen_u32 (rt_num_active (rt_tbl w))).
  change (slen "# Time: ") with 8. change (slen " IP: ") with 5. change (slen " seqno ") with 7.
  change (slen " entries/active: ") with 17. change (slen "/") with 1. change (slen nl) with 1. lia.
Qed.

(** Reading the state. *)
Lemma gets_run {A B} (f : world → A) (k : A → M B) w : (gets f ≫= k) w = k (f w) w.
Proof. done. Qed.

Lemma write_table_run localtime ifname w :
  let now := e_clock (w_env w) (w_tick w) in
  let rs := mjoin (rt_buckets (rt_tbl w)) in
  Forall (λ r, is_Some (rts w !! r) ∧ is_Some (timers w !! T_rt r)) rs →
  slen ifname ≤ 15 → time_ok localtime now →
  ∃ out, write_table localtime ifname w = Ok out (w <| w_tick ::= S |>) ∧
    joined out = (table_header localtime now w).1 +:+ (table_header localtime now w).2
                 +:+ joined (map (route_text ifname now w) rs).
Proof.
  intros now rs Hread Hif Ht. set (w1 := w <| w_tick ::= S |>).
  assert (table_header localtime now w1 = table_header localtime now w) as Hw by done.
  destruct (slen_header localtime now w Ht) as [H1 H2].
  set (h := table_header localtime now w) in *.
  destruct (log_buckets_run ifname now (rt_buckets (rt_tbl w)) [h.1 +:+ h.2] w1 Hif Hread)
    as (out & Hrun & Hj).
  exists ((h.1 +:+ h.2) :: out). split.
  - unfold write_table. rewrite (bind_run gettimeofday _ w now w1 eq_refl).
    rewrite (bind_run get _ w1 w1 w1 eq_refl), Hw. fold h.
    assert (put 2048 EmptyString h.1 w1 = Ok h.1 w1) as E1
      by (refine (put_run 2048 EmptyString h.1 w1 _); change (slen EmptyString) with 0; lia).
    assert (put 2048 h.1 h.2 w1 = Ok (h.1 +:+ h.2) w1) as E2 by (apply put_run; lia).
    rewrite (bind_run _ _ _ _ _ E1), (bind_run _ _ _ _ _ E2).
    change (rt_buckets (rt_tbl w1)) with (rt_buckets (rt_tbl w)).
    by rewrite (bind_run _ _ _ _ _ Hrun).
  - by rewrite joined_cons, Hj, str_app_assoc.
Qed.

(** C27: the log of the routing table. Writing it changes the state exactly as
    [print_rt_table] does (the clock is read once and the timer armed again),
    stays inside [rt_buf] and [seqno_str] however many routes and precursors
    there are, and the text of all the writes is: nothing for an empty table;
    otherwise the header and then the block of every route of the table, each
    route exactly once. *)
Theorem print_rt_table_log_spec localtime ifname w :
  Inv None w → slen ifname ≤ 15 → time_ok localtime (e_clock (w_env w) (w_tick w)) →
  ∃ out rs, rs ≡ₚ elements (dom (rts w)) ∧
    print_rt_table_log localtime ifname w =
      match print_rt_table w with Ok _ w' => Ok out w' | Err e => Err e end ∧
    let now := e_clock (w_env w) (w_tick w) in
    joined out =
      if rt_num_entries (rt_tbl w) =? 0 then EmptyString
      else (table_header localtime now w).1 +:+ (table_header localtime now w).2
           +:+ joined (map (route_text ifname now w) rs).
Proof.
  intros HI Hif Ht. pose proof (table_routes _ _ (I_table _ _ HI)) as Hrs.
  destruct (write_table_run localtime ifname w (routes_readable w _ HI Hrs) Hif Ht)
    as (out & Hrun & Hj).
  exists (if rt_num_entries (rt_tbl w) =? 0 then [] else out), (mjoin (rt_buckets (rt_tbl w))).
  unfold print_rt_table_log, print_rt_table. rewrite !gets_run.
  destruct (rt_num_entries (rt_tbl w) =? 0); (split_and!; [done| |done]).
  - rewrite !(bind_run (mret _) _ w _ w eq_refl), !gets_run.
    unfold mbind, M_bind. by destruct (timer_set_timeout _ _ _) as [[] w'|e].
  - rewrite (bind_run _ _ _ _ _ Hrun), (bind_run (_ ← gettimeofday; mret tt) _ w tt _ eq_refl), !gets_run.
    unfold mbind, M_bind. by destruct (timer_set_timeout _ _ _) as [[] w'|e].
Qed.

(** ** One message *)

(** C38: [alog]. A message is formatted into [buffer] without a check, so it must
    be shorter than 256 characters (247 for a warning); nothing else can go
    wrong. It is then written to the log file exactly when [log_to_file] is set
    and the descriptor is not 0, whatever its length, the test of [len] never
    drops it; [syslog] gets it from [LOG_NOTICE] up; and an error ends the
    program. *)
Theorem alog_spec debug log_to_file log_file_fd type errnum function msg now localtime strerror :
  time_ok localtime now → slen function ≤ 128 → (errnum ≠ 0 → slen (strerror errnum) ≤ 512) →
  alog debug log_to_file log_file_fd type errnum function msg now localtime strerror =
    if slen msg <? (if type =? LOG_WARNING then 247 else 256)
    then Some (Logged
      (if negb (log_to_file =? 0) && negb (log_file_fd =? 0)
       then Some (log_line errnum function msg now localtime strerror) else None)
      (if type <=? LOG_NOTICE
       then Some (function +:+ ": " +:+ msg +:+ (if errnum =? 0 then EmptyString else ": %m"))
       else None)
      (type <=? LOG_ERR))
    else None.
Proof.
  intros Ht Hf He. pose proof (slen_log_line errnum function msg now localtime strerror Ht He) as Hl.
  unfold alog. cbv zeta. replace (slen msg <? _) with
    (negb (256 <=? (if type =? LOG_WARNING then 9 else 0) + slen msg)) by (case_match; lia).
  destruct (Z.leb_spec 256 ((if type =? LOG_WARNING then 9 else 0) + slen msg)) as [Hm|Hm]; [done|].
  assert (slen msg < 256) by (case_match; lia).
  cbn [negb]. set (text := log_line _ _ _ _ _ _) in *. clearbody text.
  unfold write_to_log_file.
  rewrite (proj2 (Z.leb_gt 1024 _)), (proj2 (Z.ltb_ge 1024 _)), (proj2 (Z.leb_gt _ 0)) by lia.
  destruct (log_to_file =? 0), (log_file_fd =? 0), (debug =? 0); reflexivity.
Qed.

(** ** Names *)

(** The name of a timeout function fits [buf], and two functions with the
    same name are the same unless neither is in [timeout_func]. *)
Theorem ptr_to_func_name_spec a b :
  slen (ptr_to_func_name a) < 32 ∧
  (ptr_to_func_name a = ptr_to_func_name b → a = b) ∧
  (ptr_to_func_name a = "Unkown function" ↔ a = hello_send_h).
Proof.
  split_and!; [by destruct a| |].
  - destruct a, b; intros H; vm_compute in H; congruence || reflexivity.
  - split; [|by intros ->]. destruct a; intros H; vm_compute in H; congruence || reflexivity.
Qed.

(** ** The fields of a message *)

Section fields.
Context {A : Type} (lim : ptr) (E : err → Prop) (Q : A → world → Prop) (w : world) (b : bufid).
Hypothesis HI : Inv lim w.

Lemma wp_ld8 off (k : Z → M A) :
  0 ≤ off < 1024 → (∀ v, is_byte v → wp E (k v) Q w) → wp E (ld8 b off ≫= k) Q w.
Proof.
  intros Hoff Hk. destruct (ld_run lim w b off 1) as (bs & Hrun & Hl & Hb); [done|lia..|].
  destruct bs as [|v []]; try done. rewrite of_bytes_1 in Hrun.
  eapply wp_ext; [by apply (bind_run _ k _ v w)|]. apply Hk. by inversion_clear Hb.
Qed.

Lemma wp_ld32 off (k : Z → M A) :
  0 ≤ off ≤ 1020 → (∀ v, wp E (k v) Q w) → wp E (ld32 b off ≫= k) Q w.
Proof.
  intros Hoff Hk. destruct (ld32_ok lim w b off HI Hoff) as [v Hrun].
  eapply wp_ext; [by apply (bind_run _ k _ v w)|]. apply Hk.
Qed.

Lemma wp_ld_bits off lo n (k : Z → M A) :
  0 ≤ off < 1024 → (∀ v, wp E (k v) Q w) → wp E (ld_bits b off lo n ≫= k) Q w.
Proof.
  intros Hoff Hk. destruct (ld8_ok lim w b off HI Hoff) as [v Hrun].
  eapply wp_ext; [|apply (Hk (Z.land (Z.shiftr v lo) (Z.ones n)))].
  unfold ld_bits. rewrite bind_assoc_run. by rewrite (bind_run _ _ _ _ _ Hrun).
Qed.
End fields.

Lemma slen_s32 z : slen (fmt_d (s32 z)) ≤ 11.
Proof. apply slen_fmt_s32, s32_range. Qed.

Lemma slen_fmt_byte z : is_byte z → slen (fmt_d z) ≤ 3.
Proof. intros [H0 H1]. apply (slen_fmt_d 2). change (10 ^ Z.of_nat 3) with 1000. lia. Qed.

(** A line of [log_pkt_fields]: constant texts, numbers, flags and an address. *)
Ltac line_length :=
  rewrite !slen_app;
  repeat match goal with
  | |- context [slen (fmt_d (s32 ?z))] =>
      let H := fresh in pose proof (slen_s32 z) as H; revert H; generalize (slen (fmt_d (s32 z)))
  | Hb : is_byte ?z |- context [slen (fmt_d ?z)] =>
      let H := fresh in pose proof (slen_fmt_byte z Hb) as H; revert H; generalize (slen (fmt_d z))
  | |- context [slen (dotted ?a)] =>
      let H := fresh in pose proof (slen_dotted a) as H; revert H; generalize (slen (dotted a))
  | |- context [slen (rreq_flags_to_str ?j ?r ?g ?d)] =>
      let H := fresh in pose proof (slen_flag_letters
        [(negb (j =? 0), "J"%char); (negb (r =? 0), "R"%char);
         (negb (g =? 0), "G"%char); (negb (d =? 0), "D"%char)]) as H;
      fold (rreq_flags_to_str j r g d) in H; revert H; generalize (slen (rreq_flags_to_str j r g d))
  | |- context [slen (rrep_flags_to_str ?r ?a)] =>
      let H := fresh in pose proof (slen_flag_letters
        [(negb (r =? 0), "R"%char); (negb (a =? 0), "A"%char)]) as H;
      fold (rrep_flags_to_str r a) in H; revert H; generalize (slen (rrep_flags_to_str r a))
  end;
  intros; unfold slen in *; cbn [String.length length] in *; lia.

(** Logging a message. For any bytes in the buffer, [log_pkt_fields] reads
    inside the message and changes nothing, and every line it logs fits the
    [buffer] of [alog], which has no check of its own. *)
Theorem log_pkt_fields_fit lim w b :
  Inv lim w →
  ∃ lines, log_pkt_fields b w = Ok lines w ∧ Forall (λ l, slen l < 247) lines.
Proof.
  intros HI. enough (wp (λ _, False) (log_pkt_fields b)
    (λ lines w', w' = w ∧ Forall (λ l, slen l < 247) lines) w) as H.
  { unfold wp in H. destruct (log_pkt_fields b w) as [lines w'|]; [|done].
    destruct H as [-> H]. eauto. }
  unfold log_pkt_fields. apply (wp_ld8 lim); [done..|]. intros type _.
  destruct (type =? AODV_RREQ); [|destruct (type =? AODV_RREP); [|destruct (type =? AODV_RERR)]].
  all: repeat (first [apply (wp_ld_bits lim); [done..|intros ?] | apply (wp_ld8 lim); [done..|intros ??]
                     | apply (wp_ld32 lim); [done..|intros ?]]).
  all: apply wp_ret; split; [done|]; repeat (apply Forall_cons; split); [..|apply Forall_nil_2].
  all: try line_length.
  destruct (_ =? 0); line_length.
Qed.
