(* ===== verification/Samples.v ===== *)
(** * A sample run of the daemon

    A concrete environment, interface and input, and the state the daemon is
    in afterwards; the witnesses of the properties evaluate the operations in
    it. *)

From S2P Require Export Discovery Daemon.

(** The clock advances by a millisecond per reading, a thousand times; nothing
    fails. *)
Definition sample_env : env :=
  Env (λ n, if Z.of_nat n <? 1000 then TV 1000 (1000 * Z.of_nat n) else TV 1001 0)
    (λ _, true) (λ _, true).

(** 10.0.0.[n] in network byte order, as the little-endian host reads it. *)
Definition ip (n : Z) : Z := htonl (0x0a000000 + n).

Definition sample_dev : dev_info := Dev 1 2 (ip 1) (htonl 0xffffff00) (ip 255).

(** A RREQ of 10.0.0.3 for 10.0.0.9 that 10.0.0.2 relays (hop count 1). *)
Definition sample_rreq : list Z :=
  [AODV_RREQ; 0; 0; 1] ++ bytes32 (htonl 7) ++ bytes32 (ip 9) ++ bytes32 (htonl 0)
  ++ bytes32 (ip 3) ++ bytes32 (htonl 5).

(** The node hears the RREQ, then an application sends to 10.0.0.8. *)
Definition sample_ios : list ready :=
  [Ready None (Some (Some (Packet sample_rreq (ip 2) AODV_BROADCAST 10)));
   Ready (Some (Some (KMsg KAODVM_ROUTE_REQ (ip 1) (ip 8)))) None].

Definition sample_w : world := Eval vm_compute in
  match daemon sample_dev sample_ios (initial_world sample_env) with
  | Ok _ w => w
  | Err _ => initial_world sample_env
  end.

Lemma sample_run : daemon sample_dev sample_ios (initial_world sample_env) = Ok tt sample_w.
Proof. vm_compute. reflexivity. Qed.

Lemma sample_loop_inv : loop_inv sample_w.
Proof. exact (wp_ok _ _ _ _ _ _ sample_run (wp_daemon sample_env sample_dev sample_ios)). Qed.

Lemma sample_Inv : Inv None sample_w.
Proof. apply sample_loop_inv. Qed.

Lemma sample_exptq : exptq sample_w = [].
Proof. apply sample_loop_inv. Qed.

Lemma sample_reachable : reachable sample_env sample_dev sample_w.
Proof. apply (daemon_reachable _ _ sample_ios), sample_run. Qed.

(** The two routes of the sample state: to the relay, and through it. *)
Definition sample_e1 : rt_table_t :=
  RT (ip 2) 0 (ip 2) 1 0 VALID (TV 0 0) 0 (ip 2) 0 [].
Definition sample_e3 : rt_table_t :=
  RT (ip 3) 5 (ip 2) 2 0 VALID (TV 0 0) 0 (ip 3) 0 [].

Lemma sample_r1 : rts sample_w !! 1%nat = Some sample_e1.
Proof. vm_compute. reflexivity. Qed.

Lemma sample_r3 : rts sample_w !! 3%nat = Some sample_e3.
Proof. vm_compute. reflexivity. Qed.

(** The state a statement ends in. *)
Definition after {A} (m : M A) (w : world) : world :=
  match m w with Ok _ w' => w' | Err _ => w end.

(** Evaluate the run in a specification and keep its successful branch, with
    the result [a] and the final state [w1]. *)
Ltac evaluated H a w1 E :=
  lazymatch type of H with
  | context [match ?r with Ok _ _ => _ | Err _ => _ end] =>
      let e := fresh "e" in
      destruct r as [a w1|e] eqn:E; [|exfalso; vm_compute in E; discriminate E]
  end.
