(* ===== verification/Witnesses.v ===== *)
(** * Witnesses: the properties applied in the sample state *)

From S2P Require Import Samples Typed.

(** ** The daemon *)

Lemma main_iteration_safe_witness :
  ∃ w', main_iteration (Ready None None) sample_w = Ok tt w' ∧ Inv None w'.
Proof.
  destruct (main_iteration_safe sample_env sample_dev sample_w (Ready None None) sample_reachable)
    as [_ H].
  evaluated H a w1 E. destruct a. exists w1. split; [reflexivity|apply H].
Defined.

Lemma no_rrep_ever_sent_witness : T_worb ∉ tq sample_w.
Proof. exact (proj1 (proj2 (no_rrep_ever_sent sample_env sample_dev sample_w sample_reachable))). Defined.

Lemma reachable_table_witness : rt_num_entries (rt_tbl sample_w) = 2.
Proof.
  rewrite (proj1 (proj2 (proj2 (reachable_table sample_env sample_dev sample_w sample_reachable)))).
  vm_compute. reflexivity.
Defined.

Lemma sample_typed_reachable : typed_reachable sample_env sample_dev sample_w.
Proof.
  apply (daemon_typed_reachable _ _ sample_ios); [|apply sample_run].
  constructor; [|constructor; [|constructor]]; split; intros x [= <-] || intros x [=].
  - apply htonl_range.
  - split; apply htonl_range.
Qed.

Lemma state_well_typed_witness : is_u8 (rt_hopcnt sample_e3).
Proof.
  apply rt_typed_hopcnt.
  refine (typed_rts sample_w (state_well_typed sample_env sample_dev sample_w _ _ sample_typed_reachable)
            3%nat sample_e3 sample_r3).
  - intros n. cbn. destruct (Z.ltb_spec (Z.of_nat n) 1000); split; unfold is_s32; cbn; lia.
  - split; cbn; first [apply htonl_range | unfold is_u8, is_u32; lia].
Defined.

(** ** The routing table *)

Lemma rt_table_check_spec_witness : rt_table_check (ip 3) sample_w = Ok (Some 3%nat) sample_w.
Proof.
  destruct (rt_table_check_spec sample_w (ip 3) sample_Inv) as (p & Hp & Hspec).
  rewrite Hp. f_equal. apply Hspec. exists sample_e3. split; [apply sample_r3|reflexivity].
Defined.

Lemma rt_table_insert_spec_witness :
  ∃ r w', rt_table_insert (ip 4) (ip 2) 3 9 1000 VALID 0 sample_w = Ok (Some r) w' ∧
    rt_table_check (ip 4) w' = Ok (Some r) w'.
Proof.
  pose proof (rt_table_insert_spec (ip 4) (ip 2) 3 9 1000 VALID 0 sample_w sample_Inv) as H.
  evaluated H a w1 E. destruct a as [r|]; [|exfalso; vm_compute in E; discriminate E].
  exists r, w1. split; [reflexivity|apply H].
Defined.

Lemma rt_table_delete_spec_witness :
  ∃ w', rt_table_delete (Some 3%nat) sample_w = Ok tt w' ∧
    rt_table_check (ip 3) w' = Ok None w'.
Proof.
  pose proof (rt_table_delete_spec sample_w 3 sample_e3 sample_Inv sample_r3) as H.
  evaluated H a w1 E. destruct a. exists w1. split; [reflexivity|apply H].
Defined.

Lemma rt_table_invalidate_spec_witness :
  ∃ w', rt_table_invalidate (Some 3%nat) sample_w = Ok 0 w' ∧
    rts w' = <[3%nat := invalidated sample_e3]> (rts sample_w).
Proof.
  pose proof (rt_table_invalidate_spec sample_w 3 sample_e3 sample_Inv sample_r3) as H.
  evaluated H a w1 E. destruct H as [_ (-> & Hr & _)]. exists w1. split; [reflexivity|exact Hr].
Defined.

Lemma rt_table_update_timeout_extends_witness :
  ∃ w' x', rt_table_update_timeout (Some 1%nat) 5000 sample_w = Ok (Some 1%nat) w' ∧
    timers w' !! T_rt 1%nat = Some x' ∧ 1003008000 ≤ us (t_timeout x').
Proof.
  pose (x := Timer true (TV 1003 8000) (Some route_expire_timeout_h) (Some 1%nat)).
  assert (timers sample_w !! T_rt 1%nat = Some x) as Hx by (vm_compute; reflexivity).
  assert (e_clock (w_env sample_w) (w_tick sample_w) = TV 1000 27000) as Hc
    by (vm_compute; reflexivity).
  assert (e_clock (w_env sample_w) (S (w_tick sample_w)) = TV 1000 28000) as Hc'
    by (vm_compute; reflexivity).
  pose proof (rt_table_update_timeout_extends sample_w 1 sample_e1 x 5000
                sample_Inv sample_r1 Hx) as H.
  cbv zeta in H. rewrite Hc, Hc' in H. unfold normalized, us in H.
  cbn [tv_sec tv_usec t_timeout x] in H. do 10 (specialize (H ltac:(lia))).
  evaluated H a w1 E. destruct H as (-> & _ & _ & x' & Hx' & Hle & _).
  exists w1, x'. split; [reflexivity|]. split; [exact Hx'|]. exact Hle.
Defined.

Lemma precursor_add_remove_witness :
  ∃ w' w'', precursor_add (Some 3%nat) (ip 5) sample_w = Ok tt w' ∧
    precursor_remove (Some 3%nat) (ip 5) w' = Ok tt w'' ∧ rts w'' = rts sample_w.
Proof.
  pose proof (precursor_add_remove sample_w 3 sample_e3 (ip 5) sample_Inv sample_r3) as H.
  evaluated H a w1 E. destruct a. cbn [rt_precursors sample_e3] in H.
  rewrite bool_decide_eq_false_2 in H by apply not_elem_of_nil.
  destruct H as (_ & w2 & H2 & Hr). exists w1, w2.
  split; [reflexivity|]. split; [exact H2|exact Hr].
Defined.

Lemma rt_table_destroy_empties_witness :
  ∃ w', rt_table_destroy sample_w = Ok tt w' ∧ rts w' = ∅.
Proof.
  pose proof (rt_table_destroy_empties sample_w sample_Inv) as H.
  evaluated H a w1 E. destruct a. exists w1. split; [reflexivity|apply H].
Defined.

(** ** Neighbors *)

Lemma neighbor_link_break_unroutes_witness :
  ∃ w', neighbor_link_break (Some 1%nat) sample_w = Ok tt w' ∧
    ∀ u e', rts w' !! u = Some e' → rt_st e' = VALID → rt_next_hop e' ≠ ip 2.
Proof.
  pose proof (neighbor_link_break_unroutes sample_w 1 sample_e1 sample_Inv sample_r1 eq_refl) as H.
  evaluated H a w1 E. destruct a. exists w1. split; [reflexivity|].
  intros u e' Hu Hv. by apply H with u.
Defined.

Lemma neighbor_link_break_spares_witness :
  ∃ w', neighbor_link_break (Some 3%nat) sample_w = Ok tt w' ∧ rts w' !! 1%nat = Some sample_e1.
Proof.
  pose proof (neighbor_link_break_spares sample_w 3 sample_e3 sample_Inv sample_r3) as H.
  evaluated H a w1 E. destruct a. exists w1. split; [reflexivity|].
  apply H; [lia|apply sample_r1|vm_compute; discriminate].
Defined.


(** The route to 10.0.0.3 after it was invalidated, due for deletion. *)
Definition broken_w : world := Eval vm_compute in after (rt_table_invalidate (Some 3%nat)) sample_w.

Lemma rt_table_update_stale_deadline_witness :
  ∃ p w' x, rt_table_update (Some 3%nat) (ip 2) 2 9 100000 VALID 0 broken_w = Ok p w' ∧
    timers w' !! T_rt 3%nat = Some x ∧ t_timeout x = TV 1015 30000.
Proof.
  pose (x := Timer true (TV 1015 30000) (Some route_delete_timeout_h) (Some 3%nat)).
  assert (rts broken_w !! 3%nat = Some (invalidated sample_e3)) as He by (vm_compute; reflexivity).
  assert (timers broken_w !! T_rt 3%nat = Some x) as Hx by (vm_compute; reflexivity).
  pose proof (rt_table_update_stale_deadline broken_w 3 (invalidated sample_e3) x
                (ip 2) 2 9 100000 0 He eq_refl eq_refl Hx) as H.
  evaluated H a w1 E. destruct H as [_ H].
  exists a, w1, (x <| t_handler := Some route_expire_timeout_h |>).
  split; [reflexivity|]. split; [exact H|reflexivity].
Defined.

Lemma neighbor_add_spec_witness :
  ∃ w' r e, neighbor_add (ip 6) sample_w = Ok tt w' ∧ rts w' !! r = Some e ∧
    rt_dest_addr e = ip 6.
Proof.
  pose proof (neighbor_add_spec (ip 6) sample_w sample_Inv) as H.
  evaluated H a w1 E. destruct a. destruct H as (_ & r & e & He & Hd).
  exists w1, r, e. split; [reflexivity|]. split; [exact He|].
  destruct Hd as [[Hd _]|[Hd _]]; exact Hd.
Defined.

(** ** The timer queue *)

(** An unused timer of the sample state. *)
Definition sample_t : timer := Timer false (TV 0 0) (Some hello_timeout_h) (Some 1%nat).

Lemma sample_timer : timers sample_w !! T_hello 1%nat = Some sample_t.
Proof. vm_compute. reflexivity. Qed.

Lemma sample_tq : tq sample_w = [T_seek 4; T_rt 1; T_rt 3; T_rec 2; T_rt_log]%nat.
Proof. vm_compute. reflexivity. Qed.

(** The deadlines of the queue, in microseconds. *)
Definition deadline (t : timer_id) : Z :=
  match timers sample_w !! t with Some x => us (t_timeout x) | None => 0 end.

Lemma deadline_eq t x : timers sample_w !! t = Some x → us (t_timeout x) = deadline t.
Proof. intros H. unfold deadline. by rewrite H. Qed.

Lemma sample_comparable : comparable (timers sample_w) (T_hello 1%nat :: tq sample_w).
Proof.
  assert (Forall (λ t, 0 ≤ deadline t ≤ 1010000000) (T_hello 1%nat :: tq sample_w)) as HF.
  { rewrite sample_tq. repeat constructor; vm_compute; discriminate. }
  rewrite Forall_forall in HF. intros p q x y Hp%HF Hq%HF Hx Hy.
  rewrite (deadline_eq p x Hx), (deadline_eq q y Hy). lia.
Qed.

Lemma sample_sorted : StronglySorted (may_precede (timers sample_w)) (tq sample_w).
Proof.
  assert (∀ p q, deadline p - deadline q < 1000 → may_precede (timers sample_w) p q) as Hd.
  { intros p q H x y Hx Hy. by rewrite (deadline_eq p x Hx), (deadline_eq q y Hy). }
  rewrite sample_tq. repeat constructor; apply Hd; vm_compute; reflexivity.
Qed.


Lemma timer_set_timeout_spec_witness :
  ∃ w', timer_set_timeout (T_hello 1%nat) 2000 sample_w = Ok tt w' ∧
    T_hello 1%nat ∈ tq w' ++ exptq w'.
Proof.
  destruct (timer_set_timeout_spec None sample_w (T_hello 1%nat) sample_t 2000
              sample_Inv sample_timer ltac:(discriminate)) as (w' & H & _ & Hq & _).
  exists w'. split; [exact H|]. apply Hq. lia.
Defined.

Lemma timer_collect_due_witness :
  ∃ due rest, tq sample_w = due ++ rest ∧
    timer_collect (TV 1004 0) (tq sample_w) sample_w
    = Ok tt (sample_w <| tq := rest |> <| exptq := due |>).
Proof.
  destruct (timer_collect_due (TV 1004 0) sample_w sample_Inv sample_exptq)
    as (due & rest & Hq & H & _).
  exists due, rest. split; [exact Hq|exact H].
Defined.


Lemma timeval_add_msec_exact_witness :
  us (timeval_add_msec (TV 5 999999) 2) = us (TV 5 999999) + 2000.
Proof. apply (timeval_add_msec_exact (TV 5 999999) 2); unfold normalized; cbn; lia. Defined.

Lemma remaining_until_exact_witness :
  us (remaining_until (TV 6 0) (TV 5 999999)) = 1.
Proof. apply (remaining_until_exact (TV 6 0) (TV 5 999999)); unfold normalized; cbn; lia. Defined.

(** ** Messages *)

(** The sample state when the datagram [l] has been received. *)
Definition receiving (l : list Z) : world :=
  sample_w <| sock ::= λ s, s <| recv_bytes := l ++ replicate (1024 - length l) 0 |> |>.

Lemma received_receiving l : (length l <= 1024)%nat → received l (receiving l).
Proof. intros. unfold received, receiving. simpl. by rewrite take_app_length. Qed.


Lemma rrep_roundtrip_witness :
  ∃ w1 msg, rrep_create RREP_ACK 0 3 (ip 8) 4 (ip 1) 6000 sample_w = Ok send_buf w1 ∧
    take 20 (send_bytes (sock w1)) = msg ∧
    ld8 recv_buf RREP_OFF_HOPCNT (receiving msg) = Ok 3 (receiving msg).
Proof.
  pose (msg := rrep_bytes RREP_ACK 0 3 (ip 8) 4 (ip 1) 6000).
  destruct (rrep_roundtrip RREP_ACK 0 3 (ip 8) 4 (ip 1) 6000 sample_w (receiving msg))
    as (w1 & msg' & Hrun & Hlen & Htake & Hrecv);
    [vm_compute; split; congruence..|].
  assert (msg' = msg) as ->.
  { rewrite rrep_create_run in Hrun. injection Hrun as <-. rewrite <-Htake.
    vm_compute. reflexivity. }
  exists w1, msg. split; [exact Hrun|]. split; [exact Htake|].
  apply Hrecv. apply received_receiving. vm_compute. lia.
Defined.

(** A RERR of the relay for the route to 10.0.0.3. *)
Definition sample_rerr : list Z := rerr_bytes 0 1 [(ip 3, 6)].

Lemma rerr_roundtrip_witness :
  RERR_CALC_SIZE recv_buf (receiving sample_rerr) = Ok 12 (receiving sample_rerr).
Proof.
  apply (rerr_roundtrip 0 [(ip 3, 6)] (receiving sample_rerr)).
  - simpl. lia.
  - repeat constructor; vm_compute; congruence.
  - apply received_receiving. vm_compute. lia.
Defined.

Lemma receiving_Inv l :
  (length l <= 1024)%nat → Forall is_byte l → Inv None (receiving l).
Proof.
  intros Hl Hb. pose proof sample_Inv as HI. unfold receiving. inv_split HI.
  destruct I_sock0. split; simpl; try assumption.
  - rewrite length_app, length_replicate. lia.
  - apply Forall_app. split; [done|]. apply Forall_replicate. by split.
Qed.

Lemma sample_rerr_Inv : Inv None (receiving sample_rerr).
Proof.
  apply receiving_Inv; [vm_compute; lia|]. repeat constructor; vm_compute; congruence.
Qed.

Lemma rerr_process_only_sender_witness :
  ∃ w', rerr_process recv_buf 12 (ip 4) (receiving sample_rerr) = Ok tt w' ∧
    rts w' !! 3%nat = Some sample_e3.
Proof.
  pose proof (rerr_process_only_sender 12 (ip 4) (receiving sample_rerr) sample_rerr_Inv
                ltac:(lia)) as H.
  evaluated H a w1 E. destruct a. exists w1. split; [reflexivity|].
  apply H; [apply sample_r3|vm_compute; discriminate].
Defined.

Lemma rerr_process_udest_spec_witness :
  ∃ acc w', rerr_process_udest recv_buf (ip 2) (false, 0) (ip 3) 6 (receiving sample_rerr)
            = Ok acc w' ∧
    rts w' = <[3%nat := (invalidated sample_e3) <| rt_dest_seqno := 6 |>
                          <| rt_precursors := [] |> <| rt_nprecursor := 0 |>]> (rts sample_w).
Proof.
  assert (ld_bits recv_buf RERR_OFF_FLAGS 0 1 (receiving sample_rerr)
    = Ok 0 (receiving sample_rerr)) as Hn by (vm_compute; reflexivity).
  pose proof (rerr_process_udest_spec (ip 2) (false, 0) (ip 3) 6 0 (receiving sample_rerr) 3
                sample_e3 sample_rerr_Inv sample_r3 eq_refl Hn) as H.
  evaluated H a w1 E. exists a, w1. split; [reflexivity|exact H].
Defined.

(** A fresher reply for 10.0.0.3, through 10.0.0.4. *)
Definition sample_rrep : list Z :=
  [AODV_RREP; 0; 0; 0] ++ bytes32 (ip 3) ++ bytes32 (htonl 7) ++ bytes32 (ip 1)
  ++ bytes32 (htonl 5000).

Lemma sample_rrep_Inv : Inv None (receiving sample_rrep).
Proof.
  apply receiving_Inv; [vm_compute; lia|]. repeat constructor; vm_compute; congruence.
Qed.

Lemma sample_rrep_reads :
  rrep_reads recv_buf (receiving sample_rrep) (ip 3) (ip 1) (htonl 7) 0.
Proof. split_and!; vm_compute; reflexivity. Qed.

Lemma rrep_process_spec_witness :
  ∃ w', rrep_process recv_buf 20 (ip 4) 10 (receiving sample_rrep) = Ok tt w' ∧
    reply_outcome (ip 3) (ip 4) (ntohl (htonl 7)) (0 + 1) (receiving sample_rrep) w'.
Proof.
  pose proof (rrep_process_spec recv_buf 20 (ip 4) 10 (ip 3) (ip 1) (htonl 7) 0
                (receiving sample_rrep) sample_rrep_Inv ltac:(split; vm_compute; discriminate)
                sample_rrep_reads ltac:(vm_compute; discriminate)) as H.
  evaluated H a w1 E. destruct a. exists w1. split; [reflexivity|apply H].
Defined.

(** The discovery of 10.0.0.8 that the application started. *)
Definition sample_seek : seek_list_t := Seek (ip 8) 0 0 1 2.

Lemma sample_seek_sane : seek_sane sample_seek.
Proof. vm_compute. repeat split; discriminate. Qed.

Lemma route_discovery_timeout_spec_witness :
  ∃ w' e', route_discovery_timeout (Some 4%nat) sample_w = Ok tt w' ∧
    seeks w' !! 4%nat = Some e' ∧ sk_rreq_cnt e' = 2.
Proof.
  pose proof (route_discovery_timeout_spec 4 sample_seek sample_w sample_Inv
                ltac:(vm_compute; reflexivity) sample_seek_sane) as H.
  evaluated H a w1 E. destruct a. destruct H as (_ & _ & H).
  destruct (H ltac:(vm_compute; reflexivity)) as (e' & He & _ & Hc).
  exists w1, e'. split; [reflexivity|]. split; [exact He|exact Hc].
Defined.

(** ** Route requests *)

(** The RREQ the sample state has on record, and a new one. *)
Definition new_rreq : list Z := [AODV_RREQ; 0; 0; 1] ++ bytes32 (htonl 8) ++ bytes32 (ip 9)
  ++ bytes32 (htonl 0) ++ bytes32 (ip 3) ++ bytes32 (htonl 6).

Lemma sample_rreq_Inv : Inv None (receiving sample_rreq).
Proof.
  apply receiving_Inv; [vm_compute; lia|]. repeat constructor; vm_compute; congruence.
Qed.

Lemma new_rreq_Inv : Inv None (receiving new_rreq).
Proof.
  apply receiving_Inv; [vm_compute; lia|]. repeat constructor; vm_compute; congruence.
Qed.

Lemma rreq_process_ignores_witness :
  rreq_process recv_buf 24 (ip 4) 10 (receiving sample_rreq) = Ok tt (receiving sample_rreq).
Proof.
  apply (rreq_process_ignores recv_buf 24 (ip 4) 10 (receiving sample_rreq) (ip 3) (htonl 7)
           sample_rreq_Inv).
  - vm_compute. reflexivity.
  - vm_compute. reflexivity.
  - right. right. right. exists 2%nat. vm_compute. reflexivity.
Defined.

Lemma rreq_process_records_witness :
  ∃ w', rreq_process recv_buf 24 (ip 2) 10 (receiving new_rreq) = Ok tt w' ∧
    rreq_ignored w' 24 (ip 4) (ip 3) (ntohl (htonl 8)).
Proof.
  assert (ld32 recv_buf RREQ_OFF_ORIG_ADDR (receiving new_rreq) = Ok (ip 3) (receiving new_rreq))
    as Ho by (vm_compute; reflexivity).
  assert (ld32 recv_buf RREQ_OFF_ID (receiving new_rreq) = Ok (htonl 8) (receiving new_rreq))
    as Hi by (vm_compute; reflexivity).
  assert (¬ rreq_ignored (receiving new_rreq) 24 (ip 2) (ip 3) (ntohl (htonl 8))) as Hn.
  { intros [Hx|[Hx|[[k Hk]|[k Hk]]]].
    - vm_compute in Hx. discriminate Hx.
    - vm_compute in Hx. discriminate Hx.
    - assert (bls sample_w = ∅) as Hb by (vm_compute; reflexivity).
      change (bls sample_w !! k = Some (Bl (ip 2))) in Hk. rewrite Hb in Hk.
      by apply lookup_empty_Some in Hk.
    - assert (recs sample_w = {[2%nat := Rec (ip 3) 7]}) as Hr by (vm_compute; reflexivity).
      change (recs sample_w !! k = Some (Rec (ip 3) (ntohl (htonl 8)))) in Hk. rewrite Hr in Hk.
      apply lookup_singleton_Some in Hk as [_ Hk]. vm_compute in Hk. discriminate Hk. }
  pose proof (rreq_process_records recv_buf 24 (ip 2) 10 (receiving new_rreq) _ _
                new_rreq_Inv ltac:(lia) Ho Hi Hn) as H.
  evaluated H a w1 E. destruct a. exists w1. split; [reflexivity|apply H].
Defined.

Lemma rreq_record_insert_spec_witness :
  ∃ p w', rreq_record_insert (ip 5) 1 sample_w = Ok p w' ∧
    ∃ k, rreq_record_check (ip 5) 1 w' = Ok (Some k) w'.
Proof.
  pose proof (rreq_record_insert_spec (ip 5) 1 sample_w sample_Inv) as H.
  evaluated H a w1 E. destruct H as (_ & k & _ & _ & (k' & Hk & _) & _).
  exists a, w1. split; [reflexivity|]. exists k'. exact Hk.
Defined.

Lemma rreq_forward_spec_witness :
  ∃ w', rreq_forward recv_buf 24 9 (receiving sample_rreq) = Ok tt w' ∧ Inv None w'.
Proof.
  assert (ld8 recv_buf RREQ_OFF_HOPCNT (receiving sample_rreq) = Ok 1 (receiving sample_rreq))
    as Hh by (vm_compute; reflexivity).
  pose proof (rreq_forward_spec recv_buf 24 9 (receiving sample_rreq) 1 sample_rreq_Inv
                ltac:(lia) Hh) as H.
  evaluated H a w1 E. destruct a. exists w1. split; [reflexivity|apply H].
Defined.

Lemma rreq_reverse_route_spec_witness :
  ∃ p w', rreq_reverse_route (ip 3) (ip 4) 2 4 5000 sample_w = Ok p w' ∧ Inv None w'.
Proof.
  pose proof (rreq_reverse_route_spec (ip 3) (ip 4) 2 4 5000 sample_w sample_Inv) as H.
  evaluated H a w1 E. exists a, w1. split; [reflexivity|apply H].
Defined.
