(* ===== verification/Bridge.v ===== *)
(** * The daemon and the kernel module together

    The daemon's messages to the module ([nl.c]) are laid out as datagrams and
    handled by the module ([kaodv_netlink.c]), and the module's requests come
    back to the daemon: what a call on one side does on the other. *)

From S2P Require Export KConc.
From S2P Require Import Daemon.

(** ** Datagrams *)

(** [struct nlmsghdr] and its payload. *)
Definition nlmsg_bytes (len type flags seq pid : Z) (payload : list Z) : list Z :=
  (bytes32 len ++ bytes16 type ++ bytes16 flags ++ bytes32 seq ++ bytes32 pid) ++ payload.

(** The [struct kaodv_rt_msg] of a message of the daemon: [areq.m], zero where
    it is not assigned. *)
Definition rt_msg (m : nl_msg) : kaodv_rt_msg :=
  KRtMsg 0 0 (m_dest m) (m_nhop m) (m_flags m) (m_ifindex m) (m_time m).

(** What [nl_send] hands to [sendmsg] when the socket's port is [pid]. *)
Definition datagram (pid : Z) (m : nl_msg) : list Z :=
  nlmsg_bytes (NLMSG_LENGTH sizeof_rt_msg) (nl_type m) (nl_flags m) (nl_seq m) pid
    (rt_msg_bytes (rt_msg m)).

(** The module receives what the daemon sent, in the order of sending; [evs]
    has the events latest first. *)
Definition datagrams (pid : Z) (evs : list event) : list (list Z) :=
  omap (λ e, match e with EvNl m => Some (datagram pid m) | _ => None end) (rev evs).

Definition deliver (pid : Z) (evs : list event) : prog unit :=
  pfor_each (datagrams pid evs) kaodv_netlink_rcv_skb.

(** The daemon's view of a message of the module. *)
Definition kmsg_of (type : Z) (data : list Z) : option kmsg :=
  m ← rt_msg_of data; Some (KMsg type (km_src m) (km_dest m)).

(** ** Reading a datagram back *)

Lemma of_bytes16 z : of_bytes (bytes16 z) = u16 z.
Proof.
  unfold u16, bytes16. cbn [of_bytes]. change (2 ^ 16) with (256 * 256). change (2 ^ 8) with 256.
  rewrite Z.rem_mul_r by lia. lia.
Qed.

Section header.
Context (len type flags seq pid : Z) (payload : list Z).
Let skb := nlmsg_bytes len type flags seq pid payload.

Lemma header_len : pkt_ld skb 0 4 = Some (u32 len).
Proof.
  unfold skb, nlmsg_bytes, pkt_ld. rewrite load_app_l by (cbn; lia).
  change (load_bytes _ 0 4) with (Some (bytes32 len)). cbn [fmap option_fmap option_map].
  by rewrite of_bytes32.
Qed.

Lemma header_type : pkt_ld skb 4 2 = Some (u16 type).
Proof.
  unfold skb, nlmsg_bytes, pkt_ld. rewrite load_app_l by (cbn; lia).
  change (load_bytes _ 4 2) with (Some (bytes16 type)). cbn [fmap option_fmap option_map].
  by rewrite of_bytes16.
Qed.

Lemma header_flags : pkt_ld skb 6 2 = Some (u16 flags).
Proof.
  unfold skb, nlmsg_bytes, pkt_ld. rewrite load_app_l by (cbn; lia).
  change (load_bytes _ 6 2) with (Some (bytes16 flags)). cbn [fmap option_fmap option_map].
  by rewrite of_bytes16.
Qed.

Lemma header_pid : pkt_ld skb 12 4 = Some (u32 pid).
Proof.
  unfold skb, nlmsg_bytes, pkt_ld. rewrite load_app_l by (cbn; lia).
  change (load_bytes _ 12 4) with (Some (bytes32 pid)). cbn [fmap option_fmap option_map].
  by rewrite of_bytes32.
Qed.

Lemma header_length : length skb = (16 + length payload)%nat.
Proof. done. Qed.

Lemma header_payload : drop 16 skb = payload.
Proof. done. Qed.
End header.

(** A message of a process that may talk to the module is handled, and
    acknowledged with its status. *)
Definition acked (pid c : Z) (w : kworld) : kworld :=
  w <| k_out ::= cons (KEvAck pid (if c <? 0 then c else 0)) |>.

Definition may_talk (pid : Z) (w : kworld) : Prop := peer_pid w = 0 ∨ peer_pid w = pid.

(** What the daemon's messages have in common. *)
Definition daemon_msg (m : nl_msg) : Prop :=
  nl_flags m = Z.lor NLM_F_REQUEST NLM_F_ACK ∧ 0 ≤ nl_type m < 256.

Lemma kwp_datagram pid m (Q : kworld → Prop) w :
  0 < pid < 2 ^ 31 → daemon_msg m → may_talk pid w →
  kwp (kaodv_netlink_receive_peer (nl_type m) (rt_msg_bytes (rt_msg m)) sizeof_rt_msg)
    (λ c w', Q (acked pid c w')) (w <| peer_pid := pid |>) →
  kwp (kaodv_netlink_rcv_skb (datagram pid m)) (λ _, Q) w.
Proof.
  intros Hpid [Hfl Ht] Hpeer H. unfold kaodv_netlink_rcv_skb, datagram.
  rewrite header_length. change (length (rt_msg_bytes _)) with 28%nat. cbn [Nat.add].
  change (u32 (Z.of_nat 44) <? sizeof_nlmsghdr) with false. cbv iota zeta.
  eapply kwp_some; [apply header_len|]. change (u32 (NLMSG_LENGTH sizeof_rt_msg)) with 44.
  change ((u32 (s32 44) <? sizeof_nlmsghdr) || (Z.of_nat 44 <? s32 44)) with false. cbv iota.
  eapply kwp_some; [apply header_pid|]. rewrite s32_u32, s32_small by lia.
  eapply kwp_some; [apply header_flags|]. rewrite Hfl.
  rewrite (proj2 (Z.leb_gt _ _)) by lia.
  change (u16 (Z.lor NLM_F_REQUEST NLM_F_ACK)) with 5. cbn [orb].
  change (Z.land 5 NLM_F_REQUEST =? 0) with false. change (Z.land 5 NLM_F_MULTI =? 0) with true.
  change (Z.land 5 MSG_TRUNC =? 0) with true. cbn [orb negb].
  eapply kwp_some; [apply header_type|]. rewrite u16_small, u8_small by lia.
  apply kwp_locked_bind. cbn [kgets fst snd].
  replace (negb (peer_pid w =? 0) && negb (peer_pid w =? pid)) with false
    by (destruct Hpeer as [-> | ->]; rewrite ?Z.eqb_refl; by rewrite ?andb_false_r).
  apply kwp_bind. apply (kwp_wand _ (λ _ w', w' = w <| peer_pid := pid |>)).
  { unfold pwhen. case_match; bool_prop; [by apply kwp_locked|].
    apply kwp_ret. destruct Hpeer as [?|<-]; [done|by destruct w]. }
  intros _ w1 ->. rewrite header_payload. apply kwp_bind.
  change (Z.of_nat 44 - NLMSG_LENGTH 0) with sizeof_rt_msg.
  eapply kwp_wand; [exact H|]. cbv beta. unfold acked. intros c w2 HQ.
  change (negb (Z.land 5 NLM_F_ACK =? 0)) with true. cbn [pwhen].
  destruct (c <? 0); by apply kwp_locked.
Qed.

(** ** What the daemon sends *)

(** The socket for the module works. *)
Definition socket_ok (w : world) : Prop := e_sys (w_env w) (w_tick w) = true.

(** Exactly the message [m] for the module is sent between [w] and [w']. *)
Definition sends (m : nl_msg) (w w' : world) : Prop :=
  daemon_msg m ∧ ∃ evs, out w' = evs ++ out w ∧ ∀ pid, datagrams pid evs = [datagram pid m].

Lemma datagrams_one pid evs m :
  datagrams pid evs = [] → datagrams pid (evs ++ [EvNl m]) = [datagram pid m].
Proof. unfold datagrams. intros H. rewrite rev_app_distr. change (rev [EvNl m]) with [EvNl m].
  cbn [app omap list_omap]. by rewrite H.
Qed.

(** [nl_send] on the module's socket, when it works. *)
Lemma nl_send_run (n : Z → event) w :
  socket_ok w →
  ∃ seq w', nl_send (Some aodvnl) n w = Ok 0 w' ∧ out w' = n seq :: out w.
Proof.
  intros Hok. unfold nl_send, bump_seqno, syscall, tick, gets, modify, emit, mbind, M_bind, mret, M_ret.
  unfold socket_ok in Hok. cbn. rewrite Hok. by eexists _, _.
Qed.

Lemma nl_kernel_route_run action flags family index dest gw metric w :
  ∃ r w' evs, nl_kernel_route action flags family index (Some dest) (Some gw) None metric w = Ok r w' ∧
    out w' = evs ++ out w ∧ ∀ pid, datagrams pid evs = [].
Proof.
  unfold nl_kernel_route, nl_send, bump_seqno, syscall, tick, gets, modify, emit, mbind, M_bind, mret, M_ret.
  cbn. destruct (e_sys _ _); cbn.
  - eexists _, _, [_]. done.
  - by eexists _, _, [].
Qed.

Lemma sends_then_route m w w1 w2 evs :
  daemon_msg m → out w1 = EvNl m :: out w → out w2 = evs ++ out w1 →
  (∀ pid, datagrams pid evs = []) → sends m w w2.
Proof.
  intros Hm H1 H2 Hno. split; [done|]. exists (evs ++ [EvNl m]).
  split; [by rewrite H2, H1, <-(assoc_L (++))|]. intros pid. by apply datagrams_one.
Qed.

(** The flags of an entry of the daemon's table, as the module has them. *)
Definition module_flags (rt_flags : Z) : Z :=
  let mflags := if flag rt_flags RT_INET_DEST then KAODV_RT_GW_ENCAP else 0 in
  if flag rt_flags RT_REPAIR then Z.lor mflags KAODV_RT_REPAIR else mflags.

Lemma add_route_sends dest nh metric lifetime flags ifindex w :
  socket_ok w →
  ∃ r w' seq, nl_send_add_route_msg dest nh metric lifetime flags ifindex w = Ok r w' ∧
    sends (NlMsg KAODVM_ADDROUTE seq (Z.lor NLM_F_REQUEST NLM_F_ACK) dest nh (module_flags flags)
             ifindex (s32 lifetime)) w w'.
Proof.
  intros Hok. unfold nl_send_add_route_msg. fold (module_flags flags).
  set (n := λ seq, EvNl _). destruct (nl_send_run n w Hok) as (seq & w1 & Hrun & Hout).
  destruct (nl_kernel_route_run RTM_NEWROUTE NLM_F_CREATE AF_INET ifindex dest nh metric w1)
    as (r & w2 & evs & Hrun2 & Hout2 & Hno).
  exists r, w2, seq. split; [by rewrite (bind_run _ _ _ _ _ Hrun)|].
  by eapply sends_then_route.
Qed.

Lemma del_route_sends dest nh metric w :
  socket_ok w →
  ∃ r w' seq, nl_send_del_route_msg dest nh metric w = Ok r w' ∧
    sends (NlMsg KAODVM_DELROUTE seq (Z.lor NLM_F_REQUEST NLM_F_ACK) dest nh 0 0 0) w w'.
Proof.
  intros Hok. unfold nl_send_del_route_msg.
  set (n := λ seq, EvNl _). destruct (nl_send_run n w Hok) as (seq & w1 & Hrun & Hout).
  destruct (nl_kernel_route_run RTM_DELROUTE 0 AF_INET (-1) dest nh metric w1)
    as (r & w2 & evs & Hrun2 & Hout2 & Hno).
  exists r, w2, seq. split; [by rewrite (bind_run _ _ _ _ _ Hrun)|].
  by eapply sends_then_route.
Qed.

Lemma no_route_found_sends dest w :
  socket_ok w →
  ∃ r w' seq, nl_send_no_route_found_msg dest w = Ok r w' ∧
    sends (NlMsg KAODVM_NOROUTE_FOUND seq (Z.lor NLM_F_REQUEST NLM_F_ACK) dest 0 0 0 0) w w'.
Proof.
  intros Hok. unfold nl_send_no_route_found_msg.
  set (n := λ seq, EvNl _). destruct (nl_send_run n w Hok) as (seq & w1 & Hrun & Hout).
  exists 0, w1, seq. split; [done|]. by apply (sends_then_route _ w w1 w1 []).
Qed.

(** Delivering a single message. *)
Lemma kwp_deliver pid m w w' (Q : kworld → Prop) kw :
  sends m w w' → 0 < pid < 2 ^ 31 → may_talk pid kw →
  kwp (kaodv_netlink_receive_peer (nl_type m) (rt_msg_bytes (rt_msg m)) sizeof_rt_msg)
    (λ c kw', Q (acked pid c kw')) (kw <| peer_pid := pid |>) →
  ∃ evs, out w' = evs ++ out w ∧ kwp (deliver pid evs) (λ _, Q) kw.
Proof.
  intros [Hm (evs & Hout & Hd)] Hpid Hpeer H. exists evs. split; [done|].
  unfold deliver. rewrite Hd. cbn [pfor_each]. apply kwp_bind.
  eapply kwp_wand; [by apply kwp_datagram|]. intros u kw' HQ. by apply kwp_ret.
Qed.

(** ** What the module makes of it *)

Lemma flag_module_flags f :
  negb (Z.land (u16 (u8 (module_flags f))) KAODV_RT_REPAIR =? 0) = flag f RT_REPAIR ∧
  negb (Z.land (u16 (u8 (module_flags f))) KAODV_RT_GW_ENCAP =? 0) = flag f RT_INET_DEST.
Proof. unfold module_flags. by destruct (flag f RT_INET_DEST), (flag f RT_REPAIR). Qed.

Lemma module_flags_range f : 0 ≤ module_flags f < 256.
Proof. unfold module_flags. destruct (flag f RT_INET_DEST), (flag f RT_REPAIR); done. Qed.

Lemma u8_module_flags f : u8 (module_flags f) = module_flags f.
Proof. apply u8_small, module_flags_range. Qed.

Lemma kinv_peer pid w : kinv w → kinv (w <| peer_pid := pid |>).
Proof. intros. by apply (kinv_same w). Qed.

Lemma kinv_acked pid c w : kinv w → kinv (acked pid c w).
Proof. intros. by apply (kinv_same w). Qed.

Lemma rt_msg_of_rt_msg m : rt_msg_ok m → rt_msg_of (rt_msg_bytes m) = Some m.
Proof. intros. rewrite <-(app_nil_r (rt_msg_bytes m)). by apply rt_msg_of_bytes. Qed.

(** An entry of the cache that says what the daemon's table does. *)
Definition mirrors (nh ifindex rt_flags : Z) (e : expl_entry) : Prop :=
  ex_nhop e = nh ∧ ex_ifindex e = ifindex ∧
  has_flag e KAODV_RT_REPAIR = flag rt_flags RT_REPAIR ∧
  has_flag e KAODV_RT_GW_ENCAP = flag rt_flags RT_INET_DEST.

Lemma mirrors_announced env j dest nh time flags ifindex :
  - 2 ^ 31 ≤ ifindex < 2 ^ 31 →
  mirrors nh ifindex flags (announced_entry env j dest nh time (module_flags flags) ifindex).
Proof.
  intros. destruct (flag_module_flags flags) as [H1 H2]. rewrite u8_module_flags in *.
  split_and!; [done|by apply s32_small|exact H1|exact H2].
Qed.

(** ** Properties of the two together *)



(** ** From the module to the daemon *)

(** The packet the module queues for want of a route. *)
Definition request_route (skb : sk_buff) (okfn : nat) (daddr : Z) : prog Z :=
  queued ← kaodv_queue_check daddr;
  pwhen (queued =? 0) (kaodv_netlink_send_rt_msg KAODVM_ROUTE_REQ 0 daddr);;
  _ ← kaodv_queue_enqueue_packet skb okfn;
  mret NF_STOLEN.

Lemma kwp_hook_no_route skb in_dev i okfn saddr daddr ifaddr Q w :
  unicast_on (skb_data skb) i saddr daddr ifaddr w → expl_map w !! daddr = None →
  kwp (request_route skb okfn daddr) Q w →
  kwp (kaodv_hook NF_INET_LOCAL_OUT skb in_dev (Some i) okfn) Q w.
Proof.
  intros (Ha & Hs & Hd & bcaddr & Hifi & Hb1 & Hb2 & Hb3) Hno H.
  unfold kaodv_hook. rewrite Ha. change (Ret false ≫= ?f) with (f false). cbv beta.
  eapply kwp_some; [exact Hs|]. eapply kwp_some; [exact Hd|]. cbv iota.
  eapply kwp_some; [done|]. eapply run_get_bind; [exact Hifi|]. cbv iota beta.
  rewrite (proj2 (Z.eqb_neq _ _) Hb1), Hb2, (proj2 (Z.eqb_neq _ _) Hb3). cbn [orb].
  change (NF_INET_LOCAL_OUT =? NF_INET_PRE_ROUTING) with false.
  change (NF_INET_LOCAL_OUT =? NF_INET_LOCAL_OUT) with true. cbv iota zeta.
  apply kwp_expl_get_bind. by rewrite Hno.
Qed.

Lemma pkts_for_scan d l :
  match queue_scan (Some dest_cmp) d l with None => pkts_for d l = [] | Some _ => pkts_for d l ≠ [] end.
Proof.
  destruct (queue_scan _ d l) as [i|] eqn:E.
  - apply queue_scan_Some in E as (q & l1 & l2 & -> & _ & Hq & _). unfold dest_cmp in Hq. bool_prop.
    intros H. assert (q ∈ pkts_for d (l1 ++ q :: l2)) as Hin.
    { apply list_elem_of_filter. split; [done|]. apply elem_of_app. right. left. }
    rewrite H in Hin. by apply not_elem_of_nil in Hin.
  - apply queue_scan_None in E. rewrite Forall_forall in E. apply filter_none.
    intros q Hq Heq. specialize (E q Hq). unfold dest_cmp in E. bool_prop. congruence.
Qed.

Lemma kaodv_queue_check_run d w :
  run (kaodv_queue_check d) w
  = Some (if decide (pkts_for d (queue_list w) = []) then 0 else 1, w).
Proof.
  unfold kaodv_queue_check, locked, __kaodv_queue_check_entry, mbind, KM_bind, kgets. cbn.
  pose proof (pkts_for_scan d (queue_list w)) as H.
  destruct (queue_scan _ d _); [by rewrite decide_False|by rewrite decide_True].
Qed.

(** The message that asks the daemon for a route. *)
Definition request_msg (daddr : Z) : list Z := rt_msg_bytes (KRtMsg 0 0 daddr 0 0 0 0).

Lemma request_msg_read daddr :
  0 ≤ daddr < 2 ^ 32 →
  kmsg_of KAODVM_ROUTE_REQ (request_msg daddr) = Some (KMsg KAODVM_ROUTE_REQ 0 daddr).
Proof.
  intros. unfold kmsg_of, request_msg.
  rewrite rt_msg_of_rt_msg; [done|]. unfold rt_msg_ok. cbn. lia.
Qed.

Lemma kwp_request_route skb okfn daddr w :
  readable skb → kinv w → ke_ok (k_env w) (k_tick w) = true →
  kwp (request_route skb okfn daddr) (λ v w',
    v = NF_STOLEN ∧ queued_or_lost skb okfn w w' ∧
    k_out w' = (if decide (pkts_for daddr (queue_list w) = [])
                then [KEvNl KAODVM_ROUTE_REQ (request_msg daddr)] else []) ++ k_out w) w.
Proof.
  intros Hr Hinv Hok. unfold request_route. apply kwp_bind.
  eapply kwp_run; [apply kaodv_queue_check_run|]. cbv beta.
  destruct (readable_fields skb Hr) as (saddr & daddr' & tos & aodv & Hs & Hd & Ht & _).
  assert (∀ w1 l, kinv w1 → hook_frame w w1 → k_out w1 = l ++ k_out w →
    kwp (_ ← kaodv_queue_enqueue_packet skb okfn; mret NF_STOLEN)
      (λ v w', v = NF_STOLEN ∧ queued_or_lost skb okfn w w' ∧ k_out w' = l ++ k_out w) w1) as Henq.
  { intros w1 l Hinv1 H1 Hout1.
    pose proof (kwp_enqueue skb okfn w w1 Hr Hinv1 H1) as H. unfold kwp in *.
    destruct (kaodv_queue_enqueue_run skb okfn tos daddr' saddr w1 (ki_queue w1 Hinv1) Ht Hd Hs)
      as (c & w2 & Hrun & Hcase).
    rewrite run_bind, Hrun in *. cbn in *. destruct H as [? ?]. split_and!; [done..|].
    by destruct Hcase as [(_ & _ & _ & ->)|(_ & _ & ->)]. }
  apply kwp_bind. destruct (decide (pkts_for daddr (queue_list w) = [])) as [Hq|Hq]; cbn [Z.eqb pwhen].
  - apply kwp_bind, kwp_locked_bind. cbn [kcall ktick fst snd]. rewrite Hok. apply kwp_ret.
    apply kwp_locked. apply Henq; [|etrans; [apply frame_tick|apply frame_message]|done].
    by apply (kinv_same w).
  - apply kwp_ret. by apply (Henq w []).
Qed.

Lemma of_bytes_range l :
  Forall (λ b, 0 ≤ b < 256) l → 0 ≤ of_bytes l < 256 ^ Z.of_nat (length l).
Proof.
  induction 1 as [|b l Hb _ IH]; [done|]. cbn [of_bytes length].
  rewrite Nat2Z.inj_succ, Z.pow_succ_r by lia. lia.
Qed.

Lemma ip_daddr_range hl d a : ip_packet hl d → ip_daddr d = Some a → 0 ≤ a < 2 ^ 32.
Proof.
  intros (_ & _ & Hb) (l & Hl & ->)%fmap_Some. unfold load_bytes in Hl.
  case_match; [|done]. injection Hl as <-. change (2 ^ 32) with (256 ^ Z.of_nat 4).
  set (l := take 4 _). pose proof (of_bytes_range l) as H1. destruct H1 as [H1 H2].
  { by apply Forall_take, Forall_drop. }
  split; [done|]. eapply Z.lt_le_trans; [exact H2|]. apply Z.pow_le_mono_r; [lia|].
  unfold l. rewrite length_take. lia.
Qed.


(** ** The packets that waited *)

(** Announcing a route that needs no encapsulation, when memory suffices. *)
Lemma receive_addroute_sends m w :
  kinv w → rt_msg_ok m → expl_len w ≤ EXPL_MAX_LEN → ke_ok (k_env w) (k_tick w) = true →
  Z.land (u16 (km_flags m)) KAODV_RT_GW_ENCAP = 0 →
  kwp (kaodv_netlink_receive_peer KAODVM_ADDROUTE (rt_msg_bytes m) sizeof_rt_msg) (λ c w',
    0 ≤ c ∧ k_out w' = rev (pkts_for (km_dest m) (queue_list w) ≫= send_events) ++ k_out w) w.
Proof.
  intros Hinv Hm Hlen Hok Henc. unfold kaodv_netlink_receive_peer. rewrite Z.eqb_refl.
  change (sizeof_rt_msg <? sizeof_rt_msg) with false. cbv iota.
  eapply kwp_some; [by apply rt_msg_of_rt_msg|].
  pose proof (kwp_announce (km_dest m) (km_nhop m) (km_time m) (km_flags m) (km_ifindex m) w Hinv) as H.
  apply kwp_expl_get_bind. unfold kwp at 1 in H. rewrite run_bind, kaodv_expl_get_run in H.
  cbn [mbind option_bind] in H. apply kwp_bind. eapply kwp_wand; [exact H|]. cbv beta.
  intros c w1 (Hinv1 & Ho & _ & Hout).
  destruct (Hout Hlen) as [(_ & Hko & _)|(Hc & j & Hmap)]; [congruence|].
  pose proof (ki_queue w1 Hinv1) as Hq1. pose proof Hq1 as [Ht1 Hmx]. unfold queue_maxlen in Hmx.
  pose proof (verdict_send_run verdict_fuel (km_dest m) 0 w1 Hq1
    ltac:(unfold verdict_fuel; lia) ltac:(lia) ltac:(lia)) as Hsend. cbv zeta in Hsend.
  rewrite Hmap, lookup_insert_eq in Hsend. apply kwp_bind.
  eapply kwp_run; [exact (Hsend Henc)|]. cbv beta. apply kwp_ret. split; [done|].
  destruct Ho as (h & n & k & ->). done.
Qed.

