(* ===== verification/KSamples.v ===== *)
(** * A sample state of the kernel module, and the witnesses of its properties

    A host 10.0.0.1 with a route to 10.0.0.8, one to 10.0.0.7 under repair,
    and packets for 10.0.0.8 and 10.0.0.9 in the queue. *)

From S2P Require Import Samples Bridge.

(** ** The sample state *)

(** [ip_send_check]: the Internet checksum of the header. *)
Definition sample_check (l : list Z) : list Z :=
  take 10 l ++ bytes16 (default 0 (ip_csum (take 10 l ++ [0; 0] ++ drop 12 l) 0 10)) ++ drop 12 l.

Definition sample_kenv : kenv :=
  KEnv (λ n, 1000 + Z.of_nat n) (λ _, true) (λ _, 0) 100 [] sample_check (λ l, l).

(** A packet from 10.0.0.1 to 10.0.0.[n], with four bytes of data. *)
Definition sample_packet (n : Z) : sk_buff :=
  Skb (sample_check ([0x45; 0; 0; 24; 0; 7; 0; 0; 64; 1; 0; 0; 10; 0; 0; 1; 10; 0; 0; n] ++ [1; 2; 3; 4]))
    true.

Definition sample_q (n : Z) : kaodv_queue_entry := QEntry (sample_packet n) 5 0 (ip n) (ip 1).

Definition sample_x8 : expl_entry := Expl 1500 0 (ip 8) (ip 2) 2.
Definition sample_x7 : expl_entry := Expl 1600 KAODV_RT_REPAIR (ip 7) (ip 2) 2.

Definition sample_kw : kworld :=
  KWorld sample_kenv 0 [sample_x8; sample_x7] 2 [sample_q 9; sample_q 8] 2 (0, 1024) 0 9000
    [IfInfo (ip 1) (ip 255) 2] [2] [] [].

Lemma sample_check_ok : send_check_ok sample_check.
Proof.
  intros l r Hl.
  assert (∀ c0 c1, sample_check (l ++ c0 :: c1 :: r)
    = l ++ bytes16 (default 0 (ip_csum (l ++ [0; 0] ++ r) 0 10)) ++ r) as H.
  { intros c0 c1. unfold sample_check. rewrite take_app_length', (drop_app_ge l) by lia.
    rewrite Hl. reflexivity. }
  eexists _, _. exact H.
Qed.

Lemma sample_expl_ok : expl_ok sample_kw.
Proof.
  split.
  - repeat constructor; vm_compute; congruence.
  - change (NoDup [ip 8; ip 7]). apply (bool_decide_unpack _). vm_compute. exact I.
Qed.

Lemma sample_queue_ok : queue_ok sample_kw.
Proof. by vm_compute. Qed.

Lemma sample_ip9 : ip_packet 20 (skb_data (sample_packet 9)).
Proof.
  split; [reflexivity|]. split; [vm_compute; split; discriminate|].
  apply (bool_decide_unpack _). vm_compute. exact I.
Qed.

Lemma sample_ip8 : ip_packet 20 (skb_data (sample_packet 8)).
Proof.
  split; [reflexivity|]. split; [vm_compute; split; discriminate|].
  apply (bool_decide_unpack _). vm_compute. exact I.
Qed.

Lemma sample_kinv : kinv sample_kw.
Proof.
  constructor; [apply sample_check_ok|apply sample_expl_ok|apply sample_queue_ok|].
  repeat constructor; exists 20; [apply sample_ip9|apply sample_ip8].
Qed.

(** A packet that is not UDP can be read whatever follows its header. *)
Lemma readable_not_udp skb hl p :
  ip_packet hl (skb_data skb) → ip_protocol (skb_data skb) = Some p → p ≠ IPPROTO_UDP → readable skb.
Proof. intros H Hp Hne. exists hl. split; [done|]. rewrite Hp. by intros [= ->]. Qed.

Lemma sample_readable9 : readable (sample_packet 9).
Proof. by apply (readable_not_udp _ 20 1); [apply sample_ip9|..]. Qed.

(** The packet to 10.0.0.9 leaves, or is forwarded, on the interface 2. *)
Lemma sample_unicast9 : unicast_on (skb_data (sample_packet 9)) 2 (ip 1) (ip 9) (ip 1) sample_kw.
Proof. repeat split. exists (ip 255). by vm_compute. Qed.

(** 10.0.0.9 is announced through 10.0.0.2. *)
Definition sample_msg : kaodv_rt_msg := KRtMsg 0 0 (ip 9) (ip 2) 0 2 9000.

Lemma sample_msg_ok : rt_msg_ok sample_msg.
Proof. repeat split; by vm_compute. Qed.

(** ** The route cache *)

Lemma kaodv_expl_add_spec_witness :
  kwp (kaodv_expl_add (ip 9) (ip 2) 9000 0 2) (λ c w', c = 1 ∧ is_Some (expl_map w' !! ip 9)) sample_kw.
Proof.
  eapply kwp_wand; [apply (kaodv_expl_add_spec (ip 9) (ip 2) 9000 0 2 sample_kw sample_expl_ok)|].
  intros c w' (_ & _ & H). destruct H as [(_ & H & _)|(_ & -> & j & ->)]; [discriminate H|].
  split; [reflexivity|]. rewrite lookup_insert_eq. by eexists.
Defined.

Lemma kaodv_expl_update_spec_witness :
  kwp (kaodv_expl_update (ip 8) (ip 3) 9000 0 2)
    (λ c w', c = 0 ∧ ex_nhop <$> expl_map w' !! ip 8 = Some (ip 3)) sample_kw.
Proof.
  eapply kwp_wand; [apply (kaodv_expl_update_spec (ip 8) (ip 3) 9000 0 2 sample_kw sample_expl_ok)|].
  intros c w' (_ & _ & -> & _ & j & ->). split; [reflexivity|]. by rewrite lookup_insert_eq.
Defined.

Lemma kaodv_expl_del_spec_witness :
  kwp (kaodv_expl_del (ip 8)) (λ c w', c = 1 ∧ expl_map w' !! ip 8 = None) sample_kw.
Proof.
  eapply kwp_wand; [apply (proj1 (kaodv_expl_del_spec (ip 8) sample_kw sample_expl_ok))|].
  intros c w' (_ & _ & -> & -> & _). split; [reflexivity|]. by rewrite lookup_delete_eq.
Defined.

(** A cache that is full, with 1025 refusals. *)
Definition full_kw : kworld :=
  sample_kw <| expl_head := replicate 1025 sample_x8 |> <| expl_len := 1025 |>.

Lemma full_none : expl_map full_kw !! ip 9 = None.
Proof.
  apply expl_map_None. unfold expl_daddrs, full_kw. cbn [expl_head].
  change (expl_head _) with (replicate 1025 sample_x8). rewrite fmap_replicate.
  intros [H _]%elem_of_replicate. vm_compute in H. discriminate H.
Qed.


(** ** Encapsulation *)



(** ** The queue *)

Lemma kaodv_queue_drop_spec_witness :
  run (kaodv_queue_set_verdict KAODV_QUEUE_DROP (ip 9)) sample_kw
  = Some (1, sample_kw <| queue_list := [sample_q 8] |> <| queue_total := 1 |>
               <| k_out := [KEvFree (sample_packet 9); KEvIcmp (sample_packet 9)] |>).
Proof. rewrite (kaodv_queue_drop_spec (ip 9) sample_kw sample_queue_ok). reflexivity. Defined.

Lemma kaodv_queue_send_spec_witness :
  run (kaodv_queue_set_verdict KAODV_QUEUE_SEND (ip 8)) sample_kw
  = Some (1, sample_kw <| queue_list := [sample_q 9] |> <| queue_total := 1 |>
               <| k_out := [KEvOkfn 5 (sample_packet 8); KEvRoute (sample_packet 8)] |>).
Proof.
  pose proof (kaodv_queue_send_spec (ip 8) sample_kw sample_queue_ok) as H.
  assert (expl_map sample_kw !! ip 8 = Some sample_x8) as Hx by reflexivity.
  rewrite Hx in H. rewrite (H eq_refl). reflexivity.
Defined.

Lemma kaodv_queue_flush_spec_witness :
  run kaodv_queue_flush sample_kw
  = Some (tt, sample_kw <| queue_list := [] |> <| queue_total := 0 |>
                <| k_out := [KEvFree (sample_packet 8); KEvFree (sample_packet 9)] |>).
Proof. rewrite (kaodv_queue_flush_spec sample_kw sample_queue_ok). reflexivity. Defined.

(** ** The netlink interface *)

Lemma kaodv_netlink_addroute_spec_witness :
  kwp (kaodv_netlink_receive_peer KAODVM_ADDROUTE (rt_msg_bytes sample_msg) sizeof_rt_msg)
    (λ c w', 0 ≤ c ∧ ex_nhop <$> expl_map w' !! ip 9 = Some (ip 2) ∧ queue_list w' = [sample_q 8])
    sample_kw.
Proof.
  eapply kwp_wand; [apply (kaodv_netlink_addroute_spec sample_msg sample_kw sample_kinv sample_msg_ok)|].
  - vm_compute. discriminate.
  - intros c w' (_ & Hq & [(_ & Hko & _)|(Hc & j & ->)]); [discriminate Hko|].
    split; [exact Hc|]. split; [by rewrite lookup_insert_eq|]. by rewrite Hq.
Defined.

Lemma kaodv_netlink_drop_spec_witness :
  kwp (kaodv_netlink_receive_peer KAODVM_NOROUTE_FOUND (rt_msg_bytes sample_msg) sizeof_rt_msg)
    (λ c w', c = 0 ∧ queue_list w' = [sample_q 8]) sample_kw.
Proof.
  eapply kwp_wand; [apply (kaodv_netlink_drop_spec KAODVM_NOROUTE_FOUND sample_msg sample_kw sample_kinv
    (or_intror eq_refl) sample_msg_ok)|].
  intros c w' (-> & _ & Hq & _). split; [reflexivity|]. by rewrite Hq.
Defined.

Lemma kaodv_netlink_rcv_safe_witness :
  kwp (kaodv_netlink_rcv_skb (replicate 15 255)) (λ _, kinv) sample_kw.
Proof. exact (kaodv_netlink_rcv_safe (replicate 15 255) sample_kw sample_kinv eq_refl). Defined.

(** ** The hook *)




Lemma kaodv_hook_bypass_witness :
  kwp (kaodv_hook NF_INET_LOCAL_OUT (sample_packet 9) None (Some 3) 5) (λ v _, v = NF_ACCEPT) sample_kw.
Proof.
  eapply kwp_wand; [apply (kaodv_hook_bypass NF_INET_LOCAL_OUT (sample_packet 9) None (Some 3) 5 3 false
    (ip 9) sample_kw sample_kinv sample_readable9)|].
  - reflexivity.
  - reflexivity.
  - reflexivity.
  - right. right. right. reflexivity.
  - intros v w' H. exact (proj1 H).
Defined.

Lemma kaodv_init_spec_witness :
  kwp kaodv_init (λ r w', k_res w' = if r <? 0 then [R_expl_proc]
    else [R_hook 2; R_hook 1; R_hook 0; R_nlsock; R_notifier; R_queue_proc; R_expl_proc])
    (sample_kw <| queue_list := [] |> <| queue_total := 0 |>).
Proof. exact (kaodv_init_spec (sample_kw <| queue_list := [] |> <| queue_total := 0 |>) eq_refl eq_refl). Defined.

(** ** Concurrency *)

Definition sample_hook : prog unit :=
  as_thread (kaodv_hook NF_INET_LOCAL_OUT (sample_packet 9) None (Some 2) 5).

(** The daemon (port 77) announces 10.0.0.9. *)
Definition sample_datagram : list Z :=
  datagram 77 (NlMsg KAODVM_ADDROUTE 1 5 (ip 9) (ip 2) 0 2 9000).

Lemma sample_rcv_run : ∃ w', run (kaodv_netlink_rcv_skb sample_datagram) sample_kw = Some (tt, w').
Proof.
  destruct (kwp_ends _ _ _ (kwp_rcv_skb sample_datagram sample_kw sample_kinv eq_refl))
    as ([] & w' & H & _).
  exists w'. exact H.
Qed.

Lemma sample_rcv_all_run :
  ∃ w', run (pfor_each [sample_datagram] kaodv_netlink_rcv_skb) sample_kw = Some (tt, w').
Proof. destruct sample_rcv_run as [w' H]. exists w'. cbn [pfor_each]. rewrite run_bind, H. reflexivity. Qed.

Lemma kmod_interleaving_safe_witness :
  ∃ w', rtc kstep (sample_kw, [sample_hook; kaodv_netlink_rcv_skb sample_datagram])
          (w', [sample_hook; mret tt]) ∧ expl_sorted w' ∧ queue_ok w'.
Proof.
  destruct sample_rcv_run as [w' Hrun]. exists w'.
  pose proof (run_steps _ _ _ [sample_hook] [] Hrun) as Hst. split; [exact Hst|].
  refine (kmod_interleaving_safe _ _ _ _ _ Hst _).
  - repeat constructor.
  - split; [apply sample_expl_ok|apply sample_queue_ok].
Defined.

Lemma one_announcer_no_duplicates_witness :
  ∃ w', rtc kstep (sample_kw, [pfor_each [sample_datagram] kaodv_netlink_rcv_skb; sample_hook])
          (w', [mret tt; sample_hook]) ∧ NoDup (expl_daddrs w').
Proof.
  destruct sample_rcv_all_run as [w' Hrun]. exists w'.
  pose proof (run_steps _ _ _ [] [sample_hook] Hrun) as Hst. split; [exact Hst|].
  refine (one_announcer_no_duplicates _ _ _ _ _ _ Hst _).
  - repeat constructor.
  - apply sample_expl_ok.
Defined.

Lemma refresh_loses_announcement_witness :
  ∃ w1 p w2,
    rtc kstep (sample_kw, [refresh_expl (ip 8) 2; as_thread (kaodv_netlink_receive_peer KAODVM_ADDROUTE
      (rt_msg_bytes (KRtMsg 0 0 (ip 8) (ip 3) 0 2 9000)) sizeof_rt_msg)]) (w1, [p; mret tt]) ∧
    ex_nhop <$> expl_map w1 !! ip 8 = Some (ip 3) ∧
    rtc kstep (w1, [p; mret tt]) (w2, [mret tt; mret tt]) ∧
    ex_nhop <$> expl_map w2 !! ip 8 = Some (ip 2).
Proof.
  apply (refresh_loses_announcement sample_kw (ip 8) sample_x8 2 (KRtMsg 0 0 (ip 8) (ip 3) 0 2 9000) sample_kinv).
  - vm_compute. discriminate.
  - reflexivity.
  - repeat split; by vm_compute.
  - reflexivity.
Defined.

(** ** The daemon and the module *)




