(* ===== verification/SysWitnesses.v ===== *)
(** * Witnesses: the process, from start-up to shutdown, and the log *)

From S2P Require Import Samples Shutdown MainLoop Log.
From Stdlib Require Import Ascii.

(** ** A system *)

(** A new descriptor is above all numbers returned so far. *)
Definition next_fd (tr : trace) : Z := 3 + foldr (λ cr m, Z.max cr.2 m) 0 tr.

Lemma open_fds_bound tr fd : fd ∈ open_fds tr → fd < next_fd tr.
Proof.
  unfold next_fd. induction tr as [|[c r] tr IH]; [done|]. cbn [foldr snd].
  intros Hfd. assert (fd = r ∨ fd ∈ open_fds tr) as [->|Hin]; [|lia|specialize (IH Hin); lia].
  destruct c; cbn [open_fds opens andb] in Hfd; try destruct (0 <=? r); set_solver.
Qed.

(** Every call succeeds; the interface has index 2 and address 10.0.0.1/24. *)
Definition sample_senv : senv := SEnv
  (λ tr c, if opens c then next_fd tr else 0)
  (λ tr, match tr with
         | (CIoctl _ SIOCGIFINDEX _, _) :: _ => 2
         | (CIoctl _ SIOCGIFADDR _, _) :: _ => ip 1
         | (CIoctl _ SIOCGIFNETMASK _, _) :: _ => htonl 0xffffff00
         | (CIoctl _ SIOCGIFBRDADDR _, _) :: _ => ip 255
         | _ => 0
         end)
  ["lo"; "br-lan"]%string (λ _, EmptyString).

Lemma sample_fresh : fresh_fds sample_senv.
Proof.
  intros tr c Hc _. cbn [se_ret sample_senv]. rewrite Hc. intros H%open_fds_bound. lia.
Qed.

(** The process when it comes to its loop. *)
Definition sample_y : sys :=
  match main_start (initial_sys sample_senv sample_env) with
  | YOk _ y => y
  | _ => initial_sys sample_senv sample_env
  end.

Lemma sample_start : main_start (initial_sys sample_senv sample_env) = YOk tt sample_y.
Proof. vm_compute. reflexivity. Qed.

Lemma sample_attached : attached_all sample_y.
Proof. split; vm_compute; reflexivity. Qed.

(** A RREQ arrives on the AODV socket. *)
Definition sample_inputs : inputs :=
  Inputs (Some [y_sock sample_y]) None None (replicate 256 0)
    (Some (Packet sample_rreq (ip 2) AODV_BROADCAST 10)).

Definition sample_y1 : sys :=
  match main_loop_body sample_inputs sample_y with YOk _ y => y | _ => sample_y end.

Lemma sample_turn : main_loop_body sample_inputs sample_y = YOk tt sample_y1.
Proof. vm_compute. reflexivity. Qed.

Lemma sample_process : process sample_senv sample_env sample_y1.
Proof. eapply process_turn; [apply process_start, sample_start|apply sample_turn]. Qed.

Lemma main_start_spec_witness :
  ∃ y, main_start (initial_sys sample_senv sample_env) = YOk tt y ∧ started sample_env y.
Proof.
  pose proof (main_start_spec sample_senv sample_env sample_fresh) as H.
  rewrite sample_start in H. exists sample_y. split; [exact sample_start|exact H].
Defined.

Lemma main_loop_equiv_witness :
  ∃ w, main_iteration (ready_of sample_inputs sample_y) (y_world sample_y) = Ok tt w ∧
    main_loop_body sample_inputs sample_y = YOk tt (sample_y <| y_world := w |>) ∧
    rt_table_check (ip 3) w ≠ Ok None w.
Proof.
  assert (is_ready sample_inputs sample_y (y_rtnl sample_y) = false) as Hr by (vm_compute; reflexivity).
  pose proof (main_loop_equiv sample_inputs sample_y sample_attached) as H.
  rewrite Hr in H. specialize (H ltac:(discriminate)).
  assert (match main_iteration (ready_of sample_inputs sample_y) (y_world sample_y) with
          | Ok _ w => rt_table_check (ip 3) w ≠ Ok None w | Err _ => False end) as Hc
    by (vm_compute; discriminate).
  destruct (main_iteration _ _) as [[] w|]; [|destruct Hc]. exists w. split; [reflexivity|].
  split; [exact H|exact Hc].
Defined.

Lemma process_refines_daemon_witness :
  attached_all sample_y1 ∧ ∃ dev, reachable sample_env dev (y_world sample_y1) ∧
    Inv None (y_world sample_y1).
Proof. exact (process_refines_daemon sample_senv sample_env sample_y1 sample_fresh sample_process). Defined.

Lemma sample_y_env : y_env sample_y = sample_senv.
Proof. vm_compute. reflexivity. Qed.

Lemma sample_y_Inv : Inv None (y_world sample_y).
Proof.
  destruct (ywp_ok _ _ _ _ _ _ sample_start
    (main_start_wp (λ _ _, True) (λ _, I) sample_env sample_senv sample_fresh)) as (dev & Hd & _).
  assert (reachable sample_env dev (y_world sample_y)) as Hr by (by constructor).
  by apply reachable_loop_inv in Hr as [? _].
Qed.

(** The fields of the process that shutdown relies on. *)
Lemma sample_y_fields :
  dev_enabled (h_dev (this_host (y_world sample_y))) = 1 ∧
  rt_log_interval (cfg (y_world sample_y)) = 10000 ∧ y_ifname sample_y = "br-lan"%string ∧
  y_log_to_file sample_y = 1 ∧ y_log_file_fd sample_y = 3 ∧ y_log_rt_fd sample_y = 6.
Proof. vm_compute. tauto. Qed.

Lemma sample_running : running sample_y.
Proof.
  destruct sample_y_fields as (H1 & H2 & H3 & H4 & H5 & H6).
  split; [rewrite sample_y_env; exact sample_fresh|exact sample_y_Inv|..].
  - rewrite H1. discriminate.
  - rewrite H2. discriminate.
  - rewrite H3. reflexivity.
  - rewrite H4. discriminate.
  - rewrite H5. discriminate.
  - rewrite H6. discriminate.
Qed.


Lemma nl_rt_callback_ends_witness :
  nl_rt_callback (replicate 256 0) (Some [0; 0; 0; 0; 20; 0]) sample_w = Ok tt sample_w ∨
  nl_rt_callback (replicate 256 0) (Some [0; 0; 0; 0; 20; 0]) sample_w = Err (Fault OutOfBounds).
Proof.
  apply (nl_rt_callback_ends (replicate 256 0) (Some [0; 0; 0; 0; 20; 0]) sample_w). reflexivity.
Defined.

(** ** The log *)

Lemma ip_to_str_four_witness :
  ∃ p st5, string_at (ip_buf st5) p = Some "10.0.0.5"%string ∧ ring_ok st5.
Proof.
  destruct (ip_to_str_four (IpStatics (replicate 64 "000"%char) 16)
              (ip 1) (ip 2) (ip 3) (ip 4) (ip 5))
    as (p1 & p2 & p3 & p4 & st1 & st2 & st3 & st4 & st5 & _ & _ & _ & _ & _ & _ & _ & _ & _ & H & Hok).
  { split; [reflexivity|exists 1; split; [lia|reflexivity]]. }
  exists p1, st5. split; [exact H|exact Hok].
Defined.

Lemma alog_spec_witness :
  alog 0 1 5 LOG_NOTICE 0 "main" "Started" (TV 1000 0) (λ _, Tm 12 34 56) (λ _, EmptyString)
  = Some (Logged (Some ("[12:34:56.000] main: Started" +:+ nl)) (Some "main: Started"%string) false).
Proof.
  rewrite (alog_spec 0 1 5 LOG_NOTICE 0 "main" "Started" (TV 1000 0) (λ _, Tm 12 34 56)
             (λ _, EmptyString)).
  - vm_compute. reflexivity.
  - unfold time_ok. cbn. lia.
  - vm_compute. discriminate.
  - discriminate.
Defined.

Lemma print_rt_table_log_spec_witness :
  ∃ out w', print_rt_table_log (λ _, Tm 12 34 56) "br-lan" sample_w = Ok out w' ∧
    print_rt_table sample_w = Ok tt w'.
Proof.
  destruct (print_rt_table_log_spec (λ _, Tm 12 34 56) "br-lan" sample_w sample_Inv)
    as (out & rs & _ & H & _).
  - vm_compute. discriminate.
  - assert (e_clock (w_env sample_w) (w_tick sample_w) = TV 1000 27000) as ->
      by (vm_compute; reflexivity).
    unfold time_ok. cbn. lia.
  - evaluated H a w' E. destruct a. exists out, w'. split; [exact H|reflexivity].
Defined.

Lemma log_pkt_fields_fit_witness :
  ∃ lines, log_pkt_fields recv_buf sample_w = Ok lines sample_w ∧
    Forall (λ l, slen l < 247) lines.
Proof. exact (log_pkt_fields_fit None sample_w recv_buf sample_Inv). Defined.
